(* ===== verification/_CoqProject ===== *)
-Q . S2P
Prelude.v
RaftTypes.v
World.v
Quorum.v
Net.v
WriteSupp.v
Entry.v
Log.v
Election.v
Append.v
Leader.v
ClientReq.v
Apply.v
Server.v
Steps.v
PosixBackend.v
Sim.v
LogProps.v
VoteProps.v
ElectionProps.v
Cluster.v
CommitProps.v
RocksKeys.v
RocksBackend.v
RocksRecovery.v
RocksBulk.v
LogStore.v
PosixProps.v
RocksProps.v
RocksSim.v
StoreProps.v
FollowerProps.v
RecoveryProps.v
RcTypes.v
RaftClient.v
RcSpec.v
RcNetSpec.v
RcLife.v
RcInv.v
RcTimer.v
RcReplyInv.v
RcSubmit.v
RcNode.v
RcSim.v
RcPace.v
RcReply.v
ClientProps.v
UserId.v
MajorityRef.v
NetStart.v
ServerRun.v
ServerRunProps.v
ServerSim.v
SuppMem.v
Registry.v
RcRegistry.v
