(* ===== verification/Prelude.v ===== *)
(** * A verification of niova-raft

    The program is a library for replicated state machines: a Raft server
    ([src/raft_server.c]) over two storage backends, a flat file
    ([src/raft_server_backend_posix.c]) and RocksDB
    ([src/raft_server_backend_rocksdb.c]); a communication layer that servers and
    clients share ([src/raft_net.c]); and a client library ([src/raft_client.c]).
    The headers are [src/include/raft.h], [src/include/raft_net.h] and
    [src/include/raft_client.h].  Line numbers of the manifest are of these files.

    ** How the code is modelled

    - A handler is a function of the monad [M] below: it runs on a state, gives a
      value and a new state, or nothing, when an assertion or a FATAL log message
      ends the process.  The state of the server's handlers is [World.world]: the
      raft instance ([struct raft_instance] as a record, field by field), the
      backend's state, the application's state, the environment of the step
      (clocks, random numbers, fault injection, what the sockets accept) and the
      messages, timers and callbacks issued so far.  Definitions have the names of
      the C functions; a helper that has none stands for a loop or a branch of one.
    - Integers are [Z] in the range of their C type, and a conversion that can lose
      bits is written out ([u8], [u32], [u64], [s32], [s64]).  Structures written to
      disk are given as the bytes they have there.
    - Reading an array outside its bounds, using a freed request and dereferencing
      NULL have no outcome, like a failed assertion, so that a theorem that a
      function completes also says that none of them happens.
    - Loops are structural recursion or run on fuel.  Fuel is enough for
      [raft_server_become_candidate] (a prevote is followed by at most one
      candidacy; [become_candidate_fuel_enough] shows that more fuel changes
      nothing), for the scan of a RocksDB log for its extent (one turn per key and
      one more, [rocks_log_extent]), for the digits of 64-bit numbers (20 decimal,
      16 hexadecimal), and for the sender of the client
      ([client_sender_terminates]: one turn per queued request and one more).  The
      run loop of the server, the main loop and the waits for threads may really run
      for ever: they are given by the turns the environment lets them take.

    What is not in the repository is a parameter: [NiovaCore] (clocks, checksum,
    limits), [NiovaUtil] (uuids as text, other helpers), [NiovaIo] (iovecs),
    [RefTree] (the reference-counted tree), [RocksDB], [RecoveryEnv] (rsync and
    regular expressions), [NetExt] (every call of the communication layer during
    start-up and shutdown), [LregUtil], [ClientLregUtil] and [BinaryHist] (the
    registry).  The classes whose name ends in [Ok] state what the code relies on of
    them, and every theorem that needs one has a witness over a concrete instance:
    [Sim], [RocksSim], [RcSim], [ServerSim].

    ** The parts

    Server.  [RaftTypes] and [World]: data, state and the interfaces [Backend]
    ([struct raft_instance_backend]) and [StateMachine].  [Quorum]: majorities.
    [Net]: communication times, event pipes, sending.  [WriteSupp]: the key-values
    that go with a write, by value; [SuppMem]: the memory they own and who frees it.  [Entry] and [Log]:
    entries, newest headers, reading, writing, synchronising, start-up scan.
    [Election], [Append], [Leader]: the Raft roles.  [ClientReq]: requests and
    their coalescing into entries.  [Apply]: applying entries.  [Server]: timers,
    event pipes, the bodies of the sync and checkpoint threads, bulk recovery.
    [Steps]: the events of a running server ([run_event]) and reachability.
    [NetStart] and [ServerRun]: start-up, shutdown and [raft_server_instance_run],
    which brings them together.  [Registry]: what the registry reads and sets.

    Storage.  [PosixBackend] is the flat file.  [RocksKeys], [RocksBackend],
    [RocksRecovery], [RocksBulk] are the RocksDB backend: keys, log operations,
    checkpoints and recovery markers, the transfer and promotion of a database.
    Both give an instance of [Backend], through which [Log] calls them.

    Client.  [RcTypes] and [RaftClient]: requests from their submission to the
    callback, the send queue, retries, replies, the choice of a leader.
    [UserId]: the text of a user identifier.  [RcRegistry]: the registry.

    ** What is proved

    - Elections ([VoteProps], [ElectionProps], [Cluster]).  The persistent term
      never decreases, a vote is recorded before it is given and given once a term;
      in a cluster over a network that loses, delays, duplicates and reorders
      messages two leaders of one term are one server, if vote replies are counted
      in the term they were given in.  Without that premise, which the code does not
      ensure, [stale_vote_reply_two_leaders] is a run that reaches two leaders.
    - The log of a server ([LogProps], [CommitProps], [MajorityRef],
      [FollowerProps]).  Applied, committed and synced indices stay in order; the
      commit index only grows; a leader commits what a majority holds.  What a
      follower does with AppendEntries is an operation on the abstract log, over any
      backend.  [committed_entry_replaced] is a run in which an entry committed in an
      earlier term is replaced.
    - Storage ([LogStore], [PosixProps], [RocksProps], [StoreProps]).  [LogStore] is
      the contract of a backend: a class of laws over an abstract log, which both
      backends satisfy; the server's reading, writing and AppendEntries are proved
      from the laws alone.  Beyond it: headers that survive a torn write, the extent
      and the reaping of a RocksDB log, the order of its keys.
    - Recovery ([RecoveryProps], [ServerRunProps]): scrubbing, checkpoints, an end to
      end bulk recovery, and why an interrupted one is not resumed.
    - The client ([RcSpec], [RcNetSpec], [RcLife], [RcInv], [RcTimer], [RcReplyInv],
      [RcSubmit], [RcNode], [RcPace], [RcReply], [ClientProps]).  [RcLife] is the state machine of a request
      and the invariant of the instance; every handler refines the machine and never
      aborts; from this follow exactly-once completion, timeouts, matching and
      delivery of replies, the rate limit, and the runs in which a request is lost.
    - Round trips: entries and headers as bytes, entry keys, user identifiers.

    ** Bounds

    The abstract logs are below [ls_limit]: 2^46 entries in the flat file, where
    offsets stay within 64 bits, and 10^16 in RocksDB, whose keys print 16 digits.
    The number of members of a cluster lies between [CTL_SVC_MIN_RAFT_PEERS] and
    [CTL_SVC_MAX_RAFT_PEERS], which niova-core defines and [NiovaCore] has as
    fields.

    ** What is not modelled

    - Interleavings inside a handler.  A handler runs under the lock of its instance
      or in the one thread that owns its data, and is one step; where the code gives
      the lock away (a submission, a read that registers against compaction) the
      model has two steps or takes the other thread's action as an argument.
    - Contents of histograms, log messages, and the installation of registry nodes:
      they belong to niova-core.
    - [src/contrib] is third-party code; [test], the scripts and the tools are not
      part of the system. *)
From stdpp Require Import base tactics list gmap sorting.
From Stdlib Require Import ZArith Lia.

Declare Scope raft_scope.
Delimit Scope raft_scope with raft.

(** ** Functional record update

    [r <| f := v |>] is the record [r] with field [f] replaced.  A record type
    opts in by giving its eta expansion; the setter of a field is derived from
    it. *)
Class Eta (R : Type) := eta : R -> R.
Class Setter {R T : Type} (proj : R -> T) := setter : (T -> T) -> R -> R.
Arguments setter {R T} proj {Setter} f r /.

Ltac derive_setter :=
  lazymatch goal with
  | |- @Setter ?R ?T ?proj =>
      let f := fresh "f" in
      let r := fresh "r" in
      refine (fun (f : T -> T) (r : R) => _);
      let e := eval hnf in (eta r) in
      lazymatch eval pattern (proj r) in e with
      | ?g _ => let b := eval cbv beta in (g (f (proj r))) in exact b
      end
  end.
#[export] Hint Extern 0 (Setter _) => derive_setter : typeclass_instances.

Notation "r <| p := v |>" := (setter p (fun _ => v) r)
  (at level 1, p at next level, v at level 200,
   format "r  <| p  :=  v |>") : raft_scope.
Notation "r <| p ::= f |>" := (setter p f r)
  (at level 1, p at next level, f at level 200,
   format "r  <| p  ::=  f |>") : raft_scope.
Open Scope raft_scope.
Open Scope Z_scope.

(** ** Machine integers

    Values keep the range of their C type; the conversions below are the
    wrap-around that C performs when a value is stored in a narrower or
    unsigned type. *)
Definition u8 (z : Z) : Z := z mod 2 ^ 8.
Definition u32 (z : Z) : Z := z mod 2 ^ 32.
Definition u64 (z : Z) : Z := z mod 2 ^ 64.

Lemma u32_small z : 0 <= z < 2 ^ 32 -> u32 z = z.
Proof. apply Z.mod_small. Qed.
Lemma u32_range z : 0 <= u32 z < 2 ^ 32.
Proof. apply Z.mod_pos_bound; lia. Qed.
Lemma u8_small z : 0 <= z < 2 ^ 8 -> u8 z = z.
Proof. apply Z.mod_small. Qed.
Lemma u8_range z : 0 <= u8 z < 2 ^ 8.
Proof. apply Z.mod_pos_bound; lia. Qed.
Lemma u64_small z : 0 <= z < 2 ^ 64 -> u64 z = z.
Proof. apply Z.mod_small. Qed.

(** The integers [lo .. hi-1], the index sequence of a C [for] loop. *)
Definition zrange (lo hi : Z) : list Z :=
  map (fun n => lo + Z.of_nat n) (seq 0 (Z.to_nat (hi - lo))).

Lemma elem_of_zrange x lo hi : x ∈ zrange lo hi <-> lo <= x < hi.
Proof.
  unfold zrange. rewrite list_elem_of_In, in_map_iff.
  setoid_rewrite in_seq. split.
  - intros (n & <- & ?). lia.
  - intros ?. exists (Z.to_nat (x - lo)). lia.
Qed.

Lemma zrange_nil lo hi : hi <= lo -> zrange lo hi = [].
Proof. intros. unfold zrange. by replace (Z.to_nat (hi - lo)) with 0%nat by lia. Qed.

Lemma zrange_cons lo hi : lo < hi -> zrange lo hi = lo :: zrange (lo + 1) hi.
Proof.
  intros. unfold zrange.
  replace (Z.to_nat (hi - lo)) with (S (Z.to_nat (hi - (lo + 1)))) by lia.
  simpl. f_equal; [lia|].
  rewrite <- seq_shift, map_map. apply map_ext. lia.
Qed.

Lemma length_zrange lo hi : length (zrange lo hi) = Z.to_nat (hi - lo).
Proof. unfold zrange. by rewrite length_map, length_seq. Qed.

(** Array access with a C index: reading out of the array has no value and
    writing out of it has no effect here; the code asserts its indices. *)
Definition znth {A} (l : list A) (i : Z) : option A :=
  if decide (0 <= i) then l !! Z.to_nat i else None.
Definition zupd {A} (l : list A) (i : Z) (x : A) : list A :=
  if decide (0 <= i) then <[Z.to_nat i := x]> l else l.

Lemma length_zupd {A} (l : list A) i x : length (zupd l i x) = length l.
Proof. unfold zupd. case_decide; [apply length_insert | done]. Qed.

Lemma znth_zupd_eq {A} (l : list A) i x :
  0 <= i < Z.of_nat (length l) -> znth (zupd l i x) i = Some x.
Proof.
  intros. unfold znth, zupd. rewrite !decide_True by lia.
  apply list_lookup_insert_eq. lia.
Qed.

Lemma znth_zupd_ne {A} (l : list A) i j x : i <> j -> znth (zupd l i x) j = znth l j.
Proof.
  intros. unfold znth, zupd. repeat case_decide; try done.
  apply list_lookup_insert_ne. lia.
Qed.

Lemma znth_is_Some {A} (l : list A) i :
  is_Some (znth l i) <-> 0 <= i < Z.of_nat (length l).
Proof.
  unfold znth. case_decide.
  - rewrite lookup_lt_is_Some. lia.
  - split; [by intros [] | lia].
Qed.

Lemma znth_app_last {A} (l : list A) x : znth (l ++ [x]) (Z.of_nat (length l)) = Some x.
Proof. unfold znth. rewrite decide_True, Nat2Z.id by lia. by apply list_lookup_middle. Qed.
Lemma znth_app_l {A} (l l' : list A) j :
  j < Z.of_nat (length l) -> znth (l ++ l') j = znth l j.
Proof. intros. unfold znth. case_decide; [|done]. apply lookup_app_l. lia. Qed.

(** The positions below [n] that hold [y] are as many as the [y]s in the first
    [n] elements. *)
Lemma length_filter_map_S (P Q : nat -> Prop) `{forall x, Decision (P x)}
    `{forall x, Decision (Q x)} l :
  (forall i, P (S i) <-> Q i) ->
  length (filter P (map S l)) = length (filter Q l).
Proof.
  intros HPQ. induction l as [|i l IH]; [done|]. simpl. rewrite !filter_cons.
  specialize (HPQ i). case_decide; case_decide; simpl; rewrite ?IH; tauto.
Qed.

Lemma length_filter_index {T} `{EqDecision T} (y : T) l n :
  length (filter (fun x => x = y) (take n l)) =
  length (filter (fun i => l !! i = Some y) (seq 0 n)).
Proof.
  revert n. induction l as [|x l IH]; intros n.
  - rewrite take_nil. simpl. induction (seq 0 n) as [|i s IHs]; [done|].
    rewrite filter_cons, decide_False by done. done.
  - destruct n as [|n]; [done|]. simpl. rewrite !filter_cons, <- seq_shift.
    pose proof (length_filter_map_S (fun i => (x :: l) !! i = Some y)
                  (fun i => l !! i = Some y) (seq 0 n) ltac:(done)) as Hm.
    specialize (IH n). case_decide; case_decide; simpl in *; try congruence; lia.
Qed.

(** Two sets of positions below [n] that together exceed [n] have one in common. *)
Lemma positions_meet (n : nat) (P Q : list nat) :
  NoDup P -> NoDup Q -> Forall (fun i => i < n)%nat P -> Forall (fun i => i < n)%nat Q ->
  (n < length P + length Q)%nat -> exists i, i ∈ P /\ i ∈ Q.
Proof.
  intros HP HQ HPn HQn Hlen.
  destruct (decide (Exists (fun i => i ∈ Q) P)) as [(i & ? & ?)%Exists_exists|Hno]; [by exists i|].
  exfalso. assert (NoDup (P ++ Q)) as Hnd.
  { apply NoDup_app. split_and!; [done | | done]. intros i Hi Hq. apply Hno, Exists_exists. eauto. }
  assert (Hsub : P ++ Q ⊆ seq 0 n).
  { intros i. rewrite elem_of_app, elem_of_seq. rewrite Forall_forall in HPn, HQn.
    intros [Hi|Hi]; [specialize (HPn _ Hi) | specialize (HQn _ Hi)]; lia. }
  pose proof (NoDup_submseteq _ _ Hnd Hsub) as Hs%submseteq_length.
  rewrite length_app, length_seq in Hs. lia.
Qed.

(** ** The handler monad

    A handler runs on a state, may abort the process ([NIOVA_ASSERT], a FATAL
    log message) and otherwise returns a value and a new state. *)
Definition M (S A : Type) : Type := S -> option (A * S).

Section monad.
Context {S : Type}.
Definition ret {A} (a : A) : M S A := fun s => Some (a, s).
Definition bind {A B} (m : M S A) (k : A -> M S B) : M S B :=
  fun s => match m s with Some (a, s') => k a s' | None => None end.
Definition fatal {A} : M S A := fun _ => None.
Definition gets {A} (f : S -> A) : M S A := fun s => Some (f s, s).
Definition modify (f : S -> S) : M S unit := fun s => Some (tt, f s).
Definition assert_ (b : bool) : M S unit := if b then ret tt else fatal.
Definition fatal_if (b : bool) : M S unit := if b then fatal else ret tt.
Definition when (b : bool) (m : M S unit) : M S unit := if b then m else ret tt.
Definition lift_option {A} (o : option A) : M S A :=
  match o with Some a => ret a | None => fatal end.
Fixpoint for_each {X} (l : list X) (f : X -> M S unit) : M S unit :=
  match l with
  | [] => ret tt
  | x :: l' => bind (f x) (fun _ => for_each l' f)
  end.
End monad.

Notation "'let!' x := m 'in' k" := (bind m (fun x => k))
  (at level 10, x name, m at level 100, k at level 200,
   format "'[v' 'let!'  x  :=  m  'in' '/' k ']'") : raft_scope.
Notation "'let!' ' p := m 'in' k" := (bind m (fun x => match x with p => k end))
  (at level 10, p pattern, m at level 100, k at level 200) : raft_scope.
Notation "m ;;; k" := (bind m (fun _ => k))
  (at level 199, right associativity, format "'[v' m  ;;; '/' k ']'") : raft_scope.

(** ** Reasoning about handlers

    [keeps R m]: every completed run of [m] relates its initial and final
    states by [R].  [ensures P m Q]: partial correctness. *)
Definition keeps {S A} (R : S -> S -> Prop) (m : M S A) : Prop :=
  forall s a s', m s = Some (a, s') -> R s s'.
Definition ensures {S A} (P : S -> Prop) (m : M S A) (Q : A -> S -> Prop) : Prop :=
  forall s a s', P s -> m s = Some (a, s') -> Q a s'.

(** The relation "the observation [f] is unchanged". *)
Definition same {S T} (f : S -> T) : S -> S -> Prop := fun s s' => f s' = f s.
#[export] Instance same_preorder {S T} (f : S -> T) : PreOrder (same f).
Proof. split; red; unfold same; congruence. Qed.

Lemma bind_Some {S A B} (m : M S A) (k : A -> M S B) s r :
  bind m k s = Some r -> exists a s1, m s = Some (a, s1) /\ k a s1 = Some r.
Proof. unfold bind. destruct (m s) as [[a s1]|]; [eauto | done]. Qed.

Lemma bind_eq {S A B} (m : M S A) (k : A -> M S B) s a s1 :
  m s = Some (a, s1) -> bind m k s = k a s1.
Proof. unfold bind. by intros ->. Qed.

(** Two continuations that agree on the state reached. *)
Lemma bind_cong {S A B} (m : M S A) (k k' : A -> M S B) s :
  (forall a s1, m s = Some (a, s1) -> k a s1 = k' a s1) -> bind m k s = bind m k' s.
Proof. unfold bind. destruct (m s) as [[a s1]|]; auto. Qed.

Create HintDb keeps discriminated.

Section keeps_rules.
Context {S : Type} (R : S -> S -> Prop) `{!PreOrder R}.

Lemma keeps_ret {A} (a : A) : keeps R (ret a).
Proof. intros s b s' [= -> ->]. reflexivity. Qed.
Lemma keeps_fatal {A} : keeps R (@fatal S A).
Proof. by intros s b s' ?. Qed.
Lemma keeps_gets {A} (f : S -> A) : keeps R (gets f).
Proof. intros s b s' [= <- ->]. reflexivity. Qed.
Lemma keeps_modify (f : S -> S) : (forall s, R s (f s)) -> keeps R (modify f).
Proof. intros H s b s' [= <- <-]. apply H. Qed.
Lemma keeps_bind {A B} (m : M S A) (k : A -> M S B) :
  keeps R m -> (forall a, keeps R (k a)) -> keeps R (bind m k).
Proof.
  intros Hm Hk s b s' (a & s1 & H1 & H2)%bind_Some.
  transitivity s1; [by eapply Hm | by eapply Hk].
Qed.
Lemma keeps_bind_gets {A B} (f : S -> A) (k : A -> M S B) :
  (forall s, keeps R (k (f s))) -> keeps R (bind (gets f) k).
Proof.
  intros Hk s b s' (a & s1 & H1 & H2)%bind_Some. injection H1 as <- <-. by eapply Hk.
Qed.
Lemma keeps_bind_assoc {A B C} (m : M S A) (f : A -> M S B) (k : B -> M S C) :
  keeps R (bind m (fun a => bind (f a) k)) -> keeps R (bind (bind m f) k).
Proof.
  intros H s c s' Hrun. apply (H s c s'). unfold bind in *. by destruct (m s) as [[]|].
Qed.
Lemma keeps_assert b : keeps R (assert_ b).
Proof. destruct b; [apply keeps_ret | apply keeps_fatal]. Qed.
Lemma keeps_fatal_if b : keeps R (fatal_if b).
Proof. destruct b; [apply keeps_fatal | apply keeps_ret]. Qed.
Lemma keeps_when b m : keeps R m -> keeps R (when b m).
Proof. destruct b; [done | intros; apply keeps_ret]. Qed.
Lemma keeps_lift_option {A} (o : option A) : keeps R (lift_option o).
Proof. destruct o; [apply keeps_ret | apply keeps_fatal]. Qed.
Lemma keeps_for_each {X} (l : list X) f :
  (forall x, keeps R (f x)) -> keeps R (for_each l f).
Proof.
  intros Hf. induction l as [|x l IH]; simpl; [apply keeps_ret|].
  apply keeps_bind; auto.
Qed.
End keeps_rules.

#[export] Hint Resolve keeps_ret keeps_fatal keeps_gets keeps_assert
  keeps_fatal_if keeps_lift_option : keeps.

(** A weaker relation is kept as well. *)
Lemma keeps_weaken {S A} (R R' : S -> S -> Prop) (m : M S A) :
  (forall s s', R s s' -> R' s s') -> keeps R m -> keeps R' m.
Proof. intros HR Hm s a s' H. by eapply HR, Hm. Qed.

(** The relation at one completed run. *)
Lemma keeps_run {S A} (R : S -> S -> Prop) (m : M S A) s a s' :
  keeps R m -> m s = Some (a, s') -> R s s'.
Proof. intros Hm. apply Hm. Qed.

(** [solve_keeps] walks a handler's body.  The database [keeps] is tried first;
    a function without a lemma there is unfolded, so that only the functions that
    need an argument of their own (loops, conditional writes) have lemmas.
    [keeps_bind_value] is extended below: after a step that only reads the state
    the value read is kept in the rest of the body. *)
Ltac keeps_bind_value := fail.
Ltac head_of t := lazymatch t with ?f _ => head_of f | _ => t end.
Ltac keeps_step :=
  lazymatch goal with
  | |- keeps _ (bind (gets _) _) =>
      apply keeps_bind_gets; intros ?; cbv beta
  | |- keeps _ (bind (modify _) _) =>
      apply keeps_bind; [try typeclasses eauto | | intros ?]
  | |- keeps _ (bind _ _) =>
      first [ keeps_bind_value
            | apply keeps_bind; [try typeclasses eauto | | intros ?] ]
  | |- keeps _ (when _ _) => apply keeps_when; [try typeclasses eauto |]
  | |- keeps _ (for_each _ _) => apply keeps_for_each; [try typeclasses eauto | intros ?]
  | |- keeps _ (modify _) =>
      first [ solve [auto with keeps typeclass_instances]
            | apply keeps_modify; intros ?; solve [reflexivity | auto with keeps] ]
  | |- keeps _ (let _ := _ in _) => cbv zeta
  | |- keeps _ (match ?x with _ => _ end) => destruct x
  | |- keeps _ ?m =>
      first [ solve [auto 4 with keeps typeclass_instances]
            | let h := head_of m in progress unfold h ]
  end.
Ltac solve_keeps := repeat keeps_step.

Lemma Some_pair_inj {A B} (a b : A) (s s' : B) :
  Some (a, s) = Some (b, s') -> a = b /\ s = s'.
Proof. by intros [= -> ->]. Qed.

(** From [Some (a, s) = Some (b, s')], with the final state eliminated first. *)
Ltac inject_run H :=
  let E := fresh in
  apply Some_pair_inj in H; destruct H as [H E];
  lazymatch type of E with _ = ?s1 => first [subst s1 | idtac] end;
  try discriminate H;
  first [injection H; clear H; intros | idtac]; subst.

(** Extended below with the primitive actions of the server state. *)
Ltac run_prim H := idtac.

(** [run_inv H] splits a completed run [H] of a sequence into its steps. *)
Ltac run_inv H :=
  lazymatch type of H with
  | bind _ _ _ = Some _ =>
      let a := fresh "v" in let s1 := fresh "s" in
      let H1 := fresh "Hrun" in
      apply bind_Some in H; destruct H as (a & s1 & H1 & H);
      run_inv H1; run_inv H
  | gets _ _ = Some _ => inject_run H
  | modify _ _ = Some _ => inject_run H
  | ret _ _ = Some _ => inject_run H
  | fatal _ = Some _ => discriminate H
  | (match ?b with true => _ | false => _ end) _ = _ =>
      lazymatch b with
      | true => cbv iota in H; run_inv H
      | false => cbv iota in H; run_inv H
      | _ => idtac
      end
  | assert_ true _ = Some _ => cbv [assert_] in H; run_inv H
  | fatal_if false _ = Some _ => cbv [fatal_if] in H; run_inv H
  | when true _ _ = Some _ => cbv [when] in H; run_inv H
  | when false _ _ = Some _ => cbv [when] in H; run_inv H
  | assert_ false _ = Some _ => discriminate H
  | fatal_if true _ = Some _ => discriminate H
  | assert_ ?b _ = Some _ =>
      let E := fresh "Hassert" in
      destruct b eqn:E; [inject_run H | discriminate H]
  | fatal_if ?b _ = Some _ =>
      let E := fresh "Hfatal" in
      destruct b eqn:E; [discriminate H | inject_run H]
  | when ?b _ _ = Some _ =>
      let E := fresh "Hwhen" in
      destruct b eqn:E; [cbv [when] in H; run_inv H | cbv [when] in H; run_inv H]
  | lift_option ?o _ = Some _ =>
      let E := fresh "Hopt" in
      destruct o eqn:E; [inject_run H | discriminate H]
  | _ => run_prim H
  end.

(** The first step of a completed run [H]. *)
Ltac run_step H :=
  let a := fresh "v" in let s1 := fresh "s" in let H1 := fresh "Hrun" in
  apply bind_Some in H; destruct H as (a & s1 & H1 & H); run_inv H1.

(** The two branches of a completed run [H] of a conditional. *)
Ltac run_if H :=
  lazymatch type of H with
  | (match ?b with true => _ | false => _ end) _ = _ =>
      let E := fresh "Hif" in
      destruct b eqn:E; cbv iota in H
  end.

Lemma ensures_bind {S A B} (m : M S A) (k : A -> M S B) P Q R :
  ensures P m Q -> (forall a, ensures (Q a) (k a) R) -> ensures P (bind m k) R.
Proof.
  intros Hm Hk s b s' HP (a & s1 & H1 & H2)%bind_Some. eapply Hk; eauto.
Qed.

Lemma ensures_keeps {S A} (P : S -> Prop) (R : S -> S -> Prop) (m : M S A) :
  keeps R m -> (forall s s', P s -> R s s' -> P s') -> ensures P m (fun _ => P).
Proof. intros Hm HR s a s' HP H. eapply HR; [done | by eapply Hm]. Qed.
