(* ===== verification/RaftTypes.v ===== *)
(** The data of the server: constants, enumerations, wire messages, log entries
    and [struct raft_instance], as declared in [src/include/raft.h] and
    [src/include/raft_net.h], together with the interface to the libraries the
    code links against and the state a handler runs on. *)
From stdpp Require Import base tactics list gmap.
From Stdlib Require Import ZArith Lia Strings.Byte.
From S2P Require Import Prelude.
Local Open Scope Z_scope.
Local Open Scope raft_scope.

(** ** The libraries behind the code

    Constants and functions of niova-core ([ctl_svc.h], [crc32.h], [util.h]),
    whose source is not part of the repository. *)
Class NiovaCore := {
  CTL_SVC_MAX_RAFT_PEERS : Z;
  CTL_SVC_MIN_RAFT_PEERS : Z;
  RAFT_PEER_ANY : Z;
  niova_crc : list byte -> Z -> Z;
  timespec_2_msec : Z -> Z;
  udp_get_max_size : Z;
  tcp_get_max_size : Z;
  raft_net_tcp_disabled : bool;
}.

(** What the code relies on: a raft cluster has at least one member, member
    indices are [uint8_t] and the "no such peer" index is above all of them; a
    checksum is a [crc32_t]. *)
Class NiovaCoreOk (NC : NiovaCore) : Prop := {
  min_raft_peers_pos : 0 < CTL_SVC_MIN_RAFT_PEERS;
  max_raft_peers_any : CTL_SVC_MAX_RAFT_PEERS <= RAFT_PEER_ANY;
  raft_peer_any_u8 : RAFT_PEER_ANY < 2 ^ 8;
  niova_crc_range l : 0 <= niova_crc l 0 < 2 ^ 32;
}.

(** ** Error codes (Linux [errno.h]) *)
Definition EPERM : Z := 1.
Definition ENOENT : Z := 2.
Definition EIO : Z := 5.
Definition E2BIG : Z := 7.
Definition EAGAIN : Z := 11.
Definition ENOMEM : Z := 12.
Definition EBUSY : Z := 16.
Definition EEXIST : Z := 17.
Definition EXDEV : Z := 18.
Definition ENODEV : Z := 19.
Definition EINVAL : Z := 22.
Definition ENOSPC : Z := 28.
Definition EDOM : Z := 33.
Definition ERANGE : Z := 34.
Definition ENOSYS : Z := 38.
Definition EBADR : Z := 53.
Definition EBADSLT : Z := 57.
Definition ENODATA : Z := 61.
Definition EBADMSG : Z := 74.
Definition EOPNOTSUPP : Z := 95.
Definition EALREADY : Z := 114.
Definition EINPROGRESS : Z := 115.
Definition ESTALE : Z := 116.
Definition EKEYREJECTED : Z := 129.
Definition ENAMETOOLONG : Z := 36.
Definition ETIMEDOUT : Z := 110.
Definition EUCLEAN : Z := 117.
Definition ENOTCONN : Z := 107.
Definition EMSGSIZE : Z := 90.
Definition EFBIG : Z := 27.
Definition ECANCELED : Z := 125.
Definition EINTR : Z := 4.

(** ** Constants of [raft.h] *)
Definition RAFT_ENTRY_NUM_ENTRIES : Z := 100.
Definition RAFT_ENTRY_MAGIC : Z := 0x1a2b3c4dd4c3b2a1.
Definition RAFT_HEADER_MAGIC : Z := 0xafaeadacabaaa9a8.
Definition RAFT_ENTRY_HEADER_RESERVE : Z := 496.
Definition RAFT_ENTRY_SIZE_MIN : Z := 65536.
Definition RAFT_ELECTION__MAX_TIME_MS : Z := 100000.
Definition RAFT_ELECTION__MIN_TIME_MS : Z := 100.
Definition RAFT_HEARTBEAT__MIN_FREQ : Z := 2.
Definition RAFT_HEARTBEAT__MIN_TIME_MS : Z := 10.
Definition RAFT_ELECTION_UPPER_TIME_MS : Z := 300.
Definition RAFT_LEADER_WAKEUP_MS : Z := 2.
Definition RAFT_SERVER_COALESCE_TIMEOUT_FACTOR : Z := 2.
Definition RAFT_SERVER_HEARTBEAT_ISSUE_FACTOR : Z := 10.
Definition RAFT_ELECTION_CHECK_QUORUM_FACTOR : Z := 10.
Definition RAFT_HEARTBEAT_FREQ_PER_ELECTION : Z := 10.
Definition RAFT_ENTRY_IDX_ANY : Z := -1.
Definition RAFT_MIN_APPEND_ENTRY_IDX : Z := -1.

Definition RAFT_INSTANCE_PERSISTENT_APP_SCAN_ENTRIES : Z := 100000.
Definition RAFT_INSTANCE_PERSISTENT_APP_MIN_SCAN_ENTRIES : Z := 500.
Definition RAFT_INSTANCE_PERSISTENT_APP_REAP_FACTOR_MAX : Z := 100.
Definition RAFT_INSTANCE_PERSISTENT_APP_REAP_FACTOR_MIN : Z := 2.
Definition RAFT_INSTANCE_PERSISTENT_APP_REAP_FACTOR_DEFAULT : Z := 5.
Definition RAFT_INSTANCE_PERSISTENT_APP_CHKPT_MAX : Z := 100.
Definition RAFT_INSTANCE_PERSISTENT_APP_CHKPT_MIN : Z := 2.
Definition RAFT_INSTANCE_PERSISTENT_APP_CHKPT_DEFAULT : Z := 5.
Definition RAFT_NET_ENTRY_RESERVE : Z := 512.
Definition RAFT_NET_MAX_RPC_SIZE_POSIX : Z := 64 * 1024 - RAFT_NET_ENTRY_RESERVE.
Definition RAFT_NET_MAX_RPC_SIZE_ROCKSDB : Z := 4096 * 1024 - RAFT_NET_ENTRY_RESERVE.
Definition RAFT_NET_MAX_RETRY_MS : Z := 30000.
Definition RAFT_NET_WR_SUPP_MAX : Z := 1024 * 1024 + 1024.
Definition RAFT_EVP_HANDLES_MAX : Z := 4.

(** ** Scalar types

    A [uuid_t] is the number its 16 bytes spell (byte 0 first); the null uuid
    is 0.  A pointer to a [struct ctl_svc_node] of a peer is represented by the
    peer's uuid, since the ctl-svc tree holds one node per uuid.  A
    [struct timespec] is its total number of nanoseconds. *)
Abbreviation uuid := Z (only parsing).
Abbreviation raft_entry_idx_t := Z (only parsing).
Abbreviation timespec := Z (only parsing).
Abbreviation bytes := (list byte).
Definition uuid_is_null (u : uuid) : bool := u =? 0.
Definition null_uuid : uuid := 0.

(** ** Enumerations *)
Inductive raft_rpc_msg_type :=
| RAFT_RPC_MSG_TYPE_INVALID
| RAFT_RPC_MSG_TYPE_PRE_VOTE_REQUEST
| RAFT_RPC_MSG_TYPE_PRE_VOTE_REPLY
| RAFT_RPC_MSG_TYPE_VOTE_REQUEST
| RAFT_RPC_MSG_TYPE_VOTE_REPLY
| RAFT_RPC_MSG_TYPE_APPEND_ENTRIES_REQUEST
| RAFT_RPC_MSG_TYPE_APPEND_ENTRIES_REPLY
| RAFT_RPC_MSG_TYPE_SYNC_IDX_UPDATE
| RAFT_RPC_MSG_TYPE_ANY.

Inductive raft_process_state :=
| RAFT_PROC_STATE_BOOTING | RAFT_PROC_STATE_RUNNING
| RAFT_PROC_STATE_RECOVERING | RAFT_PROC_STATE_SHUTDOWN.

Inductive raft_state :=
| RAFT_STATE__NONE | RAFT_STATE_LEADER | RAFT_STATE_FOLLOWER
| RAFT_STATE_CANDIDATE_PREVOTE | RAFT_STATE_CANDIDATE | RAFT_STATE_CLIENT.

Inductive raft_vote_result :=
| RAFT_VOTE_RESULT_UNKNOWN
| RAFT_PRE_VOTE_RESULT_YES | RAFT_PRE_VOTE_RESULT_NO
| RAFT_VOTE_RESULT_YES | RAFT_VOTE_RESULT_NO.

Inductive raft_follower_reasons :=
| RAFT_BFRSN_NONE | RAFT_BFRSN_VOTED_FOR_PEER
| RAFT_BFRSN_STALE_TERM_WHILE_CANDIDATE | RAFT_BFRSN_STALE_TERM_WHILE_LEADER
| RAFT_BFRSN_LEADER_ALREADY_PRESENT.

Inductive newest_entry_hdr_type := RI_NEHDR_SYNC | RI_NEHDR_UNSYNC | RI_NEHDR_ALL.

Inductive raft_event_pipe_types :=
| RAFT_EVP__NONE | RAFT_EVP_REMOTE_SEND | RAFT_EVP_ASYNC_COMMIT_IDX_ADV
| RAFT_EVP_SM_APPLY | RAFT_EVP_CLIENT | RAFT_EVP__ANY.

Inductive raft_init_state_type :=
| RAFT_INIT_BOOTUP_STATE | RAFT_INIT_BECOMING_LEADER_STATE
| RAFT_INIT_BECOMING_CANDIDATE_STATE | RAFT_INIT_SHUTDOWN_STATE.

Inductive raft_instance_store_type :=
| RAFT_INSTANCE_STORE_POSIX_FLAT_FILE
| RAFT_INSTANCE_STORE_ROCKSDB
| RAFT_INSTANCE_STORE_ROCKSDB_PERSISTENT_APP.

Inductive raft_write_entry_opts :=
| RAFT_WR_ENTRY_OPT_NONE | RAFT_WR_ENTRY_OPT_LEADER_CHANGE_MARKER
| RAFT_WR_ENTRY_OPT_LOG_HEADER.

Inductive raft_udp_listen_sockets := RAFT_UDP_LISTEN_SERVER | RAFT_UDP_LISTEN_CLIENT.

#[export] Instance raft_rpc_msg_type_eq : EqDecision raft_rpc_msg_type.
Proof. solve_decision. Defined.
#[export] Instance raft_process_state_eq : EqDecision raft_process_state.
Proof. solve_decision. Defined.
#[export] Instance raft_state_eq : EqDecision raft_state.
Proof. solve_decision. Defined.
#[export] Instance raft_vote_result_eq : EqDecision raft_vote_result.
Proof. solve_decision. Defined.
#[export] Instance raft_follower_reasons_eq : EqDecision raft_follower_reasons.
Proof. solve_decision. Defined.
#[export] Instance newest_entry_hdr_type_eq : EqDecision newest_entry_hdr_type.
Proof. solve_decision. Defined.
#[export] Instance raft_event_pipe_types_eq : EqDecision raft_event_pipe_types.
Proof. solve_decision. Defined.
#[export] Instance raft_instance_store_type_eq : EqDecision raft_instance_store_type.
Proof. solve_decision. Defined.
#[export] Instance raft_write_entry_opts_eq : EqDecision raft_write_entry_opts.
Proof. solve_decision. Defined.
#[export] Instance raft_udp_listen_sockets_eq : EqDecision raft_udp_listen_sockets.
Proof. solve_decision. Defined.

(** ** Wire messages between servers *)
Record raft_vote_request_msg := {
  rvrqm_proposed_term : Z;
  rvrqm_last_log_term : Z;
  rvrqm_last_log_index : Z;
}.

Record raft_vote_reply_msg := {
  rvrpm_voted_granted : bool;
  rvrpm_term : Z;
  rvrpm_current_leader : uuid;
}.

Record raft_append_entries_request_msg := {
  raerqm_leader_term : Z;
  raerqm_log_term : Z;
  raerqm_commit_index : Z;
  raerqm_lowest_index : Z;
  raerqm_chkpt_index : Z;
  raerqm_prev_log_term : Z;
  raerqm_prev_log_index : Z;
  raerqm_prev_idx_crc : Z;
  raerqm_this_idx_crc : Z;
  raerqm_size_arr : list Z;
  raerqm_entries_sz : Z;
  raerqm_num_entries : Z;
  raerqm_heartbeat_msg : bool;
  raerqm_leader_change_marker : bool;
  raerqm_entry_out_of_range : bool;
  raerqm_entries : bytes;
}.

Record raft_append_entries_reply_msg := {
  raerpm_leader_term : Z;
  raerpm_prev_log_index : Z;
  raerpm_synced_log_index : Z;
  raerpm_heartbeat_msg : bool;
  raerpm_err_stale_term : bool;
  raerpm_err_non_matching_prev_term : bool;
  raerpm_newly_initialized_peer : bool;
  raerpm_update_sli : bool;
}.

Record raft_sync_idx_update_msg := {
  rsium_synced_log_index : Z;
  rsium_term : Z;
}.

(** The union of [struct raft_rpc_msg]. *)
Inductive raft_rpc_payload :=
| rrm_vote_request (v : raft_vote_request_msg)
| rrm_vote_reply (v : raft_vote_reply_msg)
| rrm_append_entries_request (v : raft_append_entries_request_msg)
| rrm_append_entries_reply (v : raft_append_entries_reply_msg)
| rrm_sync_index_update (v : raft_sync_idx_update_msg).

Record raft_rpc_msg := {
  rrm_type : raft_rpc_msg_type;
  rrm_version : Z;
  rrm_sender_id : uuid;
  rrm_raft_id : uuid;
  rrm_db_id : uuid;
  rrm_payload : raft_rpc_payload;
}.

(** ** Log entries *)
Record raft_entry_header := {
  reh_magic : Z;
  reh_self_uuid : uuid;
  reh_store_time : timespec;
  reh_crc : Z;
  reh_data_size : Z;
  reh_index : raft_entry_idx_t;
  reh_term : Z;
  reh_raft_uuid : uuid;
  reh_entry_sz : list Z;
  reh_apply_handler_version : Z;
  reh_leader_change_marker : Z;
  reh_num_entries : Z;
}.
#[export] Instance eta_raft_entry_header : Eta raft_entry_header := fun r =>
  {| reh_magic := reh_magic r; reh_self_uuid := reh_self_uuid r;
     reh_store_time := reh_store_time r; reh_crc := reh_crc r;
     reh_data_size := reh_data_size r; reh_index := reh_index r;
     reh_term := reh_term r; reh_raft_uuid := reh_raft_uuid r;
     reh_entry_sz := reh_entry_sz r;
     reh_apply_handler_version := reh_apply_handler_version r;
     reh_leader_change_marker := reh_leader_change_marker r;
     reh_num_entries := reh_num_entries r |}.
#[export] Instance raft_entry_header_eq : EqDecision raft_entry_header.
Proof. solve_decision. Defined.

(** [struct raft_entry_header reh = {0}]. *)
Definition zero_reh : raft_entry_header :=
  {| reh_magic := 0; reh_self_uuid := 0; reh_store_time := 0; reh_crc := 0;
     reh_data_size := 0; reh_index := 0; reh_term := 0; reh_raft_uuid := 0;
     reh_entry_sz := replicate (Z.to_nat RAFT_ENTRY_NUM_ENTRIES) 0;
     reh_apply_handler_version := 0; reh_leader_change_marker := 0;
     reh_num_entries := 0 |}.

Record raft_entry := { re_header : raft_entry_header; re_data : bytes }.

Record raft_log_header := {
  rlh_version : Z;
  rlh_magic : Z;
  rlh_term : Z;
  rlh_seqno : Z;
  rlh_voted_for : uuid;
}.
#[export] Instance eta_raft_log_header : Eta raft_log_header := fun r =>
  {| rlh_version := rlh_version r; rlh_magic := rlh_magic r;
     rlh_term := rlh_term r; rlh_seqno := rlh_seqno r;
     rlh_voted_for := rlh_voted_for r |}.
#[export] Instance raft_log_header_eq : EqDecision raft_log_header.
Proof. solve_decision. Defined.

(** ** Client messages and the request handle of the state machine *)
Inductive raft_client_rpc_msg_type :=
| RAFT_CLIENT_RPC_MSG_TYPE_INVALID | RAFT_CLIENT_RPC_MSG_TYPE_READ
| RAFT_CLIENT_RPC_MSG_TYPE_WRITE | RAFT_CLIENT_RPC_MSG_TYPE_REPLY
| RAFT_CLIENT_RPC_MSG_TYPE_REDIRECT | RAFT_CLIENT_RPC_MSG_TYPE_PING
| RAFT_CLIENT_RPC_MSG_TYPE_PING_REPLY | RAFT_CLIENT_RPC_MSG_TYPE_ANY.
#[export] Instance raft_client_rpc_msg_type_eq : EqDecision raft_client_rpc_msg_type.
Proof. solve_decision. Defined.

Record raft_client_rpc_msg := {
  rcrm_type : raft_client_rpc_msg_type;
  rcrm_data_size : Z;
  rcrm_msg_id : Z;
  rcrm_raft_id : uuid;
  rcrm_sender_id : uuid;
  rcrm_dest_id : uuid; (* union with rcrm_redirect_id *)
  rcrm_app_error : Z;
  rcrm_sys_error : Z;
  rcrm_user_tag : Z;
  rcrm_data : bytes;
}.
#[export] Instance eta_raft_client_rpc_msg : Eta raft_client_rpc_msg := fun r =>
  {| rcrm_type := rcrm_type r; rcrm_data_size := rcrm_data_size r;
     rcrm_msg_id := rcrm_msg_id r; rcrm_raft_id := rcrm_raft_id r;
     rcrm_sender_id := rcrm_sender_id r; rcrm_dest_id := rcrm_dest_id r;
     rcrm_app_error := rcrm_app_error r; rcrm_sys_error := rcrm_sys_error r;
     rcrm_user_tag := rcrm_user_tag r; rcrm_data := rcrm_data r |}.
Definition zero_rcrm : raft_client_rpc_msg :=
  {| rcrm_type := RAFT_CLIENT_RPC_MSG_TYPE_INVALID; rcrm_data_size := 0;
     rcrm_msg_id := 0; rcrm_raft_id := 0; rcrm_sender_id := 0;
     rcrm_dest_id := 0; rcrm_app_error := 0; rcrm_sys_error := 0;
     rcrm_user_tag := 0; rcrm_data := [] |}.

(** Write supplements: the KVs that accompany a backend write.  [rnsws_ws]
    holds the items, so [rnsws_nitems] is its length; the column-family handle
    is an address, 0 being NULL. *)
Inductive raft_net_wr_supp_op := RAFT_NET_WR_SUPP_OP_WRITE | RAFT_NET_WR_SUPP_OP_DELETE.
#[export] Instance raft_net_wr_supp_op_eq : EqDecision raft_net_wr_supp_op.
Proof. solve_decision. Defined.

Record raft_net_wr_supp := {
  rnws_op : raft_net_wr_supp_op;
  rnws_handle : Z;
  rnws_has_comp_cb : bool;
  rnws_key : bytes;
  rnws_value : bytes;
}.

Record raft_net_sm_write_supplements := {
  rnsws_ws : list raft_net_wr_supp;
  rnsws_kv_crc : Z;
  rnsws_kv_crc_enabled : bool;
}.
#[export] Instance eta_raft_net_sm_write_supplements :
  Eta raft_net_sm_write_supplements := fun r =>
  {| rnsws_ws := rnsws_ws r; rnsws_kv_crc := rnsws_kv_crc r;
     rnsws_kv_crc_enabled := rnsws_kv_crc_enabled r |}.
Definition zero_rnsws : raft_net_sm_write_supplements :=
  {| rnsws_ws := []; rnsws_kv_crc := 0; rnsws_kv_crc_enabled := false |}.
Definition rnsws_nitems (ws : raft_net_sm_write_supplements) : Z :=
  Z.of_nat (length (rnsws_ws ws)).

Inductive raft_net_client_request_type :=
| RAFT_NET_CLIENT_REQ_TYPE_NONE | RAFT_NET_CLIENT_REQ_TYPE_READ
| RAFT_NET_CLIENT_REQ_TYPE_WRITE | RAFT_NET_CLIENT_REQ_TYPE_COMMIT.
#[export] Instance raft_net_client_request_type_eq :
  EqDecision raft_net_client_request_type.
Proof. solve_decision. Defined.

(** The handle given to the application.  The C union of [rncr_reply] and
    [rncr_app_data] shares its pointer and its size: [rncr_reply_ptr] is the
    buffer read as a reply header, [rncr_app_data_ptr] the same buffer as raw
    bytes, [rncr_reply_data_size] the shared size. *)
Record raft_net_client_request_handle := {
  rncr_type : raft_net_client_request_type;
  rncr_write_raft_entry : bool;
  rncr_is_leader : bool;
  rncr_is_direct_req : bool;
  rncr_op_error : Z;
  rncr_entry_term : Z;
  rncr_current_term : Z;
  rncr_apply_handler_version : Z;
  rncr_request : option raft_client_rpc_msg;
  rncr_request_or_commit_data : bytes;
  rncr_request_or_commit_data_size : Z;
  rncr_reply_ptr : option raft_client_rpc_msg;
  rncr_app_data_ptr : bytes;
  rncr_reply_data_max_size : Z;
  rncr_reply_data_size : Z;
  rncr_msg_id : Z;
  rncr_sm_write_supp : raft_net_sm_write_supplements;
  rncr_client_uuid : uuid;
  rncr_csn : option uuid;
  rncr_bi : bool; (* a buffer item is held *)
}.
#[export] Instance eta_rncr : Eta raft_net_client_request_handle := fun r =>
  {| rncr_type := rncr_type r; rncr_write_raft_entry := rncr_write_raft_entry r;
     rncr_is_leader := rncr_is_leader r; rncr_is_direct_req := rncr_is_direct_req r;
     rncr_op_error := rncr_op_error r; rncr_entry_term := rncr_entry_term r;
     rncr_current_term := rncr_current_term r;
     rncr_apply_handler_version := rncr_apply_handler_version r;
     rncr_request := rncr_request r;
     rncr_request_or_commit_data := rncr_request_or_commit_data r;
     rncr_request_or_commit_data_size := rncr_request_or_commit_data_size r;
     rncr_reply_ptr := rncr_reply_ptr r; rncr_app_data_ptr := rncr_app_data_ptr r;
     rncr_reply_data_max_size := rncr_reply_data_max_size r;
     rncr_reply_data_size := rncr_reply_data_size r; rncr_msg_id := rncr_msg_id r;
     rncr_sm_write_supp := rncr_sm_write_supp r;
     rncr_client_uuid := rncr_client_uuid r; rncr_csn := rncr_csn r;
     rncr_bi := rncr_bi r |}.

(** ** [struct raft_instance] and its parts *)
Record raft_candidate_state := {
  rcs_term : Z;
  rcs_prevote : bool;
  rcs_results : list raft_vote_result;
}.
#[export] Instance eta_raft_candidate_state : Eta raft_candidate_state := fun r =>
  {| rcs_term := rcs_term r; rcs_prevote := rcs_prevote r; rcs_results := rcs_results r |}.

Record raft_follower_info := {
  rfi_next_idx : Z;
  rfi_ackd_idx : Z;
  rfi_synced_idx : Z;
  rfi_current_idx_term : Z;
  rfi_current_idx_crc : Z;
  rfi_prev_idx_term : Z;
  rfi_prev_idx_crc : Z;
  rfi_last_ack : timespec;
  rfi_ae_sends_wait_until : Z;
}.
#[export] Instance eta_raft_follower_info : Eta raft_follower_info := fun r =>
  {| rfi_next_idx := rfi_next_idx r; rfi_ackd_idx := rfi_ackd_idx r;
     rfi_synced_idx := rfi_synced_idx r;
     rfi_current_idx_term := rfi_current_idx_term r;
     rfi_current_idx_crc := rfi_current_idx_crc r;
     rfi_prev_idx_term := rfi_prev_idx_term r; rfi_prev_idx_crc := rfi_prev_idx_crc r;
     rfi_last_ack := rfi_last_ack r;
     rfi_ae_sends_wait_until := rfi_ae_sends_wait_until r |}.
Definition zero_rfi : raft_follower_info :=
  {| rfi_next_idx := 0; rfi_ackd_idx := 0; rfi_synced_idx := 0;
     rfi_current_idx_term := 0; rfi_current_idx_crc := 0; rfi_prev_idx_term := 0;
     rfi_prev_idx_crc := 0; rfi_last_ack := 0; rfi_ae_sends_wait_until := 0 |}.

Record raft_leader_state := {
  rls_initial_term_idx : Z;
  rls_leader_term : Z;
  rls_quorum_ok_cnt : Z;
  rls_leader_start : timespec;
  rls_leader_accumulated : timespec;
  rls_rfi : list raft_follower_info;
}.
#[export] Instance eta_raft_leader_state : Eta raft_leader_state := fun r =>
  {| rls_initial_term_idx := rls_initial_term_idx r;
     rls_leader_term := rls_leader_term r; rls_quorum_ok_cnt := rls_quorum_ok_cnt r;
     rls_leader_start := rls_leader_start r;
     rls_leader_accumulated := rls_leader_accumulated r; rls_rfi := rls_rfi r |}.

Record raft_last_applied := {
  rla_idx : raft_entry_idx_t;
  rla_sub_idx : Z;
  rla_sub_idx_max : Z;
  rla_synced_idx : raft_entry_idx_t;
  rla_cumulative_crc : Z;
  rla_kv_cumulative_crc : Z;
}.
#[export] Instance eta_raft_last_applied : Eta raft_last_applied := fun r =>
  {| rla_idx := rla_idx r; rla_sub_idx := rla_sub_idx r;
     rla_sub_idx_max := rla_sub_idx_max r; rla_synced_idx := rla_synced_idx r;
     rla_cumulative_crc := rla_cumulative_crc r;
     rla_kv_cumulative_crc := rla_kv_cumulative_crc r |}.

Record raft_instance_co_wr := {
  rcwi_nentries : Z;
  rcwi_entry_sizes : list Z;
  rcwi_total_size : Z;
  rcwi_ws : raft_net_sm_write_supplements;
  rcwi_buffer : bytes;
}.
#[export] Instance eta_raft_instance_co_wr : Eta raft_instance_co_wr := fun r =>
  {| rcwi_nentries := rcwi_nentries r; rcwi_entry_sizes := rcwi_entry_sizes r;
     rcwi_total_size := rcwi_total_size r; rcwi_ws := rcwi_ws r;
     rcwi_buffer := rcwi_buffer r |}.

Record raft_recovery_handle := {
  rrh_peer_uuid : uuid;
  rrh_peer_db_uuid : uuid;
  rrh_peer_chkpt_idx : Z;
  rrh_chkpt_size : Z;
  rrh_remaining : Z;
  rrh_completed : Z;
  rrh_rate_bytes_per_sec : bytes;
  rrh_from_recovery_marker : bool;
  rrh_start : timespec;
}.
#[export] Instance eta_raft_recovery_handle : Eta raft_recovery_handle := fun r =>
  {| rrh_peer_uuid := rrh_peer_uuid r; rrh_peer_db_uuid := rrh_peer_db_uuid r;
     rrh_peer_chkpt_idx := rrh_peer_chkpt_idx r; rrh_chkpt_size := rrh_chkpt_size r;
     rrh_remaining := rrh_remaining r; rrh_completed := rrh_completed r;
     rrh_rate_bytes_per_sec := rrh_rate_bytes_per_sec r;
     rrh_from_recovery_marker := rrh_from_recovery_marker r; rrh_start := rrh_start r |}.
Definition zero_rrh : raft_recovery_handle :=
  {| rrh_peer_uuid := 0; rrh_peer_db_uuid := 0; rrh_peer_chkpt_idx := 0;
     rrh_chkpt_size := 0; rrh_remaining := 0; rrh_completed := 0;
     rrh_rate_bytes_per_sec := []; rrh_from_recovery_marker := false; rrh_start := 0 |}.

(** The fields of [struct raft_instance] the server logic reads or writes.
    [ri_csn_raft_peers] holds the members of the raft, so its length is
    [ctl_svc_node_raft_2_num_members(ri->ri_csn_raft)]; [ri_csn_raft] itself is
    represented by the raft's uuid. *)
Record raft_instance := {
  ri_csn_raft : uuid;
  ri_csn_raft_peers : list uuid;
  ri_csn_this_peer : uuid;
  ri_csn_leader : option uuid;
  ri_last_send : list timespec;
  ri_last_recv : list timespec;
  ri_db_uuid : uuid;
  ri_candidate : raft_candidate_state;
  ri_leader : raft_leader_state;
  ri_state : raft_state;
  ri_proc_state : raft_process_state;
  ri_store_type : raft_instance_store_type;
  ri_synchronous_writes : bool;
  ri_coalesced_writes : bool;
  ri_user_requested_checkpoint : bool;
  ri_user_requested_reap : bool;
  ri_auto_checkpoints_enabled : bool;
  ri_needs_bulk_recovery : bool;
  ri_successful_recovery : bool;
  ri_follower_reason : raft_follower_reasons;
  ri_log_hdr : raft_log_header;
  ri_commit_idx : raft_entry_idx_t;
  ri_last_applied : raft_last_applied;
  ri_checkpoint_last_idx : Z;
  ri_lowest_idx : Z;
  ri_pending_read_idx : raft_entry_idx_t;
  ri_last_chkpt_err : Z;
  ri_sync_freq_us : Z;
  ri_sync_cnt : Z;
  ri_max_scan_entries : Z;
  ri_log_reap_factor : Z;
  ri_num_checkpoints : Z;
  ri_max_entry_size : Z;
  ri_newest_entry_sync : raft_entry_header;   (* ri_newest_entry_hdr[RI_NEHDR_SYNC] *)
  ri_newest_entry_unsync : raft_entry_header; (* ri_newest_entry_hdr[RI_NEHDR_UNSYNC] *)
  ri_election_timeout_max_ms : Z;
  ri_heartbeat_freq_per_election_min : Z;
  ri_check_quorum_timeout_factor : Z;
  ri_entries_detected_at_startup : raft_entry_idx_t;
  ri_recovery_handle : raft_recovery_handle;
  ri_has_init_cb : bool;
  ri_evps : list raft_event_pipe_types; (* revp_type of each slot of ri_evps[] *)
  ri_apply_handler_version : Z;
  ri_coalesced_wr : option raft_instance_co_wr;
  ri_raft_uuid_str : bytes;
  ri_this_peer_uuid_str : bytes;
  ri_db_recovery_uuid : uuid;
  ri_incomplete_recovery : bool;
  ri_log : bytes; (* a path name *)
}.
#[export] Instance eta_raft_instance : Eta raft_instance := fun r =>
  {| ri_csn_raft := ri_csn_raft r; ri_csn_raft_peers := ri_csn_raft_peers r;
     ri_csn_this_peer := ri_csn_this_peer r; ri_csn_leader := ri_csn_leader r;
     ri_last_send := ri_last_send r; ri_last_recv := ri_last_recv r;
     ri_db_uuid := ri_db_uuid r; ri_candidate := ri_candidate r;
     ri_leader := ri_leader r; ri_state := ri_state r;
     ri_proc_state := ri_proc_state r; ri_store_type := ri_store_type r;
     ri_synchronous_writes := ri_synchronous_writes r;
     ri_coalesced_writes := ri_coalesced_writes r;
     ri_user_requested_checkpoint := ri_user_requested_checkpoint r;
     ri_user_requested_reap := ri_user_requested_reap r;
     ri_auto_checkpoints_enabled := ri_auto_checkpoints_enabled r;
     ri_needs_bulk_recovery := ri_needs_bulk_recovery r;
     ri_successful_recovery := ri_successful_recovery r;
     ri_follower_reason := ri_follower_reason r; ri_log_hdr := ri_log_hdr r;
     ri_commit_idx := ri_commit_idx r; ri_last_applied := ri_last_applied r;
     ri_checkpoint_last_idx := ri_checkpoint_last_idx r;
     ri_lowest_idx := ri_lowest_idx r; ri_pending_read_idx := ri_pending_read_idx r;
     ri_last_chkpt_err := ri_last_chkpt_err r; ri_sync_freq_us := ri_sync_freq_us r;
     ri_sync_cnt := ri_sync_cnt r; ri_max_scan_entries := ri_max_scan_entries r;
     ri_log_reap_factor := ri_log_reap_factor r;
     ri_num_checkpoints := ri_num_checkpoints r;
     ri_max_entry_size := ri_max_entry_size r;
     ri_newest_entry_sync := ri_newest_entry_sync r;
     ri_newest_entry_unsync := ri_newest_entry_unsync r;
     ri_election_timeout_max_ms := ri_election_timeout_max_ms r;
     ri_heartbeat_freq_per_election_min := ri_heartbeat_freq_per_election_min r;
     ri_check_quorum_timeout_factor := ri_check_quorum_timeout_factor r;
     ri_entries_detected_at_startup := ri_entries_detected_at_startup r;
     ri_recovery_handle := ri_recovery_handle r; ri_has_init_cb := ri_has_init_cb r;
     ri_evps := ri_evps r; ri_apply_handler_version := ri_apply_handler_version r;
     ri_coalesced_wr := ri_coalesced_wr r; ri_raft_uuid_str := ri_raft_uuid_str r;
     ri_this_peer_uuid_str := ri_this_peer_uuid_str r;
     ri_db_recovery_uuid := ri_db_recovery_uuid r;
     ri_incomplete_recovery := ri_incomplete_recovery r; ri_log := ri_log r |}.
