(* ===== verification/World.v ===== *)
(** The state a handler of the server runs on: the raft instance, the storage
    backend, the application state machine, the environment of the step (clocks,
    randomness, fault injection, sockets) and the effects issued so far; the
    interfaces [Backend] ([struct raft_instance_backend]) and [StateMachine]
    ([raft_sm_request_handler_t]); and the inline predicates of [raft.h]. *)
From stdpp Require Import base tactics list gmap.
From Stdlib Require Import ZArith Lia Strings.Byte.
From S2P Require Import Prelude RaftTypes.
Local Open Scope Z_scope.
Local Open Scope raft_scope.

(** Fault-injection points the modelled code consults. *)
Inductive fault_point :=
| raft_pvc_becomes_candidate | raft_candidate_state_disabled
| raft_force_bulk_recovery | raft_follower_ignores_AE
| raft_leader_may_be_deposed | coalesced_writes | raft_server_bypass_sm_apply
| raft_server_fail_partial_apply | raft_leader_ignore_direct_req
| raft_server_main_loop_break | raft_force_set_max_scan_entries
| async_raft_client_request_expire | raft_client_recv_handler_bypass
| raft_client_recv_handler_process_reply_bypass.

(** What the step observes of the outside world, constant during a step but for
    the fault-injection counters: how many more times a point fires. *)
Record env := {
  env_fault : fault_point -> nat;
  env_realtime : timespec;      (* niova_realtime_coarse_clock *)
  env_unstable : timespec;      (* niova_unstable_coarse_clock *)
  env_random : Z;               (* random_get *)
  env_can_send : uuid -> bool;  (* net_ctl_can_send *)
  env_can_recv : uuid -> bool;  (* net_ctl_can_recv *)
  env_udp_send : uuid -> Z -> Z; (* udp_setup_sockaddr_in, udp_socket_send *)
  env_tcp_send : uuid -> Z -> Z; (* tcp_mgr_send_msg *)
  (* ctl_svc_node_lookup: whether the node, if known, is a raft client *)
  env_csn_lookup : uuid -> option bool;
  env_csn_add : uuid -> Z;      (* ctl_svc_node_init, ctl_svc_node_add *)
  env_alloc_rc : Z;             (* niova_reallocarray: 0 or -ENOMEM *)
}.

#[export] Instance fault_point_eq : EqDecision fault_point.
Proof. solve_decision. Defined.
#[export] Instance eta_env : Eta env := fun e =>
  {| env_fault := env_fault e; env_realtime := env_realtime e;
     env_unstable := env_unstable e; env_random := env_random e;
     env_can_send := env_can_send e; env_can_recv := env_can_recv e;
     env_udp_send := env_udp_send e; env_tcp_send := env_tcp_send e;
     env_csn_lookup := env_csn_lookup e; env_csn_add := env_csn_add e;
     env_alloc_rc := env_alloc_rc e |}.

Inductive output :=
| OutMsg (dst : uuid) (m : raft_rpc_msg)
| OutClientMsg (dst : uuid) (m : raft_client_rpc_msg)
| OutEvp (t : raft_event_pipe_types)
| OutTimer (msec : Z) (periodic : bool)
| OutInitCb (s : raft_init_state_type).

Record world (B A : Type) := World {
  w_ri : raft_instance;
  w_be : B;
  w_app : A;
  w_env : env;
  w_leader_cb_cnt : Z; (* the static counter of raft_server_timerfd_leader_cb *)
  w_out : list output;
}.
Arguments World {B A}.
Arguments w_ri {B A}.
Arguments w_be {B A}.
Arguments w_app {B A}.
Arguments w_env {B A}.
Arguments w_leader_cb_cnt {B A}.
Arguments w_out {B A}.
#[export] Instance eta_world B A : Eta (world B A) := fun w =>
  World (w_ri w) (w_be w) (w_app w) (w_env w) (w_leader_cb_cnt w) (w_out w).

(** [struct raft_instance_backend].  A callback in which an assertion fails or
    that reports a fatal error yields [None]; an optional callback is an option.
    A read returns the callback's return code and the buffer it leaves; the
    header write and the sync get the time they store. *)
Class Backend (B : Type) := {
  rib_entry_write : raft_instance -> raft_entry ->
    option raft_net_sm_write_supplements -> B -> option B;
  rib_entry_header_read : raft_instance -> raft_entry_idx_t -> B ->
    option (Z * raft_entry_header);
  rib_entry_read : raft_instance -> raft_entry_idx_t -> Z -> B -> option (Z * raft_entry);
  rib_log_truncate : raft_instance -> raft_entry_idx_t -> B -> option B;
  rib_log_reap : option (raft_instance -> raft_entry_idx_t -> B -> option B);
  rib_header_load : raft_instance -> B -> option (Z * raft_log_header);
  rib_header_write : timespec -> raft_instance -> B -> option (Z * B);
  rib_backend_sync : option (timespec -> raft_instance -> B -> option (Z * B));
  rib_backend_checkpoint : option (raft_instance -> B -> option (Z * B));
  rib_sm_apply_opt : option (raft_instance ->
    option raft_net_sm_write_supplements -> B -> option B);
}.

(** [ri_server_sm_request_cb]: the application's handler. *)
Class StateMachine (A : Type) := {
  sm_request_cb : raft_net_client_request_handle -> A ->
    Z * raft_net_client_request_handle * A;
}.

(** ** Primitive actions *)
Section actions.
Context {B A : Type}.

Definition ri_get {T} (f : raft_instance -> T) : M (world B A) T :=
  gets (fun w => f (w_ri w)).
Definition ri_upd (f : raft_instance -> raft_instance) : M (world B A) unit :=
  modify (fun w => w <| w_ri ::= f |>).
Definition emit (o : output) : M (world B A) unit :=
  modify (fun w => w <| w_out ::= fun l => l ++ [o] |>).
Definition env_get {T} (f : env -> T) : M (world B A) T :=
  gets (fun w => f (w_env w)).
Definition FAULT_INJECT (p : fault_point) : M (world B A) bool :=
  let! n := env_get (fun e => env_fault e p) in
  match n with
  | O => ret false
  | S n' =>
      modify (fun w => w <| w_env ::= fun e => e <| env_fault ::= fun f q =>
                        if bool_decide (q = p) then n' else f q |> |>) ;;;
      ret true
  end.
Definition be_get {T} (f : B -> T) : M (world B A) T := gets (fun w => f (w_be w)).
Definition be_set (b : B) : M (world B A) unit := modify (fun w => w <| w_be := b |>).

(** [keeps] reduces to the raft instance for a relation that only looks at it. *)
Definition on_ri (R : raft_instance -> raft_instance -> Prop) :
  world B A -> world B A -> Prop := fun w w' => R (w_ri w) (w_ri w').
#[export] Instance on_ri_preorder R `{!PreOrder R} : PreOrder (on_ri R).
Proof. split; red; unfold on_ri; intros; [reflexivity | etransitivity; eauto]. Qed.

Lemma keeps_ri_get R `{!PreOrder R} {T} (f : raft_instance -> T) : keeps R (ri_get f).
Proof. apply keeps_gets, _. Qed.
Lemma keeps_env_get R `{!PreOrder R} {T} (f : env -> T) : keeps R (env_get f).
Proof. apply keeps_gets, _. Qed.
Lemma keeps_be_get R `{!PreOrder R} {T} (f : B -> T) : keeps R (be_get f).
Proof. apply keeps_gets, _. Qed.
Lemma keeps_ri_upd (R : raft_instance -> raft_instance -> Prop) f :
  (forall ri, R ri (f ri)) -> keeps (on_ri R) (ri_upd f).
Proof. intros H w a w' [= <- <-]. apply H. Qed.
Lemma keeps_emit R `{!PreOrder R} o : keeps (on_ri R) (emit o).
Proof. intros w a w' [= <- <-]. unfold on_ri. simpl. reflexivity. Qed.
Lemma keeps_fault R `{!PreOrder R} p : keeps (on_ri R) (FAULT_INJECT p).
Proof.
  apply keeps_bind; [typeclasses eauto | apply keeps_gets, _ |]. intros [|n].
  - apply keeps_ret, _.
  - apply keeps_bind; [typeclasses eauto | | intros; apply keeps_ret, _].
    intros w a w' [= <- <-]. unfold on_ri. simpl. reflexivity.
Qed.
Lemma keeps_be_set R `{!PreOrder R} b : keeps (on_ri R) (be_set b).
Proof. intros w a w' [= <- <-]. unfold on_ri. simpl. reflexivity. Qed.

(** The effects of a step all satisfy [P], and earlier ones stay. *)
Definition on_out (P : output -> Prop) : world B A -> world B A -> Prop := fun w w' =>
  exists l, w_out w' = w_out w ++ l /\ Forall P l.
#[export] Instance on_out_preorder P : PreOrder (on_out P).
Proof.
  split.
  - intros w. exists []. by rewrite app_nil_r.
  - intros w1 w2 w3 (l1 & H1 & HP1) (l2 & H2 & HP2). exists (l1 ++ l2).
    rewrite H2, H1, app_assoc. split; [done | by apply Forall_app].
Qed.

Lemma on_out_refl P (w w' : world B A) : w_out w' = w_out w -> on_out P w w'.
Proof. intros H. exists []. by rewrite app_nil_r. Qed.
Lemma keeps_out_modify P (f : world B A -> world B A) :
  (forall w, w_out (f w) = w_out w) -> keeps (on_out P) (modify f).
Proof. intros H. apply keeps_modify. intros w. apply on_out_refl, H. Qed.
Lemma keeps_out_ri_upd P f : keeps (on_out P) (ri_upd f).
Proof. by apply keeps_out_modify. Qed.
Lemma keeps_out_be_set P b : keeps (on_out P) (be_set b).
Proof. by apply keeps_out_modify. Qed.
Lemma keeps_out_emit (P : output -> Prop) o : P o -> keeps (on_out P) (emit o).
Proof. intros HP w a w' [= <- <-]. exists [o]. split; [done | by constructor]. Qed.
Lemma keeps_out_fault P p : keeps (on_out P) (FAULT_INJECT p).
Proof.
  apply keeps_bind; [typeclasses eauto | apply keeps_gets, _ |]. intros [|n].
  - apply keeps_ret, _.
  - apply keeps_bind; [typeclasses eauto | by apply keeps_out_modify |].
    intros; apply keeps_ret, _.
Qed.
End actions.

#[export] Hint Resolve keeps_out_ri_upd keeps_out_be_set keeps_out_fault : keeps.
#[export] Hint Extern 4 (keeps (on_out _) (modify _)) =>
  apply keeps_out_modify; intros ?; reflexivity : keeps.
#[export] Hint Extern 4 (keeps (on_out _) (emit _)) =>
  apply keeps_out_emit; solve [exact I | done] : keeps.
#[export] Hint Resolve keeps_ri_get keeps_env_get keeps_be_get keeps_fault
  keeps_emit keeps_be_set : keeps.
#[export] Hint Extern 4 (keeps (on_ri _) (ri_upd _)) =>
  apply keeps_ri_upd; intros ?; reflexivity : keeps.
#[export] Hint Extern 1 (PreOrder _) => typeclasses eauto : keeps.

Lemma keeps_bind_ri_get {B A} (R : world B A -> world B A -> Prop) {T U}
    (f : raft_instance -> T) (k : T -> M (world B A) U) :
  (forall ri, keeps R (k (f ri))) -> keeps R (bind (ri_get f) k).
Proof.
  intros Hk w b w' (a & s1 & H1 & H2)%bind_Some. injection H1 as <- <-. by eapply Hk.
Qed.
Ltac keeps_bind_value ::=
  lazymatch goal with
  | |- keeps _ (bind (ri_get _) _) => apply keeps_bind_ri_get; intros ?; cbv beta
  end.

Ltac run_prim H ::=
  lazymatch type of H with
  | ri_get _ _ = Some _ => unfold ri_get, gets in H; inject_run H
  | ri_upd _ _ = Some _ => unfold ri_upd, modify in H; inject_run H
  | env_get _ _ = Some _ => unfold env_get, gets in H; inject_run H
  | be_get _ _ = Some _ => unfold be_get, gets in H; inject_run H
  | be_set _ _ = Some _ => unfold be_set, modify in H; inject_run H
  | emit _ _ = Some _ => unfold emit, modify in H; inject_run H
  | _ => idtac
  end.

(** ** Inline predicates of [raft.h] *)
Definition raft_instance_is_client (ri : raft_instance) : bool :=
  bool_decide (ri_state ri = RAFT_STATE_CLIENT).
Definition raft_instance_is_leader (ri : raft_instance) : bool :=
  bool_decide (ri_state ri = RAFT_STATE_LEADER).
Definition raft_instance_is_candidate (ri : raft_instance) : bool :=
  bool_decide (ri_state ri = RAFT_STATE_CANDIDATE).
Definition raft_instance_is_candidate_prevote (ri : raft_instance) : bool :=
  bool_decide (ri_state ri = RAFT_STATE_CANDIDATE_PREVOTE).
Definition raft_instance_is_follower (ri : raft_instance) : bool :=
  bool_decide (ri_state ri = RAFT_STATE_FOLLOWER).
Definition raft_instance_is_booting (ri : raft_instance) : bool :=
  bool_decide (ri_proc_state ri = RAFT_PROC_STATE_BOOTING).
Definition raft_instance_is_shutdown (ri : raft_instance) : bool :=
  bool_decide (ri_proc_state ri = RAFT_PROC_STATE_SHUTDOWN).
Definition raft_instance_is_running (ri : raft_instance) : bool :=
  bool_decide (ri_proc_state ri = RAFT_PROC_STATE_RUNNING).
Definition raft_instance_is_recovering (ri : raft_instance) : bool :=
  bool_decide (ri_proc_state ri = RAFT_PROC_STATE_RECOVERING).
Definition raft_server_does_synchronous_writes (ri : raft_instance) : bool :=
  ri_synchronous_writes ri.

(** [ctl_svc_node_raft_2_num_members(ri->ri_csn_raft)]. *)
Definition num_members (ri : raft_instance) : Z := Z.of_nat (length (ri_csn_raft_peers ri)).

Section members.
Context `{NC : NiovaCore}.

Definition raft_num_members_is_valid (n : Z) : bool :=
  if (n >? CTL_SVC_MAX_RAFT_PEERS) || (n <? CTL_SVC_MIN_RAFT_PEERS)
  then false else true.

Context {B A : Type}.

Definition raft_num_members_validate_and_get : M (world B A) Z :=
  let! n := ri_get num_members in
  fatal_if (negb (raft_num_members_is_valid n)) ;;;
  ret n.

Fixpoint find_uuid (peers : list uuid) (u : uuid) (i : Z) : option Z :=
  match peers with
  | [] => None
  | p :: peers' => if p =? u then Some i else find_uuid peers' u (i + 1)
  end.

Definition raft_peer_uuid_to_csn (peer_uuid : uuid) : M (world B A) (option uuid) :=
  if uuid_is_null peer_uuid then ret None
  else
    raft_num_members_validate_and_get ;;;
    let! peers := ri_get ri_csn_raft_peers in
    ret (match find_uuid peers peer_uuid 0 with
         | Some _ => Some peer_uuid
         | None => None
         end).

(** The loop of raft_peer_2_idx, as a pure function of the configuration. *)
Definition peer_idx_of (ri : raft_instance) (peer_uuid : uuid) : Z :=
  match find_uuid (ri_csn_raft_peers ri) peer_uuid 0 with
  | Some i => i
  | None => RAFT_PEER_ANY
  end.

Definition raft_peer_2_idx (peer_uuid : uuid) : M (world B A) Z :=
  let! n := ri_get num_members in
  assert_ (n <=? CTL_SVC_MAX_RAFT_PEERS) ;;;
  ri_get (fun ri => peer_idx_of ri peer_uuid).

Definition raft_member_idx_is_valid (member : Z) : M (world B A) bool :=
  let! n := raft_num_members_validate_and_get in
  ret (member <? n).

Definition raft_server_instance_self_idx : M (world B A) Z :=
  let! self := ri_get ri_csn_this_peer in
  raft_peer_2_idx self.

(** &ri->ri_leader.rls_rfi[member], read and written back. *)
Definition raft_server_get_follower_info (member : Z) : M (world B A) raft_follower_info :=
  let! ok := raft_member_idx_is_valid member in
  assert_ ok ;;;
  let! rls := ri_get ri_leader in
  lift_option (znth (rls_rfi rls) member).

Definition rfi_upd (member : Z) (f : raft_follower_info -> raft_follower_info) :
  M (world B A) unit :=
  let! rfi := raft_server_get_follower_info member in
  ri_upd (fun ri => ri <| ri_leader ::= fun rls =>
    rls <| rls_rfi ::= fun l => zupd l member (f rfi) |> |>).
End members.

(** ** Lemmas on the configuration lookups *)
Lemma find_uuid_Some peers u i j :
  find_uuid peers u i = Some j <->
  i <= j /\ peers !! Z.to_nat (j - i) = Some u /\
  forall k, i <= k < j -> peers !! Z.to_nat (k - i) <> Some u.
Proof.
  revert i. induction peers as [|p peers IH]; intros i; simpl.
  { split; [done|]. intros (? & H & _). by rewrite lookup_nil in H. }
  destruct (Z.eqb_spec p u) as [->|Hne].
  - split.
    + intros [= ->]. rewrite Z.sub_diag. split; [lia|]. split; [done|]. lia.
    + intros (Hle & Hl & Hk). destruct (decide (i = j)) as [->|]; [done|].
      exfalso. apply (Hk i); [lia|]. by rewrite Z.sub_diag.
  - rewrite IH. split.
    + intros (Hle & Hl & Hk). split; [lia|]. split.
      * replace (Z.to_nat (j - i)) with (S (Z.to_nat (j - (i + 1)))) by lia. done.
      * intros k Hkr. destruct (decide (k = i)) as [->|].
        { rewrite Z.sub_diag. simpl. congruence. }
        replace (Z.to_nat (k - i)) with (S (Z.to_nat (k - (i + 1)))) by lia.
        simpl. apply Hk. lia.
    + intros (Hle & Hl & Hk).
      destruct (decide (i = j)) as [->|].
      { rewrite Z.sub_diag in Hl. simpl in Hl. congruence. }
      replace (Z.to_nat (j - i)) with (S (Z.to_nat (j - (i + 1)))) in Hl by lia.
      split; [lia|]. split; [done|]. intros k Hkr Hk'. apply (Hk k); [lia|].
      by replace (Z.to_nat (k - i)) with (S (Z.to_nat (k - (i + 1)))) by lia.
Qed.

Lemma find_uuid_None peers u i : find_uuid peers u i = None <-> u ∉ peers.
Proof.
  revert i. induction peers as [|p peers IH]; intros i; simpl.
  { split; [|done]. intros _ []%not_elem_of_nil. }
  destruct (Z.eqb_spec p u) as [->|Hne].
  - split; [done|]. intros []. apply list_elem_of_here.
  - rewrite IH, not_elem_of_cons. naive_solver.
Qed.

Lemma peer_idx_of_spec `{NC : NiovaCore} {OK : NiovaCoreOk NC} ri u :
  num_members ri <= CTL_SVC_MAX_RAFT_PEERS ->
  (peer_idx_of ri u < num_members ri /\ znth (ri_csn_raft_peers ri) (peer_idx_of ri u) = Some u
   /\ 0 <= peer_idx_of ri u) \/
  (u ∉ ri_csn_raft_peers ri /\ peer_idx_of ri u = RAFT_PEER_ANY
   /\ num_members ri <= RAFT_PEER_ANY).
Proof.
  intros Hn. unfold peer_idx_of. destruct (find_uuid _ _ _) as [j|] eqn:E.
  - left. apply find_uuid_Some in E as (Hj & Hl & _). rewrite Z.sub_0_r in Hl.
    unfold znth. rewrite decide_True by done. split; [|done].
    apply lookup_lt_Some in Hl. unfold num_members. lia.
  - right. split; [by apply find_uuid_None in E|]. split; [done|].
    pose proof max_raft_peers_any. lia.
Qed.
