(* ===== verification/Quorum.v ===== *)
(** Majority arithmetic of [raft.h]: the majority position in a sorted array of
    indices and the index that a majority of the members has reached. *)
From stdpp Require Import base tactics list gmap sorting.
From Stdlib Require Import ZArith Lia Permutation.
From S2P Require Import Prelude RaftTypes World.
Local Open Scope Z_scope.
Local Open Scope raft_scope.

(** ** Definitions *)
Definition raft_server_entry_idx_qsort_compare (x y : Z) : Z :=
  if x <? y then -1 else if x >? y then 1 else 0.

(** C's [qsort] of an [int64_t] array with that comparison function. *)
Fixpoint qsort_insert (cmp : Z -> Z -> Z) (x : Z) (l : list Z) : list Z :=
  match l with
  | [] => [x]
  | y :: l' => if cmp x y <=? 0 then x :: y :: l' else y :: qsort_insert cmp x l'
  end.
Definition qsort (cmp : Z -> Z -> Z) (l : list Z) : list Z :=
  foldr (qsort_insert cmp) [] l.

(** The least number of members that forms a quorum: [n / 2 + 1]. *)
Definition majority (n : Z) : Z := n / 2 + 1.

(** How many members hold a value of at least [v]. *)
Definition count_ge (v : Z) (l : list Z) : Z :=
  Z.of_nat (length (filter (fun x => v <= x) l)).

Section majority.
Context `{NC : NiovaCore}.

Definition raft_majority_index_value (num_raft_members : Z) : Z :=
  if negb (raft_num_members_is_valid num_raft_members) then RAFT_PEER_ANY
  else u8 (num_raft_members - num_raft_members / 2 - 1).

(** The return code and [*ret_val]; [None] is a read outside the array. *)
Definition raft_server_get_majority_entry_idx (values : list Z) (nvalues : Z) :
  option (Z * Z) :=
  if nvalues >? CTL_SVC_MAX_RAFT_PEERS then Some (- E2BIG, -1)
  else
    let sorted := qsort raft_server_entry_idx_qsort_compare
                    (take (Z.to_nat nvalues) values)
                  ++ drop (Z.to_nat nvalues) values in
    match znth sorted (raft_majority_index_value (u8 nvalues)) with
    | Some v => Some (0, v)
    | None => None
    end.
End majority.

(** ** Sorting *)
Lemma compare_le x y : raft_server_entry_idx_qsort_compare x y <= 0 <-> x <= y.
Proof. unfold raft_server_entry_idx_qsort_compare. repeat case_match; lia. Qed.

Lemma qsort_insert_perm cmp x l : qsort_insert cmp x l ≡ₚ x :: l.
Proof.
  induction l as [|y l IH]; simpl; [done|].
  case_match; [done|]. rewrite IH. apply Permutation_swap.
Qed.

Lemma qsort_perm cmp l : qsort cmp l ≡ₚ l.
Proof. induction l as [|x l IH]; simpl; [done|]. by rewrite qsort_insert_perm, IH. Qed.

Lemma qsort_insert_sorted x l :
  StronglySorted Z.le l ->
  StronglySorted Z.le (qsort_insert raft_server_entry_idx_qsort_compare x l).
Proof.
  induction 1 as [|y l Hl IH Hy]; simpl; [repeat constructor|].
  case_match eqn:E.
  - assert (x <= y) by (apply Z.leb_le in E; by apply compare_le).
    constructor; [by constructor|]. constructor; [done|]. eapply Forall_impl; [exact Hy|]. simpl. lia.
  - apply Z.leb_gt in E. assert (~ x <= y) by (rewrite <- compare_le; lia).
    constructor; [done|]. rewrite qsort_insert_perm. constructor; [lia | done].
Qed.

Lemma qsort_sorted l :
  StronglySorted Z.le (qsort raft_server_entry_idx_qsort_compare l).
Proof. induction l; simpl; [constructor | by apply qsort_insert_sorted]. Qed.

Lemma length_qsort cmp l : length (qsort cmp l) = length l.
Proof. by rewrite qsort_perm. Qed.

(** ** Counting *)
#[export] Instance count_ge_perm v : Proper (Permutation ==> eq) (count_ge v).
Proof. intros l l' H. unfold count_ge. by rewrite H. Qed.

Lemma count_ge_cons v x l :
  count_ge v (x :: l) = (if decide (v <= x) then 1 else 0) + count_ge v l.
Proof. unfold count_ge. rewrite filter_cons. case_decide; simpl; lia. Qed.

Lemma count_ge_le_length v l : count_ge v l <= Z.of_nat (length l).
Proof.
  induction l as [|x l IH]; [unfold count_ge; simpl; lia|].
  rewrite count_ge_cons. simpl. case_decide; lia.
Qed.

Lemma count_ge_all v l : Forall (Z.le v) l -> count_ge v l = Z.of_nat (length l).
Proof.
  induction 1 as [|x l Hx Hl IH]; [done|].
  rewrite count_ge_cons, decide_True by done. simpl. lia.
Qed.

Lemma count_ge_mono v v' l : v <= v' -> count_ge v' l <= count_ge v l.
Proof.
  intros. induction l as [|x l IH]; [done|].
  rewrite !count_ge_cons. repeat case_decide; lia.
Qed.

(** In a sorted array the [k]-th element is reached by all later positions, and
    nothing greater is reached by it or an earlier position. *)
Lemma sorted_count_ge l k v :
  StronglySorted Z.le l -> l !! k = Some v ->
  Z.of_nat (length l) - Z.of_nat k <= count_ge v l /\
  forall v', v < v' -> count_ge v' l <= Z.of_nat (length l) - Z.of_nat k - 1.
Proof.
  intros Hs. revert k. induction Hs as [|x l Hs IH Hx]; intros k Hk; [done|].
  destruct k as [|k]; simpl in Hk.
  - injection Hk as ->. split.
    + rewrite count_ge_cons, decide_True, count_ge_all by done. simpl. lia.
    + intros v' Hv'. rewrite count_ge_cons, decide_False by lia.
      pose proof (count_ge_le_length v' l). simpl. lia.
  - destruct (IH _ Hk) as [IH1 IH2].
    assert (x <= v) by (eapply Forall_lookup_1 in Hx; [exact Hx | exact Hk]).
    split.
    + rewrite count_ge_cons. simpl. case_decide; lia.
    + intros v' Hv'. specialize (IH2 v' Hv').
      rewrite count_ge_cons, decide_False by lia. simpl. lia.
Qed.

(** ** Majority *)
Section majority_props.
Context `{NC : NiovaCore} {OK : NiovaCoreOk NC}.

Lemma raft_num_members_is_valid_spec n :
  raft_num_members_is_valid n = true <->
  CTL_SVC_MIN_RAFT_PEERS <= n <= CTL_SVC_MAX_RAFT_PEERS.
Proof.
  unfold raft_num_members_is_valid.
  case_match eqn:E; [apply orb_true_iff in E | apply orb_false_iff in E]; lia.
Qed.

Lemma num_members_u8 n :
  raft_num_members_is_valid n = true -> 0 < n < 2 ^ 8.
Proof.
  rewrite raft_num_members_is_valid_spec.
  pose proof min_raft_peers_pos. pose proof max_raft_peers_any.
  pose proof raft_peer_any_u8. lia.
Qed.

(** The majority position leaves exactly a quorum of positions from it on. *)
Lemma raft_majority_index_value_spec n :
  raft_num_members_is_valid n = true ->
  0 <= raft_majority_index_value n < n /\
  n - raft_majority_index_value n = majority n.
Proof.
  intros Hn. pose proof (num_members_u8 n Hn).
  unfold raft_majority_index_value, majority. rewrite Hn. cbn [negb].
  pose proof (Z.div_mod n 2 ltac:(lia)). pose proof (Z.mod_pos_bound n 2 ltac:(lia)).
  rewrite u8_small by lia. lia.
Qed.

(** What the function computes for a full array of a valid number of members. *)
Lemma get_majority_entry_idx_eq values :
  raft_num_members_is_valid (Z.of_nat (length values)) = true ->
  exists v,
    raft_server_get_majority_entry_idx values (Z.of_nat (length values)) = Some (0, v) /\
    majority (Z.of_nat (length values)) <= count_ge v values /\
    forall v', v < v' -> count_ge v' values < majority (Z.of_nat (length values)).
Proof.
  intros Hn. pose proof (num_members_u8 _ Hn) as Hu8.
  destruct (raft_majority_index_value_spec _ Hn) as [Hidx Hmaj].
  pose proof (proj1 (raft_num_members_is_valid_spec _) Hn).
  unfold raft_server_get_majority_entry_idx.
  case_match eqn:E; [lia|].
  rewrite Nat2Z.id, take_ge, drop_ge, app_nil_r by done.
  rewrite u8_small by lia.
  set (s := qsort _ values).
  assert (Hlen : length s = length values) by apply length_qsort.
  destruct (proj2 (znth_is_Some s (raft_majority_index_value
              (Z.of_nat (length values))))) as [v Hv]; [lia|].
  rewrite Hv. exists v. split; [done|].
  unfold znth in Hv. rewrite decide_True in Hv by lia.
  destruct (sorted_count_ge s _ v (qsort_sorted values) Hv) as [H1 H2].
  assert (Hp : forall w, count_ge w values = count_ge w s).
  { intros w. symmetry. apply count_ge_perm, qsort_perm. }
  rewrite Hp. split; [lia|].
  intros v' Hv'. specialize (H2 v' Hv'). rewrite Hp. lia.
Qed.
End majority_props.
