(* ===== verification/Net.v ===== *)
(** The communication layer of [src/raft_net.c] the server logic relies on:
    per-peer communication times and the recency checks built on them, leader
    redirects, event pipes, message transmission, and the runtime tunables. *)
From stdpp Require Import base tactics list gmap.
From Stdlib Require Import ZArith Lia Strings.Byte.
From S2P Require Import Prelude RaftTypes World.
Local Open Scope Z_scope.
Local Open Scope raft_scope.

(** ** Event pipes *)
Definition raft_net_evp_type_valid (ri : raft_instance) (type : raft_event_pipe_types) : bool :=
  if bool_decide (type = RAFT_EVP__NONE) || bool_decide (type = RAFT_EVP__ANY)
     || (raft_instance_is_client ri && negb (bool_decide (type = RAFT_EVP_CLIENT)))
     || (negb (raft_instance_is_client ri) && bool_decide (type = RAFT_EVP_CLIENT))
  then false else true.

(** The slot that holds [type], if any. *)
Fixpoint evp_slot (slots : list raft_event_pipe_types) (type : raft_event_pipe_types)
    (i : Z) : option Z :=
  match slots with
  | [] => None
  | t :: slots' => if bool_decide (t = type) then Some i else evp_slot slots' type (i + 1)
  end.

(** The scan of [raft_net_evp_add]: the last free slot, unless a duplicate is met. *)
Fixpoint evp_add_scan (slots : list raft_event_pipe_types) (type : raft_event_pipe_types)
    (i : Z) (idx : Z) : Z + Z :=
  match slots with
  | [] => inr idx
  | t :: slots' =>
      if bool_decide (t = RAFT_EVP__NONE) then evp_add_scan slots' type (i + 1) i
      else if bool_decide (t = type) then inl (- EALREADY)
      else evp_add_scan slots' type (i + 1) idx
  end.

(** The scan of [raft_net_evp_remove]: the last slot holding [type]. *)
Fixpoint evp_remove_scan (slots : list raft_event_pipe_types)
    (type : raft_event_pipe_types) (i : Z) (idx : Z) : Z :=
  match slots with
  | [] => idx
  | t :: slots' => evp_remove_scan slots' type (i + 1) (if bool_decide (t = type) then i else idx)
  end.

Section evp.
Context {B A : Type}.

Definition raft_net_evp_get (type : raft_event_pipe_types) : M (world B A) (option Z) :=
  ri_get (fun ri => evp_slot (ri_evps ri) type 0).

Definition raft_net_evp_notify (type : raft_event_pipe_types) : M (world B A) Z :=
  let! valid := ri_get (fun ri => raft_net_evp_type_valid ri type) in
  if negb valid then ret (- EINVAL)
  else
    let! evp := raft_net_evp_get type in
    match evp with
    | Some _ => emit (OutEvp type) ;;; ret 0
    | None => ret (- ENOENT)
    end.

Definition RAFT_NET_EVP_NOTIFY_NO_FAIL (type : raft_event_pipe_types) :
  M (world B A) unit :=
  let! rc := raft_net_evp_notify type in
  fatal_if (negb (rc =? 0)).

(** [setup_rc] and [epoll_rc] are the results of ev_pipe_setup() and
    raft_net_epoll_handle_add(). *)
Definition raft_net_evp_add (setup_rc epoll_rc : Z) (type : raft_event_pipe_types) :
  M (world B A) Z :=
  let! ri := ri_get id in
  if negb (raft_net_evp_type_valid ri type) then ret (- EINVAL)
  else
    match evp_add_scan (ri_evps ri) type 0 (-1) with
    | inl rc => ret rc
    | inr idx =>
        if idx =? -1 then ret (- ENOSPC)
        else if negb (setup_rc =? 0) then ret setup_rc
        else if negb (epoll_rc =? 0) then ret epoll_rc
        else
          ri_upd (fun ri => ri <| ri_evps ::= fun l => zupd l idx type |>) ;;;
          ret 0
    end.

Definition raft_net_evp_remove (epoll_remove_rc cleanup_rc : Z)
    (type : raft_event_pipe_types) : M (world B A) Z :=
  let! ri := ri_get id in
  if negb (raft_net_evp_type_valid ri type) then ret (- EINVAL)
  else
    let idx := evp_remove_scan (ri_evps ri) type 0 (-1) in
    if idx =? -1 then ret (- ENOENT)
    else
      let rc := if negb (epoll_remove_rc =? 0)
                   && negb (epoll_remove_rc =? - (108)) (* -ESHUTDOWN *)
                then epoll_remove_rc else 0 in
      let rc := if negb (cleanup_rc =? 0) && (rc =? 0) then cleanup_rc else rc in
      ri_upd (fun ri => ri <| ri_evps ::= fun l => zupd l idx RAFT_EVP__NONE |>) ;;;
      ret rc.
End evp.

(** ** Communication times *)
Inductive raft_net_comm_recency_type :=
| RAFT_COMM_RECENCY_RECV | RAFT_COMM_RECENCY_SEND | RAFT_COMM_RECENCY_UNACKED_SEND.

Section comm.
Context `{NC : NiovaCore} {B A : Type}.

Definition raft_net_update_last_comm_time (peer_uuid : uuid) (send_or_recv : bool) :
  M (world B A) unit :=
  if uuid_is_null peer_uuid then ret tt
  else
    let! peer_idx := raft_peer_2_idx peer_uuid in
    let! n := ri_get num_members in
    if n <=? peer_idx then ret tt
    else
      let! now := env_get env_realtime in
      if send_or_recv
      then ri_upd (fun ri => ri <| ri_last_send ::= fun l => zupd l peer_idx now |>)
      else ri_upd (fun ri => ri <| ri_last_recv ::= fun l => zupd l peer_idx now |>).

(** The return code and [*ts]. *)
Definition raft_net_comm_get_last_recv (peer_uuid : uuid) : M (world B A) (Z * timespec) :=
  if uuid_is_null peer_uuid then ret (- EINVAL, 0)
  else
    let! peer_idx := raft_peer_2_idx peer_uuid in
    let! n := ri_get num_members in
    if n <=? peer_idx then ret (- ERANGE, 0)
    else
      let! l := ri_get ri_last_recv in
      let! ts := lift_option (znth l peer_idx) in
      ret (0, ts).

(** The return code and [*ret_ms] (untouched, 0 here, on an error). *)
Definition raft_net_comm_recency (raft_peer_idx : Z) (type : raft_net_comm_recency_type) :
  M (world B A) (Z * Z) :=
  let! ri := ri_get id in
  if num_members ri <=? raft_peer_idx then ret (- EINVAL, 0)
  else
    let! ts_send := lift_option (znth (ri_last_send ri) raft_peer_idx) in
    let! ts_recv := lift_option (znth (ri_last_recv ri) raft_peer_idx) in
    let last_send := timespec_2_msec ts_send in
    let last_recv := timespec_2_msec ts_recv in
    if last_send =? 0 then ret (- EALREADY, 0)
    else
      let! realtime := env_get env_realtime in
      let now := Z.max (timespec_2_msec realtime) (Z.max last_recv last_send) in
      ret (0, match type with
              | RAFT_COMM_RECENCY_RECV =>
                  if last_recv =? 0 then 0 else now - last_recv
              | RAFT_COMM_RECENCY_SEND =>
                  if last_send =? 0 then 0 else now - last_send
              | RAFT_COMM_RECENCY_UNACKED_SEND =>
                  if last_send >? last_recv then now - last_recv else 0
              end).

(** One iteration of the search; the state is (best_peer, recency_value). *)
Definition responsive_step (start_peer n : Z) (best : Z * Z) (i : Z) :
  M (world B A) (Z * Z) :=
  let idx := (i + start_peer) mod n in
  let! r := raft_net_comm_recency idx RAFT_COMM_RECENCY_RECV in
  let '(rc, since_last_recv) := r in
  if rc =? - EALREADY then ret best
  else
    fatal_if (negb (rc =? 0)) ;;;
    if since_last_recv <? best.2 then ret (idx, since_last_recv) else ret best.

Fixpoint responsive_loop (start_peer n : Z) (best : Z * Z) (idxs : list Z) :
  M (world B A) (Z * Z) :=
  match idxs with
  | [] => ret best
  | i :: idxs' =>
      let! best' := responsive_step start_peer n best i in
      responsive_loop start_peer n best' idxs'
  end.

Definition raft_net_get_most_recently_responsive_server : M (world B A) Z :=
  let! n := ri_get num_members in
  let! random := env_get env_random in
  assert_ (negb (n =? 0)) ;;;
  let start_peer := random mod n in
  let! best := responsive_loop start_peer n (start_peer, 0) (zrange 0 n) in
  ret best.1.

Definition raft_net_server_target_check_by_idx (idx : Z) (stale_timeout_ms : Z) :
  M (world B A) Z :=
  let! r := raft_net_comm_recency idx RAFT_COMM_RECENCY_UNACKED_SEND in
  let '(rc, recency_ms) := r in
  if rc =? 0
  then ret (if recency_ms >? stale_timeout_ms then - ETIMEDOUT else 0)
  else ret rc.

Definition raft_net_server_target_check (server_uuid : uuid) (stale_timeout_ms : Z) :
  M (world B A) Z :=
  let! idx := raft_peer_2_idx server_uuid in
  raft_net_server_target_check_by_idx idx stale_timeout_ms.

Definition raft_net_apply_leader_redirect (redirect_target : uuid)
    (stale_timeout_ms : Z) : M (world B A) Z :=
  if uuid_is_null redirect_target then ret (- EINVAL)
  else
    let! leader_idx := raft_peer_2_idx redirect_target in
    if leader_idx =? RAFT_PEER_ANY then ret (- ENOENT)
    else
      assert_ (leader_idx <? CTL_SVC_MAX_RAFT_PEERS) ;;;
      let! peers := ri_get ri_csn_raft_peers in
      ri_upd (fun ri => ri <| ri_csn_leader := znth peers leader_idx |>) ;;;
      let! rc := raft_net_server_target_check_by_idx leader_idx stale_timeout_ms in
      when (rc =? - ETIMEDOUT)
        (ri_upd (fun ri => ri <| ri_last_send ::= fun l => zupd l leader_idx 0 |>)) ;;;
      ret 0.

(** [addr_ok]: the sender's address and port are the configured ones. *)
Definition raft_net_verify_sender_server_msg (sender_uuid sender_raft_uuid : uuid)
    (addr_ok : bool) : M (world B A) (option uuid) :=
  if uuid_is_null sender_uuid then ret None
  else
    let! sender_idx := raft_peer_2_idx sender_uuid in
    let! ri := ri_get id in
    if (num_members ri <=? sender_idx) || negb (ri_csn_raft ri =? sender_raft_uuid)
    then ret None
    else
      let! csn := lift_option (znth (ri_csn_raft_peers ri) sender_idx) in
      if negb addr_ok then ret None
      else
        let! can_recv := env_get (fun e => env_can_recv e csn) in
        ret (if can_recv then Some csn else None).

Definition raft_net_verify_sender_client_msg (sender_raft_uuid : uuid) :
  M (world B A) Z :=
  if uuid_is_null sender_raft_uuid then ret (- EINVAL)
  else
    let! raft := ri_get ri_csn_raft in
    ret (if raft =? sender_raft_uuid then 0 else - ENODEV).
End comm.

(** ** Transmission *)
Definition raft_net_max_rpc_size (be_type : raft_instance_store_type) : Z :=
  match be_type with
  | RAFT_INSTANCE_STORE_POSIX_FLAT_FILE => RAFT_NET_MAX_RPC_SIZE_POSIX
  | RAFT_INSTANCE_STORE_ROCKSDB
  | RAFT_INSTANCE_STORE_ROCKSDB_PERSISTENT_APP => RAFT_NET_MAX_RPC_SIZE_ROCKSDB
  end.

Definition sizeof_raft_client_rpc_msg : Z := 88.
Definition raft_client_rpc_msg_size (app_payload_size : Z) : Z :=
  u64 (sizeof_raft_client_rpc_msg + app_payload_size).
Definition raft_client_rpc_msg_size_is_valid (store_type : raft_instance_store_type)
    (app_payload_size : Z) : bool :=
  raft_client_rpc_msg_size app_payload_size <=? raft_net_max_rpc_size store_type.

Section send.
Context `{NC : NiovaCore} {B A : Type}.

(** One iovec is sent, so the checks on [niovs] pass. *)
Definition raft_net_send_udp (csn : uuid) (msg_size : Z) : M (world B A) Z :=
  env_get (fun e => env_udp_send e csn msg_size).

Definition raft_net_send_tcp (csn : uuid) (msg_size : Z) : M (world B A) Z :=
  raft_net_update_last_comm_time csn true ;;;
  env_get (fun e => env_tcp_send e csn msg_size).

(** [o] is the message as an observable effect. *)
Definition raft_net_send_msg (csn : uuid) (msg_size : Z) (o : output)
    (sock_src : raft_udp_listen_sockets) : M (world B A) Z :=
  let! ri := ri_get id in
  if msg_size >? raft_net_max_rpc_size (ri_store_type ri) then ret (- E2BIG)
  else
    let! can_send := env_get (fun e => env_can_send e csn) in
    let! size_rc :=
      if negb can_send then ret msg_size
      else
        let! rc :=
          if raft_instance_is_client ri || bool_decide (sock_src = RAFT_UDP_LISTEN_CLIENT)
          then raft_net_send_tcp csn msg_size
          else if msg_size <=? udp_get_max_size then raft_net_send_udp csn msg_size
          else if negb raft_net_tcp_disabled && (msg_size <=? tcp_get_max_size)
          then raft_net_send_tcp csn msg_size
          else ret (- E2BIG) in
        when (rc =? msg_size) (emit o) ;;;
        ret rc in
    if negb (size_rc =? msg_size) then ret size_rc
    else
      raft_net_update_last_comm_time csn true ;;;
      ret 0.
End send.

(** ** Tunables *)
Section tunables.
Context {B A : Type}.

Definition raft_net_calc_max_heartbeat_freq (ri : raft_instance) : Z :=
  ri_election_timeout_max_ms ri / RAFT_HEARTBEAT__MIN_TIME_MS.

Definition raft_net_set_heartbeat_freq (new_hb_freq : Z) (ri : raft_instance) :
  raft_instance :=
  if new_hb_freq <? RAFT_HEARTBEAT__MIN_FREQ then ri
  else
    let max_hb_freq := raft_net_calc_max_heartbeat_freq ri in
    let new_hb_freq := if new_hb_freq >? max_hb_freq then max_hb_freq else new_hb_freq in
    if negb (new_hb_freq =? ri_heartbeat_freq_per_election_min ri)
    then ri <| ri_heartbeat_freq_per_election_min := new_hb_freq |> else ri.

(** The registry setters receive the value to set: the default of the code
    when the string is "default", the parsed number otherwise. *)
Definition raft_net_lreg_set_heartbeat_freq (hb_freq : Z) : M (world B A) Z :=
  let! ri := ri_get id in
  if hb_freq =? ri_heartbeat_freq_per_election_min ri then ret 0
  else if hb_freq <? RAFT_HEARTBEAT__MIN_FREQ then ret (- ERANGE)
  else ri_upd (raft_net_set_heartbeat_freq hb_freq) ;;; ret 0.

Definition raft_net_lreg_set_election_timeout (election_timeout : Z) : M (world B A) Z :=
  if (election_timeout >? RAFT_ELECTION__MAX_TIME_MS)
     || (election_timeout <? RAFT_ELECTION__MIN_TIME_MS) then ret (- ERANGE)
  else
    let! ri := ri_get id in
    when (negb (election_timeout =? ri_election_timeout_max_ms ri))
      (ri_upd (fun ri => ri <| ri_election_timeout_max_ms := election_timeout |>) ;;;
       ri_upd (fun ri =>
         raft_net_set_heartbeat_freq (ri_heartbeat_freq_per_election_min ri) ri)) ;;;
    ret 0.

Definition raft_net_set_max_scan_entries (max_scan_entries : Z) : M (world B A) unit :=
  ri_upd (fun ri => ri <| ri_max_scan_entries :=
    if max_scan_entries <? 0 then -1
    else Z.max max_scan_entries RAFT_INSTANCE_PERSISTENT_APP_MIN_SCAN_ENTRIES |>) ;;;
  let! ri := ri_get id in
  when (ri_max_scan_entries ri >? max_scan_entries)
    (let! fi := FAULT_INJECT raft_force_set_max_scan_entries in
     when fi (ri_upd (fun ri => ri <| ri_max_scan_entries := max_scan_entries |>))).

Definition raft_net_set_log_reap_factor (log_reap_factor : Z) : M (world B A) unit :=
  ri_upd (fun ri => ri <| ri_log_reap_factor :=
    Z.min (Z.max log_reap_factor RAFT_INSTANCE_PERSISTENT_APP_REAP_FACTOR_MIN)
          RAFT_INSTANCE_PERSISTENT_APP_REAP_FACTOR_MAX |>).

Definition raft_net_set_num_checkpoints (num_ckpts : Z) : M (world B A) unit :=
  ri_upd (fun ri => ri <| ri_num_checkpoints :=
    Z.min (Z.max RAFT_INSTANCE_PERSISTENT_APP_CHKPT_MIN num_ckpts)
          RAFT_INSTANCE_PERSISTENT_APP_CHKPT_MAX |>).
End tunables.
