(* ===== verification/WriteSupp.v ===== *)
(** Write supplements ([raft_net_sm_write_supplement*] in [src/raft_net.c]): the
    key-values that accompany a backend write, their merge into the leader's
    coalesced write, and the running checksum of the values written.  The key-values
    are lists here; the arrays they live in, their growth and what a failure inside
    an item leaves behind are in [SuppMem]. *)
From stdpp Require Import base tactics list gmap.
From Stdlib Require Import ZArith Lia Strings.Byte.
From S2P Require Import Prelude RaftTypes World.
Local Open Scope Z_scope.
Local Open Scope raft_scope.

(** [is_user_cf h]: the column family behind the handle [h] is the application's
    ("PMDBTS_CF"), as the backend library reports it. *)
Section supp.
Context `{NC : NiovaCore} (is_user_cf : Z -> bool).

Definition raft_net_sm_write_supplement_init : raft_net_sm_write_supplements := zero_rnsws.

Definition raft_net_sm_write_supplement_crc_update (ws : raft_net_wr_supp)
    (rnsws : raft_net_sm_write_supplements) : raft_net_sm_write_supplements :=
  if negb (rnsws_kv_crc_enabled rnsws)
     || negb (bool_decide (rnws_op ws = RAFT_NET_WR_SUPP_OP_WRITE)) then rnsws
  else if negb (rnws_handle ws =? 0) && negb (is_user_cf (rnws_handle ws)) then rnsws
  else
    let crc := rnsws_kv_crc rnsws in
    let crc := if bool_decide (rnws_key ws = []) then crc
               else niova_crc (rnws_key ws) crc in
    let crc := if bool_decide (rnws_value ws = []) then crc
               else niova_crc (rnws_value ws) crc in
    rnsws <| rnsws_kv_crc := crc |>.

(** [alloc_ok]: the allocations succeed.  raft_net_write_supp_new() and
    raft_net_write_supp_add() are inlined; a failed allocation of the item
    array adds nothing, the failures inside the item are not modelled. *)
Definition raft_net_sm_write_supplement_add (alloc_ok : bool)
    (op : raft_net_wr_supp_op) (handle : Z) (comp_cb : bool) (key value : bytes)
    (rnsws : raft_net_sm_write_supplements) : Z * raft_net_sm_write_supplements :=
  if bool_decide (key = []) then (- EINVAL, rnsws)
  else if RAFT_NET_WR_SUPP_MAX <=? rnsws_nitems rnsws then (- ENOSPC, rnsws)
  else if negb alloc_ok then (- ENOMEM, rnsws)
  else
    let ws := {| rnws_op := op; rnws_handle := handle; rnws_has_comp_cb := comp_cb;
                 rnws_key := key; rnws_value := value |} in
    (0, raft_net_sm_write_supplement_crc_update ws
          (rnsws <| rnsws_ws ::= fun l => l ++ [ws] |>)).
End supp.

Definition raft_net_sm_write_supplement_destroy
    (rnsws : raft_net_sm_write_supplements) : raft_net_sm_write_supplements :=
  if rnsws_nitems rnsws =? 0 then rnsws else zero_rnsws.

(** The return code, the destination and the source. *)
Definition raft_net_sm_write_supplements_merge (alloc_rc : Z)
    (dest src : raft_net_sm_write_supplements) :
    Z * raft_net_sm_write_supplements * raft_net_sm_write_supplements :=
  if rnsws_nitems src =? 0 then (0, dest, src)
  else
    let new_total := rnsws_nitems dest + rnsws_nitems src in
    if RAFT_NET_WR_SUPP_MAX <? new_total then (- E2BIG, dest, src)
    else if negb (alloc_rc =? 0) then (alloc_rc, dest, src)
    else (0,
          {| rnsws_ws := rnsws_ws dest ++ rnsws_ws src; rnsws_kv_crc := 0;
             rnsws_kv_crc_enabled := false |},
          raft_net_sm_write_supplement_destroy src).

Definition raft_net_sm_write_supplement_enable_kv_crc (seed : Z)
    (rnsws : raft_net_sm_write_supplements) : raft_net_sm_write_supplements :=
  rnsws <| rnsws_kv_crc := seed |> <| rnsws_kv_crc_enabled := true |>.

Definition raft_net_sm_write_supplement_get_kv_crc
    (rnsws : raft_net_sm_write_supplements) : Z :=
  if negb (rnsws_kv_crc_enabled rnsws) then 0 else rnsws_kv_crc rnsws.
