(* ===== verification/Entry.v ===== *)
(** Raft log entries: the in-memory (and on-disk) layout of
    [struct raft_entry_header], the entry checksum, and the construction and
    validation of entries ([raft_server_entry_*] in [src/raft_server.c]). *)
From stdpp Require Import base tactics list gmap.
From Stdlib Require Import ZArith Lia Strings.Byte.
From S2P Require Import Prelude RaftTypes World.
Local Open Scope Z_scope.
Local Open Scope raft_scope.

(** ** Little-endian encoding *)
Definition s64 (z : Z) : Z := (z + 2 ^ 63) mod 2 ^ 64 - 2 ^ 63.
Definition s32 (z : Z) : Z := (z + 2 ^ 31) mod 2 ^ 32 - 2 ^ 31.
Definition byte_of_Z (z : Z) : byte :=
  match Byte.of_N (Z.to_N (z mod 256)) with Some b => b | None => x00 end.
Definition Z_of_byte (b : byte) : Z := Z.of_N (Byte.to_N b).

Fixpoint le_bytes (n : nat) (z : Z) : bytes :=
  match n with
  | O => []
  | S n' => byte_of_Z z :: le_bytes n' (z / 256)
  end.
Fixpoint le_val (l : bytes) : Z :=
  match l with
  | [] => 0
  | b :: l' => Z_of_byte b + 256 * le_val l'
  end.
(** [n] numbers of [w] bytes each. *)
Fixpoint le_array (w n : nat) (l : bytes) : list Z :=
  match n with
  | O => []
  | S n' => le_val (take w l) :: le_array w n' (drop w l)
  end.

(** ** struct raft_entry_header as bytes (x86-64 layout) *)
Definition sizeof_raft_entry_header : Z := 496.
Definition offsetof_reh_data_size : Z := 44.

(** The members from [reh_data_size] on: the part of the header the checksum
    covers. *)
Definition reh_crc_bytes (h : raft_entry_header) : bytes :=
  le_bytes 4 (reh_data_size h)
  ++ le_bytes 8 (reh_index h)
  ++ le_bytes 8 (reh_term h)
  ++ le_bytes 16 (reh_raft_uuid h)
  ++ concat (map (le_bytes 4) (reh_entry_sz h))
  ++ le_bytes 8 (reh_apply_handler_version h)
  ++ le_bytes 1 (reh_leader_change_marker h)
  ++ le_bytes 1 (reh_num_entries h)
  ++ replicate 6 x00.

Definition reh_bytes (h : raft_entry_header) : bytes :=
  le_bytes 8 (reh_magic h)
  ++ le_bytes 16 (reh_self_uuid h)
  ++ le_bytes 8 (reh_store_time h / 10 ^ 9)
  ++ le_bytes 8 (reh_store_time h mod 10 ^ 9)
  ++ le_bytes 4 (reh_crc h)
  ++ reh_crc_bytes h.

Definition reh_of_bytes (l : bytes) : raft_entry_header :=
  let fld off w := le_val (take w (drop off l)) in
  {| reh_magic := fld 0%nat 8%nat;
     reh_self_uuid := fld 8%nat 16%nat;
     reh_store_time := fld 24%nat 8%nat * 10 ^ 9 + fld 32%nat 8%nat;
     reh_crc := fld 40%nat 4%nat;
     reh_data_size := fld 44%nat 4%nat;
     reh_index := s64 (fld 48%nat 8%nat);
     reh_term := s64 (fld 56%nat 8%nat);
     reh_raft_uuid := fld 64%nat 16%nat;
     reh_entry_sz := le_array 4 100 (drop 80 l);
     reh_apply_handler_version := fld 480%nat 8%nat;
     reh_leader_change_marker := fld 488%nat 1%nat;
     reh_num_entries := fld 489%nat 1%nat |}.

(** The C types of the members. *)
Record reh_wf (h : raft_entry_header) : Prop := {
  wf_magic : 0 <= reh_magic h < 2 ^ 64;
  wf_self : 0 <= reh_self_uuid h < 2 ^ 128;
  wf_time : 0 <= reh_store_time h < 2 ^ 64;
  wf_crc : 0 <= reh_crc h < 2 ^ 32;
  wf_size : 0 <= reh_data_size h < 2 ^ 32;
  wf_index : - 2 ^ 63 <= reh_index h < 2 ^ 63;
  wf_term : - 2 ^ 63 <= reh_term h < 2 ^ 63;
  wf_raft : 0 <= reh_raft_uuid h < 2 ^ 128;
  wf_sz : Forall (fun x => 0 <= x < 2 ^ 32) (reh_entry_sz h);
  wf_sz_len : length (reh_entry_sz h) = 100%nat;
  wf_version : 0 <= reh_apply_handler_version h < 2 ^ 64;
  wf_lcm : 0 <= reh_leader_change_marker h < 2 ^ 8;
  wf_num : 0 <= reh_num_entries h < 2 ^ 8;
}.

(** ** Sizes *)
Definition RAFT_ENTRY_MAX_DATA_SIZE (ri : raft_instance) : Z :=
  u64 (ri_max_entry_size ri - RAFT_ENTRY_HEADER_RESERVE).

Definition raft_server_entry_to_total_size (re : raft_entry) : Z :=
  u64 (sizeof_raft_entry_header + reh_data_size (re_header re)).

(** The sum of the first [num_entries] sizes, in [uint32_t] arithmetic. *)
Definition raft_server_wr_entries_get_total_size (entry_sizes : list Z)
    (num_entries : Z) : Z :=
  foldl (fun total_size sz => u32 (total_size + sz)) 0
        (take (Z.to_nat num_entries) entry_sizes).

Section entry.
Context `{NC : NiovaCore}.

(** [None]: the length would be negative or reach beyond the entry's buffer. *)
Definition raft_server_entry_calc_crc (re : raft_entry) : option Z :=
  let rh := re_header re in
  let buf := reh_crc_bytes rh ++ re_data re in
  let crc_len := s32 (sizeof_raft_entry_header + reh_data_size rh
                      - offsetof_reh_data_size) in
  if (0 <=? crc_len) && (crc_len <=? Z.of_nat (length buf))
  then Some (niova_crc (take (Z.to_nat crc_len) buf) 0)
  else None.

Definition raft_server_entry_check_crc (re : raft_entry) : option Z :=
  match raft_server_entry_calc_crc re with
  | Some crc => Some (if crc =? reh_crc (re_header re) then 0 else - EBADMSG)
  | None => None
  end.

(** [None]: an assertion fails, or memory outside the buffers is touched. *)
Definition raft_server_entry_init (ri : raft_instance) (now : timespec)
    (re_idx : raft_entry_idx_t) (current_term : Z) (data : option bytes)
    (entry_sizes : list Z) (nentries : Z) (opts : raft_write_entry_opts) :
    option raft_entry :=
  let total_size := raft_server_wr_entries_get_total_size entry_sizes nentries in
  if negb (bool_decide (opts = RAFT_WR_ENTRY_OPT_LEADER_CHANGE_MARKER)
           || (bool_decide (is_Some data) && negb (nentries =? 0)))
     || negb (if bool_decide (opts = RAFT_WR_ENTRY_OPT_LOG_HEADER)
              then re_idx <? 0 else 0 <=? re_idx)
     || negb (total_size <=? RAFT_ENTRY_MAX_DATA_SIZE ri)
     || (negb (total_size =? 0)
         && (bool_decide (data = None) || (RAFT_ENTRY_NUM_ENTRIES <? nentries)))
  then None
  else
    let reh :=
      {| reh_magic := RAFT_ENTRY_MAGIC;
         reh_self_uuid := ri_csn_this_peer ri;
         reh_store_time := now;
         reh_crc := 0;
         reh_data_size := total_size;
         reh_index := re_idx;
         reh_term := current_term;
         reh_raft_uuid := ri_csn_raft ri;
         reh_entry_sz :=
           if total_size =? 0
           then replicate (Z.to_nat RAFT_ENTRY_NUM_ENTRIES) 0
           else take (Z.to_nat RAFT_ENTRY_NUM_ENTRIES)
                  (take (Z.to_nat nentries) entry_sizes
                   ++ replicate (Z.to_nat RAFT_ENTRY_NUM_ENTRIES) 0);
         reh_apply_handler_version := ri_apply_handler_version ri;
         reh_leader_change_marker :=
           if bool_decide (opts = RAFT_WR_ENTRY_OPT_LEADER_CHANGE_MARKER) then 1 else 0;
         reh_num_entries := u8 nentries |} in
    let body := take (Z.to_nat total_size) (default [] data) in
    match raft_server_entry_calc_crc {| re_header := reh; re_data := body |} with
    | Some crc => Some {| re_header := reh <| reh_crc := crc |>; re_data := body |}
    | None => None
    end.

Definition raft_server_entry_init_for_log_header (ri : raft_instance)
    (now : timespec) (re_idx : raft_entry_idx_t) (current_term : Z)
    (data : bytes) (entry_size : Z) : option raft_entry :=
  if re_idx <? 0
  then raft_server_entry_init ri now re_idx current_term (Some data) [entry_size] 1
         RAFT_WR_ENTRY_OPT_LOG_HEADER
  else None.
End entry.

Definition read_server_entry_validate (ri : raft_instance) (rh : raft_entry_header)
    (expected_reh_idx : raft_entry_idx_t) : Z :=
  if negb (reh_magic rh =? RAFT_ENTRY_MAGIC)
     || (RAFT_ENTRY_MAX_DATA_SIZE ri <? reh_data_size rh) then - EINVAL
  else if negb (reh_index rh =? expected_reh_idx) then - EBADSLT
  else if negb (reh_self_uuid rh =? ri_csn_this_peer ri)
          || negb (reh_raft_uuid rh =? ri_csn_raft ri) then - EKEYREJECTED
  else 0.

(** The null header: all zero but for [reh_index = -1]. *)
Definition null_reh : raft_entry_header := zero_reh <| reh_index := -1 |>.

Definition raft_server_entry_header_is_null (reh : raft_entry_header) : option bool :=
  if reh_magic reh =? RAFT_ENTRY_MAGIC then Some false
  else if bool_decide (reh = null_reh) then Some true else None.

(** ** The encoding *)
Lemma Z_of_byte_of_Z z : Z_of_byte (byte_of_Z z) = z mod 256.
Proof.
  unfold Z_of_byte, byte_of_Z.
  pose proof (Z.mod_pos_bound z 256 ltac:(lia)) as H.
  destruct (Byte.of_N (Z.to_N (z mod 256))) eqn:E.
  - apply Byte.to_of_N in E. lia.
  - apply Byte.of_N_None_iff in E. lia.
Qed.

Lemma length_le_bytes n z : length (le_bytes n z) = n.
Proof. revert z. induction n; intros; simpl; auto. Qed.

Lemma le_val_le_bytes n z : le_val (le_bytes n z) = z mod 256 ^ Z.of_nat n.
Proof.
  revert z. induction n as [|n IH]; intros z.
  { simpl. by rewrite Z.mod_1_r. }
  simpl le_bytes. simpl le_val. rewrite IH, Z_of_byte_of_Z.
  rewrite Nat2Z.inj_succ, Z.pow_succ_r, Z.rem_mul_r by lia. lia.
Qed.

Lemma take_le_bytes n z l : take n (le_bytes n z ++ l) = le_bytes n z.
Proof. apply take_app_length'. by rewrite length_le_bytes. Qed.

Lemma drop_le_bytes n z k l :
  (n <= k)%nat -> drop k (le_bytes n z ++ l) = drop (k - n) l.
Proof.
  intros. rewrite drop_app_ge; rewrite length_le_bytes; [done | lia].
Qed.

Lemma length_concat_le w l : length (concat (map (le_bytes w) l)) = (w * length l)%nat.
Proof.
  induction l as [|z l IH]; simpl; [lia|].
  rewrite length_app, length_le_bytes, IH. lia.
Qed.

Lemma le_array_concat w l rest :
  Forall (fun x => 0 <= x < 256 ^ Z.of_nat w) l ->
  le_array w (length l) (concat (map (le_bytes w) l) ++ rest) = l.
Proof.
  induction 1 as [|z l Hz Hl IH]; simpl; [done|].
  rewrite <- app_assoc, take_le_bytes, le_val_le_bytes, Z.mod_small by done.
  by rewrite drop_le_bytes, Nat.sub_diag, drop_0, IH by lia.
Qed.

Lemma s64_mod z : - 2 ^ 63 <= z < 2 ^ 63 -> s64 (z mod 256 ^ 8) = z.
Proof.
  intros. unfold s64. change (256 ^ 8) with (2 ^ 64).
  rewrite Zplus_mod_idemp_l, Z.mod_small by lia. lia.
Qed.

Lemma length_reh_bytes h :
  length (reh_entry_sz h) = 100%nat ->
  Z.of_nat (length (reh_bytes h)) = sizeof_raft_entry_header /\
  Z.of_nat (length (reh_crc_bytes h)) = sizeof_raft_entry_header - offsetof_reh_data_size.
Proof.
  intros H. unfold reh_bytes, reh_crc_bytes.
  rewrite !length_app, !length_le_bytes, length_concat_le, H. done.
Qed.

(** [drop_fields]: skip encoded members until the wanted offset. *)
Ltac drop_fields :=
  repeat match goal with
  | |- context [drop ?k (le_bytes ?n ?z ++ ?l)] => rewrite (drop_le_bytes n z k l) by lia
  end;
  cbn [Nat.sub]; rewrite ?drop_0, ?take_le_bytes, ?le_val_le_bytes.

Lemma drop_sizes h k :
  length (reh_entry_sz h) = 100%nat -> (480 <= k)%nat ->
  drop k (reh_bytes h) =
  drop (k - 480) (le_bytes 8 (reh_apply_handler_version h)
    ++ le_bytes 1 (reh_leader_change_marker h)
    ++ le_bytes 1 (reh_num_entries h) ++ replicate 6 x00).
Proof.
  intros H Hk. unfold reh_bytes, reh_crc_bytes.
  rewrite !app_assoc, <- !app_assoc. repeat (rewrite drop_le_bytes by lia).
  rewrite drop_app_ge; rewrite length_concat_le, H; [|lia]. f_equal. lia.
Qed.

(** What is written as the header of an entry is what is read back. *)
Lemma reh_of_bytes_reh_bytes h : reh_wf h -> reh_of_bytes (reh_bytes h) = h.
Proof.
  intros [? ? ? ? ? ? ? ? Hsz Hlen ? ? ?].
  unfold reh_of_bytes. rewrite (drop_sizes h 480 Hlen), (drop_sizes h 488 Hlen), (drop_sizes h 489 Hlen)
    by lia.
  assert (H80 : le_array 4 100 (drop 80 (reh_bytes h)) = reh_entry_sz h).
  { unfold reh_bytes, reh_crc_bytes. rewrite <- ?app_assoc.
    drop_fields.
    rewrite <- Hlen at 1. by apply le_array_concat. }
  rewrite H80. unfold reh_bytes, reh_crc_bytes. rewrite <- ?app_assoc.
  drop_fields.
  rewrite !s64_mod by done.
  pose proof (Z.mod_pos_bound (reh_store_time h) (10 ^ 9) ltac:(lia)).
  assert (0 <= reh_store_time h / 10 ^ 9 < 2 ^ 64).
  { split; [by apply Z.div_pos; lia | apply Z.div_lt_upper_bound; lia]. }
  change (256 ^ Z.of_nat 8) with (2 ^ 64). change (256 ^ Z.of_nat 16) with (2 ^ 128).
  change (256 ^ Z.of_nat 4) with (2 ^ 32). change (256 ^ Z.of_nat 1) with (2 ^ 8).
  rewrite !(Z.mod_small _ (2 ^ _)) by lia.
  pose proof (Z.div_mod (reh_store_time h) (10 ^ 9) ltac:(lia)) as Ht.
  replace (reh_store_time h / 10 ^ 9 * 10 ^ 9 + reh_store_time h mod 10 ^ 9)
    with (reh_store_time h) by lia.
  by destruct h.
Qed.

(** ** Sizes *)
Definition zsum (l : list Z) : Z := foldr Z.add 0 l.

Lemma zsum_app l l' : zsum (l ++ l') = zsum l + zsum l'.
Proof. unfold zsum. induction l; simpl; lia. Qed.

Lemma foldl_u32 l acc :
  0 <= acc < 2 ^ 32 ->
  foldl (fun total_size sz => u32 (total_size + sz)) acc l = u32 (acc + zsum l).
Proof.
  revert acc. induction l as [|x l IH]; intros acc Hacc; simpl.
  - rewrite Z.add_0_r. symmetry. by apply u32_small.
  - rewrite IH by apply u32_range. unfold u32. rewrite Zplus_mod_idemp_l. f_equal. lia.
Qed.

Lemma total_size_eq sizes n :
  raft_server_wr_entries_get_total_size sizes n = u32 (zsum (take (Z.to_nat n) sizes)).
Proof. unfold raft_server_wr_entries_get_total_size. by rewrite foldl_u32 by lia. Qed.

Lemma total_size_range sizes n :
  0 <= raft_server_wr_entries_get_total_size sizes n < 2 ^ 32.
Proof. rewrite total_size_eq. apply u32_range. Qed.

(** A leader-change marker is written with one entry of size 0. *)
Lemma total_size_marker : raft_server_wr_entries_get_total_size [0] 1 = 0.
Proof. reflexivity. Qed.

(** ** Construction and validation of entries *)
Section entry_props.
Context `{NC : NiovaCore}.

(** The members of a constructed entry. *)
Lemma raft_server_entry_init_inv ri now idx term data sizes n opts re :
  raft_server_entry_init ri now idx term data sizes n opts = Some re ->
  raft_server_entry_calc_crc re = Some (reh_crc (re_header re)) /\
  reh_magic (re_header re) = RAFT_ENTRY_MAGIC /\
  reh_index (re_header re) = idx /\ reh_term (re_header re) = term /\
  reh_self_uuid (re_header re) = ri_csn_this_peer ri /\
  reh_raft_uuid (re_header re) = ri_csn_raft ri /\
  reh_num_entries (re_header re) = u8 n /\
  reh_data_size (re_header re) = raft_server_wr_entries_get_total_size sizes n /\
  reh_data_size (re_header re) <= RAFT_ENTRY_MAX_DATA_SIZE ri /\
  reh_apply_handler_version (re_header re) = ri_apply_handler_version ri /\
  reh_leader_change_marker (re_header re) =
    (if bool_decide (opts = RAFT_WR_ENTRY_OPT_LEADER_CHANGE_MARKER) then 1 else 0) /\
  re_data re = take (Z.to_nat (reh_data_size (re_header re))) (default [] data) /\
  (opts <> RAFT_WR_ENTRY_OPT_LOG_HEADER -> 0 <= idx).
Proof.
  unfold raft_server_entry_init.
  destruct (_ || (negb (_ =? 0) && _)) eqn:Hc; [done|].
  destruct (raft_server_entry_calc_crc _) eqn:Hcrc; [|done]. intros [= <-]. simpl.
  apply orb_false_iff in Hc as [Hc _]. apply orb_false_iff in Hc as [Hc Hsz].
  apply orb_false_iff in Hc as [_ Hidx].
  apply negb_false_iff, Z.leb_le in Hsz. apply negb_false_iff in Hidx.
  split_and!; try done.
  intros Ho. rewrite bool_decide_false in Hidx by done. lia.
Qed.

(** The checksum depends only on the members from [reh_data_size] on and on
    the data. *)
Lemma calc_crc_ext re re' :
  reh_crc_bytes (re_header re) = reh_crc_bytes (re_header re') ->
  reh_data_size (re_header re) = reh_data_size (re_header re') ->
  re_data re = re_data re' ->
  raft_server_entry_calc_crc re = raft_server_entry_calc_crc re'.
Proof. unfold raft_server_entry_calc_crc. by intros -> -> ->. Qed.

Lemma le_bytes_inj n x y :
  0 <= x < 256 ^ Z.of_nat n -> 0 <= y < 256 ^ Z.of_nat n ->
  le_bytes n x = le_bytes n y -> x = y.
Proof.
  intros Hx Hy H%(f_equal le_val). rewrite !le_val_le_bytes, !Z.mod_small in H by done.
  done.
Qed.

Lemma reh_crc_bytes_version h h' :
  reh_wf h -> reh_wf h' -> reh_crc_bytes h = reh_crc_bytes h' ->
  reh_apply_handler_version h = reh_apply_handler_version h'.
Proof.
  intros Hw Hw' H. apply (f_equal (fun l => take 8 (drop 436 l))) in H.
  unfold reh_crc_bytes in H.
  do 2 (repeat match type of H with
        | context [drop ?k (le_bytes ?n ?z ++ ?l)] =>
            rewrite (drop_le_bytes n z k l) in H by lia
        end;
        rewrite drop_app_ge in H by
          (rewrite length_concat_le, ?(wf_sz_len _ Hw), ?(wf_sz_len _ Hw'); lia);
        rewrite length_concat_le, ?(wf_sz_len _ Hw), ?(wf_sz_len _ Hw') in H;
        cbn [Nat.sub Nat.mul Nat.add] in H; rewrite ?drop_0, ?take_le_bytes in H).
  eapply le_bytes_inj in H; [done | apply Hw | apply Hw'].
Qed.
End entry_props.
