(* ===== verification/Log.v ===== *)
(** The raft log as the server keeps it: the newest synced and unsynced entry
    headers, writing, reading, compaction, synchronisation, the log header and
    the start-up scan ([src/raft_server.c]). *)
From stdpp Require Import base tactics list gmap.
From Stdlib Require Import ZArith Lia Strings.Byte.
From S2P Require Import Prelude RaftTypes World Net Entry.
Local Open Scope Z_scope.
Local Open Scope raft_scope.

Definition newest_hdr (ri : raft_instance) (type : newest_entry_hdr_type) : raft_entry_header :=
  match type with
  | RI_NEHDR_SYNC => ri_newest_entry_sync ri
  | _ => ri_newest_entry_unsync ri
  end.
Definition set_newest_hdr (ri : raft_instance) (type : newest_entry_hdr_type)
    (h : raft_entry_header) : raft_instance :=
  match type with
  | RI_NEHDR_SYNC => ri <| ri_newest_entry_sync := h |>
  | _ => ri <| ri_newest_entry_unsync := h |>
  end.

Section log.
Context `{NC : NiovaCore} {B A : Type} {BE : Backend B}.
Local Abbreviation M := (M (world B A)).

(** *** Newest entry headers *)
Definition raft_instance_get_newest_header (type : newest_entry_hdr_type) :
  M raft_entry_header :=
  assert_ (negb (bool_decide (type = RI_NEHDR_ALL))) ;;;
  let! ri := ri_get id in
  if raft_instance_is_client ri then ret zero_reh
  else ret (newest_hdr ri type).

Definition raft_server_get_current_raft_entry_term (type : newest_entry_hdr_type) : M Z :=
  let! ri := ri_get id in
  if raft_instance_is_client ri then ret 0
  else let! reh := raft_instance_get_newest_header type in ret (reh_term reh).

Definition raft_server_get_current_raft_entry_data_size (type : newest_entry_hdr_type) : M Z :=
  let! ri := ri_get id in
  if raft_instance_is_client ri then ret 0
  else let! reh := raft_instance_get_newest_header type in ret (reh_data_size reh).

Definition raft_server_get_current_raft_entry_crc (type : newest_entry_hdr_type) : M Z :=
  let! ri := ri_get id in
  if raft_instance_is_client ri then ret 0
  else let! reh := raft_instance_get_newest_header type in ret (reh_crc reh).

Definition raft_server_get_current_raft_entry_index (type : newest_entry_hdr_type) : M Z :=
  let! ri := ri_get id in
  if raft_instance_is_client ri then ret (-1)
  else
    let! reh := raft_instance_get_newest_header type in
    let! null := lift_option (raft_server_entry_header_is_null reh) in
    if negb null
    then assert_ (0 <=? reh_index reh) ;;; ret (reh_index reh)
    else ret (-1).

(** One iteration of the update loop, for header [i] of the pair. *)
Definition update_newest_one (reh : raft_entry_header) (type : newest_entry_hdr_type)
    (force : bool) (i : newest_entry_hdr_type) : M unit :=
  if negb (bool_decide (type = RI_NEHDR_ALL)) && negb (bool_decide (i = type))
  then ret tt
  else
    let! ri := ri_get id in
    let updated := force || (reh_index (newest_hdr ri i) <? reh_index reh) in
    when updated (ri_upd (fun ri => set_newest_hdr ri i reh)) ;;;
    when (raft_server_does_synchronous_writes ri) (assert_ updated).

Definition raft_instance_update_newest_entry_hdr (reh : raft_entry_header)
    (type : newest_entry_hdr_type) (force : bool) : M unit :=
  if reh_index reh <? 0 then ret tt
  else
    update_newest_one reh type force RI_NEHDR_SYNC ;;;
    update_newest_one reh type force RI_NEHDR_UNSYNC.

Definition raft_server_has_unsynced_entries : M bool :=
  let! ri := ri_get id in
  let sync := ri_newest_entry_sync ri in
  let unsync := ri_newest_entry_unsync ri in
  let diff := negb (bool_decide (sync = unsync)) in
  fatal_if (diff && ((reh_index unsync <? reh_index sync)
                     || (reh_term unsync <? reh_term sync)
                     || raft_server_does_synchronous_writes ri)) ;;;
  ret diff.

Definition raft_instance_initialize_newest_entry_hdr : M unit :=
  ri_upd (fun ri => ri <| ri_newest_entry_sync := null_reh |>
                       <| ri_newest_entry_unsync := null_reh |>).

Definition raft_server_entry_next_entry_is_valid (next_reh : raft_entry_header) : M bool :=
  if reh_index next_reh <? 0 then ret true
  else
    let! unsync_hdr := raft_instance_get_newest_header RI_NEHDR_UNSYNC in
    let expected_raft_unsync_index := reh_index unsync_hdr + 1 in
    let! ri := ri_get id in
    when (raft_server_does_synchronous_writes ri)
      (let! sync_idx := raft_server_get_current_raft_entry_index RI_NEHDR_SYNC in
       fatal_if (negb (expected_raft_unsync_index =? sync_idx + 1))) ;;;
    ret (if negb (reh_index next_reh =? expected_raft_unsync_index)
            || (reh_term next_reh <? reh_term unsync_hdr)
         then false else true).

(** *** Writing *)
Definition raft_server_entry_write_by_store (re : raft_entry)
    (ws : option raft_net_sm_write_supplements) : M unit :=
  let! ri := ri_get id in
  let! be := be_get (rib_entry_write ri re ws) in
  let! be' := lift_option be in
  be_set be'.

Definition raft_server_entry_write (re_idx : raft_entry_idx_t) (term : Z)
    (data : option bytes) (entry_sizes : list Z) (nentries : Z)
    (opts : raft_write_entry_opts) (ws : option raft_net_sm_write_supplements) : M Z :=
  if negb (bool_decide (opts = RAFT_WR_ENTRY_OPT_LEADER_CHANGE_MARKER))
     && bool_decide (data = None) then ret (- EINVAL)
  else
    let entry_size := raft_server_wr_entries_get_total_size entry_sizes nentries in
    let! ri := ri_get id in
    if RAFT_ENTRY_MAX_DATA_SIZE ri <? entry_size then ret (- E2BIG)
    else
      let! now := env_get env_realtime in
      let! re := lift_option (raft_server_entry_init ri now re_idx term data entry_sizes
                                nentries opts) in
      let! valid := raft_server_entry_next_entry_is_valid (re_header re) in
      fatal_if (negb valid) ;;;
      raft_server_entry_write_by_store re ws ;;;
      let type := if raft_server_does_synchronous_writes ri
                  then RI_NEHDR_ALL else RI_NEHDR_UNSYNC in
      raft_instance_update_newest_entry_hdr (re_header re) type false ;;;
      when (raft_server_does_synchronous_writes ri)
        (let! unsynced := raft_server_has_unsynced_entries in fatal_if unsynced) ;;;
      ret 0.

(** *** Reading and compaction *)
Definition raft_server_entry_has_been_compacted (idx : raft_entry_idx_t) : M bool :=
  let! lowest_idx := ri_get ri_lowest_idx in
  ret (if idx <? lowest_idx then true else false).

Definition raft_server_entry_range_check (idx : raft_entry_idx_t) : M Z :=
  let! current_unsync_idx := raft_server_get_current_raft_entry_index RI_NEHDR_UNSYNC in
  let! booting := ri_get raft_instance_is_booting in
  if (current_unsync_idx <? idx) && negb booting then ret (- EDOM)
  else
    let! compacted := raft_server_entry_has_been_compacted idx in
    ret (if compacted then - ERANGE else 0).

(** [race]: what the checkpoint thread does between the range check and the
    lock of [ri_compaction_mutex]. *)
Definition raft_server_read_entry_register_idx_race (race : M unit)
    (entry_idx : raft_entry_idx_t) : M Z :=
  assert_ (0 <=? entry_idx) ;;;
  let! rc := raft_server_entry_range_check entry_idx in
  if negb (rc =? 0) then ret rc
  else
    race ;;;
    let! pending := ri_get ri_pending_read_idx in
    assert_ (pending =? RAFT_ENTRY_IDX_ANY) ;;;
    let! compacted := raft_server_entry_has_been_compacted entry_idx in
    let rc := if compacted then 1 else 0 in
    when (rc =? 0) (ri_upd (fun ri => ri <| ri_pending_read_idx := entry_idx |>)) ;;;
    ret rc.
Definition raft_server_read_entry_register_idx : raft_entry_idx_t -> M Z :=
  raft_server_read_entry_register_idx_race (ret tt).

Definition raft_server_read_entry_unregister_idx (entry_idx : raft_entry_idx_t) : M unit :=
  let! pending := ri_get ri_pending_read_idx in
  assert_ (pending =? entry_idx) ;;;
  ri_upd (fun ri => ri <| ri_pending_read_idx := RAFT_ENTRY_IDX_ANY |>).

Definition raft_server_compaction_try_increase_lowest_idx
    (new_lowest_idx : raft_entry_idx_t) : M Z :=
  assert_ (0 <=? new_lowest_idx) ;;;
  let! ri := ri_get id in
  assert_ (ri_lowest_idx ri <? new_lowest_idx) ;;;
  if negb (ri_pending_read_idx ri =? RAFT_ENTRY_IDX_ANY)
     && (ri_pending_read_idx ri <? new_lowest_idx)
  then ret (- EAGAIN)
  else ri_upd (fun ri => ri <| ri_lowest_idx := new_lowest_idx |>) ;;; ret 0.

(** raft_server_entry_read_by_store_common() with [header_only] set: the
    return code and the header, if one was read. *)
Definition entry_header_read_by_store_common (idx : raft_entry_idx_t) :
  M (Z * option raft_entry_header) :=
  assert_ (0 <=? idx) ;;;
  let! rc := raft_server_read_entry_register_idx idx in
  if negb (rc =? 0) then assert_ (rc =? - ERANGE) ;;; ret (rc, None)
  else
    let! ri := ri_get id in
    let! o := be_get (rib_entry_header_read ri idx) in
    let! r := lift_option o in
    raft_server_read_entry_unregister_idx idx ;;;
    fatal_if (negb (r.1 =? 0)) ;;;
    ret (0, Some r.2).

(** The same with [header_only] clear; [len] is the [reh_data_size] the caller
    stored in the buffer. *)
Definition raft_server_entry_read_by_store (idx : raft_entry_idx_t) (len : Z) :
  M (Z * option raft_entry) :=
  assert_ (0 <=? idx) ;;;
  let! rc := raft_server_read_entry_register_idx idx in
  if negb (rc =? 0) then assert_ (rc =? - ERANGE) ;;; ret (rc, None)
  else
    let! ri := ri_get id in
    let! o := be_get (rib_entry_read ri idx len) in
    let! r := lift_option o in
    raft_server_read_entry_unregister_idx idx ;;;
    fatal_if (negb (r.1 =? 0)
              && negb (r.1 =? raft_server_entry_to_total_size r.2)) ;;;
    ret (r.1, Some r.2).

(** The return code and the data copied to the sink.  When nothing was read the
    code goes on with the uninitialised buffer: no behaviour is defined. *)
Definition raft_server_entry_read (re_idx : raft_entry_idx_t) (len : Z) : M (Z * bytes) :=
  let! ri := ri_get id in
  if ri_max_entry_size ri <? len then ret (- EINVAL, [])
  else
    let! r := raft_server_entry_read_by_store re_idx len in
    let! re := lift_option r.2 in
    let rc := read_server_entry_validate ri (re_header re) re_idx in
    if negb (rc =? 0) then ret (rc, [])
    else if reh_data_size (re_header re) <? len then ret (- ENOSPC, [])
    else
      let! rc := lift_option (raft_server_entry_check_crc re) in
      ret (rc, if rc =? 0 then take (Z.to_nat len) (re_data re) else []).

Definition raft_server_entry_header_read_by_store (reh_index : raft_entry_idx_t) :
  M (Z * option raft_entry_header) :=
  if reh_index <? 0 then ret (- EINVAL, None)
  else
    let! r := entry_header_read_by_store_common reh_index in
    match r with
    | (rc, Some reh) =>
        if negb (rc =? 0) then ret (rc, Some reh)
        else
          let! ri := ri_get id in
          ret (read_server_entry_validate ri reh reh_index, Some reh)
    | (rc, None) => ret (rc, None)
    end.

(** *** Synchronisation and the log header *)
Definition raft_server_backend_sync : M Z :=
  let! sync_writes := ri_get raft_server_does_synchronous_writes in
  if sync_writes then
    let! unsynced := raft_server_has_unsynced_entries in
    fatal_if unsynced ;;; ret 0
  else
    let! be_sync := lift_option rib_backend_sync in
    let! my_last_applied_idx := ri_get (fun ri => rla_idx (ri_last_applied ri)) in
    let! unsync_reh := raft_instance_get_newest_header RI_NEHDR_UNSYNC in
    let! sync_idx := raft_server_get_current_raft_entry_index RI_NEHDR_SYNC in
    assert_ (sync_idx <=? reh_index unsync_reh) ;;;
    let! ri := ri_get id in
    let! now := env_get env_realtime in
    let! o := be_get (be_sync now ri) in
    let! r := lift_option o in
    be_set r.2 ;;;
    when (r.1 =? 0) (raft_instance_update_newest_entry_hdr unsync_reh RI_NEHDR_SYNC false) ;;;
    let! la := ri_get ri_last_applied in
    assert_ (rla_synced_idx la <=? rla_idx la) ;;;
    assert_ (rla_synced_idx la <=? my_last_applied_idx) ;;;
    when (rla_synced_idx la <? my_last_applied_idx)
      (ri_upd (fun ri => ri <| ri_last_applied ::= fun la =>
                          la <| rla_synced_idx := my_last_applied_idx |> |>)) ;;;
    ret r.1.

Definition raft_server_backend_sync_pending : M unit :=
  let! unsynced_entries := raft_server_has_unsynced_entries in
  let! rc := if unsynced_entries then raft_server_backend_sync else ret 0 in
  fatal_if (negb (rc =? 0)) ;;;
  let! ri := ri_get id in
  when (unsynced_entries && (raft_instance_is_follower ri || raft_instance_is_leader ri))
    (RAFT_NET_EVP_NOTIFY_NO_FAIL RAFT_EVP_REMOTE_SEND).

Definition raft_server_header_load : M Z :=
  let! ri := ri_get id in
  let! o := be_get (rib_header_load ri) in
  let! r := lift_option o in
  ri_upd (fun ri => ri <| ri_log_hdr := r.2 |>) ;;;
  ret r.1.

Definition raft_server_log_header_write_prep (candidate : uuid) (candidate_term : Z) :
  M unit :=
  let! hdr := ri_get ri_log_hdr in
  fatal_if (negb (uuid_is_null candidate) && (candidate_term <? rlh_term hdr)) ;;;
  ri_upd (fun ri => ri <| ri_log_hdr ::= fun h =>
    h <| rlh_seqno := u64 (rlh_seqno h + 1) |>
      <| rlh_magic := RAFT_HEADER_MAGIC |>
      <| rlh_term := candidate_term |>
      <| rlh_voted_for := candidate |> |>).

Definition raft_server_log_header_write (candidate : uuid) (candidate_term : Z) : M Z :=
  raft_server_log_header_write_prep candidate candidate_term ;;;
  let! ri := ri_get id in
  let! now := env_get env_realtime in
  let! o := be_get (rib_header_write now ri) in
  let! r := lift_option o in
  be_set r.2 ;;;
  if negb (r.1 =? 0) then ret r.1 else raft_server_backend_sync.

(** *** Start-up *)
Fixpoint entries_scan_loop (start : raft_entry_idx_t) (idxs : list raft_entry_idx_t) : M Z :=
  match idxs with
  | [] => ret 0
  | i :: idxs' =>
      let! r := raft_server_entry_header_read_by_store i in
      match r with
      | (rc, Some reh) =>
          if negb (rc =? 0) then ret rc
          else
            let! valid := if negb (start =? 0) && (start <? i)
                          then raft_server_entry_next_entry_is_valid reh
                          else ret true in
            if negb valid then ret (- EINVAL)
            else
              raft_instance_update_newest_entry_hdr reh RI_NEHDR_ALL false ;;;
              entries_scan_loop start idxs'
      | (rc, None) => ret rc
      end
  end.

Definition raft_server_entries_scan_internal (start max : raft_entry_idx_t) : M Z :=
  entries_scan_loop start (zrange start max).

Definition LOG_INITIAL_SCAN_SZ : Z := 1000.

Definition raft_server_entries_scan : M Z :=
  let! ri := ri_get id in
  let entry_max_idx := ri_entries_detected_at_startup ri in
  if entry_max_idx =? 0 then ret 0
  else if entry_max_idx <? 0 then ret (s32 entry_max_idx)
  else
    let lowest_idx := ri_lowest_idx ri in
    let starting_entry :=
      if bool_decide (ri_store_type ri = RAFT_INSTANCE_STORE_ROCKSDB_PERSISTENT_APP)
         && (0 <? ri_max_scan_entries ri) && (ri_max_scan_entries ri <? entry_max_idx)
      then Z.max lowest_idx (entry_max_idx - ri_max_scan_entries ri)
      else Z.max 0 lowest_idx in
    if 0 <? starting_entry then
      let! rc := raft_server_entries_scan_internal lowest_idx
                   (Z.min (lowest_idx + LOG_INITIAL_SCAN_SZ) entry_max_idx) in
      if negb (rc =? 0) then ret rc
      else
        raft_instance_initialize_newest_entry_hdr ;;;
        raft_server_entries_scan_internal starting_entry entry_max_idx
    else raft_server_entries_scan_internal starting_entry entry_max_idx.

Definition raft_server_log_truncate : M unit :=
  let! idx := raft_server_get_current_raft_entry_index RI_NEHDR_SYNC in
  let trunc_entry_idx := idx + 1 in
  assert_ (0 <=? trunc_entry_idx) ;;;
  let! ri := ri_get id in
  let! o := be_get (rib_log_truncate ri trunc_entry_idx) in
  let! be := lift_option o in
  be_set be.

Definition raft_server_log_load : M Z :=
  let! rc := raft_server_header_load in
  if negb (rc =? 0) then ret rc
  else
    let! rc := raft_server_entries_scan in
    if negb (rc =? 0) then ret rc
    else raft_server_log_truncate ;;; ret 0.
End log.
