(* ===== verification/Election.v ===== *)
(** Leader election: candidate state and vote counting, the vote request and
    vote reply handlers, the transitions to candidate, follower and leader, and
    the log writes of a leader ([src/raft_server.c]). *)
From stdpp Require Import base tactics list gmap.
From Stdlib Require Import ZArith Lia Strings.Byte.
From S2P Require Import Prelude RaftTypes World Net WriteSupp Entry Log.
Local Open Scope Z_scope.
Local Open Scope raft_scope.

(** sizeof(struct raft_rpc_msg): 56 bytes of header and the largest union
    member, struct raft_append_entries_request_msg. *)
Definition sizeof_raft_rpc_msg : Z := 536.

(** ** Timers *)
Definition raft_election_timeout_lower_bound (ri : raft_instance) : Z :=
  ri_election_timeout_max_ms ri / 2.

Section election.
Context `{NC : NiovaCore} {B A : Type} {BE : Backend B}.
Local Abbreviation M := (M (world B A)).

Definition raft_election_timeout_calc : M Z :=
  let! halved_timeout := ri_get raft_election_timeout_lower_bound in
  assert_ (negb (halved_timeout =? 0)) ;;;
  let! random := env_get env_random in
  ret (halved_timeout + random mod halved_timeout).

Definition raft_server_timerfd_settime : M unit :=
  let! ri := ri_get id in
  if raft_instance_is_leader ri
  then emit (OutTimer RAFT_LEADER_WAKEUP_MS true)
  else
    let! msec := raft_election_timeout_calc in
    emit (OutTimer msec false).

(** ** Sending *)
Definition raft_server_send_msg (rp : uuid) (rrm : raft_rpc_msg) : M Z :=
  let msg_size :=
    sizeof_raft_rpc_msg +
    match rrm_type rrm, rrm_payload rrm with
    | RAFT_RPC_MSG_TYPE_APPEND_ENTRIES_REQUEST, rrm_append_entries_request m =>
        raerqm_entries_sz m
    | _, _ => 0
    end in
  raft_net_send_msg rp msg_size (OutMsg rp rrm) RAFT_UDP_LISTEN_SERVER.

Definition raft_server_broadcast_msg (rrm : raft_rpc_msg) : M unit :=
  raft_num_members_validate_and_get ;;;
  let! ri := ri_get id in
  for_each (ri_csn_raft_peers ri) (fun rp =>
    if rp =? ri_csn_this_peer ri then ret tt
    else let! rc := raft_server_send_msg rp rrm in ret tt).

(** The message of type [t] with payload [p], the ids of
    raft_server_set_uuids_in_rpc_msg() filled in. *)
Definition raft_server_set_uuids_in_rpc_msg (ri : raft_instance)
    (t : raft_rpc_msg_type) (p : raft_rpc_payload) : raft_rpc_msg :=
  {| rrm_type := t; rrm_version := 0; rrm_sender_id := ri_csn_this_peer ri;
     rrm_raft_id := ri_csn_raft ri; rrm_db_id := ri_db_uuid ri; rrm_payload := p |}.

(** ** Candidate state *)
Definition count_votes (ri : raft_instance) (result : raft_vote_result) : Z :=
  Z.of_nat (length (filter (fun r => r = result)
    (take (length (ri_csn_raft_peers ri)) (rcs_results (ri_candidate ri))))).

Definition raft_server_candidate_count_votes (result : raft_vote_result) : M Z :=
  raft_num_members_validate_and_get ;;;
  ri_get (fun ri => u8 (count_votes ri result)).

Definition raft_server_init_candidate_state (prevote : bool) : M unit :=
  ri_upd (fun ri =>
    ri <| ri_state := if prevote then RAFT_STATE_CANDIDATE_PREVOTE
                      else RAFT_STATE_CANDIDATE |>
       <| ri_candidate :=
            {| rcs_term := rlh_term (ri_log_hdr ri) + 1;
               rcs_prevote := prevote;
               rcs_results := replicate (Z.to_nat CTL_SVC_MAX_RAFT_PEERS)
                                        RAFT_VOTE_RESULT_UNKNOWN |} |>).

Definition candidate_is_viable (ri : raft_instance) : bool :=
  (raft_instance_is_candidate ri
   && (rcs_term (ri_candidate ri) =? rlh_term (ri_log_hdr ri)))
  || (raft_instance_is_candidate_prevote ri
      && (rcs_term (ri_candidate ri) =? rlh_term (ri_log_hdr ri) + 1)).

Definition raft_server_candidate_is_viable : M bool := ri_get candidate_is_viable.

(** raft_server_candidate_can_become_leader() with [RAFT_VOTE_RESULT_YES],
    raft_server_prevote_candidate_can_become_candidate() with
    [RAFT_PRE_VOTE_RESULT_YES]. *)
Definition candidate_has_majority (yes : raft_vote_result) : M bool :=
  let! viable := raft_server_candidate_is_viable in
  if negb viable then ret false
  else
    let! num_yes_votes := raft_server_candidate_count_votes yes in
    let! n := ri_get num_members in
    let npeers_majority := u8 (n / 2 + 1) in
    ret (if npeers_majority <=? num_yes_votes then true else false).
Definition raft_server_candidate_can_become_leader : M bool :=
  candidate_has_majority RAFT_VOTE_RESULT_YES.
Definition raft_server_prevote_candidate_can_become_candidate : M bool :=
  candidate_has_majority RAFT_PRE_VOTE_RESULT_YES.

Definition is_prevote_result (r : raft_vote_result) : bool :=
  bool_decide (r = RAFT_PRE_VOTE_RESULT_YES) || bool_decide (r = RAFT_PRE_VOTE_RESULT_NO).
Definition is_vote_result (r : raft_vote_result) : bool :=
  bool_decide (r = RAFT_VOTE_RESULT_YES) || bool_decide (r = RAFT_VOTE_RESULT_NO).

Definition raft_server_candidate_reg_vote_result (voter : uuid)
    (result : raft_vote_result) : M Z :=
  if bool_decide (result = RAFT_VOTE_RESULT_UNKNOWN) then ret (- EINVAL)
  else
    let! ri := ri_get id in
    if negb (raft_instance_is_candidate_prevote ri || raft_instance_is_candidate ri)
    then ret (- EPERM)
    else
      let prevote := raft_instance_is_candidate_prevote ri in
      if (prevote && negb (is_prevote_result result))
         || (negb prevote && negb (is_vote_result result)) then ret (- EINVAL)
      else
        let! peer_idx := raft_peer_2_idx voter in
        if num_members ri <=? peer_idx then ret (- ERANGE)
        else
          let expected_term := rlh_term (ri_log_hdr ri) + (if prevote then 1 else 0) in
          fatal_if (negb (rcs_term (ri_candidate ri) =? expected_term)) ;;;
          ri_upd (fun ri => ri <| ri_candidate ::= fun rcs =>
            rcs <| rcs_results ::= fun l => zupd l peer_idx result |> |>) ;;;
          ret 0.

(** [again]: the call of raft_server_become_candidate(ri, false) that the
    fault-injection point triggers. *)
Definition raft_server_vote_for_self (again : M unit) : M Z :=
  let! ri := ri_get id in
  if negb (raft_instance_is_candidate_prevote ri || raft_instance_is_candidate ri)
  then ret (- EPERM)
  else
    let self := ri_csn_this_peer ri in
    let! rc := if raft_instance_is_candidate ri
               then raft_server_log_header_write self (rlh_term (ri_log_hdr ri) + 1)
               else ret 0 in
    if negb (rc =? 0) then ret rc
    else
      let yes_vote := if raft_instance_is_candidate ri
                      then RAFT_VOTE_RESULT_YES else RAFT_PRE_VOTE_RESULT_YES in
      let! rc := raft_server_candidate_reg_vote_result self yes_vote in
      let! fi := FAULT_INJECT raft_pvc_becomes_candidate in
      if fi then again ;;; ret 0 else ret rc.

(** The mutual recursion with raft_server_vote_for_self() is at most three
    calls deep: a second promotion to candidate fails the assertion. *)
Fixpoint raft_server_become_candidate_fuel (fuel : nat) (prevote : bool) : M unit :=
  match fuel with
  | O => fatal
  | S fuel' =>
      ri_upd (fun ri => ri <| ri_csn_leader := None |>) ;;;
      let! ri := ri_get id in
      when (negb prevote) (assert_ (raft_instance_is_candidate_prevote ri)) ;;;
      let! disabled := FAULT_INJECT raft_candidate_state_disabled in
      if disabled then ret tt
      else
        raft_server_init_candidate_state prevote ;;;
        let proposed_term := rlh_term (ri_log_hdr ri) + 1 in
        let! rc := raft_server_vote_for_self
                     (raft_server_become_candidate_fuel fuel' false) in
        fatal_if (negb (rc =? 0)) ;;;
        let! sync_hdr := raft_instance_get_newest_header RI_NEHDR_SYNC in
        let type := if prevote then RAFT_RPC_MSG_TYPE_PRE_VOTE_REQUEST
                    else RAFT_RPC_MSG_TYPE_VOTE_REQUEST in
        let! rrm := ri_get (fun ri => raft_server_set_uuids_in_rpc_msg ri type
          (rrm_vote_request
             {| rvrqm_proposed_term := proposed_term;
                rvrqm_last_log_term := reh_term sync_hdr;
                rvrqm_last_log_index := reh_index sync_hdr |})) in
        when (negb prevote) raft_server_timerfd_settime ;;;
        raft_server_broadcast_msg rrm ;;;
        let! has_cb := ri_get ri_has_init_cb in
        when (prevote && has_cb) (emit (OutInitCb RAFT_INIT_BECOMING_CANDIDATE_STATE))
  end.
Definition raft_server_become_candidate : bool -> M unit :=
  raft_server_become_candidate_fuel 3.

(** ** Term changes and following *)
Definition raft_server_update_log_header (new_term : Z) (peer_with_newer_term : uuid) :
  M unit :=
  let! hdr := ri_get ri_log_hdr in
  assert_ (rlh_term hdr <? new_term) ;;;
  let! rc := raft_server_log_header_write peer_with_newer_term new_term in
  fatal_if (negb (rc =? 0)).

Definition raft_server_try_update_log_header_null_voted_for_peer (new_term : Z) : M unit :=
  let! hdr := ri_get ri_log_hdr in
  when (rlh_term hdr <? new_term) (raft_server_update_log_header new_term null_uuid).

Definition raft_server_set_leader_csn (leader_csn : uuid) : M unit :=
  ri_upd (fun ri => ri <| ri_csn_leader := Some leader_csn |>).

Definition raft_server_becomes_follower (new_term : Z) (peer_with_newer_term : uuid)
    (reason : raft_follower_reasons) : M unit :=
  let! suggested_leader := raft_peer_uuid_to_csn peer_with_newer_term in
  let! self := ri_get ri_csn_this_peer in
  match suggested_leader with
  | None => ret tt
  | Some leader =>
      if leader =? self then ret tt
      else
        ri_upd (fun ri => ri <| ri_state := RAFT_STATE_FOLLOWER |>
                             <| ri_follower_reason := reason |>
                             <| ri_coalesced_wr ::= option_map (fun co =>
                                  co <| rcwi_ws ::= raft_net_sm_write_supplement_destroy |>) |>) ;;;
        let! hdr := ri_get ri_log_hdr in
        assert_ (if bool_decide (reason = RAFT_BFRSN_STALE_TERM_WHILE_CANDIDATE)
                 then rlh_term hdr <=? new_term else rlh_term hdr <? new_term) ;;;
        raft_server_set_leader_csn leader ;;;
        if new_term =? rlh_term hdr then ret tt
        else
          raft_server_update_log_header new_term
            (if bool_decide (reason = RAFT_BFRSN_VOTED_FOR_PEER)
             then peer_with_newer_term else null_uuid)
  end.

(** ** Becoming leader *)
Definition raft_server_leader_init_state : M unit :=
  let! sync_hdr := raft_instance_get_newest_header RI_NEHDR_SYNC in
  let! unsynced := raft_server_has_unsynced_entries in
  fatal_if unsynced ;;;
  let! realtime := env_get env_realtime in
  let! unstable := env_get env_unstable in
  ri_upd (fun ri => ri <| ri_state := RAFT_STATE_LEADER |>) ;;;
  let! n := raft_num_members_validate_and_get in
  ri_upd (fun ri =>
    ri <| ri_leader :=
      {| rls_initial_term_idx := reh_index sync_hdr;
         rls_leader_term := rlh_term (ri_log_hdr ri);
         rls_quorum_ok_cnt := 0;
         rls_leader_start := unstable;
         rls_leader_accumulated := 0;
         rls_rfi :=
           imap (fun i rfi =>
             if (Z.of_nat i <? n) then
               {| rfi_next_idx := reh_index sync_hdr + 1;
                  rfi_ackd_idx := RAFT_MIN_APPEND_ENTRY_IDX;
                  rfi_synced_idx := RAFT_MIN_APPEND_ENTRY_IDX;
                  rfi_current_idx_term := -1;
                  rfi_current_idx_crc := 0;
                  rfi_prev_idx_term := reh_term sync_hdr;
                  rfi_prev_idx_crc := reh_crc sync_hdr;
                  rfi_last_ack :=
                    match rcs_results (ri_candidate ri) !! i with
                    | Some RAFT_VOTE_RESULT_YES | Some RAFT_VOTE_RESULT_NO => realtime
                    | _ => 0
                    end;
                  rfi_ae_sends_wait_until := 0 |}
             else rfi)
           (replicate (Z.to_nat CTL_SVC_MAX_RAFT_PEERS) zero_rfi) |} |>).

Definition raft_server_write_next_entry (term : Z) (data : option bytes)
    (wr_entry_sizes : list Z) (nentries : Z) (opts : raft_write_entry_opts)
    (ws : option raft_net_sm_write_supplements) : M unit :=
  let! unsync_hdr := raft_instance_get_newest_header RI_NEHDR_UNSYNC in
  assert_ (reh_term unsync_hdr <=? term) ;;;
  let next_entry_idx := reh_index unsync_hdr + 1 in
  fatal_if (next_entry_idx <? 0) ;;;
  let! rc := raft_server_entry_write next_entry_idx term data wr_entry_sizes nentries
               opts ws in
  fatal_if (negb (rc =? 0)).

Definition raft_server_leader_write_new_entry (data : option bytes)
    (wr_entry_sizes : list Z) (nentries : Z) (opts : raft_write_entry_opts)
    (ws : option raft_net_sm_write_supplements) : M unit :=
  let! ri := ri_get id in
  assert_ (raft_instance_is_leader ri) ;;;
  when (bool_decide (opts = RAFT_WR_ENTRY_OPT_LEADER_CHANGE_MARKER))
    (assert_ (nentries =? 1)) ;;;
  raft_server_write_next_entry (rlh_term (ri_log_hdr ri)) data wr_entry_sizes nentries
    opts ws ;;;
  RAFT_NET_EVP_NOTIFY_NO_FAIL RAFT_EVP_REMOTE_SEND.

Definition raft_server_write_leader_change_marker : M unit :=
  let! ri := ri_get id in
  assert_ (raft_instance_is_leader ri) ;;;
  raft_server_leader_write_new_entry None [0] 1
    RAFT_WR_ENTRY_OPT_LEADER_CHANGE_MARKER None.

Definition raft_server_candidate_becomes_leader : M unit :=
  let! viable := raft_server_candidate_is_viable in
  fatal_if (negb viable) ;;;
  raft_server_leader_init_state ;;;
  raft_server_timerfd_settime ;;;
  raft_server_write_leader_change_marker ;;;
  let! self := ri_get ri_csn_this_peer in
  raft_server_set_leader_csn self ;;;
  let! has_cb := ri_get ri_has_init_cb in
  when has_cb (emit (OutInitCb RAFT_INIT_BECOMING_LEADER_STATE)).

(** ** Vote replies *)
Definition raft_server_process_vote_reply_common (sender_csn : uuid)
    (rrm : raft_rpc_msg) (vreply : raft_vote_reply_msg) : M unit :=
  assert_ (sender_csn =? rrm_sender_id rrm) ;;;
  let prevote := bool_decide (rrm_type rrm = RAFT_RPC_MSG_TYPE_PRE_VOTE_REPLY) in
  let! ri := ri_get id in
  if xorb prevote (raft_instance_is_candidate_prevote ri)
     && xorb (negb prevote) (raft_instance_is_candidate ri) then ret tt
  else
    let result :=
      if rvrpm_voted_granted vreply
      then (if prevote then RAFT_PRE_VOTE_RESULT_YES else RAFT_VOTE_RESULT_YES)
      else (if prevote then RAFT_PRE_VOTE_RESULT_NO else RAFT_VOTE_RESULT_NO) in
    let! rc := raft_server_candidate_reg_vote_result sender_csn result in
    if negb (rc =? 0) then ret tt
    else
      match result with
      | RAFT_PRE_VOTE_RESULT_YES =>
          let! can := raft_server_prevote_candidate_can_become_candidate in
          when can (raft_server_become_candidate false)
      | RAFT_PRE_VOTE_RESULT_NO => ret tt
      | RAFT_VOTE_RESULT_YES =>
          let! can := raft_server_candidate_can_become_leader in
          when can raft_server_candidate_becomes_leader
      | RAFT_VOTE_RESULT_NO =>
          when (rlh_term (ri_log_hdr ri) <? rvrpm_term vreply)
            (raft_server_becomes_follower (rvrpm_term vreply)
               (rvrpm_current_leader vreply) RAFT_BFRSN_STALE_TERM_WHILE_CANDIDATE)
      | RAFT_VOTE_RESULT_UNKNOWN => fatal
      end.

(** ** Vote requests *)
Definition raft_server_process_vote_request_decide (ri : raft_instance)
    (vreq : raft_vote_request_msg) (cmp_hdr : raft_entry_header) : bool :=
  if (rvrqm_proposed_term vreq <=? rlh_term (ri_log_hdr ri))
     || (rvrqm_last_log_term vreq <? reh_term cmp_hdr)
     || (rvrqm_last_log_index vreq <? reh_index cmp_hdr) then false else true.

Definition raft_server_process_pre_vote_request_decide (ri : raft_instance)
    (vreq : raft_vote_request_msg) (cmp_hdr : raft_entry_header) : bool :=
  raft_server_process_vote_request_decide ri vreq cmp_hdr
  && ((rlh_term (ri_log_hdr ri) + 1 <? rvrqm_proposed_term vreq)
      || (bool_decide (ri_csn_leader ri = None)
          || raft_instance_is_candidate ri || raft_instance_is_candidate_prevote ri)).

Definition raft_server_process_vote_request_common (sender_csn : uuid)
    (rrm : raft_rpc_msg) (vreq : raft_vote_request_msg) : M unit :=
  assert_ (sender_csn =? rrm_sender_id rrm) ;;;
  let prevote := bool_decide (rrm_type rrm = RAFT_RPC_MSG_TYPE_PRE_VOTE_REQUEST) in
  raft_server_backend_sync_pending ;;;
  let! sync_hdr := raft_instance_get_newest_header RI_NEHDR_SYNC in
  let! ri := ri_get id in
  let result := if prevote
                then raft_server_process_pre_vote_request_decide ri vreq sync_hdr
                else raft_server_process_vote_request_decide ri vreq sync_hdr in
  let rreply_msg := raft_server_set_uuids_in_rpc_msg ri
    (if prevote then RAFT_RPC_MSG_TYPE_PRE_VOTE_REPLY else RAFT_RPC_MSG_TYPE_VOTE_REPLY)
    (rrm_vote_reply
       {| rvrpm_voted_granted := result;
          rvrpm_term := rlh_term (ri_log_hdr ri);
          rvrpm_current_leader :=
            if negb result then default null_uuid (ri_csn_leader ri) else null_uuid |}) in
  when (negb prevote && result)
    (raft_server_becomes_follower (rvrqm_proposed_term vreq) (rrm_sender_id rrm)
       RAFT_BFRSN_VOTED_FOR_PEER) ;;;
  let! rc := raft_server_send_msg sender_csn rreply_msg in
  ret tt.
End election.

(** [solve_keeps] on the recursion of becoming a candidate. *)
Ltac keeps_become_candidate :=
  lazymatch goal with
  | |- keeps ?R (raft_server_become_candidate_fuel ?n ?p) =>
      generalize n p; let m := fresh "fuel" in let IH := fresh "IH" in
      intros m; induction m as [|m IH]; intros ?; simpl; solve_keeps
  end.
#[export] Hint Extern 1 (keeps _ (raft_server_become_candidate_fuel _ _)) =>
  keeps_become_candidate : keeps.
