(* ===== verification/Append.v ===== *)
(** The follower's side of AppendEntries: bounds and term checks, duplicate
    detection, pruning of the log, storing the entry, advancing the commit
    index, and the reply ([src/raft_server.c]). *)
From stdpp Require Import base tactics list gmap.
From Stdlib Require Import ZArith Lia Strings.Byte.
From S2P Require Import Prelude RaftTypes World Net WriteSupp Entry Log Election.
Local Open Scope Z_scope.
Local Open Scope raft_scope.

Section append.
Context `{NC : NiovaCore} {B A : Type} {BE : Backend B}.
Local Abbreviation M := (M (world B A)).

(** raft_server_entry_header_read_by_store() whose failure is fatal. *)
Definition header_read_or_fatal (idx : raft_entry_idx_t) : M raft_entry_header :=
  let! r := raft_server_entry_header_read_by_store idx in
  fatal_if (negb (r.1 =? 0)) ;;;
  lift_option r.2.

Definition raft_server_append_entry_check_already_stored
    (raerq : raft_append_entries_request_msg) : M bool :=
  let! ri := ri_get id in
  assert_ (raft_instance_is_follower ri) ;;;
  if raerqm_entry_out_of_range raerq then ret false
  else
    assert_ (RAFT_MIN_APPEND_ENTRY_IDX <=? raerqm_prev_log_index raerq) ;;;
    let! raft_current_idx := raft_server_get_current_raft_entry_index RI_NEHDR_UNSYNC in
    let leaders_next_idx_for_me := raerqm_prev_log_index raerq + 1 in
    assert_ (leaders_next_idx_for_me <=? raft_current_idx) ;;;
    let! same_term :=
      if 0 <? raerqm_log_term raerq then
        let! reh := header_read_or_fatal leaders_next_idx_for_me in
        if negb (reh_term reh =? raerqm_log_term raerq) then ret false
        else
          fatal_if (negb (raerqm_entry_out_of_range raerq)
                    && negb (raerqm_this_idx_crc raerq =? reh_crc reh)
                    && negb (raerqm_heartbeat_msg raerq)) ;;;
          ret true
      else ret true in
    if negb same_term then ret false
    else
      when (0 <=? raerqm_prev_log_index raerq)
        (let! reh := header_read_or_fatal (raerqm_prev_log_index raerq) in
         fatal_if (negb (reh_term reh =? raerqm_prev_log_term raerq)) ;;;
         fatal_if (negb (raerqm_prev_idx_crc raerq =? reh_crc reh))) ;;;
      ret true.

(** The header of the entry at [idx] becomes the newest one. *)
Definition prune_to (idx : raft_entry_idx_t) : M unit :=
  let! reh := header_read_or_fatal idx in
  raft_instance_update_newest_entry_hdr reh RI_NEHDR_ALL true.

Definition raft_server_append_entry_log_prune_if_needed
    (raerq : raft_append_entries_request_msg) : M unit :=
  let! ri := ri_get id in
  assert_ (raft_instance_is_follower ri) ;;;
  assert_ (RAFT_MIN_APPEND_ENTRY_IDX <=? raerqm_prev_log_index raerq) ;;;
  let raft_entry_idx_prune := raerqm_prev_log_index raerq + 1 in
  let! rc := raft_server_backend_sync in
  fatal_if (negb (rc =? 0)) ;;;
  let! ri := ri_get id in
  fatal_if ((raft_entry_idx_prune <=? ri_commit_idx ri)
            || (raft_entry_idx_prune <=? rla_idx (ri_last_applied ri))) ;;;
  when (0 <=? raerqm_prev_log_index raerq) (prune_to (raerqm_prev_log_index raerq)) ;;;
  raft_server_log_truncate.

(** The return code and [*reh]. *)
Definition raft_server_follower_index_ahead_of_leader
    (raerq : raft_append_entries_request_msg) : M (Z * raft_entry_header) :=
  let! stored := raft_server_append_entry_check_already_stored raerq in
  let! rc :=
    if stored then ret (- EALREADY)
    else
      raft_server_append_entry_log_prune_if_needed raerq ;;;
      let! unsynced := raft_server_has_unsynced_entries in
      assert_ (negb unsynced) ;;;
      ret 0 in
  let! reh := raft_instance_get_newest_header RI_NEHDR_SYNC in
  ret (rc, reh).

Definition raft_server_append_entry_request_bounds_check
    (raerq : raft_append_entries_request_msg) (ri : raft_instance) : Z :=
  if negb (raerqm_prev_log_index raerq =? RAFT_ENTRY_IDX_ANY)
     && (raerqm_prev_log_index raerq <? raerqm_lowest_index raerq) then - EBADR
  else if raerqm_prev_log_index raerq <? ri_lowest_idx ri then - EBADR
  else if raerqm_entry_out_of_range raerq then - EBADR
  else 0.

Definition raft_server_append_entry_log_prepare_and_check
    (raerq : raft_append_entries_request_msg) : M Z :=
  let! rc := ri_get (raft_server_append_entry_request_bounds_check raerq) in
  if negb (rc =? 0) then ret rc
  else
    let! reh := raft_instance_get_newest_header RI_NEHDR_UNSYNC in
    let! r := if raerqm_prev_log_index raerq <? reh_index reh
              then raft_server_follower_index_ahead_of_leader raerq
              else ret (0, reh) in
    if negb (r.1 =? 0) then ret r.1
    else
      let reh := r.2 in
      assert_ (reh_index reh <=? raerqm_prev_log_index raerq) ;;;
      ret (if reh_index reh <? raerqm_prev_log_index raerq then - ERANGE
           else if negb (reh_term reh =? raerqm_prev_log_term raerq) then - EEXIST
           else 0).

Definition raft_server_process_append_entries_term_check_ops (sender_csn : uuid)
    (raerq : raft_append_entries_request_msg) : M Z :=
  let! ri := ri_get id in
  let my_term := rlh_term (ri_log_hdr ri) in
  let leader_term := raerqm_leader_term raerq in
  if leader_term <? my_term then ret (- ESTALE)
  else
    (if (my_term <=? leader_term)
        && (raft_instance_is_candidate ri || raft_instance_is_candidate_prevote ri)
     then raft_server_becomes_follower leader_term sender_csn
            RAFT_BFRSN_STALE_TERM_WHILE_CANDIDATE
     else if (my_term <? leader_term) && raft_instance_is_leader ri
     then raft_server_becomes_follower leader_term sender_csn
            RAFT_BFRSN_STALE_TERM_WHILE_LEADER
     else if (my_term <? leader_term) && raft_instance_is_follower ri
     then raft_server_try_update_log_header_null_voted_for_peer leader_term
     else ret tt) ;;;
    raft_server_set_leader_csn sender_csn ;;;
    ret 0.

Definition raft_server_write_new_entry_from_leader
    (raerq : raft_append_entries_request_msg) : M unit :=
  let! ri := ri_get id in
  assert_ (raft_instance_is_follower ri) ;;;
  if raerqm_heartbeat_msg raerq then ret tt
  else
    let! unsync_hdr := raft_instance_get_newest_header RI_NEHDR_UNSYNC in
    assert_ (0 <? raerqm_log_term raerq) ;;;
    assert_ (raerqm_prev_log_term raerq <=? raerqm_log_term raerq) ;;;
    assert_ (reh_term unsync_hdr <=? raerqm_log_term raerq) ;;;
    let num_entries := u8 (raerqm_num_entries raerq) in
    assert_ (raerqm_entries_sz raerq <=? RAFT_ENTRY_MAX_DATA_SIZE ri) ;;;
    assert_ (reh_index unsync_hdr =? raerqm_prev_log_index raerq) ;;;
    let opts := if raerqm_leader_change_marker raerq
                then RAFT_WR_ENTRY_OPT_LEADER_CHANGE_MARKER
                else RAFT_WR_ENTRY_OPT_NONE in
    when (raerqm_leader_change_marker raerq) (assert_ (num_entries =? 1)) ;;;
    raft_server_write_next_entry (raerqm_log_term raerq) (Some (raerqm_entries raerq))
      (raerqm_size_arr raerq) num_entries opts None.

Definition raft_server_process_append_entries_request_prep_reply
    (raerq : raft_append_entries_request_msg)
    (stale_term non_matching_prev_term update_sli : bool) (rc : Z) : M raft_rpc_msg :=
  let! current_idx := raft_server_get_current_raft_entry_index RI_NEHDR_SYNC in
  ri_get (fun ri =>
    raft_server_set_uuids_in_rpc_msg ri RAFT_RPC_MSG_TYPE_APPEND_ENTRIES_REPLY
      (rrm_append_entries_reply
         {| raerpm_leader_term := rlh_term (ri_log_hdr ri);
            raerpm_prev_log_index := raerqm_prev_log_index raerq;
            raerpm_synced_log_index :=
              if (rc =? 0) || non_matching_prev_term then current_idx
              else RAFT_ENTRY_IDX_ANY;
            raerpm_heartbeat_msg := raerqm_heartbeat_msg raerq;
            raerpm_err_stale_term := stale_term;
            raerpm_err_non_matching_prev_term := non_matching_prev_term;
            raerpm_newly_initialized_peer := current_idx =? RAFT_ENTRY_IDX_ANY;
            raerpm_update_sli := update_sli |})).

Definition raft_server_process_append_entries_request_validity_check
    (ri : raft_instance) (raerq : raft_append_entries_request_msg) : Z :=
  if (raerqm_prev_log_index raerq <? RAFT_MIN_APPEND_ENTRY_IDX)
     || (RAFT_ENTRY_MAX_DATA_SIZE ri <? raerqm_entries_sz raerq)
  then - EINVAL else 0.

Definition raft_server_advance_commit_idx (new_commit_idx : Z) : M unit :=
  let! ri := ri_get id in
  if ri_commit_idx ri <? new_commit_idx then
    let! synced := raft_server_get_current_raft_entry_index RI_NEHDR_SYNC in
    when (new_commit_idx <=? synced)
      (ri_upd (fun ri => ri <| ri_commit_idx := new_commit_idx |>) ;;;
       RAFT_NET_EVP_NOTIFY_NO_FAIL RAFT_EVP_SM_APPLY)
  else ret tt.

Definition raft_server_append_entry_reply_send
    (raerq : raft_append_entries_request_msg) (sender_csn : uuid)
    (stale_term non_matching_prev_term update_sli : bool) (ae_rc : Z) : M unit :=
  let! rreply_msg := raft_server_process_append_entries_request_prep_reply raerq
                       stale_term non_matching_prev_term update_sli ae_rc in
  let! rc := raft_server_send_msg sender_csn rreply_msg in
  fatal_if (negb (rc =? 0)).

Definition raft_server_init_recovery_handle (rrm : raft_rpc_msg)
    (raerq : raft_append_entries_request_msg) : M unit :=
  let! now := env_get env_realtime in
  ri_upd (fun ri => ri <| ri_recovery_handle ::= fun rrh =>
    rrh <| rrh_peer_uuid := rrm_sender_id rrm |>
        <| rrh_peer_db_uuid := rrm_db_id rrm |>
        <| rrh_peer_chkpt_idx := raerqm_chkpt_index raerq |>
        <| rrh_chkpt_size := -1 |> <| rrh_remaining := -1 |>
        <| rrh_from_recovery_marker := false |> <| rrh_start := now |> |>).

Definition raft_server_process_bulk_recovery_check (rrm : raft_rpc_msg)
    (raerq : raft_append_entries_request_msg) : M Z :=
  let! my_current_idx := raft_server_get_current_raft_entry_index RI_NEHDR_UNSYNC in
  let! enter := if raerqm_entry_out_of_range raerq then ret true
                else FAULT_INJECT raft_force_bulk_recovery in
  if enter then
    if raerqm_lowest_index raerq <=? my_current_idx then ret (- EAGAIN)
    else
      ri_upd (fun ri => ri <| ri_needs_bulk_recovery := true |>) ;;;
      raft_server_init_recovery_handle rrm raerq ;;;
      ret (- ERANGE)
  else ret 0.

(** What the switch on the result of the log check decides: the result, the
    ignore-AE fault, and non_matching_prev_term. *)
Definition append_entries_store (raerq : raft_append_entries_request_msg) :
  M (Z * bool * bool) :=
  let! rc := raft_server_append_entry_log_prepare_and_check raerq in
  if rc =? 0 then
    let! ignore :=
      if negb (raerqm_heartbeat_msg raerq) then
        let! fi := FAULT_INJECT raft_follower_ignores_AE in
        when (negb fi) (raft_server_write_new_entry_from_leader raerq) ;;;
        ret fi
      else ret false in
    raft_server_advance_commit_idx (raerqm_commit_index raerq) ;;;
    ret (rc, ignore, false)
  else if rc =? - EBADR then ret (rc, false, false)
  else if rc =? - EALREADY then
    let! synced := raft_server_get_current_raft_entry_index RI_NEHDR_SYNC in
    raft_server_advance_commit_idx (Z.min (raerqm_commit_index raerq) synced) ;;;
    ret (rc, false, false)
  else ret (rc, false, true).

Definition raft_server_process_append_entries_request (sender_csn : uuid)
    (rrm : raft_rpc_msg) (raerq : raft_append_entries_request_msg) : M unit :=
  assert_ (sender_csn =? rrm_sender_id rrm) ;;;
  let! ri := ri_get id in
  if negb (raft_server_process_append_entries_request_validity_check ri raerq =? 0)
  then ret tt
  else
    let! rc := raft_server_process_bulk_recovery_check rrm raerq in
    if negb (rc =? 0) && negb (rc =? - EAGAIN) then ret tt
    else
      let update_sli := rc =? - EAGAIN in
      let! rc := raft_server_process_append_entries_term_check_ops sender_csn raerq in
      let stale_term := negb (rc =? 0) in
      assert_ ((rc =? 0) || (rc =? - ESTALE)) ;;;
      let! r := if stale_term || update_sli then ret (rc, false, false)
                else append_entries_store raerq in
      let '(rc, fault_inject_ignore_ae, non_matching_prev_term) := r in
      when (negb fault_inject_ignore_ae)
        (raft_server_append_entry_reply_send raerq sender_csn stale_term
           non_matching_prev_term update_sli rc) ;;;
      let! leader := ri_get raft_instance_is_leader in
      when (negb stale_term && negb leader) raft_server_timerfd_settime.
End append.
