(* ===== verification/Leader.v ===== *)
(** The leader's side of replication: preparing and sending AppendEntries,
    processing the replies, advancing the commit index, quorum checks
    ([src/raft_server.c]). *)
From stdpp Require Import base tactics list gmap.
From Stdlib Require Import ZArith Lia Strings.Byte.
From S2P Require Import Prelude RaftTypes World Quorum Net WriteSupp Entry Log Election Append.
Local Open Scope Z_scope.
Local Open Scope raft_scope.

Section leader.
Context `{NC : NiovaCore} {B A : Type} {BE : Backend B}.
Local Abbreviation M := (M (world B A)).

(** ** Terms *)
Definition raft_server_leader_get_current_term : M Z :=
  let! ri := ri_get id in
  assert_ (raft_instance_is_leader ri) ;;;
  assert_ (rls_leader_term (ri_leader ri) =? rlh_term (ri_log_hdr ri)) ;;;
  ret (rlh_term (ri_log_hdr ri)).

Definition raft_leader_has_applied_txn_in_my_term : M bool :=
  let! ri := ri_get id in
  if raft_instance_is_leader ri then
    fatal_if (negb (rls_leader_term (ri_leader ri) =? rlh_term (ri_log_hdr ri))) ;;;
    ret (if rls_initial_term_idx (ri_leader ri) <? rla_idx (ri_last_applied ri)
         then true else false)
  else ret false.

(** ** Preparing AppendEntries *)
Definition raft_server_refresh_follower_prev_log_term (follower : Z) : M Z :=
  let! leader := ri_get raft_instance_is_leader in
  assert_ leader ;;;
  let! rfi := raft_server_get_follower_info follower in
  assert_ (0 <=? rfi_next_idx rfi) ;;;
  let! my_raft_idx := raft_server_get_current_raft_entry_index RI_NEHDR_UNSYNC in
  when (rfi_next_idx rfi =? 0)
    (rfi_upd follower (fun rfi => rfi <| rfi_prev_idx_term := 0 |>
                                      <| rfi_current_idx_term := -1 |>)) ;;;
  let! rfi := raft_server_get_follower_info follower in
  let refresh_prev := rfi_prev_idx_term rfi <? 0 in
  let refresh_current := rfi_next_idx rfi <=? my_raft_idx in
  let! rc :=
    if refresh_prev then
      let follower_prev_entry_idx := rfi_next_idx rfi - 1 in
      assert_ (-1 <=? follower_prev_entry_idx) ;;;
      assert_ (follower_prev_entry_idx <=? my_raft_idx) ;;;
      let! r := raft_server_entry_header_read_by_store follower_prev_entry_idx in
      if r.1 <? 0 then
        rfi_upd follower (fun rfi => rfi <| rfi_prev_idx_term := 0 |>
                                         <| rfi_prev_idx_crc := 0 |>) ;;;
        ret r.1
      else
        let! reh := lift_option r.2 in
        fatal_if (reh_term reh <? 0) ;;;
        rfi_upd follower (fun rfi => rfi <| rfi_prev_idx_term := reh_term reh |>
                                         <| rfi_prev_idx_crc := reh_crc reh |>) ;;;
        ret 0
    else ret 0 in
  if rc <? 0 then ret rc
  else if refresh_current then
    let! r := raft_server_entry_header_read_by_store (rfi_next_idx rfi) in
    if r.1 <? 0 then
      rfi_upd follower (fun rfi => rfi <| rfi_current_idx_term := -1 |>
                                       <| rfi_current_idx_crc := 0 |>) ;;;
      ret r.1
    else
      let! reh := lift_option r.2 in
      rfi_upd follower (fun rfi => rfi <| rfi_current_idx_term := reh_term reh |>
                                       <| rfi_current_idx_crc := reh_crc reh |>) ;;;
      ret 0
  else ret 0.

Definition raft_server_leader_init_append_entry_msg (follower : Z) (heartbeat : bool) :
  M (Z * raft_append_entries_request_msg) :=
  let! rc := raft_server_refresh_follower_prev_log_term follower in
  fatal_if (negb (rc =? 0) && negb (rc =? - ERANGE)) ;;;
  let erange := rc =? - ERANGE in
  let! rfi := raft_server_get_follower_info follower in
  let! leader_term := raft_server_leader_get_current_term in
  let! ri := ri_get id in
  ret (if erange then - ESTALE else 0,
       {| raerqm_leader_term := leader_term;
          raerqm_log_term := if erange then 0 else rfi_current_idx_term rfi;
          raerqm_commit_index := ri_commit_idx ri;
          raerqm_lowest_index := ri_lowest_idx ri;
          raerqm_chkpt_index := ri_checkpoint_last_idx ri;
          raerqm_prev_log_term := if erange then -1 else rfi_prev_idx_term rfi;
          raerqm_prev_log_index := rfi_next_idx rfi - 1;
          raerqm_prev_idx_crc := if erange then 0 else u32 (rfi_prev_idx_crc rfi);
          raerqm_this_idx_crc := if erange then 0 else u32 (rfi_current_idx_crc rfi);
          raerqm_size_arr := replicate (Z.to_nat RAFT_ENTRY_NUM_ENTRIES) 0;
          raerqm_entries_sz := 0;
          raerqm_num_entries := 0;
          raerqm_heartbeat_msg := heartbeat || erange;
          raerqm_leader_change_marker := false;
          raerqm_entry_out_of_range := erange;
          raerqm_entries := [] |}).

(** ** Sending AppendEntries *)
Definition raft_server_append_entry_should_send_to_follower (raft_peer_idx : Z) : M bool :=
  let! rfi := raft_server_get_follower_info raft_peer_idx in
  let! unstable := env_get env_unstable in
  let now_msec := timespec_2_msec unstable in
  let! r := raft_net_comm_recency raft_peer_idx RAFT_COMM_RECENCY_UNACKED_SEND in
  if r.1 =? - EALREADY then ret false
  else
    assert_ (r.1 =? 0) ;;;
    let! send_msg :=
      if 0 <? r.2 then
        if rfi_ae_sends_wait_until rfi <? now_msec then
          rfi_upd raft_peer_idx (fun rfi => rfi <| rfi_ae_sends_wait_until ::= fun w =>
            u64 (now_msec + Z.min RAFT_NET_MAX_RETRY_MS (u64 (w * 2 + 1))) |>) ;;;
          ret true
        else ret false
      else
        rfi_upd raft_peer_idx (fun rfi => rfi <| rfi_ae_sends_wait_until := 0 |>) ;;;
        ret true in
    let! unsync_idx := raft_server_get_current_raft_entry_index RI_NEHDR_UNSYNC in
    if unsync_idx <? rfi_next_idx rfi then
      assert_ (rfi_next_idx rfi =? unsync_idx + 1) ;;; ret false
    else ret send_msg.

Definition AE_msg (ri : raft_instance) (raerq : raft_append_entries_request_msg) : raft_rpc_msg :=
  raft_server_set_uuids_in_rpc_msg ri RAFT_RPC_MSG_TYPE_APPEND_ENTRIES_REQUEST
    (rrm_append_entries_request raerq).

(** The message with the entry at [idx] attached, or nothing when the entry has
    just been compacted. *)
Definition attach_entry (idx : Z) (m : raft_append_entries_request_msg) :
  M (option raft_append_entries_request_msg) :=
  let! r := raft_server_entry_header_read_by_store idx in
  if r.1 =? - ERANGE then ret None
  else
    fatal_if (negb (r.1 =? 0)) ;;;
    let! reh := lift_option r.2 in
    assert_ (reh_index reh =? idx) ;;;
    let! d := if negb (reh_data_size reh =? 0)
              then raft_server_entry_read idx (reh_data_size reh)
              else ret (0, []) in
    if d.1 =? - ERANGE then ret None
    else
      fatal_if (negb (d.1 =? 0)) ;;;
      ret (Some
        {| raerqm_leader_term := raerqm_leader_term m;
           raerqm_log_term := raerqm_log_term m;
           raerqm_commit_index := raerqm_commit_index m;
           raerqm_lowest_index := raerqm_lowest_index m;
           raerqm_chkpt_index := raerqm_chkpt_index m;
           raerqm_prev_log_term := raerqm_prev_log_term m;
           raerqm_prev_log_index := raerqm_prev_log_index m;
           raerqm_prev_idx_crc := raerqm_prev_idx_crc m;
           raerqm_this_idx_crc := raerqm_this_idx_crc m;
           raerqm_size_arr := reh_entry_sz reh;
           raerqm_entries_sz := reh_data_size reh;
           raerqm_num_entries := reh_num_entries reh;
           raerqm_heartbeat_msg := raerqm_heartbeat_msg m;
           raerqm_leader_change_marker := negb (reh_leader_change_marker reh =? 0);
           raerqm_entry_out_of_range := raerqm_entry_out_of_range m;
           raerqm_entries := d.2 |}).

Definition as_heartbeat (m : raft_append_entries_request_msg) :
  raft_append_entries_request_msg :=
  {| raerqm_leader_term := raerqm_leader_term m;
     raerqm_log_term := raerqm_log_term m;
     raerqm_commit_index := raerqm_commit_index m;
     raerqm_lowest_index := raerqm_lowest_index m;
     raerqm_chkpt_index := raerqm_chkpt_index m;
     raerqm_prev_log_term := raerqm_prev_log_term m;
     raerqm_prev_log_index := raerqm_prev_log_index m;
     raerqm_prev_idx_crc := raerqm_prev_idx_crc m;
     raerqm_this_idx_crc := raerqm_this_idx_crc m;
     raerqm_size_arr := replicate (Z.to_nat RAFT_ENTRY_NUM_ENTRIES) 0;
     raerqm_entries_sz := 0;
     raerqm_num_entries := 0;
     raerqm_heartbeat_msg := true;
     raerqm_leader_change_marker := false;
     raerqm_entry_out_of_range := raerqm_entry_out_of_range m;
     raerqm_entries := raerqm_entries m |}.

(** The body of the loop for peer [i]; the result is the value of the local
    [heartbeat], which the next iterations see. *)
Definition append_entry_sender_one (my_raft_idx : Z) (i : Z) (rp : uuid)
    (heartbeat : bool) : M bool :=
  let! self := ri_get ri_csn_this_peer in
  if rp =? self then ret heartbeat
  else
    let! should := raft_server_append_entry_should_send_to_follower i in
    if negb should && negb heartbeat then ret heartbeat
    else
      let! r := raft_server_leader_init_append_entry_msg i heartbeat in
      let '(rc, raerq) := r in
      assert_ ((rc =? 0) || (rc =? - ESTALE)) ;;;
      let heartbeat := if rc =? - ESTALE then true else heartbeat in
      when (rc =? - ESTALE) (assert_ (raerqm_heartbeat_msg raerq)) ;;;
      let peer_next_raft_idx := raerqm_prev_log_index raerq + 1 in
      fatal_if (my_raft_idx <? peer_next_raft_idx - 1) ;;;
      let! m := if negb heartbeat && (peer_next_raft_idx <=? my_raft_idx)
                then attach_entry peer_next_raft_idx raerq
                else ret (Some (as_heartbeat raerq)) in
      match m with
      | None => ret heartbeat
      | Some m =>
          let! rrm := ri_get (fun ri => AE_msg ri m) in
          let! rc := raft_server_send_msg rp rrm in
          ret heartbeat
      end.

Fixpoint append_entry_sender_loop (my_raft_idx : Z) (i : Z) (peers : list uuid)
    (heartbeat : bool) : M unit :=
  match peers with
  | [] => ret tt
  | rp :: peers' =>
      let! heartbeat' := append_entry_sender_one my_raft_idx i rp heartbeat in
      append_entry_sender_loop my_raft_idx (i + 1) peers' heartbeat'
  end.

Definition raft_server_append_entry_sender (heartbeat : bool) : M unit :=
  let! my_raft_idx := raft_server_get_current_raft_entry_index RI_NEHDR_UNSYNC in
  let! leader := ri_get raft_instance_is_leader in
  if negb leader || (my_raft_idx <? 0) then ret tt
  else
    raft_num_members_validate_and_get ;;;
    let! peers := ri_get ri_csn_raft_peers in
    append_entry_sender_loop my_raft_idx 0 peers heartbeat.

Definition raft_server_issue_heartbeat : M unit :=
  let! leader := ri_get raft_instance_is_leader in
  assert_ leader ;;;
  raft_server_append_entry_sender true.

(** ** Committing *)
Definition raft_server_leader_setup_self_follower_info : M unit :=
  let! leader := ri_get raft_instance_is_leader in
  assert_ leader ;;;
  let! this_peer_num := raft_server_instance_self_idx in
  let! sync_hdr := raft_instance_get_newest_header RI_NEHDR_SYNC in
  rfi_upd this_peer_num (fun self =>
    self <| rfi_next_idx := reh_index sync_hdr + 1 |>
         <| rfi_synced_idx := reh_index sync_hdr |>
         <| rfi_ackd_idx := reh_index sync_hdr |>
         <| rfi_prev_idx_term := reh_term sync_hdr |>).

(** sync_indexes[]: for each member the index it is known to have stored. *)
Definition sync_indexes (ri : raft_instance) : list Z :=
  map (fun rfi => Z.min (rfi_ackd_idx rfi) (rfi_synced_idx rfi))
      (take (length (ri_csn_raft_peers ri)) (rls_rfi (ri_leader ri))).

Definition raft_server_leader_calculate_committed_idx : M Z :=
  let! leader := ri_get raft_instance_is_leader in
  assert_ leader ;;;
  raft_server_leader_setup_self_follower_info ;;;
  let! ri := ri_get id in
  assert_ (num_members ri <=? CTL_SVC_MAX_RAFT_PEERS) ;;;
  let! r := lift_option (raft_server_get_majority_entry_idx (sync_indexes ri)
                           (num_members ri)) in
  fatal_if (negb (r.1 =? 0)) ;;;
  ret r.2.

Definition raft_server_leader_can_advance_commit_idx (sync_thread : bool) : M Z :=
  let! ri := ri_get id in
  if negb (raft_instance_is_leader ri) then ret (-1) (* ID_ANY_64bit *)
  else
    let! committed_raft_idx := raft_server_leader_calculate_committed_idx in
    let! ri := ri_get id in
    let initial := rls_initial_term_idx (ri_leader ri) in
    fatal_if (negb sync_thread && (committed_raft_idx <? ri_commit_idx ri)
              && (initial <=? committed_raft_idx)) ;;;
    ret (if (initial <=? committed_raft_idx) && (ri_commit_idx ri <? committed_raft_idx)
         then committed_raft_idx else RAFT_ENTRY_IDX_ANY).

Definition raft_server_leader_try_advance_commit_idx : M unit :=
  let! leader := ri_get raft_instance_is_leader in
  assert_ leader ;;;
  let! committed_raft_idx := raft_server_leader_can_advance_commit_idx false in
  when (negb (committed_raft_idx =? RAFT_ENTRY_IDX_ANY))
    (raft_server_advance_commit_idx committed_raft_idx).

Definition raft_server_leader_try_advance_commit_idx_from_sync_thread : M unit :=
  let! idx := raft_server_leader_can_advance_commit_idx true in
  when (negb (idx =? RAFT_ENTRY_IDX_ANY))
    (RAFT_NET_EVP_NOTIFY_NO_FAIL RAFT_EVP_ASYNC_COMMIT_IDX_ADV).

(** ** Replies *)
Definition raft_server_try_update_follower_sync_idx (member : Z) (term sli : Z) : M unit :=
  let! reh := raft_instance_get_newest_header RI_NEHDR_SYNC in
  let! rfi := raft_server_get_follower_info member in
  if negb (term =? reh_term reh) then ret tt
  else if rfi_next_idx rfi <? rfi_synced_idx rfi then ret tt
  else
    let ackd := rfi_ackd_idx rfi <? rfi_next_idx rfi - 1 in
    let syncd := rfi_synced_idx rfi <? sli in
    when ackd (rfi_upd member (fun rfi => rfi <| rfi_ackd_idx := rfi_next_idx rfi - 1 |>)) ;;;
    when syncd (rfi_upd member (fun rfi => rfi <| rfi_synced_idx := sli |>)) ;;;
    when (ackd || syncd) raft_server_leader_try_advance_commit_idx.

(** rfi_next_idx, and the invalidated previous term, after a non-matching reply. *)
Definition rfi_rewind (raerp : raft_append_entries_reply_msg) (rfi : raft_follower_info) :
  raft_follower_info :=
  if 0 <? rfi_next_idx rfi then
    rfi <| rfi_next_idx :=
             if raerpm_newly_initialized_peer raerp then 0
             else if (0 <=? raerpm_synced_log_index raerp)
                     && (raerpm_synced_log_index raerp <? rfi_next_idx rfi)
                  then raerpm_synced_log_index raerp
                  else rfi_next_idx rfi - 1 |>
        <| rfi_prev_idx_term := -1 |>
  else rfi.

Definition raft_server_apply_append_entries_reply_result (follower_uuid : uuid)
    (raerp : raft_append_entries_reply_msg) : M unit :=
  let! leader := ri_get raft_instance_is_leader in
  assert_ leader ;;;
  assert_ (negb (raerpm_err_stale_term raerp)) ;;;
  let! follower_idx := raft_peer_2_idx follower_uuid in
  assert_ (negb (follower_idx =? RAFT_PEER_ANY)) ;;;
  let! now := env_get env_realtime in
  rfi_upd follower_idx (fun rfi => rfi <| rfi_last_ack := now |>) ;;;
  let! rfi := raft_server_get_follower_info follower_idx in
  if negb (raerpm_prev_log_index raerp + 1 =? rfi_next_idx rfi) then ret tt
  else
    (if raerpm_update_sli raerp then
       when (rfi_next_idx rfi <? raerpm_synced_log_index raerp)
         (rfi_upd follower_idx (fun rfi =>
            rfi <| rfi_next_idx := raerpm_synced_log_index raerp + 1 |>
                <| rfi_ackd_idx := raerpm_synced_log_index raerp |>
                <| rfi_synced_idx := raerpm_synced_log_index raerp |>
                <| rfi_prev_idx_term := -1 |>))
     else if raerpm_err_non_matching_prev_term raerp then
       rfi_upd follower_idx (rfi_rewind raerp)
     else
       when (negb (raerpm_heartbeat_msg raerp))
         (rfi_upd follower_idx (fun rfi =>
            rfi <| rfi_prev_idx_term := -1 |> <| rfi_next_idx ::= Z.succ |>)) ;;;
       raft_server_try_update_follower_sync_idx follower_idx
         (raerpm_leader_term raerp) (raerpm_synced_log_index raerp)) ;;;
    let! rfi := raft_server_get_follower_info follower_idx in
    let! unsync_idx := raft_server_get_current_raft_entry_index RI_NEHDR_UNSYNC in
    when (rfi_next_idx rfi - 1 <? unsync_idx)
      (RAFT_NET_EVP_NOTIFY_NO_FAIL RAFT_EVP_REMOTE_SEND).

Definition raft_server_process_append_entries_reply (sender_csn : uuid)
    (rrm : raft_rpc_msg) (raerp : raft_append_entries_reply_msg) : M unit :=
  assert_ (sender_csn =? rrm_sender_id rrm) ;;;
  let! ri := ri_get id in
  if negb (raft_instance_is_leader ri) then ret tt
  else if raerpm_err_stale_term raerp then
    when (rlh_term (ri_log_hdr ri) <? raerpm_leader_term raerp)
      (raft_server_becomes_follower (raerpm_leader_term raerp) sender_csn
         RAFT_BFRSN_STALE_TERM_WHILE_LEADER)
  else raft_server_apply_append_entries_reply_result sender_csn raerp.

Definition raft_server_process_sync_idx_update (sender_csn : uuid)
    (rrm : raft_rpc_msg) (rsium : raft_sync_idx_update_msg) : M unit :=
  assert_ (sender_csn =? rrm_sender_id rrm) ;;;
  let! ri := ri_get id in
  if negb (raft_instance_is_leader ri) then ret tt
  else if negb (rsium_term rsium =? rlh_term (ri_log_hdr ri)) then ret tt
  else
    let! follower_idx := raft_peer_2_idx sender_csn in
    if follower_idx =? RAFT_PEER_ANY then ret tt
    else raft_server_try_update_follower_sync_idx follower_idx
           (rsium_term rsium) (rsium_synced_log_index rsium).

(** ** Quorum *)
(** Whether a follower's last acknowledgement falls within the window. *)
Definition acked_within (now comm_window_ms : Z) (rfi : raft_follower_info) : bool :=
  (rfi_last_ack rfi <=? now)
  && (timespec_2_msec (now - rfi_last_ack rfi) <=? comm_window_ms).

Definition num_acked_within_window (now comm_window_ms self_idx : Z) (ri : raft_instance) : Z :=
  1 + Z.of_nat (length (filter
    (fun p => p.1 <> Z.to_nat self_idx /\ acked_within now comm_window_ms p.2 = true)
    (imap pair (take (length (ri_csn_raft_peers ri)) (rls_rfi (ri_leader ri)))))).

Definition raft_leader_majority_followers_comm_window (comm_window_ms : Z) : M bool :=
  let! leader := ri_get raft_instance_is_leader in
  if negb leader then ret false
  else
    let! deposed := FAULT_INJECT raft_leader_may_be_deposed in
    if deposed then ret false
    else
      let! now := env_get env_realtime in
      let! n := raft_num_members_validate_and_get in
      let! self_idx := raft_server_instance_self_idx in
      let! num := ri_get (num_acked_within_window now comm_window_ms self_idx) in
      ret (if n / 2 + 1 <=? num then true else false).

Definition raft_leader_instance_is_fresh : M bool :=
  let! window := ri_get raft_election_timeout_lower_bound in
  raft_leader_majority_followers_comm_window window.

Definition raft_leader_check_quorum : M bool :=
  let! ri := ri_get id in
  assert_ (raft_instance_is_leader ri) ;;;
  let! quorum_intact := raft_leader_majority_followers_comm_window
    (u32 (raft_election_timeout_lower_bound ri * ri_check_quorum_timeout_factor ri)) in
  when quorum_intact
    (ri_upd (fun ri => ri <| ri_leader ::= fun rls => rls <| rls_quorum_ok_cnt ::= Z.succ |> |>)) ;;;
  ret quorum_intact.

Definition raft_server_increment_leader_time : M unit :=
  let! ri := ri_get id in
  if negb (raft_instance_is_leader ri) then ret tt
  else
    let! now := env_get env_unstable in
    assert_ (rls_leader_start (ri_leader ri) <=? now) ;;;
    ri_upd (fun ri => ri <| ri_leader ::= fun rls =>
      rls <| rls_leader_accumulated := now - rls_leader_start rls |> |>).
End leader.

Lemma keeps_append_entry_sender_loop `{NC : NiovaCore} {B A} {BE : Backend B}
    (R : world B A -> world B A -> Prop) `{!PreOrder R} my_raft_idx i peers heartbeat :
  (forall i rp h, keeps R (append_entry_sender_one my_raft_idx i rp h)) ->
  keeps R (append_entry_sender_loop my_raft_idx i peers heartbeat).
Proof.
  intros Hone. revert i heartbeat.
  induction peers as [|rp peers IH]; intros; simpl; solve_keeps.
Qed.
#[export] Hint Extern 1 (keeps _ (append_entry_sender_loop _ _ _ _)) =>
  apply keeps_append_entry_sender_loop; [typeclasses eauto | intros; solve_keeps] : keeps.
