(* ===== verification/ClientReq.v ===== *)
(** Client requests: acceptance, replies and redirects, the coalescing of
    writes into log entries, and the receive handlers ([src/raft_server.c]). *)
From stdpp Require Import base tactics list gmap.
From Stdlib Require Import ZArith Lia Strings.Byte.
From S2P Require Import Prelude RaftTypes World Quorum Net WriteSupp Entry Log Election Append Leader.
Local Open Scope Z_scope.
Local Open Scope raft_scope.

Definition RAFT_BS_SMALL_SZ : Z := 4096.
Definition RAFT_BS_LARGE_SZ : Z := 4194304.
Definition RAFT_BS_APPLY_SZ : Z := 4194304.
Definition ID_ANY_64bit : Z := -1.

Definition raft_net_client_request_handle_has_reply_info
    (rncr : raft_net_client_request_handle) : bool :=
  negb (uuid_is_null (rncr_client_uuid rncr)
        || (u64 (rncr_msg_id rncr) =? u64 ID_ANY_64bit)
        || (rncr_msg_id rncr =? 0)
        || (rncr_reply_data_max_size rncr =? 0)
        || bool_decide (rncr_reply_ptr rncr = None)).

Definition raft_net_client_request_handle_set_reply_info (client_uuid : uuid) (msg_id : Z)
    (rncr : raft_net_client_request_handle) : raft_net_client_request_handle :=
  rncr <| rncr_client_uuid := client_uuid |> <| rncr_msg_id := msg_id |>.

(** The new reply message of raft_server_client_reply_init(): the header is
    cleared and filled in, the data behind it stays. *)
Definition client_reply (ri : raft_instance) (rncr : raft_net_client_request_handle)
    (msg_type : raft_client_rpc_msg_type) (reply : raft_client_rpc_msg) : raft_client_rpc_msg :=
  zero_rcrm <| rcrm_data := rcrm_data reply |>
            <| rcrm_raft_id := ri_csn_raft ri |>
            <| rcrm_sender_id := ri_csn_this_peer ri |>
            <| rcrm_dest_id := rncr_client_uuid rncr |>
            <| rcrm_type := msg_type |>
            <| rcrm_msg_id := rncr_msg_id rncr |>
            <| rcrm_data_size := u32 (rncr_reply_data_size rncr) |>.

Definition zero_co_wr : raft_instance_co_wr :=
  {| rcwi_nentries := 0;
     rcwi_entry_sizes := replicate (Z.to_nat RAFT_ENTRY_NUM_ENTRIES) 0;
     rcwi_total_size := 0; rcwi_ws := zero_rnsws; rcwi_buffer := [] |}.

(** memcpy() of [data] to offset [off] of [buf]. *)
Definition buf_write (buf : bytes) (off : Z) (data : bytes) : bytes :=
  take (Z.to_nat off) buf ++ data ++ drop (Z.to_nat off + length data) buf.

(** The first [n] elements of the array [l]; reading past the end has no
    behaviour. *)
Definition read_array {X} (l : list X) (n : Z) : option (list X) :=
  if n <=? Z.of_nat (length l) then Some (take (Z.to_nat n) l) else None.

Section client.
Context `{NC : NiovaCore} {B A : Type} {BE : Backend B} {SM : StateMachine A}.
Local Abbreviation M := (M (world B A)).

(** ** Acceptance *)
Definition raft_server_may_accept_client_request : M Z :=
  let! ri := ri_get id in
  if raft_instance_is_booting ri then ret (- EINPROGRESS)
  else if raft_instance_is_candidate ri || raft_instance_is_candidate_prevote ri
  then ret (- ENOENT)
  else if negb (raft_instance_is_leader ri) then ret (- ENOSYS)
  else
    let! fresh := raft_leader_instance_is_fresh in
    if negb fresh then ret (- EAGAIN)
    else
      let! applied := raft_leader_has_applied_txn_in_my_term in
      if negb applied then ret (- EBUSY) else ret 0.

(** ** Replies *)
Definition raft_net_send_msg_to_uuid (u : uuid) (msg_size : Z) (o : output)
    (sock_src : raft_udp_listen_sockets) : M Z :=
  let! csn := env_get (fun e => env_csn_lookup e u) in
  match csn with
  | None => ret (- ENOENT)
  | Some _ => raft_net_send_msg u msg_size o sock_src
  end.

Definition raft_server_send_msg_to_client (rncr : raft_net_client_request_handle)
    (csn : option uuid) : M Z :=
  match rncr_reply_ptr rncr with
  | None => ret (- EINVAL)
  | Some reply =>
      let msg_size := sizeof_raft_client_rpc_msg + rcrm_data_size reply in
      match csn with
      | Some c => raft_net_send_msg c msg_size (OutClientMsg c reply) RAFT_UDP_LISTEN_CLIENT
      | None =>
          raft_net_send_msg_to_uuid (rncr_client_uuid rncr) msg_size
            (OutClientMsg (rncr_client_uuid rncr) reply) RAFT_UDP_LISTEN_CLIENT
      end
  end.

Definition raft_server_reply_to_client (rncr : raft_net_client_request_handle)
    (csn : option uuid) : M unit :=
  if negb (raft_net_client_request_handle_has_reply_info rncr) || rncr_is_direct_req rncr
  then ret tt
  else let! rc := raft_server_send_msg_to_client rncr csn in ret tt.

(** The handle with the reply the denial left in its buffer. *)
Definition raft_server_deny_client_request (rncr : raft_net_client_request_handle)
    (csn : option uuid) (rc : Z) : M raft_net_client_request_handle :=
  assert_ (bool_decide (is_Some (rncr_request rncr))) ;;;
  let! reply := lift_option (rncr_reply_ptr rncr) in
  let! leader := ri_get ri_csn_leader in
  let reply := reply <| rcrm_sys_error := rc |> in
  let reply := match leader with
               | Some l => if rc =? - ENOSYS
                           then reply <| rcrm_type := RAFT_CLIENT_RPC_MSG_TYPE_REDIRECT |>
                                      <| rcrm_dest_id := l |>
                           else reply
               | None => reply
               end in
  let rncr := rncr <| rncr_reply_ptr := Some reply |> in
  raft_server_reply_to_client rncr csn ;;;
  ret rncr.

Definition raft_server_client_reply_init (rncr : raft_net_client_request_handle)
    (msg_type : raft_client_rpc_msg_type) : M raft_net_client_request_handle :=
  assert_ (rncr_is_direct_req rncr
           || (bool_decide (is_Some (rncr_reply_ptr rncr))
               && (bool_decide (msg_type = RAFT_CLIENT_RPC_MSG_TYPE_PING_REPLY)
                   || bool_decide (msg_type = RAFT_CLIENT_RPC_MSG_TYPE_REPLY))
               && raft_net_client_request_handle_has_reply_info rncr
               && (rncr_reply_data_size rncr <? rncr_reply_data_max_size rncr))) ;;;
  let! reply := lift_option (rncr_reply_ptr rncr) in
  let! ri := ri_get id in
  ret (rncr <| rncr_reply_ptr := Some (client_reply ri rncr msg_type reply) |>).

(** Whether to ignore the request, and otherwise the client's node. *)
Definition raft_server_client_recv_ignore_request (rcm : raft_client_rpc_msg) :
  M (bool * option uuid) :=
  let! rc := raft_net_verify_sender_client_msg (rcrm_raft_id rcm) in
  if negb (rc =? 0) then ret (true, None)
  else
    let sender := rcrm_sender_id rcm in
    let! found := env_get (fun e => env_csn_lookup e sender) in
    let! client := match found with
                   | Some is_client => ret (Some is_client)
                   | None => let! rc := env_get (fun e => env_csn_add e sender) in
                             ret (if rc =? 0 then Some true else None)
                   end in
    match client with
    | None => ret (true, None)
    | Some false => ret (true, None)
    | Some true =>
        let! can_recv := env_get (fun e => env_can_recv e sender) in
        ret (if negb can_recv then (true, None) else (false, Some sender))
    end.

(** ** Request handles *)
Definition raft_server_net_client_request_init (type : raft_net_client_request_type)
    (rpc_request : option raft_client_rpc_msg) (commit_data : option bytes)
    (commit_data_size : Z) (reply_buf : bool) (reply_buf_size : Z)
    (is_direct_req : bool) : M raft_net_client_request_handle :=
  assert_ (is_direct_req || (reply_buf && (sizeof_raft_client_rpc_msg <=? reply_buf_size))) ;;;
  fatal_if (match type with
            | RAFT_NET_CLIENT_REQ_TYPE_NONE =>
                bool_decide (rpc_request = None) || bool_decide (is_Some commit_data)
            | RAFT_NET_CLIENT_REQ_TYPE_COMMIT =>
                bool_decide (is_Some rpc_request) || bool_decide (commit_data = None)
            | _ => true
            end) ;;;
  let! ri := ri_get id in
  let rncr :=
    {| rncr_type := type; rncr_write_raft_entry := false;
       rncr_is_leader := raft_instance_is_leader ri;
       rncr_is_direct_req := is_direct_req; rncr_op_error := 0;
       rncr_entry_term := rlh_term (ri_log_hdr ri);
       rncr_current_term := rlh_term (ri_log_hdr ri);
       rncr_apply_handler_version := 0; rncr_request := rpc_request;
       rncr_request_or_commit_data := []; rncr_request_or_commit_data_size := 0;
       rncr_reply_ptr := if reply_buf then Some zero_rcrm else None;
       rncr_app_data_ptr := [];
       rncr_reply_data_max_size := u64 (reply_buf_size - sizeof_raft_client_rpc_msg);
       rncr_reply_data_size := 0; rncr_msg_id := 0;
       rncr_sm_write_supp := zero_rnsws; rncr_client_uuid := null_uuid;
       rncr_csn := None; rncr_bi := false |} in
  match rpc_request with
  | Some req =>
      let rncr :=
        raft_net_client_request_handle_set_reply_info (rcrm_sender_id req) (rcrm_msg_id req)
          (rncr <| rncr_request_or_commit_data := rcrm_data req |>
                <| rncr_request_or_commit_data_size := rcrm_data_size req |>) in
      assert_ (is_direct_req || raft_net_client_request_handle_has_reply_info rncr) ;;;
      ret rncr
  | None =>
      let rncr := rncr <| rncr_request_or_commit_data := default [] commit_data |>
                       <| rncr_request_or_commit_data_size := commit_data_size |> in
      assert_ (negb (raft_net_client_request_handle_has_reply_info rncr)) ;;;
      ret rncr
  end.

Definition raft_server_net_client_request_init_client_rpc
    (rpc_request : raft_client_rpc_msg) (reply_buf_size : Z) (is_direct_req : bool) :
  M raft_net_client_request_handle :=
  let! rncr := raft_server_net_client_request_init RAFT_NET_CLIENT_REQ_TYPE_NONE
                 (Some rpc_request) None 0 true reply_buf_size is_direct_req in
  if is_direct_req then ret rncr
  else raft_server_client_reply_init rncr
         (if bool_decide (rcrm_type rpc_request = RAFT_CLIENT_RPC_MSG_TYPE_PING)
          then RAFT_CLIENT_RPC_MSG_TYPE_PING_REPLY else RAFT_CLIENT_RPC_MSG_TYPE_REPLY).

(** ** Coalesced writes *)
Definition co_wr_get : M raft_instance_co_wr :=
  let! co := ri_get ri_coalesced_wr in lift_option co.
Definition co_wr_set (co : raft_instance_co_wr) : M unit :=
  ri_upd (fun ri => ri <| ri_coalesced_wr := Some co |>).

Definition raft_server_write_coalesced_entries : M unit :=
  let! co := co_wr_get in
  if rcwi_nentries co =? 0 then ret tt
  else
    raft_server_leader_write_new_entry (Some (rcwi_buffer co)) (rcwi_entry_sizes co)
      (rcwi_nentries co) RAFT_WR_ENTRY_OPT_NONE (Some (rcwi_ws co)) ;;;
    co_wr_set (zero_co_wr <| rcwi_buffer := rcwi_buffer co |>).

Definition raft_server_leader_co_wr_timer_expired : M unit :=
  let! rc := raft_server_may_accept_client_request in
  if negb (rc =? 0) then ret tt
  else
    let! co := co_wr_get in
    if rcwi_nentries co =? 0 then ret tt
    else
      let! fi := FAULT_INJECT coalesced_writes in
      when (negb fi) raft_server_write_coalesced_entries.

(** The coalesced entry with [data] and [app_data] appended as one more item. *)
Definition coalesce (data app_data : bytes) (co : raft_instance_co_wr) :
  raft_instance_co_wr :=
  let len := Z.of_nat (length data) in
  let app_len := Z.of_nat (length app_data) in
  co <| rcwi_buffer ::= fun b =>
          buf_write (buf_write b (rcwi_total_size co) data)
            (rcwi_total_size co + len) app_data |>
     <| rcwi_entry_sizes ::= fun l => zupd l (rcwi_nentries co) (u32 (u32 len + app_len)) |>
     <| rcwi_total_size ::= fun t => t + len + app_len |>
     <| rcwi_nentries ::= fun n => n + 1 |>.

Definition raft_server_write_coalesce_entry (data app_data : bytes) : M unit :=
  let! ri := ri_get id in
  let! co := co_wr_get in
  assert_ ((rcwi_nentries co <? RAFT_ENTRY_NUM_ENTRIES)
           && (rcwi_total_size co <? RAFT_ENTRY_MAX_DATA_SIZE ri)) ;;;
  fatal_if (RAFT_ENTRY_MAX_DATA_SIZE ri <?
            Z.of_nat (length data) + Z.of_nat (length app_data) + rcwi_total_size co) ;;;
  let co := coalesce data app_data co in
  co_wr_set co ;;;
  when (negb (ri_coalesced_writes ri)
        || (rcwi_nentries co =? RAFT_ENTRY_NUM_ENTRIES)
        || (rcwi_total_size co =? RAFT_ENTRY_MAX_DATA_SIZE ri))
    raft_server_write_coalesced_entries.

Definition raft_server_client_rncr_write_raft_entry
    (rncr : raft_net_client_request_handle) : M unit :=
  assert_ (rncr_write_raft_entry rncr) ;;;
  let! rcm := lift_option (rncr_request rncr) in
  let! data := lift_option (read_array (rcrm_data rcm) (rcrm_data_size rcm)) in
  let! app_data := lift_option (read_array (rncr_app_data_ptr rncr)
                                  (rncr_reply_data_size rncr)) in
  let! ri := ri_get id in
  let! co := co_wr_get in
  when (RAFT_ENTRY_MAX_DATA_SIZE ri <?
        rcrm_data_size rcm + rncr_reply_data_size rncr + rcwi_total_size co)
    raft_server_write_coalesced_entries ;;;
  let! co := co_wr_get in
  let! alloc_rc := env_get env_alloc_rc in
  let '(_, dest, _) := raft_net_sm_write_supplements_merge alloc_rc (rcwi_ws co)
                         (rncr_sm_write_supp rncr) in
  co_wr_set (co <| rcwi_ws := dest |>) ;;;
  raft_server_write_coalesce_entry data app_data.

(** ** Handlers *)
Definition raft_server_client_rncr_prepare (rcm : raft_client_rpc_msg) (buf_size : Z) :
  M (Z * option raft_net_client_request_handle) :=
  let! ig := raft_server_client_recv_ignore_request rcm in
  if ig.1 then ret (- EXDEV, None)
  else
    let! rncr := raft_server_net_client_request_init_client_rpc rcm buf_size false in
    let rncr := rncr <| rncr_bi := true |> <| rncr_csn := ig.2 |> in
    let! rc := raft_server_may_accept_client_request in
    if negb (rc =? 0) then
      let! rncr := raft_server_deny_client_request rncr ig.2 rc in
      ret (rc, Some (rncr <| rncr_csn := None |> <| rncr_bi := false |>))
    else ret (rc, Some rncr).

Definition raft_server_client_rncr_complete (rncr : raft_net_client_request_handle)
    (sm_cb_rc : Z) : M unit :=
  assert_ (bool_decide (is_Some (rncr_request rncr))) ;;;
  let! rc := raft_server_may_accept_client_request in
  if negb (rc =? 0) || negb (sm_cb_rc =? 0) then
    let rc := if negb (rc =? 0) then rc else sm_cb_rc in
    let! rncr := raft_server_deny_client_request rncr (rncr_csn rncr) rc in
    ret tt
  else if rncr_write_raft_entry rncr
  then raft_server_client_rncr_write_raft_entry rncr
  else raft_server_reply_to_client rncr (rncr_csn rncr).

(** The call of the application's handler. *)
Definition ri_server_sm_request_cb (rncr : raft_net_client_request_handle) :
  M (Z * raft_net_client_request_handle) :=
  let! r := gets (fun w => sm_request_cb rncr (w_app w)) in
  let '(rc, rncr', app') := r in
  modify (fun w => w <| w_app := app' |>) ;;;
  ret (rc, rncr').

Definition raft_server_client_recv_handler_ping (rcm : raft_client_rpc_msg) : M unit :=
  assert_ (bool_decide (rcrm_type rcm = RAFT_CLIENT_RPC_MSG_TYPE_PING)) ;;;
  let! r := raft_server_client_rncr_prepare rcm RAFT_BS_SMALL_SZ in
  let '(rc, rncr) := r in
  if rc =? - EXDEV then ret tt
  else
    let! rncr := lift_option rncr in
    raft_server_client_rncr_complete rncr rc.

Definition raft_server_client_recv_handler_read (rcm : raft_client_rpc_msg) : M unit :=
  assert_ (bool_decide (rcrm_type rcm = RAFT_CLIENT_RPC_MSG_TYPE_READ)) ;;;
  let! r := raft_server_client_rncr_prepare rcm RAFT_BS_LARGE_SZ in
  let '(rc, rncr) := r in
  if negb (rc =? 0) then ret tt
  else
    let! rncr := lift_option rncr in
    let! r := ri_server_sm_request_cb rncr in
    raft_server_client_rncr_complete r.2 r.1.

Definition raft_server_do_client_write (rncr : raft_net_client_request_handle) : M unit :=
  assert_ (match rncr_request rncr with
           | Some req => bool_decide (rcrm_type req = RAFT_CLIENT_RPC_MSG_TYPE_WRITE)
           | None => false
           end) ;;;
  assert_ (rncr_bi rncr) ;;;
  let! r := ri_server_sm_request_cb rncr in
  raft_server_client_rncr_complete r.2 r.1.

Definition raft_server_client_recv_handler_write (rcm : raft_client_rpc_msg) : M unit :=
  assert_ (bool_decide (rcrm_type rcm = RAFT_CLIENT_RPC_MSG_TYPE_WRITE)) ;;;
  let! r := raft_server_client_rncr_prepare rcm RAFT_BS_LARGE_SZ in
  let '(rc, rncr) := r in
  if negb (rc =? 0) then ret tt
  else
    let! rncr := lift_option rncr in
    raft_server_do_client_write rncr.

(** [recv_bytes] bytes were received, the message [rcm] at their start. *)
Definition raft_server_client_recv_handler (recv_bytes : Z) (rcm : raft_client_rpc_msg) :
  M unit :=
  if recv_bytes <? sizeof_raft_client_rpc_msg then ret tt
  else
    match rcrm_type rcm with
    | RAFT_CLIENT_RPC_MSG_TYPE_READ => raft_server_client_recv_handler_read rcm
    | RAFT_CLIENT_RPC_MSG_TYPE_WRITE => raft_server_client_recv_handler_write rcm
    | RAFT_CLIENT_RPC_MSG_TYPE_PING => raft_server_client_recv_handler_ping rcm
    | _ => ret tt
    end.

(** The request of the application on the leader itself. *)
Definition raft_server_enq_direct_raft_req_from_leader (rcm : raft_client_rpc_msg) : M Z :=
  let! fi := FAULT_INJECT raft_leader_ignore_direct_req in
  if fi then ret (- EAGAIN)
  else
    let! self := ri_get ri_csn_this_peer in
    let rcm := rcm <| rcrm_sender_id := self |> <| rcrm_dest_id := self |> in
    let! rncr := raft_server_net_client_request_init_client_rpc rcm RAFT_BS_LARGE_SZ true in
    raft_server_do_client_write (rncr <| rncr_bi := true |>) ;;;
    ret 0.
End client.
