(* ===== verification/Apply.v ===== *)
(** Applying committed entries to the application's state machine, one
    sub-entry at a time ([src/raft_server.c]). *)
From stdpp Require Import base tactics list gmap.
From Stdlib Require Import ZArith Lia Strings.Byte.
From S2P Require Import Prelude RaftTypes World Net WriteSupp Entry Log Election Append Leader ClientReq.
Local Open Scope Z_scope.
Local Open Scope raft_scope.

(** ** The apply cursor *)
(** The instance and the caller's cursor after the update. *)
Definition set_last_applied (la nai : raft_last_applied) : raft_last_applied * raft_last_applied :=
  let last := rla_sub_idx nai =? rla_sub_idx_max nai in
  (la <| rla_idx := rla_idx nai |>
      <| rla_sub_idx := rla_sub_idx nai |>
      <| rla_sub_idx_max := rla_sub_idx_max nai |>
      <| rla_cumulative_crc := if last then rla_cumulative_crc nai else rla_cumulative_crc la |>
      <| rla_kv_cumulative_crc := if last then rla_kv_cumulative_crc nai
                                  else rla_kv_cumulative_crc la |>,
   if last then nai else nai <| rla_sub_idx ::= fun i => u32 (i + 1) |>).

Definition needs_apply (ri : raft_instance) : bool :=
  (rla_idx (ri_last_applied ri) <? ri_commit_idx ri)
  || ((rla_idx (ri_last_applied ri) =? ri_commit_idx ri)
      && (rla_sub_idx (ri_last_applied ri) <? rla_sub_idx_max (ri_last_applied ri))).

Definition next_apply_idx (la : raft_last_applied) : raft_last_applied :=
  if rla_sub_idx la =? rla_sub_idx_max la
  then la <| rla_sub_idx := 0 |> <| rla_sub_idx_max := 0 |> <| rla_idx ::= fun i => i + 1 |>
  else la <| rla_sub_idx ::= fun i => u32 (i + 1) |>.

Section apply.
Context `{NC : NiovaCore} {B A : Type} {BE : Backend B} {SM : StateMachine A}.
Local Abbreviation M := (M (world B A)).

Definition raft_server_sm_apply_opt (ws : option raft_net_sm_write_supplements) : M unit :=
  match rib_sm_apply_opt with
  | None => ret tt
  | Some f =>
      let! ri := ri_get id in
      let! o := be_get (f ri ws) in
      let! be := lift_option o in
      be_set be
  end.

Definition raft_server_backend_setup_last_applied (rla : raft_last_applied) : M unit :=
  let! ri := ri_get id in
  assert_ (raft_instance_is_booting ri
           || bool_decide (ri_proc_state ri = RAFT_PROC_STATE_RECOVERING)) ;;;
  ri_upd (fun ri => ri <| ri_last_applied := rla |>).

Definition raft_server_set_last_applied (nai : raft_last_applied) : M raft_last_applied :=
  let! ri := ri_get id in
  let la := ri_last_applied ri in
  assert_ ((rla_idx la <=? rla_idx nai) && (rla_sub_idx nai <=? rla_sub_idx_max nai)) ;;;
  ri_upd (fun ri => ri <| ri_last_applied := (set_last_applied la nai).1 |>) ;;;
  ret (set_last_applied la nai).2.

Definition raft_server_needs_apply : M bool :=
  let! ri := ri_get id in
  assert_ (rla_idx (ri_last_applied ri) <=? ri_commit_idx ri) ;;;
  ret (needs_apply ri).

Definition raft_server_next_apply_idx : M raft_last_applied :=
  let! ri := ri_get id in
  assert_ (rla_sub_idx (ri_last_applied ri) <=? rla_sub_idx_max (ri_last_applied ri)) ;;;
  ret (next_apply_idx (ri_last_applied ri)).

Definition raft_server_get_raft_header_to_apply :
  M (raft_last_applied * raft_entry_header) :=
  let! nai := raft_server_next_apply_idx in
  let! r := raft_server_entry_header_read_by_store (rla_idx nai) in
  fatal_if (negb (r.1 =? 0)) ;;;
  let! reh := lift_option r.2 in
  let! ri := ri_get id in
  let la := ri_last_applied ri in
  when (negb (rla_sub_idx la =? rla_sub_idx_max la))
    (assert_ (u32 (reh_num_entries reh) =? u32 (rla_sub_idx_max la + 1))) ;;;
  ret (nai <| rla_sub_idx_max := u32 (reh_num_entries reh - 1) |>
           <| rla_cumulative_crc := Z.lxor (rla_cumulative_crc la) (reh_crc reh) |>, reh).

(** ** Replies *)
Definition raft_server_net_client_request_init_sm_apply (commit_data : bytes)
    (commit_data_size reply_buf_size : Z) : M raft_net_client_request_handle :=
  raft_server_net_client_request_init RAFT_NET_CLIENT_REQ_TYPE_COMMIT None
    (Some commit_data) commit_data_size true reply_buf_size false.

Definition raft_server_init_send_reply (rncr : raft_net_client_request_handle) : M unit :=
  let! ri := ri_get id in
  if raft_instance_is_leader ri
     && raft_net_client_request_handle_has_reply_info rncr
     && negb (rncr_client_uuid rncr =? ri_csn_this_peer ri)
  then
    let! reply := lift_option (rncr_reply_ptr rncr) in
    let! rncr := raft_server_client_reply_init rncr RAFT_CLIENT_RPC_MSG_TYPE_REPLY in
    let rncr := rncr <| rncr_reply_ptr ::= option_map (fun r =>
                  r <| rcrm_data_size := rcrm_data_size reply |>) |> in
    raft_server_reply_to_client rncr None
  else ret tt.

(** ** The apply loop *)
(** The body of the loop for sub-entry [i], whose data is [data]. *)
Definition apply_sub_entry (reh : raft_entry_header) (sz : Z) (data : bytes)
    (nai : raft_last_applied) : M raft_last_applied :=
  let! rncr := raft_server_net_client_request_init_sm_apply data sz RAFT_BS_APPLY_SZ in
  let rncr := rncr <| rncr_sm_write_supp ::=
                        raft_net_sm_write_supplement_enable_kv_crc (rla_kv_cumulative_crc nai) |>
                   <| rncr_apply_handler_version := reh_apply_handler_version reh |> in
  let! r := ri_server_sm_request_cb rncr in
  let '(rc, rncr) := r in
  let nai := nai <| rla_kv_cumulative_crc :=
               raft_net_sm_write_supplement_get_kv_crc (rncr_sm_write_supp rncr) |> in
  let! nai := raft_server_set_last_applied nai in
  raft_server_sm_apply_opt (Some (rncr_sm_write_supp rncr)) ;;;
  let rncr := rncr <| rncr_sm_write_supp ::= raft_net_sm_write_supplement_destroy |> in
  when (rc =? 0) (raft_server_init_send_reply rncr) ;;;
  let! fi := FAULT_INJECT raft_server_fail_partial_apply in
  fatal_if fi ;;;
  ret nai.

(** The loop over the sub-entries [i, i+1, ...] of sizes [sizes]; [data] starts
    at the offset of sub-entry [i]. *)
Fixpoint apply_loop (reh : raft_entry_header) (i : Z) (sizes : list Z) (data : bytes)
    (nai : raft_last_applied) : M unit :=
  match sizes with
  | [] => ret tt
  | sz :: sizes' =>
      let rest := drop (Z.to_nat sz) data in
      if i <? rla_sub_idx nai
      then apply_loop reh (i + 1) sizes' rest nai
      else
        let! nai := apply_sub_entry reh sz (take (Z.to_nat sz) data) nai in
        apply_loop reh (i + 1) sizes' rest nai
  end.

Definition notify_if_needs_apply : M unit :=
  let! needs := raft_server_needs_apply in
  when needs (RAFT_NET_EVP_NOTIFY_NO_FAIL RAFT_EVP_SM_APPLY).

Definition raft_server_state_machine_apply : M unit :=
  let! needs := raft_server_needs_apply in
  if negb needs then ret tt
  else
    let! bypass := FAULT_INJECT raft_server_bypass_sm_apply in
    if bypass then ret tt
    else
      let! r := raft_server_get_raft_header_to_apply in
      let '(nai, reh) := r in
      if negb (reh_leader_change_marker reh =? 0) || (reh_data_size reh =? 0) then
        let! nai := raft_server_set_last_applied nai in
        raft_server_sm_apply_opt None ;;;
        notify_if_needs_apply
      else
        let! d := raft_server_entry_read (rla_idx nai) (reh_data_size reh) in
        fatal_if (negb (d.1 =? 0)) ;;;
        let! sizes := lift_option (read_array (reh_entry_sz reh) (reh_num_entries reh)) in
        apply_loop reh 0 sizes d.2 nai ;;;
        let! la := ri_get ri_last_applied in
        assert_ (rla_sub_idx la =? rla_sub_idx_max la) ;;;
        notify_if_needs_apply.
End apply.

Lemma keeps_apply_loop `{NC : NiovaCore} {B A} {BE : Backend B} {SM : StateMachine A}
    (R : world B A -> world B A -> Prop) `{!PreOrder R} reh i sizes data nai :
  (forall sz d n, keeps R (apply_sub_entry reh sz d n)) ->
  keeps R (apply_loop reh i sizes data nai).
Proof.
  intros Hone. revert i data nai. induction sizes as [|sz sizes IH]; intros; simpl; solve_keeps.
Qed.
#[export] Hint Extern 1 (keeps _ (apply_loop _ _ _ _ _)) =>
  apply keeps_apply_loop; [typeclasses eauto | intros; solve_keeps] : keeps.
