(* ===== verification/Server.v ===== *)
(** The server as a whole: message dispatch, timer and event-pipe callbacks, the
    bodies of the sync and checkpoint threads, compaction, initialisation and
    bulk recovery ([src/raft_server.c]). *)
From stdpp Require Import base tactics list gmap.
From Stdlib Require Import ZArith Lia Strings.Byte.
From S2P Require Import Prelude RaftTypes World Quorum Net WriteSupp Entry Log Election Append Leader ClientReq Apply.
Local Open Scope Z_scope.
Local Open Scope raft_scope.

(** RAFT_EVP_SERVER__START .. RAFT_EVP_SERVER__END *)
Definition raft_evp_server : list raft_event_pipe_types :=
  [RAFT_EVP_REMOTE_SEND; RAFT_EVP_ASYNC_COMMIT_IDX_ADV; RAFT_EVP_SM_APPLY].

Definition raftServerMaxRecoveryLeaderCommMsec : Z := 10000.

Definition raft_server_instance_chkpt_compact_max_idx (ri : raft_instance) : Z :=
  rla_synced_idx (ri_last_applied ri).

(** ** Initialisation *)
Definition raft_server_set_max_scan_entries (max_scan_entries : Z) (ri : raft_instance) :
  raft_instance :=
  ri <| ri_max_scan_entries :=
    if max_scan_entries <? 0 then -1
    else Z.max max_scan_entries RAFT_INSTANCE_PERSISTENT_APP_MIN_SCAN_ENTRIES |>.

Definition raft_server_set_log_reap_factor (log_reap_factor : Z) (ri : raft_instance) :
  raft_instance :=
  ri <| ri_log_reap_factor :=
    Z.min log_reap_factor RAFT_INSTANCE_PERSISTENT_APP_REAP_FACTOR_MAX |>.

Definition raft_server_set_num_checkpoints (num_ckpts : Z) (ri : raft_instance) :
  raft_instance :=
  ri <| ri_num_checkpoints :=
    Z.min (Z.max RAFT_INSTANCE_PERSISTENT_APP_CHKPT_MIN num_ckpts)
          RAFT_INSTANCE_PERSISTENT_APP_CHKPT_MAX |>.

Definition raft_server_instance_init_rocksdb_persistent_app (ri : raft_instance) :
  raft_instance :=
  if bool_decide (ri_store_type ri = RAFT_INSTANCE_STORE_ROCKSDB_PERSISTENT_APP) then
    let ri := if ri_max_scan_entries ri =? 0
              then raft_server_set_max_scan_entries RAFT_INSTANCE_PERSISTENT_APP_SCAN_ENTRIES ri
              else ri in
    let ri := if ri_log_reap_factor ri =? 0
              then raft_server_set_log_reap_factor
                     RAFT_INSTANCE_PERSISTENT_APP_REAP_FACTOR_DEFAULT ri
              else ri in
    if ri_num_checkpoints ri =? 0
    then raft_server_set_num_checkpoints RAFT_INSTANCE_PERSISTENT_APP_CHKPT_DEFAULT ri
    else ri
  else ri.

Definition raft_server_instance_init_tunables (ri : raft_instance) : raft_instance :=
  if bool_decide (ri_store_type ri = RAFT_INSTANCE_STORE_ROCKSDB_PERSISTENT_APP)
  then raft_server_instance_init_rocksdb_persistent_app ri else ri.

(** The instance memset() to zero. *)
Definition zero_raft_instance : raft_instance :=
  {| ri_csn_raft := 0; ri_csn_raft_peers := []; ri_csn_this_peer := 0;
     ri_csn_leader := None; ri_last_send := []; ri_last_recv := []; ri_db_uuid := 0;
     ri_candidate := {| rcs_term := 0; rcs_prevote := false; rcs_results := [] |};
     ri_leader := {| rls_initial_term_idx := 0; rls_leader_term := 0;
                     rls_quorum_ok_cnt := 0; rls_leader_start := 0;
                     rls_leader_accumulated := 0; rls_rfi := [] |};
     ri_state := RAFT_STATE__NONE; ri_proc_state := RAFT_PROC_STATE_BOOTING;
     ri_store_type := RAFT_INSTANCE_STORE_POSIX_FLAT_FILE;
     ri_synchronous_writes := false; ri_coalesced_writes := false;
     ri_user_requested_checkpoint := false; ri_user_requested_reap := false;
     ri_auto_checkpoints_enabled := false; ri_needs_bulk_recovery := false;
     ri_successful_recovery := false; ri_follower_reason := RAFT_BFRSN_NONE;
     ri_log_hdr := {| rlh_version := 0; rlh_magic := 0; rlh_term := 0; rlh_seqno := 0;
                      rlh_voted_for := 0 |};
     ri_commit_idx := 0;
     ri_last_applied := {| rla_idx := 0; rla_sub_idx := 0; rla_sub_idx_max := 0;
                           rla_synced_idx := 0; rla_cumulative_crc := 0;
                           rla_kv_cumulative_crc := 0 |};
     ri_checkpoint_last_idx := 0; ri_lowest_idx := 0; ri_pending_read_idx := 0;
     ri_last_chkpt_err := 0; ri_sync_freq_us := 0; ri_sync_cnt := 0;
     ri_max_scan_entries := 0; ri_log_reap_factor := 0; ri_num_checkpoints := 0;
     ri_max_entry_size := 0; ri_newest_entry_sync := zero_reh;
     ri_newest_entry_unsync := zero_reh; ri_election_timeout_max_ms := 0;
     ri_heartbeat_freq_per_election_min := 0; ri_check_quorum_timeout_factor := 0;
     ri_entries_detected_at_startup := 0; ri_recovery_handle := zero_rrh;
     ri_has_init_cb := false; ri_evps := replicate (Z.to_nat RAFT_EVP_HANDLES_MAX) RAFT_EVP__NONE;
     ri_apply_handler_version := 0; ri_coalesced_wr := None; ri_raft_uuid_str := [];
     ri_this_peer_uuid_str := []; ri_db_recovery_uuid := 0;
     ri_incomplete_recovery := false; ri_log := [] |}.

Definition raft_server_instance_restore_init_values (version : Z)
    (ri save : raft_instance) : raft_instance :=
  ri <| ri_successful_recovery := ri_successful_recovery save |>
     <| ri_max_scan_entries := ri_max_scan_entries save |>
     <| ri_log_reap_factor := ri_log_reap_factor save |>
     <| ri_num_checkpoints := ri_num_checkpoints save |>
     <| ri_election_timeout_max_ms := ri_election_timeout_max_ms save |>
     <| ri_heartbeat_freq_per_election_min := ri_heartbeat_freq_per_election_min save |>
     <| ri_apply_handler_version := version |>.

(** [version]: raft_net_get_apply_handler_version(); the three booleans are the
    bits of [enum raft_instance_options]. *)
Definition raft_server_instance_init (type : raft_instance_store_type)
    (raft_uuid_str this_peer_uuid_str : bytes) (has_init_cb sync_writes coalesced_writes auto_checkpoint : bool) (version : Z)
    (ri_save : raft_instance) : option raft_instance :=
  if negb (raft_instance_is_booting ri_save) then None
  else
    let ri := raft_server_instance_restore_init_values version zero_raft_instance ri_save in
    let ri := ri <| ri_store_type := type |> in
    let ri := if ri_election_timeout_max_ms ri =? 0
              then ri <| ri_election_timeout_max_ms := RAFT_ELECTION_UPPER_TIME_MS |> else ri in
    let ri := if ri_heartbeat_freq_per_election_min ri =? 0
              then ri <| ri_heartbeat_freq_per_election_min := RAFT_HEARTBEAT_FREQ_PER_ELECTION |>
              else ri in
    Some (raft_server_instance_init_tunables
      (ri <| ri_check_quorum_timeout_factor := RAFT_ELECTION_CHECK_QUORUM_FACTOR |>
          <| ri_raft_uuid_str := raft_uuid_str |>
          <| ri_this_peer_uuid_str := this_peer_uuid_str |>
          <| ri_has_init_cb := has_init_cb |>
          <| ri_apply_handler_version := version |>
          <| ri_synchronous_writes := sync_writes |>
          <| ri_coalesced_writes := coalesced_writes |>
          <| ri_auto_checkpoints_enabled := auto_checkpoint |>
          <| ri_commit_idx := -1 |>
          <| ri_last_applied := {| rla_idx := -1; rla_sub_idx := 0; rla_sub_idx_max := 0;
                                   rla_synced_idx := -1; rla_cumulative_crc := 0;
                                   rla_kv_cumulative_crc := 0 |} |>
          <| ri_checkpoint_last_idx := -1 |>
          <| ri_pending_read_idx := -1 |>
          <| ri_lowest_idx := -1 |>)).

Section server.
Context `{NC : NiovaCore} {B A : Type} {BE : Backend B} {SM : StateMachine A}.
Local Abbreviation M := (M (world B A)).

(** ** Messages *)
(** The type of a message tells which member of the union it carries; another
    combination is not a message. *)
Definition raft_server_process_received_server_msg (rrm : raft_rpc_msg)
    (sender_csn : uuid) : M unit :=
  raft_net_update_last_comm_time sender_csn false ;;;
  match rrm_type rrm, rrm_payload rrm with
  | RAFT_RPC_MSG_TYPE_PRE_VOTE_REQUEST, rrm_vote_request m
  | RAFT_RPC_MSG_TYPE_VOTE_REQUEST, rrm_vote_request m =>
      raft_server_process_vote_request_common sender_csn rrm m
  | RAFT_RPC_MSG_TYPE_PRE_VOTE_REPLY, rrm_vote_reply m
  | RAFT_RPC_MSG_TYPE_VOTE_REPLY, rrm_vote_reply m =>
      raft_server_process_vote_reply_common sender_csn rrm m
  | RAFT_RPC_MSG_TYPE_SYNC_IDX_UPDATE, rrm_sync_index_update m =>
      raft_server_process_sync_idx_update sender_csn rrm m
  | RAFT_RPC_MSG_TYPE_APPEND_ENTRIES_REQUEST, rrm_append_entries_request m =>
      raft_server_process_append_entries_request sender_csn rrm m
  | RAFT_RPC_MSG_TYPE_APPEND_ENTRIES_REPLY, rrm_append_entries_reply m =>
      raft_server_process_append_entries_reply sender_csn rrm m
  | _, _ => ret tt
  end.

(** [recv_bytes] bytes were received from an address that is the configured one
    of the sender when [addr_ok]. *)
Definition raft_server_peer_recv_handler (recv_bytes : Z) (rrm : raft_rpc_msg)
    (addr_ok : bool) : M unit :=
  if recv_bytes =? 0 then ret tt
  else
    let expected_msg_size :=
      sizeof_raft_rpc_msg +
      match rrm_type rrm, rrm_payload rrm with
      | RAFT_RPC_MSG_TYPE_APPEND_ENTRIES_REQUEST, rrm_append_entries_request m =>
          raerqm_entries_sz m
      | _, _ => 0
      end in
    if negb (recv_bytes =? expected_msg_size) then ret tt
    else
      let! sender_csn := raft_net_verify_sender_server_msg (rrm_sender_id rrm)
                           (rrm_raft_id rrm) addr_ok in
      match sender_csn with
      | None => ret tt
      | Some csn => raft_server_process_received_server_msg rrm csn
      end.

(** ** Timer *)
Definition raft_server_timerfd_leader_cb : M unit :=
  modify (fun w => w <| w_leader_cb_cnt ::= fun c => u64 (c + 1) |>) ;;;
  let! cnt := gets w_leader_cb_cnt in
  let! quorum := raft_leader_check_quorum in
  if negb quorum then raft_server_become_candidate true
  else
    when (cnt mod RAFT_SERVER_COALESCE_TIMEOUT_FACTOR =? 0)
      raft_server_leader_co_wr_timer_expired ;;;
    when (cnt mod RAFT_SERVER_HEARTBEAT_ISSUE_FACTOR =? 0)
      raft_server_issue_heartbeat ;;;
    raft_server_increment_leader_time.

Definition raft_server_timerfd_cb : M unit :=
  let! ri := ri_get id in
  match ri_state ri with
  | RAFT_STATE_FOLLOWER | RAFT_STATE_CANDIDATE_PREVOTE | RAFT_STATE_CANDIDATE =>
      raft_server_become_candidate true
  | RAFT_STATE_LEADER => raft_server_timerfd_leader_cb
  | _ => ret tt
  end ;;;
  raft_server_timerfd_settime.

(** ** Event pipes *)
Definition raft_server_follower_send_sync_idx : M unit :=
  let! ri := ri_get id in
  if negb (raft_instance_is_follower ri) || raft_server_does_synchronous_writes ri
  then ret tt
  else if bool_decide (ri_csn_leader ri = Some (ri_csn_this_peer ri)) then ret tt
  else
    let! reh := raft_instance_get_newest_header RI_NEHDR_SYNC in
    let! leader := lift_option (ri_csn_leader ri) in
    let! rc := raft_server_send_msg leader
      (raft_server_set_uuids_in_rpc_msg ri RAFT_RPC_MSG_TYPE_SYNC_IDX_UPDATE
        (rrm_sync_index_update
           {| rsium_synced_log_index := reh_index reh; rsium_term := reh_term reh |})) in
    ret tt.

Definition raft_server_remote_send_evp_cb : M unit :=
  let! ri := ri_get id in
  if raft_instance_is_leader ri then raft_server_append_entry_sender false
  else when (raft_instance_is_follower ri) raft_server_follower_send_sync_idx.

Definition raft_server_sm_apply_evp_cb : M unit := raft_server_state_machine_apply.

Definition raft_server_commit_idx_adv_evp_cb : M unit :=
  let! leader := ri_get raft_instance_is_leader in
  when leader raft_server_leader_try_advance_commit_idx.

Fixpoint evp_setup_loop (setup_rc epoll_rc : raft_event_pipe_types -> Z)
    (types : list raft_event_pipe_types) : M Z :=
  match types with
  | [] => ret 0
  | t :: types' =>
      let! rc := raft_net_evp_add (setup_rc t) (epoll_rc t) t in
      if negb (rc =? 0) then ret rc else evp_setup_loop setup_rc epoll_rc types'
  end.
Definition raft_server_evp_setup (setup_rc epoll_rc : raft_event_pipe_types -> Z) : M Z :=
  let! client := ri_get raft_instance_is_client in
  if client then ret (- EINVAL) else evp_setup_loop setup_rc epoll_rc raft_evp_server.

Fixpoint evp_cleanup_loop (epoll_rc cleanup_rc : raft_event_pipe_types -> Z)
    (types : list raft_event_pipe_types) (rc : Z) : M Z :=
  match types with
  | [] => ret rc
  | t :: types' =>
      let! tmp_rc := raft_net_evp_remove (epoll_rc t) (cleanup_rc t) t in
      evp_cleanup_loop epoll_rc cleanup_rc types'
        (if negb (tmp_rc =? 0) && (rc =? 0) then tmp_rc else rc)
  end.
Definition raft_server_evp_cleanup (epoll_rc cleanup_rc : raft_event_pipe_types -> Z) : M Z :=
  let! client := ri_get raft_instance_is_client in
  if client then ret (- EINVAL) else evp_cleanup_loop epoll_rc cleanup_rc raft_evp_server 0.

(** ** The sync thread *)
(** One iteration of the loop of raft_server_sync_thread(). *)
Definition raft_server_sync_thread : M unit :=
  let! has_unsynced_entries := raft_server_has_unsynced_entries in
  when has_unsynced_entries
    (raft_server_backend_sync_pending ;;;
     ri_upd (fun ri => ri <| ri_sync_cnt ::= Z.succ |>) ;;;
     raft_server_leader_try_advance_commit_idx_from_sync_thread).

(** ** The checkpoint thread *)
Definition raft_server_set_checkpoint_last_idx (chkpt_ret_idx : Z) : M unit :=
  let! last := ri_get ri_checkpoint_last_idx in
  fatal_if ((chkpt_ret_idx <? 0) || (chkpt_ret_idx <? last)) ;;;
  ri_upd (fun ri => ri <| ri_checkpoint_last_idx := chkpt_ret_idx |>).

Definition raft_server_take_chkpt : M unit :=
  let! ri := ri_get id in
  if raft_server_instance_chkpt_compact_max_idx ri <? 0
  then ri_upd (fun ri => ri <| ri_last_chkpt_err := - ENODATA |>)
  else
    let! chkpt := lift_option rib_backend_checkpoint in
    let! o := be_get (chkpt ri) in
    let! r := lift_option o in
    be_set r.2 ;;;
    when (0 <=? r.1) (raft_server_set_checkpoint_last_idx r.1) ;;;
    when (r.1 <=? 0) (ri_upd (fun ri => ri <| ri_last_chkpt_err := s32 r.1 |>)).

Definition raft_server_reap_log (num_keep_entries : Z) : M unit :=
  if num_keep_entries <? RAFT_INSTANCE_PERSISTENT_APP_MIN_SCAN_ENTRIES then ret tt
  else
    let! ri := ri_get id in
    let max_idx := raft_server_instance_chkpt_compact_max_idx ri in
    if max_idx <? 0 then ret tt
    else
      let lowest_idx := Z.max 0 (ri_lowest_idx ri) in
      assert_ (lowest_idx <=? max_idx) ;;;
      let new_lowest_idx := max_idx - num_keep_entries in
      if lowest_idx + num_keep_entries <? new_lowest_idx then
        let! rc := raft_server_compaction_try_increase_lowest_idx new_lowest_idx in
        if rc =? 0 then
          let! reap := lift_option rib_log_reap in
          let! ri := ri_get id in
          let! o := be_get (reap ri new_lowest_idx) in
          let! be := lift_option o in
          be_set be
        else ret tt
      else ret tt.

(** One iteration of the loop of raft_server_chkpt_thread(). *)
Definition raft_server_chkpt_thread : M unit :=
  let! ri := ri_get id in
  if raft_instance_is_shutdown ri then ret tt
  else
    let user_requested_chkpt := ri_user_requested_checkpoint ri in
    let user_requested_reap := ri_user_requested_reap ri in
    when user_requested_chkpt
      (ri_upd (fun ri => ri <| ri_user_requested_checkpoint := false |>)) ;;;
    when user_requested_reap
      (ri_upd (fun ri => ri <| ri_user_requested_reap := false |>)) ;;;
    let max_idx := raft_server_instance_chkpt_compact_max_idx ri in
    if max_idx <? 0 then ret tt
    else
      let num_entries_since_last_chkpt := max_idx - ri_checkpoint_last_idx ri in
      fatal_if (num_entries_since_last_chkpt <? 0) ;;;
      when (user_requested_chkpt
            || (ri_auto_checkpoints_enabled ri
                && (ri_max_scan_entries ri <=? num_entries_since_last_chkpt)))
        raft_server_take_chkpt ;;;
      when (user_requested_reap
            || (ri_auto_checkpoints_enabled ri && negb (ri_log_reap_factor ri =? 0)))
        (assert_ (0 <? ri_log_reap_factor ri) ;;;
         raft_server_reap_log (s64 (ri_log_reap_factor ri * ri_max_scan_entries ri))).

(** ** Running and recovering *)
(** The start of raft_server_main_loop(). *)
Definition raft_server_main_loop_enter : M unit :=
  let! running := ri_get raft_instance_is_running in
  assert_ running ;;;
  ri_upd (fun ri => ri <| ri_state := RAFT_STATE_FOLLOWER |>
                       <| ri_follower_reason := RAFT_BFRSN_LEADER_ALREADY_PRESENT |>) ;;;
  raft_server_timerfd_settime.

Definition raft_server_main_loop_exit_conditions : M bool :=
  let! fi := FAULT_INJECT raft_server_main_loop_break in
  if fi then ret true else ri_get ri_needs_bulk_recovery.

Definition raft_server_recovery_handle_is_viable : M bool :=
  let! ri := ri_get id in
  let! leader := lift_option (ri_csn_leader ri) in
  let rrh := ri_recovery_handle ri in
  let! now := env_get env_realtime in
  let msec_since_handle_generated :=
    u64 (timespec_2_msec now - timespec_2_msec (rrh_start rrh)) in
  ret (if negb (leader =? rrh_peer_uuid rrh) then false
       else if raftServerMaxRecoveryLeaderCommMsec <? msec_since_handle_generated then false
       else if rrh_peer_chkpt_idx rrh <? 0 then false else true).

(** The checks after the early return of the code are dead. *)
Definition raft_server_bulk_recovery_can_proceed : M bool := ret true.

(** [recover]: rib_backend_recover, if the backend has one. *)
Definition raft_server_bulk_recovery (recover : option (M Z)) : M Z :=
  let! can := raft_server_bulk_recovery_can_proceed in
  if negb can then ret (- EAGAIN)
  else
    let! proc_state := ri_get ri_proc_state in
    ri_upd (fun ri => ri <| ri_proc_state := RAFT_PROC_STATE_RECOVERING |>) ;;;
    let! rc := match recover with Some r => r | None => ret (- EOPNOTSUPP) end in
    ri_upd (fun ri => ri <| ri_proc_state := proc_state |>) ;;;
    ret rc.

(** ** Queries of the application *)
(** The return code, the term and the seconds of leadership. *)
Definition raft_server_get_leader_ts (ri : raft_instance) : Z * Z * Z :=
  if negb (raft_instance_is_leader ri) then (- EINVAL, 0, 0)
  else (0, rlh_term (ri_log_hdr ri), rls_leader_accumulated (ri_leader ri) / 10 ^ 9).

Definition raft_server_is_leader (ri : raft_instance) : bool := raft_instance_is_leader ri.
End server.
