(* ===== verification/Steps.v ===== *)
(** The steps of a running server: every event the epoll loop, the sync thread
    and the checkpoint thread of [src/raft_server.c] can process, each run to
    completion, and reachability under these steps. *)
From stdpp Require Import base tactics list gmap relations.
From Stdlib Require Import ZArith Lia Strings.Byte.
From S2P Require Import Prelude RaftTypes World Quorum Net WriteSupp Entry Log Election Append Leader ClientReq Apply Server.
Local Open Scope Z_scope.
Local Open Scope raft_scope.

Inductive event :=
| EvPeerMsg (recv_bytes : Z) (rrm : raft_rpc_msg) (addr_ok : bool)
| EvClientMsg (recv_bytes : Z) (rcm : raft_client_rpc_msg)
| EvDirectReq (rcm : raft_client_rpc_msg)
| EvTimer | EvRemoteSend | EvSmApply | EvCommitIdxAdv
| EvSyncThread | EvChkptThread.

Section steps.
Context `{NC : NiovaCore} {B A : Type} {BE : Backend B} {SM : StateMachine A}.

Definition run_event (ev : event) : M (world B A) unit :=
  match ev with
  | EvPeerMsg recv_bytes rrm addr_ok => raft_server_peer_recv_handler recv_bytes rrm addr_ok
  | EvClientMsg recv_bytes rcm => raft_server_client_recv_handler recv_bytes rcm
  | EvDirectReq rcm => let! rc := raft_server_enq_direct_raft_req_from_leader rcm in ret tt
  | EvTimer => raft_server_timerfd_cb
  | EvRemoteSend => raft_server_remote_send_evp_cb
  | EvSmApply => raft_server_sm_apply_evp_cb
  | EvCommitIdxAdv => raft_server_commit_idx_adv_evp_cb
  | EvSyncThread => raft_server_sync_thread
  | EvChkptThread => raft_server_chkpt_thread
  end.

(** One step: the environment is whatever it is, then an event is processed. *)
Definition server_step (w w' : world B A) : Prop :=
  exists (e : env) (ev : event), run_event ev (w <| w_env := e |>) = Some (tt, w').

Definition reachable : relation (world B A) := rtc server_step.

(** A preorder on instances that every event keeps holds along every run. *)
Lemma reachable_keeps (R : raft_instance -> raft_instance -> Prop) `{!PreOrder R} w w' :
  (forall ev, keeps (on_ri R) (run_event ev)) -> reachable w w' -> R (w_ri w) (w_ri w').
Proof.
  intros HR. induction 1 as [w|w1 w2 w3 (e & ev & Hrun) _ IH]; [reflexivity|].
  transitivity (w_ri w2); [|done]. apply HR in Hrun. exact Hrun.
Qed.
End steps.
