(* ===== verification/PosixBackend.v ===== *)
(** The flat-file storage backend ([src/raft_server_backend_posix.c]): the file
    as the system calls see it, the placement of entries and of the two log
    headers, reading, writing, truncation, and the set-up of the log file. *)
From stdpp Require Import base tactics list gmap.
From Stdlib Require Import ZArith Lia Strings.Byte.
From S2P Require Import Prelude RaftTypes World Entry.
Local Open Scope Z_scope.
Local Open Scope raft_scope.

(** ** The file *)
(** A file is its size and its bytes; what lies beyond the size reads as zero
    when the file grows over it. *)
Record posix_file := { f_size : Z; f_byte : Z -> byte }.

Definition file_byte (f : posix_file) (o : Z) : byte :=
  if (0 <=? o) && (o <? f_size f) then f_byte f o else x00.
Definition file_read (f : posix_file) (off len : Z) : bytes :=
  map (file_byte f) (zrange off (Z.min (off + len) (f_size f))).
Definition file_write (f : posix_file) (off : Z) (data : bytes) : posix_file :=
  let last := off + Z.of_nat (length data) in
  {| f_size := Z.max (f_size f) last;
     f_byte := fun o => if (off <=? o) && (o <? last) then nth (Z.to_nat (o - off)) data x00
                        else file_byte f o |}.
Definition file_truncate (f : posix_file) (size : Z) : posix_file :=
  {| f_size := size; f_byte := file_byte f |}.

(** What the system calls return: [Some rc] is a failure that transfers nothing. *)
Record posix_io := {
  io_pwrite : option Z; io_pread : option Z;
  io_ftruncate : Z; io_fsync : Z; io_fstat : Z; io_open : Z;
}.
Definition io_ok : posix_io :=
  {| io_pwrite := None; io_pread := None; io_ftruncate := 0; io_fsync := 0;
     io_fstat := 0; io_open := 0 |}.

(** [rip_stb_size] is rip_stb.st_size, the size of the last fstat(). *)
Record raft_instance_posix := { rip_stb_size : Z; rip_file : posix_file; rip_io : posix_io }.
#[export] Instance eta_rip : Eta raft_instance_posix := fun r =>
  {| rip_stb_size := rip_stb_size r; rip_file := rip_file r; rip_io := rip_io r |}.

(** ** Encodings *)
Definition RAFT_ENTRY_SIZE_POSIX : Z := 65536.
Definition NUM_RAFT_LOG_HEADERS : Z := 2.
Definition sizeof_raft_log_header : Z := 48.

Definition re_bytes (re : raft_entry) : bytes := reh_bytes (re_header re) ++ re_data re.
Definition re_of_bytes (l : bytes) : raft_entry :=
  {| re_header := reh_of_bytes (take (Z.to_nat sizeof_raft_entry_header) l);
     re_data := drop (Z.to_nat sizeof_raft_entry_header) l |}.

Definition rlh_bytes (h : raft_log_header) : bytes :=
  le_bytes 8 (rlh_version h) ++ le_bytes 8 (rlh_magic h) ++ le_bytes 8 (rlh_term h)
  ++ le_bytes 8 (rlh_seqno h) ++ le_bytes 16 (rlh_voted_for h).
Definition rlh_of_bytes (l : bytes) : raft_log_header :=
  let fld off w := le_val (take w (drop off l)) in
  {| rlh_version := fld 0%nat 8%nat; rlh_magic := fld 8%nat 8%nat;
     rlh_term := s64 (fld 16%nat 8%nat); rlh_seqno := fld 24%nat 8%nat;
     rlh_voted_for := fld 32%nat 16%nat |}.
Definition zero_rlh : raft_log_header :=
  {| rlh_version := 0; rlh_magic := 0; rlh_term := 0; rlh_seqno := 0; rlh_voted_for := 0 |}.

(** ** Placement; [None] is a failed assertion. *)
Definition rsbr_get_num_log_headers (ri : raft_instance) : option Z :=
  if (rlh_version (ri_log_hdr ri) =? 0)
     && bool_decide (ri_store_type ri = RAFT_INSTANCE_STORE_POSIX_FLAT_FILE)
  then Some NUM_RAFT_LOG_HEADERS else None.

Definition rsbr_phys_idx_is_log_header (ri : raft_instance) (phys_idx : Z) : option bool :=
  n ← rsbr_get_num_log_headers ri; Some (phys_idx <? n).

Definition rsbr_entry_idx_to_phys_idx (ri : raft_instance) (entry_idx : raft_entry_idx_t) :
  option Z :=
  num_log_headers ← rsbr_get_num_log_headers ri;
  if 0 <=? entry_idx + num_log_headers then Some (entry_idx + num_log_headers) else None.

Definition rsbr_raft_entry_header_to_phys_idx (ri : raft_instance)
    (reh : raft_entry_header) : option Z :=
  rsbr_entry_idx_to_phys_idx ri (reh_index reh).

Definition rsbr_raft_index_to_phys_offset (ri : raft_instance)
    (entry_idx : raft_entry_idx_t) : option Z :=
  if ri_max_entry_size ri =? RAFT_ENTRY_SIZE_POSIX
  then phys ← rsbr_entry_idx_to_phys_idx ri entry_idx; Some (phys * RAFT_ENTRY_SIZE_POSIX)
  else None.

Definition rsbr_raft_entry_header_to_phys_offset (ri : raft_instance)
    (reh : raft_entry_header) : option Z :=
  rsbr_raft_index_to_phys_offset ri (reh_index reh).
Definition rsbr_raft_entry_to_phys_offset (ri : raft_instance) (re : raft_entry) : option Z :=
  rsbr_raft_entry_header_to_phys_offset ri (re_header re).

(** ** I/O *)
(** niova_io_pwrite(): the return code and the file. *)
Definition rip_pwrite (rip : raft_instance_posix) (data : bytes) (off : Z) :
  Z * raft_instance_posix :=
  match io_pwrite (rip_io rip) with
  | Some rc => (rc, rip)
  | None => (Z.of_nat (length data), rip <| rip_file ::= fun f => file_write f off data |>)
  end.

Definition rip_pread (rip : raft_instance_posix) (len off : Z) : Z * bytes :=
  match io_pread (rip_io rip) with
  | Some rc => (rc, [])
  | None => let b := file_read (rip_file rip) off len in (Z.of_nat (length b), b)
  end.

Definition rsbp_sync (rip : raft_instance_posix) : Z := io_fsync (rip_io rip).

Definition rsbp_entry_write (ri : raft_instance) (re : raft_entry)
    (_ : option raft_net_sm_write_supplements) (rip : raft_instance_posix) :
    option raft_instance_posix :=
  let expected_size := raft_server_entry_to_total_size re in
  offset ← rsbr_raft_entry_to_phys_offset ri re;
  let '(rrc, rip') := rip_pwrite rip (take (Z.to_nat expected_size) (re_bytes re)) offset in
  if rrc =? expected_size then Some rip' else None.

(** The return code and the bytes read. *)
Definition rsbp_read_common (ri : raft_instance) (idx : raft_entry_idx_t)
    (expected_sz : Z) (rip : raft_instance_posix) : option (Z * bytes) :=
  off ← rsbr_raft_index_to_phys_offset ri idx;
  Some (rip_pread rip expected_sz off).

Definition rsbp_entry_read (ri : raft_instance) (idx : raft_entry_idx_t) (data_size : Z)
    (rip : raft_instance_posix) : option (Z * raft_entry) :=
  r ← rsbp_read_common ri idx (u64 (sizeof_raft_entry_header + data_size)) rip;
  Some (r.1, re_of_bytes r.2).

Definition rsbp_entry_header_read (ri : raft_instance) (idx : raft_entry_idx_t)
    (rip : raft_instance_posix) : option (Z * raft_entry_header) :=
  if idx <? 0 then Some (- EINVAL, zero_reh)
  else
    r ← rsbp_read_common ri idx sizeof_raft_entry_header rip;
    Some (if r.1 <? 0 then r.1
          else if negb (r.1 =? sizeof_raft_entry_header) then - EIO else 0,
          reh_of_bytes r.2).

Definition rsbp_log_truncate (ri : raft_instance) (entry_idx : raft_entry_idx_t)
    (rip : raft_instance_posix) : option raft_instance_posix :=
  trunc_off ← rsbr_raft_index_to_phys_offset ri entry_idx;
  if negb (io_ftruncate (rip_io rip) =? 0) then None
  else
    let rip := rip <| rip_file ::= fun f => file_truncate f trunc_off |> in
    if negb (rsbp_sync rip =? 0) then None else Some rip.

Section posix.
Context `{NC : NiovaCore}.

(** One iteration of the loop of rsbp_header_load(), for header [i]. *)
Definition header_load_one (ri : raft_instance) (rip : raft_instance_posix)
    (most_recent_rlh : raft_log_header) (i : Z) : option raft_log_header :=
  num_headers ← rsbr_get_num_log_headers ri;
  r ← rsbp_entry_read ri (i - num_headers) sizeof_raft_log_header rip;
  if negb (r.1 =? sizeof_raft_entry_header + sizeof_raft_log_header)
  then Some most_recent_rlh
  else
    rc ← raft_server_entry_check_crc
           {| re_header := re_header r.2; re_data := re_data r.2 |};
    if negb (rc =? 0) then Some most_recent_rlh
    else
      let rlh := rlh_of_bytes (re_data r.2) in
      Some (if negb (rlh_magic most_recent_rlh =? RAFT_HEADER_MAGIC)
               || (rlh_seqno most_recent_rlh <? rlh_seqno rlh)
            then rlh else most_recent_rlh).

Definition rsbp_header_load (ri : raft_instance) (rip : raft_instance_posix) :
  option (Z * raft_log_header) :=
  num_headers ← rsbr_get_num_log_headers ri;
  most_recent_rlh ← foldl (fun acc i => rlh ← acc; header_load_one ri rip rlh i)
                          (Some zero_rlh) (zrange 0 num_headers);
  Some (if negb (rlh_magic most_recent_rlh =? RAFT_HEADER_MAGIC)
        then (- EBADMSG, ri_log_hdr ri) else (0, most_recent_rlh)).

Definition rsbp_header_write (now : timespec) (ri : raft_instance)
    (rip : raft_instance_posix) : option (Z * raft_instance_posix) :=
  num_headers ← rsbr_get_num_log_headers ri;
  let phys_block_num := rlh_seqno (ri_log_hdr ri) mod Z.max 1 num_headers in
  let re_idx := phys_block_num - num_headers in
  re ← raft_server_entry_init_for_log_header ri now re_idx (rlh_term (ri_log_hdr ri))
         (rlh_bytes (ri_log_hdr ri)) sizeof_raft_log_header;
  off ← rsbr_raft_entry_to_phys_offset ri re;
  let total := raft_server_entry_to_total_size re in
  let '(write_sz, rip') := rip_pwrite rip (take (Z.to_nat total) (re_bytes re)) off in
  let rc := if write_sz =? total then 0 else - EIO in
  let sync_rc := rsbp_sync rip' in
  Some (rc, rip').

(** ** Set-up *)
Definition rsbp_stat_log_fd (rip : raft_instance_posix) : Z * raft_instance_posix :=
  if io_fstat (rip_io rip) <? 0 then (io_fstat (rip_io rip), rip)
  else (0, rip <| rip_stb_size := f_size (rip_file rip) |>).

Definition num_entries_of_size (log_sz num_headers : Z) : Z :=
  Z.max 0 (log_sz / RAFT_ENTRY_SIZE_POSIX
           + (if log_sz mod RAFT_ENTRY_SIZE_POSIX =? 0 then 0 else 1)
           - num_headers).

Definition rsbp_num_entries_calc (ri : raft_instance) (rip : raft_instance_posix) :
  option (Z * raft_instance_posix) :=
  if negb (ri_max_entry_size ri =? RAFT_ENTRY_SIZE_POSIX) then None
  else
    let '(rc, rip) := rsbp_stat_log_fd rip in
    if negb (rc =? 0) then Some (rc, rip)
    else
      num_headers ← rsbr_get_num_log_headers ri;
      Some (num_entries_of_size (rip_stb_size rip) num_headers, rip).

Fixpoint initialize_headers_loop (now : timespec) (n : nat) (ri : raft_instance)
    (rip : raft_instance_posix) : option (Z * raft_instance * raft_instance_posix) :=
  match n with
  | O => Some (0, ri, rip)
  | S n' =>
      r ← rsbp_header_write now ri rip;
      if negb (r.1 =? 0) then Some (r.1, ri, r.2)
      else
        initialize_headers_loop now n'
          (ri <| ri_log_hdr ::= fun h => h <| rlh_seqno ::= fun s => u64 (s + 1) |> |>) r.2
  end.

Definition rsbp_setup_initialize_headers (now : timespec) (ri : raft_instance)
    (rip : raft_instance_posix) : option (Z * raft_instance * raft_instance_posix) :=
  let ri := ri <| ri_log_hdr := zero_rlh <| rlh_magic := RAFT_HEADER_MAGIC |> |> in
  num_headers ← rsbr_get_num_log_headers ri;
  initialize_headers_loop now (Z.to_nat num_headers) ri rip.

Definition rsbp_log_file_setup (now : timespec) (ri : raft_instance)
    (rip : raft_instance_posix) : option (Z * raft_instance * raft_instance_posix) :=
  if io_open (rip_io rip) <? 0 then Some (io_open (rip_io rip), ri, rip)
  else
    let '(rc, rip) := rsbp_stat_log_fd rip in
    if negb (rc =? 0) then Some (rc, ri, rip)
    else
      r ← (if rip_stb_size rip =? 0 then rsbp_setup_initialize_headers now ri rip
           else Some (0, ri, rip));
      let '(rc, ri, rip) := r in
      if negb (rc =? 0) then Some (rc, ri, rip)
      else
        n ← rsbp_num_entries_calc ri rip;
        Some (if n.1 <? 0 then s32 n.1 else 0,
              ri <| ri_entries_detected_at_startup := n.1 |>, n.2).

(** [self_member]: the uuid rsbp_set_db_uuid() copies, a field of this peer's
    ctl-svc node. *)
Definition rsbp_setup (now : timespec) (self_member : uuid) (ri : raft_instance)
    (rip : raft_instance_posix) : option (Z * raft_instance * raft_instance_posix) :=
  let ri := ri <| ri_max_entry_size := RAFT_ENTRY_SIZE_POSIX |> in
  r ← rsbp_log_file_setup now ri rip;
  let '(rc, ri, rip) := r in
  Some (if negb (rc =? 0) then (rc, ri, rip)
        else (0, ri <| ri_db_uuid := self_member |>, rip)).

(** The table [ribPosix]. *)
#[export] Instance ribPosix : Backend raft_instance_posix := {
  rib_entry_write := rsbp_entry_write;
  rib_entry_header_read := rsbp_entry_header_read;
  rib_entry_read := rsbp_entry_read;
  rib_log_truncate := rsbp_log_truncate;
  rib_log_reap := None;
  rib_header_load := rsbp_header_load;
  rib_header_write := rsbp_header_write;
  rib_backend_sync := Some (fun _ _ rip => Some (rsbp_sync rip, rip));
  rib_backend_checkpoint := None;
  rib_sm_apply_opt := None;
}.
End posix.
