(* ===== verification/Sim.v ===== *)
(** A concrete cluster the theorems are tried on: constants for the libraries
    behind the code, an application that counts what it applies, and servers that
    boot from an empty flat file. *)
From stdpp Require Import base tactics list gmap.
From Stdlib Require Import ZArith Lia Strings.Byte.
From S2P Require Import Prelude RaftTypes World Quorum Net WriteSupp Entry Log Election Append Leader ClientReq Apply Server Steps PosixBackend.
Local Open Scope Z_scope.
Local Open Scope raft_scope.

#[export] Instance sim_core : NiovaCore := {
  CTL_SVC_MAX_RAFT_PEERS := 11;
  CTL_SVC_MIN_RAFT_PEERS := 1;
  RAFT_PEER_ANY := 255;
  niova_crc := fun l seed => foldl (fun a b => (a * 31 + Z_of_byte b + 7) mod 2 ^ 32) seed l;
  timespec_2_msec := fun t => t / 10 ^ 6;
  udp_get_max_size := 65000;
  tcp_get_max_size := 4194304;
  raft_net_tcp_disabled := false;
}.

#[export] Instance sim_core_ok : NiovaCoreOk sim_core.
Proof.
  split; simpl; [lia..|]. intros l.
  assert (H : forall s, 0 <= s < 2 ^ 32 -> 0 <= foldl (fun a b =>
    (a * 31 + Z_of_byte b + 7) mod 2 ^ 32) s l < 2 ^ 32); [|by apply H].
  induction l as [|b l IH]; intros s Hs; simpl; [done|]. apply IH, Z.mod_pos_bound. lia.
Qed.

(** The application: a write is put in the log, a commit is counted. *)
#[export] Instance sim_app : StateMachine Z := {
  sm_request_cb rncr n :=
    if bool_decide (rncr_type rncr = RAFT_NET_CLIENT_REQ_TYPE_COMMIT)
    then (0, rncr, n + 1)
    else (0, rncr <| rncr_write_raft_entry := true |>, n);
}.

Definition sim_env (faults : fault_point -> nat) (msec : Z) : env :=
  {| env_fault := faults; env_realtime := msec * 10 ^ 6; env_unstable := msec * 10 ^ 6;
     env_random := 7; env_can_send := fun _ => true; env_can_recv := fun _ => true;
     env_udp_send := fun _ sz => sz; env_tcp_send := fun _ sz => sz;
     env_csn_lookup := fun _ => Some true; env_csn_add := fun _ => 0; env_alloc_rc := 0 |}.
Definition no_faults : fault_point -> nat := fun _ => 0%nat.
Definition one_fault (p : fault_point) : fault_point -> nat :=
  fun q => if bool_decide (q = p) then 1%nat else 0%nat.

Abbreviation sworld := (world raft_instance_posix Z).

Definition sim_raft : uuid := 99.
Definition empty_file : raft_instance_posix :=
  {| rip_stb_size := 0; rip_file := {| f_size := 0; f_byte := fun _ => x00 |}; rip_io := io_ok |}.

(** A server of the cluster [peers] after start-up on an empty log file. *)
Definition sim_boot (sync_writes : bool) (peers : list uuid) (self : uuid) : option sworld :=
  ri ← raft_server_instance_init RAFT_INSTANCE_STORE_POSIX_FLAT_FILE [] [] false sync_writes false
         false 1 zero_raft_instance;
  let ri := ri <| ri_csn_raft := sim_raft |> <| ri_csn_raft_peers := peers |>
               <| ri_csn_this_peer := self |>
               <| ri_last_send := replicate 11 0 |> <| ri_last_recv := replicate 11 0 |> in
  r ← rsbp_setup 0 self ri empty_file;
  let '(rc, ri, rip) := r in
  let w := World ri rip 0 (sim_env no_faults 1000) 0 [] in
  r ← (raft_instance_initialize_newest_entry_hdr ;;;
       let! rc := raft_server_log_load in
       assert_ (rc =? 0) ;;;
       let! rc := raft_server_evp_setup (fun _ => 0) (fun _ => 0) in
       assert_ (rc =? 0) ;;;
       ri_upd (fun ri => ri <| ri_proc_state := RAFT_PROC_STATE_RUNNING |>
                            <| ri_coalesced_wr := Some zero_co_wr |>) ;;;
       raft_server_main_loop_enter) w;
  Some r.2.

(** Run an event at [msec] milliseconds. *)
Definition sim_step (faults : fault_point -> nat) (msec : Z) (ev : event) (w : sworld) :
  option sworld :=
  r ← run_event ev (w <| w_env := sim_env faults msec |>); Some r.2.

(** The messages [w] sent to [dst], oldest first. *)
Definition sent_to (dst : uuid) (w : sworld) : list raft_rpc_msg :=
  omap (fun o => match o with
                 | OutMsg d m => if d =? dst then Some m else None
                 | _ => None
                 end) (w_out w).
Definition deliver (m : raft_rpc_msg) : event :=
  EvPeerMsg (sizeof_raft_rpc_msg +
             match rrm_payload m with
             | rrm_append_entries_request r => raerqm_entries_sz r
             | _ => 0
             end) m true.

(** The same for a message that carries no entries. *)
Definition deliver_vote (m : raft_rpc_msg) : event := EvPeerMsg sizeof_raft_rpc_msg m true.

Definition sim_peers : list uuid := [1; 2; 3].
Definition last_sent (dst : uuid) (w : sworld) : option raft_rpc_msg := last (sent_to dst w).

(** ** Running the cluster *)
Definition sim_world0 : sworld :=
  World zero_raft_instance empty_file 0 (sim_env no_faults 0) 0 [].
Definition sim_node (sync_writes : bool) (self : uuid) : sworld :=
  default sim_world0 (sim_boot sync_writes sim_peers self).
Definition sim_run0 (ev : event) (w : sworld) : sworld :=
  match run_event ev w with Some (_, w') => w' | None => w end.
Definition sim_ok0 (ev : event) (w : sworld) : bool :=
  match run_event ev w with Some _ => true | None => false end.
Definition sim_run (faults : fault_point -> nat) (msec : Z) (ev : event) (w : sworld) : sworld :=
  sim_run0 ev (w <| w_env := sim_env faults msec |>).
Definition sim_ok (faults : fault_point -> nat) (msec : Z) (ev : event) (w : sworld) : bool :=
  sim_ok0 ev (w <| w_env := sim_env faults msec |>).
Definition null_msg : raft_rpc_msg :=
  {| rrm_type := RAFT_RPC_MSG_TYPE_INVALID; rrm_version := 0; rrm_sender_id := 0;
     rrm_raft_id := 0; rrm_db_id := 0;
     rrm_payload := rrm_sync_index_update
       {| rsium_synced_log_index := 0; rsium_term := 0 |} |}.
(** Deliver the last message [src] sent to [dst]. *)
Definition sim_msg (src dst : sworld) : raft_rpc_msg :=
  default null_msg (last_sent (ri_csn_this_peer (w_ri dst)) src).

Lemma sim_run0_event ev w : sim_ok0 ev w = true -> run_event ev w = Some (tt, sim_run0 ev w).
Proof. unfold sim_ok0, sim_run0. destruct (run_event ev _) as [[[] w']|]; done. Qed.

Lemma sim_run_event faults msec ev w :
  sim_ok faults msec ev w = true ->
  run_event ev (w <| w_env := sim_env faults msec |>) = Some (tt, sim_run faults msec ev w).
Proof. apply sim_run0_event. Qed.

Lemma sim_run_step faults msec ev w :
  sim_ok faults msec ev w = true -> server_step w (sim_run faults msec ev w).
Proof. intros H. exists (sim_env faults msec), ev. by apply sim_run_event. Qed.

(** The state after any action, and whether it completes. *)
Definition sim_do {T} (m : M sworld T) (w : sworld) : sworld :=
  match m w with Some (_, w') => w' | None => w end.
Definition sim_result {T} (m : M sworld T) (w : sworld) : option T :=
  match m w with Some (a, _) => Some a | None => None end.
Lemma sim_do_run {T} (m : M sworld T) (w : sworld) a :
  sim_result m w = Some a -> m w = Some (a, sim_do m w).
Proof. unfold sim_result, sim_do. destruct (m w) as [[b w']|]; [by intros [= ->] | done]. Qed.

(** Server 1 starts an election for term 1, server 2 votes for it; server 3 starts
    one for term 2, server 2 votes again. *)
Definition sim_elect (msec : Z) (w : sworld) : sworld :=
  sim_run (one_fault raft_pvc_becomes_candidate) msec EvTimer w.
Definition sim_cand1 : sworld := sim_elect 2000 (sim_node false 1).
Definition sim_vreq1 : raft_rpc_msg := nth 0 (sent_to 2 sim_cand1) null_msg.
Definition sim_cand3 : sworld := sim_elect 2100 (sim_elect 2000 (sim_node false 3)).
Definition sim_vreq3 : raft_rpc_msg := nth 2 (sent_to 2 sim_cand3) null_msg.
Definition sim_at (msec : Z) (w : sworld) : sworld := w <| w_env := sim_env no_faults msec |>.
Definition sim_voter1 : sworld := sim_run no_faults 2200 (deliver_vote sim_vreq1) (sim_node false 2).
Definition sim_voter2 : sworld := sim_run0 (deliver_vote sim_vreq3) sim_voter1.
Definition sim_vreq (m : raft_rpc_msg) : raft_vote_request_msg :=
  match rrm_payload m with
  | rrm_vote_request v => v
  | _ => {| rvrqm_proposed_term := 0; rvrqm_last_log_term := 0; rvrqm_last_log_index := 0 |}
  end.
Definition sim_last_out (w : sworld) : output := default (OutTimer 0 false) (last (w_out w)).
