(* ===== verification/LogProps.v ===== *)
(** Invariant of the newest entry headers: the synced header never runs ahead of
    the written one, and synchronising makes them equal. *)
From stdpp Require Import base tactics list gmap relations.
From Stdlib Require Import ZArith Lia Strings.Byte.
From S2P Require Import Prelude RaftTypes World Quorum Net WriteSupp Entry Log Election Append Leader ClientReq Apply Server Steps.
Local Open Scope Z_scope.
Local Open Scope raft_scope.

Definition hdr_valid (h : raft_entry_header) : Prop :=
  h = null_reh \/ (reh_magic h = RAFT_ENTRY_MAGIC /\ 0 <= reh_index h).

Definition nehdr_ok (ri : raft_instance) : Prop :=
  let s := ri_newest_entry_sync ri in
  let u := ri_newest_entry_unsync ri in
  ri_state ri <> RAFT_STATE_CLIENT /\ hdr_valid s /\ hdr_valid u /\
  (s = u \/ (ri_synchronous_writes ri = false /\
             reh_index s < reh_index u /\ reh_term s <= reh_term u)).

(** The relation "[P] is preserved". *)
Definition preserves {T} (P : T -> Prop) : T -> T -> Prop := fun x y => P x -> P y.
#[export] Instance preserves_preorder {T} (P : T -> Prop) : PreOrder (preserves P).
Proof. split; red; unfold preserves; auto. Qed.

#[local] Hint Extern 4 (keeps (on_ri (preserves nehdr_ok)) (ri_upd _)) =>
  apply keeps_ri_upd; let X := fresh in intros ? X;
  first [exact X | split; [done | apply X]] : keeps.
#[local] Hint Extern 4 (keeps (on_ri (preserves nehdr_ok)) (modify _)) =>
  apply keeps_modify; let X := fresh in intros ? X; exact X : keeps.

Section nehdr.
Context `{NC : NiovaCore} {B A : Type} {BE : Backend B} {SM : StateMachine A}.
Implicit Types w : world B A.
Local Abbreviation M := (M (world B A)).

Lemma has_unsynced_run w b w' :
  raft_server_has_unsynced_entries w = Some (b, w') ->
  w' = w /\ (b = false <-> ri_newest_entry_sync (w_ri w) = ri_newest_entry_unsync (w_ri w)).
Proof.
  unfold raft_server_has_unsynced_entries. intros H. run_inv H. split; [done|].
  unfold id. by rewrite negb_false_iff, bool_decide_eq_true.
Qed.

Definition updates (ty i : newest_entry_hdr_type) : bool :=
  bool_decide (ty = RI_NEHDR_ALL) || bool_decide (i = ty).

Lemma update_newest_one_run reh ty force i w u w' :
  update_newest_one reh ty force i w = Some (u, w') -> i <> RI_NEHDR_ALL ->
  newest_hdr (w_ri w') i =
    (if updates ty i && (force || (reh_index (newest_hdr (w_ri w) i) <? reh_index reh))
     then reh else newest_hdr (w_ri w) i) /\
  (forall j, j <> i -> j <> RI_NEHDR_ALL -> newest_hdr (w_ri w') j = newest_hdr (w_ri w) j) /\
  ri_synchronous_writes (w_ri w') = ri_synchronous_writes (w_ri w).
Proof.
  unfold update_newest_one, updates. intros H Hi.
  destruct (bool_decide (ty = RI_NEHDR_ALL)), (bool_decide (i = ty)); simpl in *;
    try (run_inv H; done).
  all: run_step H; unfold id in *;
    destruct (force || _); unfold raft_server_does_synchronous_writes in H;
    run_inv H; try done; destruct i; try done; split_and!; first [done | intros j ? ?; destruct j; done].
Qed.

Lemma update_newest_run reh ty force w u w' :
  raft_instance_update_newest_entry_hdr reh ty force w = Some (u, w') ->
  0 <= reh_index reh ->
  ri_newest_entry_sync (w_ri w') =
    (if updates ty RI_NEHDR_SYNC
        && (force || (reh_index (ri_newest_entry_sync (w_ri w)) <? reh_index reh))
     then reh else ri_newest_entry_sync (w_ri w)) /\
  ri_newest_entry_unsync (w_ri w') =
    (if updates ty RI_NEHDR_UNSYNC
        && (force || (reh_index (ri_newest_entry_unsync (w_ri w)) <? reh_index reh))
     then reh else ri_newest_entry_unsync (w_ri w)) /\
  ri_synchronous_writes (w_ri w') = ri_synchronous_writes (w_ri w).
Proof.
  unfold raft_instance_update_newest_entry_hdr. intros H Hi.
  destruct (Z.ltb_spec (reh_index reh) 0); [lia|].
  apply bind_Some in H as (? & w1 & H1 & H2).
  apply update_newest_one_run in H1 as (Hs & Ho & Hw); [|done].
  apply update_newest_one_run in H2 as (Hu & Ho2 & Hw2); [|done].
  rewrite (Ho RI_NEHDR_UNSYNC) in Hu by done.
  specialize (Ho2 RI_NEHDR_SYNC ltac:(done) ltac:(done)). simpl in *.
  rewrite Ho2, Hs, Hu, Hw2, Hw. done.
Qed.

Lemma hdr_valid_nonneg h : hdr_valid h -> 0 <= reh_index h -> reh_magic h = RAFT_ENTRY_MAGIC.
Proof. intros [->|[? ?]] ?; [simpl in *; lia | done]. Qed.
Lemma hdr_valid_ge h : hdr_valid h -> -1 <= reh_index h.
Proof. intros [->|[? ?]]; simpl; lia. Qed.

Lemma get_newest_header_run ty w reh w' :
  raft_instance_get_newest_header ty w = Some (reh, w') ->
  ri_state (w_ri w) <> RAFT_STATE_CLIENT -> w' = w /\ reh = newest_hdr (w_ri w) ty.
Proof.
  unfold raft_instance_get_newest_header, raft_instance_is_client. intros H Hc.
  do 2 run_step H. unfold id in H. rewrite bool_decide_false in H by done. by run_inv H.
Qed.

Lemma current_index_run ty w i w' :
  raft_server_get_current_raft_entry_index ty w = Some (i, w') ->
  ri_state (w_ri w) <> RAFT_STATE_CLIENT -> hdr_valid (newest_hdr (w_ri w) ty) ->
  w' = w /\ i = reh_index (newest_hdr (w_ri w) ty).
Proof.
  unfold raft_server_get_current_raft_entry_index, raft_instance_is_client. intros H Hc Hv.
  run_step H. unfold id in H. rewrite bool_decide_false in H by done.
  apply bind_Some in H as (reh & ? & [-> ->]%get_newest_header_run & H); [|done].
  run_step H. unfold raft_server_entry_header_is_null in *.
  destruct (Z.eqb_spec (reh_magic (newest_hdr (w_ri w) ty)) RAFT_ENTRY_MAGIC).
  - simplify_eq. simpl in H. by run_inv H.
  - destruct Hv as [Hn|[? ?]]; [|done]. rewrite Hn in *. simpl in *.
    simplify_eq. simpl in H. by run_inv H.
Qed.

(** After a successful sync everything written is synced. *)
Lemma backend_sync_run w rc w' :
  raft_server_backend_sync w = Some (rc, w') -> nehdr_ok (w_ri w) ->
  ri_newest_entry_sync (w_ri w') =
    (if rc =? 0 then ri_newest_entry_unsync (w_ri w) else ri_newest_entry_sync (w_ri w)) /\
  ri_newest_entry_unsync (w_ri w') = ri_newest_entry_unsync (w_ri w) /\
  ri_synchronous_writes (w_ri w') = ri_synchronous_writes (w_ri w).
Proof.
  unfold raft_server_backend_sync. intros H (Hc & Hs & Hu & Hsu).
  run_step H. destruct (raft_server_does_synchronous_writes _) eqn:Hsync.
  - apply bind_Some in H as (b & ? & (-> & Hb)%has_unsynced_run & H).
    run_inv H. split; [|done]. by apply Hb.
  - do 2 run_step H.
    apply bind_Some in H as (reh & ? & [-> ->]%get_newest_header_run & H); [|done].
    apply bind_Some in H as (i & ? & [-> ->]%current_index_run & H); [|done..].
    do 4 run_step H. apply bind_Some in H as (r & sr & Hr & H).
    assert (sr = w) as ->.
    { clear -Hr. destruct (v _ _ _); [by run_inv Hr | done]. }
    run_step H. apply bind_Some in H as (? & w1 & Hupd & H).
    assert (Hrc : r.1 = rc).
    { clear -H. repeat run_step H; run_inv H; done. }
    eapply (keeps_run (on_ri (same (fun ri =>
      (ri_newest_entry_sync ri, ri_newest_entry_unsync ri, ri_synchronous_writes ri)))))
      in H; [|solve_keeps]. injection H as -> -> ->.
    rewrite Hrc in Hupd. destruct (Z.eqb_spec rc 0) as [->|];
      [cbn [when] in Hupd | by run_inv Hupd].
    destruct (Z.ltb_spec (reh_index (ri_newest_entry_unsync (w_ri w))) 0).
    + unfold raft_instance_update_newest_entry_hdr in Hupd. cbn [newest_hdr] in Hupd.
      destruct (Z.ltb_spec (reh_index (ri_newest_entry_unsync (w_ri w))) 0); [|lia].
      run_inv Hupd. simpl. split; [|done].
      destruct Hsu as [?|(_ & ? & _)]; [done|]. pose proof (hdr_valid_ge _ Hs). lia.
    + apply update_newest_run in Hupd as (-> & -> & ->); [|done]. simpl. split; [|done].
      destruct Hsu as [Heq|(_ & ? & _)].
      * rewrite Heq. by destruct (_ <? _).
      * destruct (Z.ltb_spec (reh_index (ri_newest_entry_sync (w_ri w)))
                   (reh_index (ri_newest_entry_unsync (w_ri w)))); [done | lia].
Qed.

Lemma keeps_nehdr_backend_sync :
  keeps (on_ri (preserves nehdr_ok)) (raft_server_backend_sync : M Z).
Proof.
  intros w rc w' H Hok. pose proof (backend_sync_run _ _ _ H Hok) as (Hs & Hu & Hw).
  eapply (keeps_run (on_ri (same ri_state))) in H; [|solve_keeps]. unfold on_ri, same in H.
  destruct Hok as (Hc & Hvs & Hvu & Hsu). unfold nehdr_ok. rewrite Hs, Hu, Hw, H.
  split; [done|]. destruct (rc =? 0); split_and!; auto.
Qed.

Lemma next_entry_valid_run reh w w' :
  raft_server_entry_next_entry_is_valid reh w = Some (true, w') -> nehdr_ok (w_ri w) ->
  w' = w /\ (reh_index reh < 0 \/
    (reh_index reh = reh_index (ri_newest_entry_unsync (w_ri w)) + 1 /\
     reh_term (ri_newest_entry_unsync (w_ri w)) <= reh_term reh)).
Proof.
  unfold raft_server_entry_next_entry_is_valid. intros H (Hc & Hs & Hu & Hsu).
  destruct (Z.ltb_spec (reh_index reh) 0); [run_inv H; auto|].
  apply bind_Some in H as (h & ? & [-> ->]%get_newest_header_run & H); [|done].
  run_step H. apply bind_Some in H as (? & w1 & Hw & H).
  assert (w1 = w) as ->.
  { unfold raft_server_does_synchronous_writes, id in Hw.
    destruct (ri_synchronous_writes _); cbn [when] in Hw; [|by run_inv Hw].
    apply bind_Some in Hw as (? & ? & [-> ->]%current_index_run & Hw); [|done..].
    by run_inv Hw. }
  simpl in H. run_inv H. split; [done|]. right. destruct (negb _ || _) eqn:E; [done|].
  apply orb_false_iff in E. lia.
Qed.

Lemma keeps_nehdr_entry_write idx term data sizes n opts ws :
  keeps (on_ri (preserves nehdr_ok))
    (raft_server_entry_write idx term data sizes n opts ws : M Z).
Proof.
  intros w rc w' H Hok. unfold raft_server_entry_write in H.
  destruct (_ && _); [by run_inv H|]. run_step H.
  destruct (_ <? _); [by run_inv H|]. run_step H.
  apply bind_Some in H as (re & ? & Hre & H). run_inv Hre.
  apply raft_server_entry_init_inv in Hopt as (_ & Hm & _).
  apply bind_Some in H as (b & w1 & Hv & H).
  apply bind_Some in H as (? & w2 & Hb & H). run_inv Hb. destruct b; [|done].
  apply next_entry_valid_run in Hv as (-> & Hv); [|done].
  apply bind_Some in H as (? & w3 & Hw & H).
  eapply (keeps_run (on_ri (same id))) in Hw; [|solve_keeps].
  unfold on_ri, same, id in Hw.
  apply bind_Some in H as (? & w4 & Hupd & H).
  eapply (keeps_run (on_ri (preserves nehdr_ok))); [|exact H|]; [solve_keeps|].
  clear H. destruct (Z.ltb_spec (reh_index (re_header re)) 0).
  { unfold raft_instance_update_newest_entry_hdr in Hupd.
    destruct (Z.ltb_spec (reh_index (re_header re)) 0); [|lia]. run_inv Hupd. by rewrite Hw. }
  destruct Hv as [?|(Hi & Ht)]; [lia|].
  pose proof Hupd as Hst. eapply (keeps_run (on_ri (same ri_state))) in Hst; [|solve_keeps].
  unfold on_ri, same in Hst.
  apply update_newest_run in Hupd as (Hs & Hu & Hsw); [|done].
  destruct Hok as (Hc & Hvs & Hvu & Hsu). unfold nehdr_ok. rewrite Hs, Hu, Hsw, Hst, Hw.
  assert (Hre : hdr_valid (re_header re)) by (right; done).
  unfold raft_server_does_synchronous_writes, updates, id.
  destruct (Z.ltb_spec (reh_index (ri_newest_entry_unsync (w_ri w))) (reh_index (re_header re))); [|lia].
  split; [done|]. destruct (ri_synchronous_writes (w_ri w)) eqn:Esw; simpl.
  - destruct Hsu as [->|(? & _)]; [|done].
    destruct (Z.ltb_spec (reh_index (ri_newest_entry_unsync (w_ri w))) (reh_index (re_header re)));
      [|lia]. auto.
  - split_and!; [done..|]. right. destruct Hsu as [->|(_ & ? & ?)]; split_and!; try done; lia.
Qed.
End nehdr.

#[local] Hint Resolve keeps_nehdr_backend_sync keeps_nehdr_entry_write : keeps.


Section nehdr_events.
Context `{NC : NiovaCore} {B A : Type} {BE : Backend B} {SM : StateMachine A}.
Implicit Types w : world B A.
Local Abbreviation M := (M (world B A)).

(** A header that was read passed the validation. *)
Lemma header_read_run idx w reh w' :
  header_read_or_fatal idx w = Some (reh, w') ->
  0 <= idx /\ reh_magic reh = RAFT_ENTRY_MAGIC /\ reh_index reh = idx.
Proof.
  unfold header_read_or_fatal, raft_server_entry_header_read_by_store. intros H.
  apply bind_Some in H as ([rc o] & w1 & H1 & H). run_step H. run_inv H. simpl in *. subst o.
  apply negb_false_iff, Z.eqb_eq in Hfatal as ->.
  destruct (Z.ltb_spec idx 0); [by run_inv H1|].
  apply bind_Some in H1 as ([rc [h|]] & w2 & _ & H1); [|by run_inv H1].
  destruct (Z.eqb_spec rc 0) as [->|]; simpl in H1; [|by run_inv H1].
  run_step H1. run_inv H1. split; [done|].
  unfold read_server_entry_validate in *. repeat case_match; try done.
  repeat match goal with H : _ || _ = false |- _ => apply orb_false_iff in H as [? ?] end.
  repeat match goal with H : negb _ = false |- _ => apply negb_false_iff, Z.eqb_eq in H end.
  done.
Qed.

Lemma keeps_nehdr_prune_to idx :
  keeps (on_ri (preserves nehdr_ok)) (prune_to idx : M unit).
Proof.
  intros w a w' H Hok. unfold prune_to in H. apply bind_Some in H as (reh & w1 & H1 & H).
  pose proof H1 as (Hi & Hm & Hidx)%header_read_run.
  assert (Hok1 : nehdr_ok (w_ri w1)).
  { eapply (keeps_run (on_ri (preserves nehdr_ok))); [|exact H1|done]. solve_keeps. }
  pose proof H as Hst. eapply (keeps_run (on_ri (same ri_state))) in Hst; [|solve_keeps].
  unfold on_ri, same in Hst.
  apply update_newest_run in H as (Hs & Hu & Hw); [|lia].
  destruct Hok1 as (Hc & _). unfold nehdr_ok. rewrite Hst, Hs, Hu, Hw. simpl.
  assert (hdr_valid reh) by (right; split; [done | lia]). auto.
Qed.
End nehdr_events.

#[local] Hint Resolve keeps_nehdr_prune_to : keeps.

Section nehdr_invariant.
Context `{NC : NiovaCore} {B A : Type} {BE : Backend B} {SM : StateMachine A}.

Lemma run_event_nehdr ev :
  keeps (on_ri (preserves nehdr_ok)) (run_event ev : M (world B A) unit).
Proof. destruct ev. all: solve_keeps. Qed.
End nehdr_invariant.
