(* ===== verification/VoteProps.v ===== *)
(** Terms and votes: the log header only moves to higher terms, a vote is
    recorded before it is granted, and it is granted at most once per term. *)
From stdpp Require Import base tactics list gmap relations.
From Stdlib Require Import ZArith Lia Strings.Byte.
From S2P Require Import Prelude RaftTypes World Quorum Net WriteSupp Entry Log Election Append Leader ClientReq Apply Server Steps PosixBackend LogProps Sim.
Local Open Scope Z_scope.
Local Open Scope raft_scope.

(** ** The log header moves forward *)
Definition hdr_mono (ri ri' : raft_instance) : Prop :=
  ri_log_hdr ri' = ri_log_hdr ri \/
  rlh_term (ri_log_hdr ri) < rlh_term (ri_log_hdr ri').

#[export] Instance hdr_mono_preorder : PreOrder hdr_mono.
Proof.
  split.
  - by left.
  - intros x y z [H1|H1] [H2|H2]; unfold hdr_mono; rewrite ?H1, ?H2 in *;
      [by left | right; lia | right; lia | right; lia].
Qed.

Lemma hdr_mono_same ri ri' : same ri_log_hdr ri ri' -> hdr_mono ri ri'.
Proof. by left. Qed.

#[local] Hint Extern 4 (keeps (on_ri hdr_mono) (ri_upd _)) =>
  apply keeps_ri_upd; intros ?; left; reflexivity : keeps.
#[local] Hint Extern 4 (keeps (on_ri hdr_mono) (modify _)) =>
  apply keeps_modify; intros ?; left; reflexivity : keeps.

Section votes.
Context `{NC : NiovaCore} {B A : Type} {BE : Backend B} {SM : StateMachine A}.
Local Abbreviation M := (M (world B A)).
Implicit Types w : world B A.

Lemma keeps_hdr_same {T} (m : M T) :
  keeps (on_ri (same ri_log_hdr)) m -> keeps (on_ri hdr_mono) m.
Proof. apply keeps_weaken. intros w w'. apply hdr_mono_same. Qed.

(** Writing the header sets exactly the term and the vote. *)
Lemma log_header_write_hdr c t w rc w' :
  raft_server_log_header_write c t w = Some (rc, w') ->
  ri_log_hdr (w_ri w') =
    (ri_log_hdr (w_ri w)) <| rlh_seqno ::= fun s => u64 (s + 1) |>
      <| rlh_magic := RAFT_HEADER_MAGIC |> <| rlh_term := t |> <| rlh_voted_for := c |>.
Proof.
  unfold raft_server_log_header_write. intros (? & w1 & Hp & Hrest)%bind_Some.
  eapply (keeps_run (on_ri (same ri_log_hdr))) in Hrest; [|solve_keeps].
  unfold on_ri, same in Hrest. rewrite Hrest.
  unfold raft_server_log_header_write_prep in Hp. run_inv Hp. done.
Qed.

Lemma update_log_header_hdr t c w u w' :
  raft_server_update_log_header t c w = Some (u, w') ->
  rlh_term (ri_log_hdr (w_ri w)) < t /\
  rlh_term (ri_log_hdr (w_ri w')) = t /\ rlh_voted_for (ri_log_hdr (w_ri w')) = c.
Proof.
  unfold raft_server_update_log_header. intros H. run_inv H.
  match goal with H : raft_server_log_header_write _ _ _ = _ |- _ =>
    apply log_header_write_hdr in H as -> end.
  simpl in *. split; [lia | done].
Qed.

Lemma keeps_update_log_header t c : keeps (on_ri hdr_mono) (raft_server_update_log_header t c : M unit).
Proof.
  intros w u w' H%update_log_header_hdr. right. lia.
Qed.

Lemma log_header_write_mono c t w rc w' :
  raft_server_log_header_write c t w = Some (rc, w') ->
  rlh_term (ri_log_hdr (w_ri w)) < t -> hdr_mono (w_ri w) (w_ri w').
Proof. intros H%log_header_write_hdr ?. right. rewrite H. simpl. lia. Qed.

Lemma keeps_vote_for_self again :
  keeps (on_ri hdr_mono) again -> keeps (on_ri hdr_mono) (raft_server_vote_for_self again : M Z).
Proof.
  intros Ha w a w' H. unfold raft_server_vote_for_self in H.
  run_step H. destruct (negb _); [run_inv H; reflexivity|].
  apply bind_Some in H as (rc & w2 & Hw & H).
  transitivity w2; [|clear Hw; revert H].
  - destruct (raft_instance_is_candidate _).
    + eapply log_header_write_mono; [exact Hw|]. simpl. lia.
    + run_inv Hw. reflexivity.
  - intros H. eapply keeps_run; [|exact H]. solve_keeps.
Qed.

Lemma keeps_become_candidate_fuel fuel prevote :
  keeps (on_ri hdr_mono) (raft_server_become_candidate_fuel fuel prevote : M unit).
Proof.
  revert prevote. induction fuel as [|fuel IH]; intros prevote; simpl; [solve_keeps|].
  pose proof keeps_vote_for_self. solve_keeps.
Qed.

End votes.

#[local] Hint Resolve keeps_update_log_header keeps_vote_for_self : keeps.

Section votes.
Context `{NC : NiovaCore} {B A : Type} {BE : Backend B} {SM : StateMachine A}.
Implicit Types w : world B A.

Lemma run_event_hdr_mono ev : keeps (on_ri hdr_mono) (run_event ev : M (world B A) unit).
Proof. destruct ev. all: solve_keeps. Qed.

(** ** Granting votes *)
Lemma raft_peer_2_idx_run u w i w' :
  raft_peer_2_idx u w = Some (i, w') ->
  w' = w /\ i = peer_idx_of (w_ri w) u /\ num_members (w_ri w) <= CTL_SVC_MAX_RAFT_PEERS.
Proof. unfold raft_peer_2_idx. intros H. run_inv H. split_and!; [done | done | lia]. Qed.

Lemma raft_peer_uuid_to_csn_run u w o w' :
  raft_peer_uuid_to_csn u w = Some (o, w') ->
  w' = w /\ (u <> 0 -> u ∈ ri_csn_raft_peers (w_ri w) -> o = Some u).
Proof.
  unfold raft_peer_uuid_to_csn, uuid_is_null. destruct (Z.eqb_spec u 0).
  { intros H. run_inv H. done. }
  unfold raft_num_members_validate_and_get. intros H. run_inv H. split; [done|].
  intros _ Hin. simpl. destruct (find_uuid _ _ _) eqn:E; [done|].
  by apply find_uuid_None in E.
Qed.

Context {OK : NiovaCoreOk NC}.

Lemma verify_sender_run u raft ok w c w' :
  raft_net_verify_sender_server_msg u raft ok w = Some (Some c, w') ->
  w' = w /\ c = u /\ u <> 0 /\ u ∈ ri_csn_raft_peers (w_ri w).
Proof.
  unfold raft_net_verify_sender_server_msg, uuid_is_null.
  destruct (Z.eqb_spec u 0); [by intros H; run_inv H|].
  intros (i & w1 & (-> & -> & Hn)%raft_peer_2_idx_run & H)%bind_Some.
  run_step H. destruct (_ || _) eqn:E; [by run_inv H|].
  apply orb_false_iff in E as [E _].
  run_step H. destruct ok; simpl in H; [|by run_inv H]. run_inv H.
  cbn beta in *. unfold id in *.
  destruct (env_can_recv _ _); [|done].
  match goal with H : Some _ = Some c |- _ => injection H as <- end.
  destruct (peer_idx_of_spec (w_ri w) u Hn) as [(_ & Hz & _)|(_ & Hz & ?)]; [|lia].
  match goal with H : znth _ _ = Some ?v |- context [?v = u] => rewrite Hz in H; injection H as <- end.
  split_and!; try done. unfold znth in Hz. case_decide; [|done].
  by eapply list_elem_of_lookup_2.
Qed.

Lemma verify_sender_ok u raft ok w c w' :
  raft_net_verify_sender_server_msg u raft ok w = Some (Some c, w') -> ok = true.
Proof.
  unfold raft_net_verify_sender_server_msg. destruct ok; [done|]. intros H.
  run_if H; [by run_inv H|]. apply bind_Some in H as (i & w1 & _ & H).
  run_step H. run_if H; by run_inv H.
Qed.

(** The vote is recorded: the follower's header names the peer. *)
Lemma becomes_follower_votes t c w u w' :
  raft_server_becomes_follower t c RAFT_BFRSN_VOTED_FOR_PEER w = Some (u, w') ->
  c <> 0 -> c ∈ ri_csn_raft_peers (w_ri w) -> c <> ri_csn_this_peer (w_ri w) ->
  rlh_term (ri_log_hdr (w_ri w)) < t /\
  ri_state (w_ri w') = RAFT_STATE_FOLLOWER /\
  rlh_term (ri_log_hdr (w_ri w')) = t /\ rlh_voted_for (ri_log_hdr (w_ri w')) = c.
Proof.
  unfold raft_server_becomes_follower.
  intros (o & w1 & (-> & Ho)%raft_peer_uuid_to_csn_run & H)%bind_Some Hc Hin Hself.
  rewrite (Ho Hc Hin) in H.
  run_step H.
  destruct (Z.eqb_spec c (ri_csn_this_peer (w_ri w))); [done|].
  do 2 run_step H. apply bind_Some in H as (? & ? & H1 & H).
  rewrite bool_decide_false in H1 by done. run_inv H1.
  apply bind_Some in H as (? & ? & H1 & H).
  unfold raft_server_set_leader_csn in H1. run_inv H1. simpl in *.
  destruct (Z.eqb_spec t (rlh_term (ri_log_hdr (w_ri w)))); [lia|].
  pose proof (update_log_header_hdr _ _ _ _ _ H) as (Hlt & -> & ->). simpl in Hlt.
  split; [lia|]. split; [|done].
  eapply (keeps_run (on_ri (same ri_state))) in H; [exact H | solve_keeps].
Qed.
End votes.

(** A YES reply to a (real) vote request. *)
Definition grants_vote (m : raft_rpc_msg) : bool :=
  match rrm_type m, rrm_payload m with
  | RAFT_RPC_MSG_TYPE_VOTE_REPLY, rrm_vote_reply r => rvrpm_voted_granted r
  | _, _ => false
  end.
Definition is_grant (o : output) : bool :=
  match o with OutMsg _ m => grants_vote m | _ => false end.

Section grants.
Context `{NC : NiovaCore} {B A : Type} {BE : Backend B} {SM : StateMachine A}.
Implicit Types w : world B A.
Local Abbreviation M := (M (world B A)).

(** The effects of the step from [w] to [w']. *)
Definition new_outs w w' : list output := drop (length (w_out w)) (w_out w').

Lemma new_outs_app P w w' : on_out P w w' -> Forall P (new_outs w w') /\
  w_out w' = w_out w ++ new_outs w w'.
Proof.
  intros (l & H & HP). unfold new_outs. rewrite H, drop_app_length. done.
Qed.

Lemma keeps_send_msg_out rp rrm :
  keeps (on_out (fun o => o = OutMsg rp rrm)) (raft_server_send_msg rp rrm : M Z).
Proof. solve_keeps. Qed.

Lemma keeps_no_grant_sync_pending :
  keeps (on_out (fun o => is_grant o = false)) (raft_server_backend_sync_pending : M unit).
Proof. solve_keeps. Qed.

Lemma keeps_no_grant_becomes_follower t c r :
  keeps (on_out (fun o => is_grant o = false)) (raft_server_becomes_follower t c r : M unit).
Proof. solve_keeps. Qed.

Lemma sync_pending_run w u w' :
  raft_server_backend_sync_pending w = Some (u, w') -> nehdr_ok (w_ri w) ->
  ri_newest_entry_sync (w_ri w') = ri_newest_entry_unsync (w_ri w) /\
  ri_state (w_ri w') <> RAFT_STATE_CLIENT.
Proof.
  unfold raft_server_backend_sync_pending. intros H Hok.
  apply bind_Some in H as (b & ? & (-> & Hb)%has_unsynced_run & H).
  apply bind_Some in H as (rc & w1 & H1 & H).
  run_step H. apply negb_false_iff, Z.eqb_eq in Hfatal as ->.
  assert (Hs1 : ri_newest_entry_sync (w_ri w1) = ri_newest_entry_unsync (w_ri w) /\
                ri_state (w_ri w1) = ri_state (w_ri w)).
  { destruct b.
    - split; [by apply backend_sync_run in H1 as (-> & _)|].
      eapply (keeps_run (on_ri (same ri_state))) in H1; [exact H1 | solve_keeps].
    - run_inv H1. split; [by apply Hb | done]. }
  eapply (keeps_run (on_ri (same (fun ri => (ri_newest_entry_sync ri, ri_state ri))))) in H;
    [|solve_keeps].
  injection H as -> ->. destruct Hs1 as [-> ->]. split; [done | apply Hok].
Qed.

(** ** The vote request handler *)
Lemma vote_request_run sender rrm vreq w u w' :
  raft_server_process_vote_request_common sender rrm vreq w = Some (u, w') ->
  rrm_type rrm = RAFT_RPC_MSG_TYPE_VOTE_REQUEST -> nehdr_ok (w_ri w) ->
  sender <> 0 -> sender ∈ ri_csn_raft_peers (w_ri w) -> sender <> ri_csn_this_peer (w_ri w) ->
  on_out (fun o => is_grant o = true -> exists m, o = OutMsg sender m /\
    raft_server_process_vote_request_decide (w_ri w) vreq (ri_newest_entry_unsync (w_ri w)) = true /\
    ri_state (w_ri w') = RAFT_STATE_FOLLOWER /\
    rlh_term (ri_log_hdr (w_ri w')) = rvrqm_proposed_term vreq /\
    rlh_voted_for (ri_log_hdr (w_ri w')) = sender) w w'.
Proof.
  unfold raft_server_process_vote_request_common.
  intros H Hty Hok Hnz Hin Hself. rewrite Hty in H. rewrite bool_decide_false in H by done.
  run_step H. apply Z.eqb_eq in Hassert. rewrite <- Hassert in H.
  apply bind_Some in H as (? & w1 & H1 & H).
  pose proof (sync_pending_run _ _ _ H1 Hok) as [Hsync Hc].
  assert (Hsame : ri_log_hdr (w_ri w1) = ri_log_hdr (w_ri w) /\
    ri_csn_raft_peers (w_ri w1) = ri_csn_raft_peers (w_ri w) /\
    ri_csn_this_peer (w_ri w1) = ri_csn_this_peer (w_ri w)).
  { eapply (keeps_run (on_ri (same (fun ri =>
      (ri_log_hdr ri, ri_csn_raft_peers ri, ri_csn_this_peer ri))))) in H1; [|solve_keeps].
    by injection H1 as -> -> ->. }
  destruct Hsame as (Hh & Hp & Ht).
  apply keeps_no_grant_sync_pending in H1.
  apply bind_Some in H as (h & ? & [-> ->]%get_newest_header_run & H); [|done].
  simpl newest_hdr in H. rewrite Hsync in H.
  run_step H. unfold id in H. cbn [negb andb] in H.
  assert (Hdec : raft_server_process_vote_request_decide (w_ri w1) vreq
                   (ri_newest_entry_unsync (w_ri w)) =
                 raft_server_process_vote_request_decide (w_ri w) vreq
                   (ri_newest_entry_unsync (w_ri w))).
  { unfold raft_server_process_vote_request_decide. by rewrite Hh. }
  rewrite Hdec in H. apply bind_Some in H as (? & w2 & H2 & H).
  apply bind_Some in H as (rc & w3 & H3 & H). run_inv H.
  pose proof H3 as Hk. eapply (keeps_run (on_ri (same (fun ri => (ri_state ri, ri_log_hdr ri)))))
    in Hk; [|solve_keeps]. injection Hk as Hst Hlh. rewrite Hst, Hlh.
  destruct (raft_server_process_vote_request_decide _ _ _) eqn:Ed; cbn [when] in H2.
  - assert (Hout : on_out (fun o => is_grant o = false) w w2).
    { etransitivity; [exact H1|].
      eapply keeps_run; [|exact H2]. apply keeps_no_grant_becomes_follower. }
    apply becomes_follower_votes in H2 as (_ & -> & -> & ->);
      [|done | by rewrite Hp | by rewrite Ht].
    apply keeps_send_msg_out in H3. destruct Hout as (l1 & E1 & P1), H3 as (l2 & E2 & P2).
    exists (l1 ++ l2). rewrite E2, E1, app_assoc. split; [done|]. apply Forall_app. split.
    + eapply Forall_impl; [exact P1|]. simpl. congruence.
    + eapply Forall_impl; [exact P2|]. simpl. intros ? -> _. by eexists.
  - run_inv H2. apply keeps_send_msg_out in H3.
    destruct H1 as (l1 & E1 & P1), H3 as (l2 & E2 & P2).
    exists (l1 ++ l2). rewrite E2, E1, app_assoc. split; [done|]. apply Forall_app. split.
    + eapply Forall_impl; [exact P1|]. simpl. congruence.
    + eapply Forall_impl; [exact P2|]. simpl. intros ? -> Hg. by simpl in Hg.
Qed.

Lemma keeps_no_grant_reply_send raerq c b1 b2 b3 rc :
  keeps (on_out (fun o => is_grant o = false))
    (raft_server_append_entry_reply_send raerq c b1 b2 b3 rc : M unit).
Proof.
  unfold raft_server_append_entry_reply_send,
    raft_server_process_append_entries_request_prep_reply.
  apply keeps_bind_assoc. solve_keeps.
Qed.
#[local] Hint Resolve keeps_no_grant_reply_send : keeps.

(** No other event grants a vote. *)
Lemma run_event_no_grant ev :
  (forall n rrm ok, ev = EvPeerMsg n rrm ok -> rrm_type rrm <> RAFT_RPC_MSG_TYPE_VOTE_REQUEST) ->
  keeps (on_out (fun o => is_grant o = false)) (run_event ev : M unit).
Proof.
  intros Hev. destruct ev as [n rrm ok| | | | | | | |]; [|solve_keeps ..].
  specialize (Hev _ _ _ eq_refl). destruct rrm as [ty ? ? ? ? pl]; simpl in Hev.
  unfold run_event, raft_server_peer_recv_handler, raft_server_process_received_server_msg.
  simpl. destruct ty; [.. | solve_keeps]; try done; destruct pl; solve_keeps.
Qed.
End grants.

(** ** Theorems *)
Section theorems.
Context `{NC : NiovaCore} {B A : Type} {BE : Backend B} {SM : StateMachine A}.
Implicit Types w : world B A.

Lemma reachable_hdr_mono w w' : reachable w w' -> hdr_mono (w_ri w) (w_ri w').
Proof. apply reachable_keeps; [typeclasses eauto | apply run_event_hdr_mono]. Qed.

Lemma reachable_nehdr w w' : reachable w w' -> nehdr_ok (w_ri w) -> nehdr_ok (w_ri w').
Proof. apply (reachable_keeps (preserves nehdr_ok)), run_event_nehdr. Qed.

(** C7. Along every run of a server its persistent term never decreases, and as
    long as the term stays the same the recorded vote (the whole log header)
    stays the same: a server never changes its vote within a term. *)
Theorem log_header_monotone w w' :
  reachable w w' ->
  rlh_term (ri_log_hdr (w_ri w)) <= rlh_term (ri_log_hdr (w_ri w')) /\
  (rlh_term (ri_log_hdr (w_ri w')) = rlh_term (ri_log_hdr (w_ri w)) ->
   ri_log_hdr (w_ri w') = ri_log_hdr (w_ri w)).
Proof.
  intros [H|H]%reachable_hdr_mono; [rewrite H; split; [lia | done] | split; [lia|]].
  intros Heq. lia.
Qed.

Context {OK : NiovaCoreOk NC}.

Lemma vote_request_event n rrm ok vreq w w' :
  run_event (EvPeerMsg n rrm ok) w = Some (tt, w') ->
  rrm_type rrm = RAFT_RPC_MSG_TYPE_VOTE_REQUEST ->
  rrm_payload rrm = rrm_vote_request vreq ->
  rrm_sender_id rrm <> ri_csn_this_peer (w_ri w) -> nehdr_ok (w_ri w) ->
  on_out (fun o => is_grant o = true -> exists m, o = OutMsg (rrm_sender_id rrm) m /\
    raft_server_process_vote_request_decide (w_ri w) vreq (ri_newest_entry_unsync (w_ri w)) = true /\
    ri_state (w_ri w') = RAFT_STATE_FOLLOWER /\
    rlh_term (ri_log_hdr (w_ri w')) = rvrqm_proposed_term vreq /\
    rlh_voted_for (ri_log_hdr (w_ri w')) = rrm_sender_id rrm) w w'.
Proof.
  intros H Hty Hpl Hself Hok. unfold run_event, raft_server_peer_recv_handler in H.
  rewrite Hty in H.
  destruct (n =? 0); [run_inv H; reflexivity|].
  destruct (negb (n =? _)); [run_inv H; reflexivity|].
  apply bind_Some in H as ([c|] & w1 & Hv & H); [|run_inv H].
  2:{ eapply (keeps_run (on_out (fun _ => False))) in Hv; [|solve_keeps].
      destruct Hv as (l & E & HP). exists l. split; [done|].
      eapply Forall_impl; [exact HP | done]. }
  apply verify_sender_run in Hv as (-> & -> & Hnz & Hin).
  unfold raft_server_process_received_server_msg in H. rewrite Hty, Hpl in H.
  apply bind_Some in H as ([] & w1 & Hc & H).
  assert (Hsame : w_out w1 = w_out w).
  { eapply (keeps_run (on_out (fun _ => False))) in Hc; [|solve_keeps].
    destruct Hc as ([|o l] & E & HP); [by rewrite app_nil_r in E | by inversion HP]. }
  eapply (keeps_run (on_ri (same (fun ri => (ri_log_hdr ri, ri_csn_raft_peers ri,
    ri_csn_this_peer ri, ri_newest_entry_sync ri, ri_newest_entry_unsync ri, ri_state ri,
    ri_synchronous_writes ri))))) in Hc; [|solve_keeps].
  injection Hc as Eh Ep Et Es Eu Est Esw.
  apply vote_request_run in H; [|done | by unfold nehdr_ok; rewrite Es, Eu, Est, Esw
                               | done | by rewrite Ep | by rewrite Et].
  destruct H as (l & E & HP). exists l. rewrite E, Hsame. split; [done|].
  eapply Forall_impl; [exact HP|]. intros o Ho Hg.
  destruct (Ho Hg) as (m & -> & Hdec & Hrest). exists m. split; [done|]. split; [|done].
  unfold raft_server_process_vote_request_decide in *. by rewrite <- Eh, <- Eu.
Qed.

(** C5. When a server answers a vote request with YES, the candidate's term is
    above its own, the candidate's last entry has at least the term and the
    index of the newest entry the server has written, and at the end of the step
    the server is a follower whose log header carries the candidate's term and
    the vote for the sender. *)
Theorem vote_granted_recorded n rrm ok vreq w w' o :
  run_event (EvPeerMsg n rrm ok) w = Some (tt, w') ->
  rrm_type rrm = RAFT_RPC_MSG_TYPE_VOTE_REQUEST ->
  rrm_payload rrm = rrm_vote_request vreq ->
  rrm_sender_id rrm <> ri_csn_this_peer (w_ri w) -> nehdr_ok (w_ri w) ->
  o ∈ new_outs w w' -> is_grant o = true ->
  rlh_term (ri_log_hdr (w_ri w)) < rvrqm_proposed_term vreq /\
  reh_term (ri_newest_entry_unsync (w_ri w)) <= rvrqm_last_log_term vreq /\
  reh_index (ri_newest_entry_unsync (w_ri w)) <= rvrqm_last_log_index vreq /\
  ri_state (w_ri w') = RAFT_STATE_FOLLOWER /\
  rlh_term (ri_log_hdr (w_ri w')) = rvrqm_proposed_term vreq /\
  rlh_voted_for (ri_log_hdr (w_ri w')) = rrm_sender_id rrm.
Proof.
  intros H Hty Hpl Hself Hok Ho Hg.
  eapply vote_request_event, new_outs_app in H as [HP _]; [|done..].
  rewrite Forall_forall in HP. destruct (HP o Ho Hg) as (m & -> & Hdec & ? & ? & ?).
  unfold raft_server_process_vote_request_decide in Hdec.
  destruct (_ || _) eqn:E; [done|]. apply orb_false_iff in E as [E ?].
  apply orb_false_iff in E. split_and!; try done; lia.
Qed.

(** C6. A server grants at most one vote per term: after a YES for term [t], no
    later step answers YES to a request for [t] (or for a smaller term). *)
Theorem one_vote_per_term n1 rrm1 ok1 vreq1 n2 rrm2 ok2 vreq2 w1 w2 w3 w4 o1 o2 :
  run_event (EvPeerMsg n1 rrm1 ok1) w1 = Some (tt, w2) ->
  rrm_type rrm1 = RAFT_RPC_MSG_TYPE_VOTE_REQUEST ->
  rrm_payload rrm1 = rrm_vote_request vreq1 ->
  rrm_sender_id rrm1 <> ri_csn_this_peer (w_ri w1) -> nehdr_ok (w_ri w1) ->
  o1 ∈ new_outs w1 w2 -> is_grant o1 = true ->
  reachable w2 w3 ->
  run_event (EvPeerMsg n2 rrm2 ok2) w3 = Some (tt, w4) ->
  rrm_type rrm2 = RAFT_RPC_MSG_TYPE_VOTE_REQUEST ->
  rrm_payload rrm2 = rrm_vote_request vreq2 ->
  rrm_sender_id rrm2 <> ri_csn_this_peer (w_ri w3) ->
  o2 ∈ new_outs w3 w4 -> is_grant o2 = true ->
  rvrqm_proposed_term vreq1 < rvrqm_proposed_term vreq2.
Proof.
  intros H1 Ht1 Hp1 Hs1 Hok Ho1 Hg1 Hr H2 Ht2 Hp2 Hs2 Ho2 Hg2.
  assert (Hok2 : nehdr_ok (w_ri w2)) by (eapply (run_event_nehdr _ _ _ _ H1); exact Hok).
  pose proof (reachable_nehdr _ _ Hr Hok2) as Hok3.
  eapply vote_request_event, new_outs_app in H1 as [HP1 _]; [|done..].
  rewrite Forall_forall in HP1. destruct (HP1 o1 Ho1 Hg1) as (? & _ & _ & _ & <- & _).
  eapply vote_request_event, new_outs_app in H2 as [HP2 _]; [|done..].
  rewrite Forall_forall in HP2. destruct (HP2 o2 Ho2 Hg2) as (? & _ & Hdec & _).
  unfold raft_server_process_vote_request_decide in Hdec.
  destruct (_ || _) eqn:E; [done|]. apply orb_false_iff in E as [E _].
  apply orb_false_iff in E as [E _].
  apply reachable_hdr_mono in Hr as [Hr|Hr]; [rewrite Hr in E|]; lia.
Qed.
End theorems.

(** ** Witnesses *)
(** [by_run]: a fact about a concrete run, by evaluation. *)
Ltac by_run := vm_compute; first [reflexivity | done | intuition (congruence || lia)].

Lemma log_header_monotone_witness :
  rlh_term (ri_log_hdr (w_ri (sim_node false 1))) <= rlh_term (ri_log_hdr (w_ri sim_cand1)) /\
  (rlh_term (ri_log_hdr (w_ri sim_cand1)) = rlh_term (ri_log_hdr (w_ri (sim_node false 1))) ->
   ri_log_hdr (w_ri sim_cand1) = ri_log_hdr (w_ri (sim_node false 1))).
Proof.
  apply (log_header_monotone (sim_node false 1) sim_cand1).
  apply rtc_once, sim_run_step. vm_compute. reflexivity.
Defined.

Lemma sim_voter_nehdr : nehdr_ok (w_ri (sim_at 2200 (sim_node false 2))).
Proof. split_and!; [by_run | left; by_run | left; by_run | left; by_run]. Qed.

Lemma sim_grant1 :
  run_event (deliver_vote sim_vreq1) (sim_at 2200 (sim_node false 2)) = Some (tt, sim_voter1).
Proof. apply sim_run_event. vm_compute. reflexivity. Qed.
Lemma sim_grant2 : run_event (deliver_vote sim_vreq3) sim_voter1 = Some (tt, sim_voter2).
Proof. apply sim_run0_event. vm_compute. reflexivity. Qed.

Lemma vote_granted_recorded_witness :
  let w := sim_at 2200 (sim_node false 2) in
  rlh_term (ri_log_hdr (w_ri w)) < 1 /\
  reh_term (ri_newest_entry_unsync (w_ri w)) <= 0 /\
  reh_index (ri_newest_entry_unsync (w_ri w)) <= -1 /\
  ri_state (w_ri sim_voter1) = RAFT_STATE_FOLLOWER /\
  rlh_term (ri_log_hdr (w_ri sim_voter1)) = 1 /\
  rlh_voted_for (ri_log_hdr (w_ri sim_voter1)) = rrm_sender_id sim_vreq1.
Proof.
  apply (vote_granted_recorded sizeof_raft_rpc_msg sim_vreq1 true
           {| rvrqm_proposed_term := 1; rvrqm_last_log_term := 0; rvrqm_last_log_index := -1 |}
           (sim_at 2200 (sim_node false 2)) sim_voter1 (sim_last_out sim_voter1)).
  - exact sim_grant1.
  - by_run.
  - by_run.
  - by_run.
  - exact sim_voter_nehdr.
  - apply list_elem_of_In. by_run.
  - by_run.
Defined.

Lemma one_vote_per_term_witness : 1 < 2.
Proof.
  apply (one_vote_per_term sizeof_raft_rpc_msg sim_vreq1 true
           {| rvrqm_proposed_term := 1; rvrqm_last_log_term := 0; rvrqm_last_log_index := -1 |}
           sizeof_raft_rpc_msg sim_vreq3 true
           {| rvrqm_proposed_term := 2; rvrqm_last_log_term := 0; rvrqm_last_log_index := -1 |}
           (sim_at 2200 (sim_node false 2)) sim_voter1 sim_voter1 sim_voter2
           (sim_last_out sim_voter1) (sim_last_out sim_voter2)).
  - exact sim_grant1.
  - by_run.
  - by_run.
  - by_run.
  - exact sim_voter_nehdr.
  - apply list_elem_of_In. by_run.
  - by_run.
  - reflexivity.
  - exact sim_grant2.
  - by_run.
  - by_run.
  - by_run.
  - apply list_elem_of_In. by_run.
  - by_run.
Defined.
