(* ===== verification/ElectionProps.v ===== *)
(** Election on one server: what being candidate or leader of a term says about
    the votes that were cast, and that every event preserves it. *)
From stdpp Require Import base tactics list gmap relations.
From Stdlib Require Import ZArith Lia Strings.Byte.
From S2P Require Import Prelude RaftTypes World Quorum Net WriteSupp Entry Log Election Append Leader ClientReq Apply Server Steps PosixBackend Sim LogProps VoteProps.
Local Open Scope Z_scope.
Local Open Scope raft_scope.

(** ** The recursion through the fault injection point

    It is at most one call deep: a candidate that is promoted again fails the
    assertion.  Two turns are enough: more fuel does not change the result. *)
Section fuel.
Context `{NC : NiovaCore} {B A : Type} {BE : Backend B}.
Implicit Types w : world B A.
Local Abbreviation M := (M (world B A)).

Lemma become_candidate_not_prevote fuel w :
  raft_instance_is_candidate_prevote (w_ri w) = false ->
  raft_server_become_candidate_fuel fuel false w = None.
Proof.
  intros Hs. destruct fuel as [|fuel]; [done|]. cbn [raft_server_become_candidate_fuel].
  erewrite bind_eq by reflexivity. erewrite bind_eq by reflexivity.
  unfold bind, when, assert_, id. cbn [negb].
  replace (raft_instance_is_candidate_prevote _) with false by done. done.
Qed.

Lemma keeps_state {T} (m : M T) w x w' :
  keeps (on_ri (same ri_state)) m -> m w = Some (x, w') -> ri_state (w_ri w') = ri_state (w_ri w).
Proof. intros Hm. apply Hm. Qed.

(** [again] is called in the state in which the vote is cast. *)
Lemma vote_for_self_cong again again' w :
  (forall w', ri_state (w_ri w') = ri_state (w_ri w) -> again w' = again' w') ->
  raft_server_vote_for_self again w = raft_server_vote_for_self again' w.
Proof.
  intros Ha. unfold raft_server_vote_for_self. apply bind_cong. intros ri w0 H0.
  destruct (negb _); [done|]. apply bind_cong. intros rc w1 H1.
  destruct (negb _); [done|]. apply bind_cong. intros rc2 w2 H2.
  apply bind_cong. intros [] w3 H3; [|done].
  unfold bind. rewrite Ha; [done|].
  apply keeps_state in H0; [|solve_keeps]. apply keeps_state in H1; [|clear; solve_keeps].
  apply keeps_state in H2; [|solve_keeps]. apply keeps_state in H3; [|solve_keeps]. congruence.
Qed.

Lemma become_candidate_fuel_step fuel fuel' (prevote : bool) w :
  (forall w', ri_state (w_ri w') =
       (if prevote then RAFT_STATE_CANDIDATE_PREVOTE else RAFT_STATE_CANDIDATE) ->
     raft_server_become_candidate_fuel fuel false w' =
     raft_server_become_candidate_fuel fuel' false w') ->
  raft_server_become_candidate_fuel (S fuel) prevote w =
  raft_server_become_candidate_fuel (S fuel') prevote w.
Proof.
  intros Hf. cbn [raft_server_become_candidate_fuel].
  do 3 (apply bind_cong; intros ? ? _). apply bind_cong. intros fi w1 _.
  destruct fi; [done|]. apply bind_cong. intros u w2 H2.
  unfold raft_server_init_candidate_state in H2. run_inv H2. cbv zeta.
  unfold bind at 1. unfold bind at 7. erewrite vote_for_self_cong; [done|].
  intros w' Hw'. by apply Hf.
Qed.

Lemma become_candidate_fuel_enough n prevote w :
  raft_server_become_candidate_fuel (3 + n) prevote w = raft_server_become_candidate prevote w.
Proof.
  assert (Hc : forall fuel fuel' w', raft_server_become_candidate_fuel (S fuel) false w' =
    raft_server_become_candidate_fuel (S fuel') false w').
  { intros fuel fuel' w'. apply become_candidate_fuel_step. intros w2 Hw2.
    assert (Hp : raft_instance_is_candidate_prevote (w_ri w2) = false).
    { unfold raft_instance_is_candidate_prevote. by rewrite Hw2. }
    by rewrite !become_candidate_not_prevote. }
  destruct prevote; [|apply Hc]. apply become_candidate_fuel_step. intros w' _. apply Hc.
Qed.
End fuel.

(** [E p t]: member [p] has cast its vote of term [t] for this server. *)
Definition voted_by (E : uuid -> Z -> Prop) (ri : raft_instance) (t : Z) (i : nat) : Prop :=
  exists p, ri_csn_raft_peers ri !! i = Some p /\ (p = ri_csn_this_peer ri \/ E p t).

Definition is_yes (r : option raft_vote_result) : Prop := r = Some RAFT_VOTE_RESULT_YES.

(** A candidate has no YES it was not given; a leader has a majority of YES. *)
Definition node_ok (E : uuid -> Z -> Prop) (ri : raft_instance) : Prop :=
  let hdr := ri_log_hdr ri in
  let t := rlh_term hdr in
  match ri_state ri with
  | RAFT_STATE_CANDIDATE =>
      (rcs_term (ri_candidate ri) = t /\ rlh_voted_for hdr = ri_csn_this_peer ri /\
       forall i, (i < length (ri_csn_raft_peers ri))%nat ->
         is_yes (rcs_results (ri_candidate ri) !! i) -> voted_by E ri t i)
      \/ (rcs_term (ri_candidate ri) = t + 1 /\
          forall i, ~ is_yes (rcs_results (ri_candidate ri) !! i))
  | RAFT_STATE_LEADER =>
      rls_leader_term (ri_leader ri) = t /\ rlh_voted_for hdr = ri_csn_this_peer ri /\
      exists Q, NoDup Q /\ majority (num_members ri) <= Z.of_nat (length Q) /\
                Forall (voted_by E ri t) Q
  | _ => True
  end.

#[local] Hint Extern 4 (keeps (on_ri (preserves (node_ok _))) (ri_upd _)) =>
  apply keeps_ri_upd; let X := fresh in intros ? X; exact X : keeps.
#[local] Hint Extern 4 (keeps (on_ri (preserves (node_ok _))) (modify _)) =>
  apply keeps_modify; let X := fresh in intros ? X; exact X : keeps.

(** The part of the instance [node_ok] looks at. *)
Definition elec_view (ri : raft_instance) :=
  (ri_state ri, ri_log_hdr ri, ri_candidate ri, rls_leader_term (ri_leader ri),
   ri_csn_raft_peers ri, ri_csn_this_peer ri).

Lemma node_ok_view E ri ri' : elec_view ri' = elec_view ri -> node_ok E ri -> node_ok E ri'.
Proof.
  unfold elec_view. intros [= H1 H2 H3 H4 H5 H6].
  unfold node_ok, voted_by, num_members. by rewrite H1, H2, H3, H4, H5, H6.
Qed.

Section election_props.
Context `{NC : NiovaCore} {B A : Type} {BE : Backend B} {SM : StateMachine A}.
Context (E : uuid -> Z -> Prop).
Implicit Types w : world B A.
Local Abbreviation M := (M (world B A)).
Local Abbreviation node_inv := (on_ri (preserves (node_ok E))).

Lemma keeps_node_view {T} (m : M T) :
  keeps (on_ri (same elec_view)) m -> keeps node_inv m.
Proof. apply keeps_weaken. intros w w' H. intros ?. by eapply node_ok_view. Qed.

Lemma becomes_follower_state t c r w u w' :
  raft_server_becomes_follower t c r w = Some (u, w') ->
  w' = w \/ ri_state (w_ri w') = RAFT_STATE_FOLLOWER.
Proof.
  unfold raft_server_becomes_follower.
  intros (o & ? & (-> & _)%raft_peer_uuid_to_csn_run & H)%bind_Some. run_step H.
  destruct o as [l|]; [|run_inv H; auto]. destruct (l =? _); [run_inv H; auto|]. right.
  apply bind_Some in H as (? & w1 & H1 & H). run_inv H1.
  eapply (keeps_run (on_ri (same ri_state))) in H; [exact H | solve_keeps].
Qed.

Lemma keeps_node_becomes_follower t c r :
  keeps node_inv (raft_server_becomes_follower t c r : M unit).
Proof.
  intros w u w' [->|H]%becomes_follower_state; [done|].
  intros _. unfold node_ok. by rewrite H.
Qed.
End election_props.
#[local] Hint Resolve keeps_node_becomes_follower : keeps.

Section candidate.
Context `{NC : NiovaCore} {OK : NiovaCoreOk NC} {B A : Type} {BE : Backend B} {SM : StateMachine A}.
Context (E : uuid -> Z -> Prop).
Implicit Types w : world B A.
Local Abbreviation M := (M (world B A)).
Local Abbreviation node_inv := (on_ri (preserves (node_ok E))).

Lemma keeps_node_term_check sender raerq :
  keeps node_inv (raft_server_process_append_entries_term_check_ops sender raerq : M Z).
Proof.
  unfold raft_server_process_append_entries_term_check_ops.
  intros w rc w' H. run_step H. unfold id in H.
  destruct (_ <? _); [by run_inv H|]. apply bind_Some in H as (? & w1 & H1 & H).
  transitivity w1.
  - destruct (_ && _); [eapply keeps_run; [|exact H1]; solve_keeps|].
    destruct (_ && _); [eapply keeps_run; [|exact H1]; solve_keeps|].
    destruct (_ && raft_instance_is_follower _) eqn:Ef; [|by run_inv H1].
    apply andb_true_iff in Ef as [_ Ef%bool_decide_eq_true].
    eapply (keeps_run (on_ri (same ri_state))) in H1; [|solve_keeps].
    unfold on_ri, same in H1. intros _. unfold node_ok. by rewrite H1, Ef.
  - eapply keeps_run; [|exact H]. solve_keeps.
Qed.

(** Registering a vote the voter has cast. *)
Lemma reg_vote_result_node v r w rc w' :
  raft_server_candidate_reg_vote_result v r w = Some (rc, w') ->
  (r = RAFT_VOTE_RESULT_YES -> ri_state (w_ri w) = RAFT_STATE_CANDIDATE ->
   v = ri_csn_this_peer (w_ri w) \/ E v (rlh_term (ri_log_hdr (w_ri w)))) ->
  node_ok E (w_ri w) -> node_ok E (w_ri w').
Proof.
  unfold raft_server_candidate_reg_vote_result. intros H Hv Hok.
  run_if H; [by run_inv H|]. run_step H. unfold id in H.
  run_if H; [by run_inv H|]. run_if H; [by run_inv H|].
  apply bind_Some in H as (i & ? & (-> & -> & Hn)%raft_peer_2_idx_run & H).
  run_if H; [by run_inv H|].
  destruct (peer_idx_of_spec (w_ri w) v Hn) as [(_ & Hz & Hi)|(_ & Hz & ?)]; [|lia].
  do 2 run_step H. run_inv H. unfold node_ok in *. simpl in *.
  apply negb_false_iff, Z.eqb_eq in Hfatal.
  destruct (ri_state (w_ri w)) eqn:Est; try done.
  assert (Hpv : raft_instance_is_candidate_prevote (w_ri w) = false).
  { unfold raft_instance_is_candidate_prevote. by rewrite Est. }
  rewrite Hpv in Hfatal. rewrite Z.add_0_r in Hfatal.
  destruct Hok as [(Ht & Hself & Hy)|(Ht & _)]; [left|lia].
  split; [done|]. split; [done|]. intros j Hj Hyes.
  unfold zupd in Hyes. rewrite decide_True in Hyes by done.
  destruct (decide (j = Z.to_nat (peer_idx_of (w_ri w) v))) as [->|Hne].
  - unfold znth in Hz. rewrite decide_True in Hz by done. exists v. split; [exact Hz|].
    destruct (decide (Z.to_nat (peer_idx_of (w_ri w) v) < length (rcs_results (ri_candidate (w_ri w))))%nat).
    + unfold is_yes in Hyes. rewrite list_lookup_insert_eq in Hyes by done.
      injection Hyes as ->. by apply Hv.
    + rewrite list_insert_ge in Hyes by lia. unfold is_yes in Hyes.
      apply lookup_lt_Some in Hyes. lia.
  - rewrite list_lookup_insert_ne in Hyes by done. by apply Hy.
Qed.

(** A fresh candidacy: nobody has voted yet. *)
Definition fresh_candidacy (ri : raft_instance) : Prop :=
  ri_state ri = RAFT_STATE_CANDIDATE \/ ri_state ri = RAFT_STATE_CANDIDATE_PREVOTE ->
  rcs_term (ri_candidate ri) = rlh_term (ri_log_hdr ri) + 1 /\
  forall i, ~ is_yes (rcs_results (ri_candidate ri) !! i).

Lemma init_candidate_state_run prevote w u w' :
  raft_server_init_candidate_state prevote w = Some (u, w') ->
  fresh_candidacy (w_ri w') /\ node_ok E (w_ri w').
Proof.
  unfold raft_server_init_candidate_state. intros H. run_inv H.
  assert (Hun : forall i, ~ is_yes (replicate (Z.to_nat CTL_SVC_MAX_RAFT_PEERS)
                                       RAFT_VOTE_RESULT_UNKNOWN !! i)).
  { intros i Hi. unfold is_yes in Hi. apply lookup_replicate in Hi as [? _]. done. }
  split.
  - intros _. simpl. auto.
  - unfold node_ok. simpl. destruct prevote; auto.
Qed.

(** The candidate's own vote goes into its log header first. *)
Lemma vote_for_self_node again w rc w' :
  keeps node_inv again ->
  raft_server_vote_for_self again w = Some (rc, w') ->
  fresh_candidacy (w_ri w) -> node_ok E (w_ri w) -> node_ok E (w_ri w').
Proof.
  intros Ha H Hf Hok. unfold raft_server_vote_for_self in H. run_step H. unfold id in H.
  run_if H; [by run_inv H|]. apply negb_false_iff in Hif.
  apply bind_Some in H as (rc1 & w1 & H1 & H).
  assert (Hok1 : node_ok E (w_ri w1) /\ ri_csn_this_peer (w_ri w1) = ri_csn_this_peer (w_ri w)).
  { destruct (raft_instance_is_candidate (w_ri w)) eqn:Ec; [|by run_inv H1].
    apply bool_decide_eq_true in Ec. destruct (Hf (or_introl Ec)) as [Ht Hr].
    pose proof (log_header_write_hdr _ _ _ _ _ H1) as Hh.
    eapply (keeps_run (on_ri (same (fun ri => (ri_state ri, ri_candidate ri,
      ri_csn_this_peer ri, ri_csn_raft_peers ri))))) in H1; [|solve_keeps].
    injection H1 as E1 E2 E3 E4. split; [|done]. unfold node_ok. rewrite E1, Ec, E2, E3, E4, Hh.
    simpl. left. split; [done|]. split; [done|]. intros i _ Hi. by destruct (Hr i). }
  destruct Hok1 as [Hok1 Hthis].
  run_if H; [by run_inv H|]. apply bind_Some in H as (rc2 & w2 & H2 & H).
  apply reg_vote_result_node in H2; [|by left; symmetry | done].
  revert H2. eapply (keeps_run node_inv) in H; [exact H | solve_keeps].
Qed.

Lemma keeps_node_become_candidate_fuel fuel prevote :
  keeps node_inv (raft_server_become_candidate_fuel fuel prevote : M unit).
Proof.
  revert prevote. induction fuel as [|fuel IH]; intros prevote; simpl; [solve_keeps|].
  intros w u w' H. run_step H. run_step H. apply bind_Some in H as (? & w1 & H1 & H).
  transitivity w1; [eapply (keeps_run node_inv) in H1; [exact H1 | solve_keeps]|].
  apply bind_Some in H as (fi & w2 & H2 & H).
  transitivity w2; [eapply (keeps_run node_inv) in H2; [exact H2 | solve_keeps]|].
  run_if H; [by run_inv H|]. intros _.
  apply bind_Some in H as (? & w3 & [H3 H3']%init_candidate_state_run & H).
  apply bind_Some in H as (rc & w4 & H4 & H).
  eapply vote_for_self_node in H4; [| apply IH | done | done].
  revert H4. eapply (keeps_run node_inv) in H; [exact H | solve_keeps].
Qed.

(** ** Becoming leader *)
Lemma leader_init_state_run w u w' :
  raft_server_leader_init_state w = Some (u, w') ->
  rls_leader_term (ri_leader (w_ri w')) = rlh_term (ri_log_hdr (w_ri w')) /\
  ri_state (w_ri w') = RAFT_STATE_LEADER /\
  ri_log_hdr (w_ri w') = ri_log_hdr (w_ri w) /\
  ri_csn_raft_peers (w_ri w') = ri_csn_raft_peers (w_ri w) /\
  ri_csn_this_peer (w_ri w') = ri_csn_this_peer (w_ri w).
Proof.
  unfold raft_server_leader_init_state. intros H.
  apply bind_Some in H as (? & w1 & H1 & H). apply bind_Some in H as (? & w2 & H2 & H).
  assert (Hs : forall v v' : world B A, on_ri (same (fun ri => (ri_log_hdr ri, ri_csn_raft_peers ri,
     ri_csn_this_peer ri))) v v' -> ri_log_hdr (w_ri v') = ri_log_hdr (w_ri v) /\
     ri_csn_raft_peers (w_ri v') = ri_csn_raft_peers (w_ri v) /\
     ri_csn_this_peer (w_ri v') = ri_csn_this_peer (w_ri v)) by (intros ? ? [= -> -> ->]; done).
  eapply keeps_run in H1; [apply Hs in H1 as (E1 & E2 & E3) | solve_keeps].
  eapply keeps_run in H2; [apply Hs in H2 as (F1 & F2 & F3) | solve_keeps].
  do 4 run_step H. apply bind_Some in H as (n & w3 & H3 & H).
  unfold raft_num_members_validate_and_get in H3. run_inv H3. run_inv H. simpl.
  split_and!; try done; congruence.
Qed.

Lemma can_become_leader_run yes w w' :
  candidate_has_majority yes w = Some (true, w') ->
  w' = w /\ candidate_is_viable (w_ri w) = true /\
  majority (num_members (w_ri w)) <= count_votes (w_ri w) yes.
Proof.
  unfold candidate_has_majority, raft_server_candidate_is_viable,
    raft_server_candidate_count_votes, raft_num_members_validate_and_get. intros H.
  run_step H. run_if H; [by run_inv H|]. apply negb_false_iff in Hif.
  apply bind_Some in H as (c & w1 & H1 & H). run_inv H1. run_step H. run_inv H.
  split; [done|]. split; [done|].
  apply negb_false_iff in Hfatal. apply num_members_u8 in Hfatal.
  assert (count_votes (w_ri w) yes <= num_members (w_ri w)).
  { unfold count_votes, num_members. apply Nat2Z.inj_le.
    etransitivity; [apply length_filter|]. rewrite length_take. lia. }
  assert (0 <= count_votes (w_ri w) yes) by (unfold count_votes; lia).
  unfold majority. cbv beta in *.
  destruct (Z.leb_spec (u8 (num_members (w_ri w) / 2 + 1)) (u8 (count_votes (w_ri w) yes)));
    [|done].
  assert (num_members (w_ri w) / 2 < num_members (w_ri w)) by (apply Z.div_lt; lia).
  assert (0 <= num_members (w_ri w) / 2) by (apply Z.div_pos; lia).
  rewrite !u8_small in * by lia. lia.
Qed.

Lemma candidate_becomes_leader_node w u w' :
  raft_server_candidate_becomes_leader w = Some (u, w') ->
  ri_state (w_ri w) = RAFT_STATE_CANDIDATE ->
  majority (num_members (w_ri w)) <= count_votes (w_ri w) RAFT_VOTE_RESULT_YES ->
  node_ok E (w_ri w) -> node_ok E (w_ri w').
Proof.
  intros H Hst Hmaj Hok. unfold raft_server_candidate_becomes_leader in H.
  unfold raft_server_candidate_is_viable in H.
  run_step H. run_step H. apply negb_false_iff in Hfatal.
  apply bind_Some in H as (? & w1 & H1 & H).
  apply leader_init_state_run in H1 as (Hlt & Hl & Hh & Hp & Hself).
  assert (Hok1 : node_ok E (w_ri w1)).
  { unfold candidate_is_viable, raft_instance_is_candidate, raft_instance_is_candidate_prevote
      in Hfatal.
        unfold node_ok in *. rewrite Hl. rewrite Hst in Hok, Hfatal. simpl in Hfatal.
    rewrite orb_false_r in Hfatal. apply Z.eqb_eq in Hfatal.
    destruct Hok as [(Ht & Hv & Hy)|(Ht & _)]; [|lia].
    split; [done|]. rewrite Hh, Hself. split; [done|].
    set (n := length (ri_csn_raft_peers (w_ri w))).
    exists (filter (fun i => rcs_results (ri_candidate (w_ri w)) !! i = Some RAFT_VOTE_RESULT_YES)
              (seq 0 n)).
    split_and!.
    - apply NoDup_filter, NoDup_seq.
    - unfold num_members in *. rewrite Hp. unfold count_votes in Hmaj.
      by rewrite length_filter_index in Hmaj.
    - apply Forall_forall. intros i Hi. apply list_elem_of_filter in Hi as [Hi Hin].
      apply elem_of_seq in Hin. destruct (Hy i ltac:(lia) Hi) as (p & Hpi & Hvp).
      exists p. by rewrite Hp, Hself. }
  revert Hok1. eapply (keeps_run node_inv) in H; [exact H | solve_keeps].
Qed.

(** ** Vote replies *)
Lemma vote_reply_node sender rrm vreply w u w' :
  raft_server_process_vote_reply_common sender rrm vreply w = Some (u, w') ->
  (rrm_type rrm <> RAFT_RPC_MSG_TYPE_PRE_VOTE_REPLY -> rvrpm_voted_granted vreply = true ->
   ri_state (w_ri w) = RAFT_STATE_CANDIDATE ->
   sender = ri_csn_this_peer (w_ri w) \/ E sender (rlh_term (ri_log_hdr (w_ri w)))) ->
  node_ok E (w_ri w) -> node_ok E (w_ri w').
Proof.
  pose proof keeps_node_become_candidate_fuel as Hbc.
  unfold raft_server_process_vote_reply_common. intros H Hev Hok. do 2 run_step H. unfold id in H.
  run_if H; [by run_inv H|]. apply bind_Some in H as (rc & w1 & H1 & H).
  assert (Hcand : rc = 0 -> is_vote_result
      (if rvrpm_voted_granted vreply
       then if bool_decide (rrm_type rrm = RAFT_RPC_MSG_TYPE_PRE_VOTE_REPLY)
            then RAFT_PRE_VOTE_RESULT_YES else RAFT_VOTE_RESULT_YES
       else if bool_decide (rrm_type rrm = RAFT_RPC_MSG_TYPE_PRE_VOTE_REPLY)
            then RAFT_PRE_VOTE_RESULT_NO else RAFT_VOTE_RESULT_NO) = true ->
    ri_state (w_ri w1) = RAFT_STATE_CANDIDATE).
  { intros -> Hr. unfold raft_server_candidate_reg_vote_result in H1.
    run_if H1; [by run_inv H1|]. run_step H1. unfold id in H1.
    run_if H1; [by run_inv H1|]. run_if H1; [by run_inv H1|].
    rewrite Hr in Hif2. apply negb_false_iff in Hif1.
    eapply (keeps_run (on_ri (same ri_state))) in H1; [|solve_keeps].
    unfold on_ri, same in H1. rewrite H1.
    assert (Hpv : raft_instance_is_candidate_prevote (w_ri w) = false).
    { destruct (raft_instance_is_candidate_prevote (w_ri w)); [|done]. simpl in Hif2.
      destruct (rvrpm_voted_granted vreply), (bool_decide (rrm_type rrm = _)); done. }
    rewrite Hpv in Hif1. simpl in Hif1. by apply bool_decide_eq_true in Hif1. }
  apply reg_vote_result_node in H1; [| | done].
  2:{ intros Hr Hst. apply Hev; [| | done].
      - intros Ht. rewrite bool_decide_true in Hr by done. by destruct (rvrpm_voted_granted vreply).
      - destruct (rvrpm_voted_granted vreply); [done|]. by destruct (bool_decide _). }
  run_if H; [by run_inv H|]. apply negb_false_iff, Z.eqb_eq in Hif0.
  specialize (Hcand Hif0).
  destruct (rvrpm_voted_granted vreply), (bool_decide _).
  - revert H1. eapply (keeps_run node_inv) in H; [exact H | solve_keeps].
  - apply bind_Some in H as (can & w2 & H2 & H).
    destruct can; [|unfold when in H; run_inv H].
    + apply can_become_leader_run in H2 as (-> & _ & Hmaj).
      by eapply candidate_becomes_leader_node in H; [| apply Hcand | |].
    + revert H1. eapply (keeps_run node_inv) in H2; [exact H2 | solve_keeps].
  - run_inv H. done.
  - revert H1. eapply (keeps_run node_inv) in H; [exact H | solve_keeps].
Qed.
End candidate.
#[local] Hint Resolve keeps_node_become_candidate_fuel keeps_node_term_check : keeps.

(** ** Every event *)
Section election_events.
Context `{NC : NiovaCore} {OK : NiovaCoreOk NC} {B A : Type} {BE : Backend B} {SM : StateMachine A}.
Context (E : uuid -> Z -> Prop).
Implicit Types w : world B A.
Local Abbreviation M := (M (world B A)).
Local Abbreviation node_inv := (on_ri (preserves (node_ok E))).

(** What a granted vote reply that is processed says: the sender's vote of the
    candidate's current term is for this server. *)
Definition fresh_reply (ev : event) (ri : raft_instance) : Prop :=
  match ev with
  | EvPeerMsg _ rrm addr_ok =>
      addr_ok = true -> grants_vote rrm = true -> ri_state ri = RAFT_STATE_CANDIDATE ->
      E (rrm_sender_id rrm) (rlh_term (ri_log_hdr ri))
  | _ => True
  end.

Lemma run_event_node ev w w' :
  run_event ev w = Some (tt, w') -> fresh_reply ev (w_ri w) ->
  node_ok E (w_ri w) -> node_ok E (w_ri w').
Proof.
  destruct ev as [n rrm ok| | | | | | | |];
    try (intros H _; revert H; apply (keeps_run node_inv); solve [solve_keeps]).
  intros H Hev. simpl in H, Hev. unfold raft_server_peer_recv_handler in H.
  run_if H; [by run_inv H|]. run_if H; [by run_inv H|].
  apply bind_Some in H as (c & w0 & Hv & H).
  destruct c as [c|].
  2:{ run_inv H. revert Hv. apply (keeps_run node_inv). solve_keeps. }
  pose proof (verify_sender_ok _ _ _ _ _ _ Hv) as Hok1. specialize (Hev Hok1).
  apply verify_sender_run in Hv as (-> & -> & _ & _).
  unfold raft_server_process_received_server_msg in H.
  apply bind_Some in H as (? & w1 & H1 & H).
  eapply (keeps_run (on_ri (same elec_view))) in H1; [|solve_keeps].
  unfold on_ri, same in H1. intros Hok. apply (node_ok_view E _ _ H1) in Hok.
  revert Hok. unfold grants_vote in Hev.
  injection H1 as H1 H2 _ _ _ _.
  destruct (rrm_type rrm) eqn:Ety, (rrm_payload rrm) eqn:Epl;
    try (revert H; apply (keeps_run node_inv); solve [solve_keeps]);
    (intros Hok; eapply vote_reply_node in H; [exact H | | exact Hok]);
    intros Hne Hg Hst; [by destruct Hne|]; right; rewrite H2; apply Hev; congruence.
Qed.
End election_events.
