(* ===== verification/Cluster.v ===== *)
(** A cluster of servers joined by a network that may lose, delay, duplicate and
    reorder messages: at most one leader per term. *)
From stdpp Require Import base tactics list gmap relations.
From Stdlib Require Import ZArith Lia Strings.Byte.
From S2P Require Import Prelude RaftTypes World Quorum Net WriteSupp Entry Log Election Append Leader ClientReq Apply Server Steps PosixBackend Sim LogProps VoteProps ElectionProps.
Local Open Scope Z_scope.
Local Open Scope raft_scope.

(** A message in the network, with the term of its sender when it was sent. *)
Record packet := Packet
  { pk_src : uuid; pk_dst : uuid; pk_term : Z; pk_msg : raft_rpc_msg }.

(** The servers and every message sent so far. *)
Record cluster (B A : Type) := Cluster
  { cl_node : uuid -> world B A; cl_net : list packet }.
Arguments Cluster {B A} _ _.
Arguments cl_node {B A} _ _.
Arguments cl_net {B A} _.

(** What happens next at a server: an event of its own, or the arrival of the
    [k]-th message that was ever sent, of which [recv_bytes] bytes arrive. *)
Inductive action :=
| ActLocal (ev : event)
| ActDeliver (k : nat) (recv_bytes : Z).

Definition is_local (ev : event) : bool :=
  match ev with EvPeerMsg _ _ _ => false | _ => true end.

Section cluster.
Context `{NC : NiovaCore} {B A : Type} {BE : Backend B} {SM : StateMachine A}.
Context (members : list uuid).
Implicit Types c : cluster B A.

Definition action_event c (p : uuid) (a : action) : option event :=
  match a with
  | ActLocal ev => if is_local ev then Some ev else None
  | ActDeliver k n =>
      pk ← cl_net c !! k;
      if (pk_dst pk =? p) && negb (pk_src pk =? p)
      then Some (EvPeerMsg n (pk_msg pk) (rrm_sender_id (pk_msg pk) =? pk_src pk))
      else None
  end.

Definition packets_of (p : uuid) (w w' : world B A) : list packet :=
  omap (fun o => match o with
                 | OutMsg d m => Some (Packet p d (rlh_term (ri_log_hdr (w_ri w'))) m)
                 | _ => None
                 end) (new_outs w w').

Definition cl_exec (p : uuid) (e : env) (a : action) c : option (cluster B A) :=
  if bool_decide (p ∈ members) then
    ev ← action_event c p a;
    let w := (cl_node c p) <| w_env := e |> in
    r ← run_event ev w;
    Some (Cluster (fun q => if q =? p then r.2 else cl_node c q)
                  (cl_net c ++ packets_of p w r.2))
  else None.

Definition cluster_step c c' : Prop := exists p e a, cl_exec p e a c = Some c'.

(** A vote reply is timely when it reaches its candidate in the term in which it
    was given. *)
Definition timely c (p : uuid) (a : action) : bool :=
  match a with
  | ActDeliver k _ =>
      match cl_net c !! k with
      | Some pk =>
          negb (grants_vote (pk_msg pk) && raft_instance_is_candidate (w_ri (cl_node c p)))
          || (pk_term pk =? rlh_term (ri_log_hdr (w_ri (cl_node c p))))
      | None => true
      end
  | ActLocal _ => true
  end.

Definition timely_step c c' : Prop :=
  exists p e a, cl_exec p e a c = Some c' /\ timely c p a = true.

(** Start: every member knows the members and itself, is no candidate and no
    leader, and nothing is in the network. *)
Definition booted (p : uuid) (w : world B A) : Prop :=
  ri_csn_raft_peers (w_ri w) = members /\ ri_csn_this_peer (w_ri w) = p /\
  nehdr_ok (w_ri w) /\
  ri_state (w_ri w) <> RAFT_STATE_CANDIDATE /\ ri_state (w_ri w) <> RAFT_STATE_LEADER.
Definition cluster_init c : Prop :=
  cl_net c = [] /\ forall p, p ∈ members -> booted p (cl_node c p).

Definition leads c (p : uuid) (t : Z) : Prop :=
  p ∈ members /\ ri_state (w_ri (cl_node c p)) = RAFT_STATE_LEADER /\
  rls_leader_term (ri_leader (w_ri (cl_node c p))) = t.

(** [cast c p cand t]: member [p] has sent a YES of term [t] to [cand]. *)
Definition cast c (p cand : uuid) (t : Z) : Prop :=
  exists pk, pk ∈ cl_net c /\ grants_vote (pk_msg pk) = true /\
    pk_src pk = p /\ pk_dst pk = cand /\ pk_term pk = t.

Record cluster_inv c : Prop := {
  inv_conf p : p ∈ members -> ri_csn_raft_peers (w_ri (cl_node c p)) = members /\
    ri_csn_this_peer (w_ri (cl_node c p)) = p /\ nehdr_ok (w_ri (cl_node c p));
  inv_node p : p ∈ members ->
    node_ok (fun v t => cast c v p t) (w_ri (cl_node c p));
  inv_cast p cand t : p ∈ members -> cast c p cand t ->
    t < rlh_term (ri_log_hdr (w_ri (cl_node c p))) \/
    (t = rlh_term (ri_log_hdr (w_ri (cl_node c p))) /\
     rlh_voted_for (ri_log_hdr (w_ri (cl_node c p))) = cand);
  inv_once p x y t : p ∈ members -> cast c p x t -> cast c p y t -> x = y;
}.

End cluster.

Lemma node_ok_mono (E E' : uuid -> Z -> Prop) ri :
  (forall v t, E v t -> E' v t) -> node_ok E ri -> node_ok E' ri.
Proof.
  intros HE. unfold node_ok.
  assert (Hv : forall t i, voted_by E ri t i -> voted_by E' ri t i)
    by (intros t i (p & ? & [?|?]); exists p; auto).
  destruct (ri_state ri); try done.
  - intros (? & ? & Q & ? & ? & HQ). split_and!; try done. exists Q. split_and!; try done.
    eapply Forall_impl; [exact HQ|]. auto.
  - intros [(? & ? & Hy)|?]; [left|by right]. split_and!; try done. auto.
Qed.

Section election_safety.
Context `{NC : NiovaCore} {OK : NiovaCoreOk NC} {B A : Type} {BE : Backend B} {SM : StateMachine A}.
Context (members : list uuid).
Implicit Types w : world B A.

(** A YES that leaves a server is recorded in its header, in a term above every
    earlier one. *)
Definition recorded w w' (o : output) : Prop :=
  is_grant o = true -> exists d m, (o = OutMsg d m) /\
    rlh_term (ri_log_hdr (w_ri w)) < rlh_term (ri_log_hdr (w_ri w')) /\
    rlh_voted_for (ri_log_hdr (w_ri w')) = d.

Lemma event_grants ev w w' :
  run_event ev w = Some (tt, w') -> nehdr_ok (w_ri w) ->
  (forall n rrm ok, ev = EvPeerMsg n rrm ok ->
     rrm_sender_id rrm <> ri_csn_this_peer (w_ri w)) ->
  Forall (recorded w w') (new_outs w w').
Proof.
  intros H Hok Hself.
  assert (Hno : on_out (fun o => is_grant o = false) w w' ->
                Forall (recorded w w') (new_outs w w')).
  { intros Hn. apply new_outs_app in Hn as [HP _]. eapply Forall_impl; [exact HP|].
    unfold recorded. simpl. congruence. }
  destruct ev as [n rrm ok| | | | | | | |];
    try (apply Hno; eapply keeps_run; [|exact H]; by apply run_event_no_grant).
  specialize (Hself _ _ _ eq_refl).
  destruct (decide (rrm_type rrm = RAFT_RPC_MSG_TYPE_VOTE_REQUEST)) as [Hty|Hty].
  2:{ apply Hno; eapply keeps_run; [|exact H]. apply run_event_no_grant. by intros ? ? ? [= _ <- _]. }
  destruct (rrm_payload rrm) as [vreq| | | |] eqn:Hpl.
  { eapply vote_request_event, new_outs_app in H as [HP _]; [|done..].
    eapply Forall_impl; [exact HP|]. intros o Ho Hg.
    destruct (Ho Hg) as (m & -> & Hdec & _ & Ht & Hv). exists (rrm_sender_id rrm), m.
    split; [done|]. split; [|done].
    unfold raft_server_process_vote_request_decide in Hdec.
    destruct (_ || _) eqn:E; [done|]. apply orb_false_iff in E as [E _].
    apply orb_false_iff in E. lia. }
  all: apply Hno; eapply keeps_run; [|exact H];
    unfold run_event, raft_server_peer_recv_handler, raft_server_process_received_server_msg;
    rewrite Hty, Hpl; solve_keeps.
Qed.

(** A message from an address that is not its sender's is dropped. *)
Lemma peer_msg_bad_addr n rrm w w' :
  run_event (EvPeerMsg n rrm false) w = Some (tt, w') -> w' = w.
Proof.
  unfold run_event, raft_server_peer_recv_handler. intros H.
  run_if H; [by run_inv H|]. run_if H; [by run_inv H|].
  apply bind_Some in H as (c & w0 & Hv & H).
  unfold raft_net_verify_sender_server_msg in Hv. cbn [negb] in Hv.
  run_if Hv; [run_inv Hv; by run_inv H|].
  apply bind_Some in Hv as (i & ? & (-> & _)%raft_peer_2_idx_run & Hv).
  run_step Hv. run_if Hv; run_inv Hv; by run_inv H.
Qed.

Lemma run_event_conf ev :
  keeps (on_ri (same (fun ri => (ri_csn_raft_peers ri, ri_csn_this_peer ri))))
    (run_event ev : M (world B A) unit).
Proof. destruct ev; solve_keeps. Qed.

Lemma cl_exec_run p e a (c c' : cluster B A) :
  cl_exec members p e a c = Some c' ->
  p ∈ members /\ exists ev w', action_event c p a = Some ev /\
    run_event ev ((cl_node c p) <| w_env := e |>) = Some (tt, w') /\
    c' = Cluster (fun q => if q =? p then w' else cl_node c q)
           (cl_net c ++ packets_of p ((cl_node c p) <| w_env := e |>) w').
Proof.
  unfold cl_exec. case_bool_decide as Hp; [|done].
  destruct (action_event c p a) as [ev|]; [|done]. cbn [mbind option_bind].
  destruct (run_event ev _) as [[[] w']|] eqn:Hr; [|done]. intros [= <-].
  split; [done|]. by exists ev, w'.
Qed.

(** Where the packets of a step come from. *)
Lemma packets_of_spec p w w' pk :
  pk ∈ packets_of p w w' ->
  pk_src pk = p /\ pk_term pk = rlh_term (ri_log_hdr (w_ri w')) /\
  OutMsg (pk_dst pk) (pk_msg pk) ∈ new_outs w w'.
Proof.
  unfold packets_of. intros (o & Ho & H)%list_elem_of_omap.
  destruct o; try done. by injection H as <-.
Qed.

Lemma action_recorded p e a (c : cluster B A) ev w' :
  cluster_inv members c -> p ∈ members -> action_event c p a = Some ev ->
  run_event ev ((cl_node c p) <| w_env := e |>) = Some (tt, w') ->
  Forall (recorded ((cl_node c p) <| w_env := e |>) w')
    (new_outs ((cl_node c p) <| w_env := e |>) w').
Proof.
  intros Hinv Hp Ha Hr. destruct (inv_conf _ _ Hinv p Hp) as (_ & Hself & Hne).
  destruct a as [lev|k n]; simpl in Ha.
  - destruct (is_local lev) eqn:El; [|done]. injection Ha as <-.
    eapply event_grants; [exact Hr | exact Hne|]. intros ? ? ? ->. done.
  - destruct (cl_net c !! k) as [pk|]; [|done]. simpl in Ha.
    destruct (_ && _) eqn:Ed; [|done]. injection Ha as <-.
    apply andb_true_iff in Ed as [_ Ed].
    destruct (Z.eqb_spec (rrm_sender_id (pk_msg pk)) (pk_src pk)) as [Hs|Hs].
    + eapply event_grants; [exact Hr | exact Hne|]. intros ? ? ? [= _ <- _]. simpl.
      rewrite Hself, Hs. lia.
    + apply peer_msg_bad_addr in Hr as ->. unfold new_outs. by rewrite drop_all.
Qed.

(** A vote in the network after the step was there before, or has just been
    recorded by the server that moved. *)
Lemma cast_step p e a (c c' : cluster B A) ev w' v cand t :
  cluster_inv members c -> p ∈ members -> action_event c p a = Some ev ->
  run_event ev ((cl_node c p) <| w_env := e |>) = Some (tt, w') ->
  cl_net c' = cl_net c ++ packets_of p ((cl_node c p) <| w_env := e |>) w' ->
  cast c' v cand t ->
  cast c v cand t \/
  (v = p /\ t = rlh_term (ri_log_hdr (w_ri w')) /\
   rlh_term (ri_log_hdr (w_ri (cl_node c p))) < t /\
   rlh_voted_for (ri_log_hdr (w_ri w')) = cand).
Proof.
  intros Hinv Hp Ha Hr Hnet (pk & Hin & Hg & Hsrc & Hdst & Ht).
  rewrite Hnet in Hin. apply elem_of_app in Hin as [Hin|Hin]; [left; by exists pk|right].
  apply packets_of_spec in Hin as (Hs & Ht' & Hout).
  pose proof (action_recorded _ _ _ _ _ _ Hinv Hp Ha Hr) as Hrec.
  rewrite Forall_forall in Hrec. destruct (Hrec _ Hout Hg) as (d & m & [= <- <-] & Hlt & Hv).
  simpl in Hlt. split_and!; congruence || lia.
Qed.

Lemma cast_mono (c c' : cluster B A) l v cand t :
  cl_net c' = cl_net c ++ l -> cast c v cand t -> cast c' v cand t.
Proof.
  intros Hn (pk & Hin & H). exists pk. rewrite Hn. split; [|done]. apply elem_of_app. by left.
Qed.

Lemma cl_exec_inv p e a (c c' : cluster B A) :
  cl_exec members p e a c = Some c' -> timely c p a = true ->
  cluster_inv members c -> cluster_inv members c'.
Proof.
  intros (Hp & ev & w' & Ha & Hr & Hc')%cl_exec_run Htime Hinv.
  assert (Hcast := fun v cand t => cast_step p e a c c' ev w' v cand t Hinv Hp Ha Hr
                                     (f_equal cl_net Hc')).
  assert (Hmono := fun v cand t => cast_mono c c' _ v cand t (f_equal cl_net Hc')).
  destruct (inv_conf _ _ Hinv p Hp) as (Hm & Hself & Hne).
  pose proof (run_event_hdr_mono _ _ _ _ Hr) as Hh.
  assert (Hnode : forall q, cl_node c' q = if q =? p then w' else cl_node c q) by by rewrite Hc'.
  split.
  - intros q Hq. rewrite Hnode. destruct (q =? p) eqn:Eq; [|by apply Hinv].
    apply Z.eqb_eq in Eq as ->.
    pose proof (run_event_conf _ _ _ _ Hr) as Hconf. injection Hconf as -> ->.
    split_and!; [done | done | by apply (run_event_nehdr _ _ _ _ Hr)].
  - intros q Hq. rewrite Hnode.
    apply (node_ok_mono (fun v t => cast c v q t)); [by intros; apply Hmono|].
    destruct (q =? p) eqn:Eq; [|by apply (inv_node _ _ Hinv)].
    apply Z.eqb_eq in Eq as ->. eapply run_event_node; [exact Hr | | by apply (inv_node _ _ Hinv)].
    destruct a as [lev|k n]; simpl in Ha, Htime.
    + destruct (is_local lev) eqn:El; [|done]. injection Ha as <-. by destruct lev.
    + destruct (cl_net c !! k) as [pk|] eqn:Hk; [|done]. simpl in Ha.
      destruct (_ && _) eqn:Ed; [|done]. injection Ha as <-. apply andb_true_iff in Ed as [Ed _].
      intros Hok Hg Hst. exists pk. apply Z.eqb_eq in Hok, Ed.
      split_and!; [by eapply list_elem_of_lookup_2 | done | done | done |].
      apply orb_true_iff in Htime as [Htime|Htime]; [|by apply Z.eqb_eq].
      rewrite Hg in Htime. simpl in Htime, Hst. unfold raft_instance_is_candidate in Htime.
      by rewrite bool_decide_true in Htime.
  - intros q cand t Hq [H|(-> & -> & Hlt & Hv)]%Hcast; rewrite Hnode; [|by rewrite Z.eqb_refl; right].
    apply (inv_cast _ _ Hinv) in H; [|done]. destruct (q =? p) eqn:Eq; [|done].
    apply Z.eqb_eq in Eq as ->. destruct Hh as [Hh|Hh]; simpl in Hh; [by rewrite Hh | left; lia].
  - intros q x y t Hq Hx%Hcast Hy%Hcast.
    assert (Hold : forall z, cast c q z t -> q = p -> t <= rlh_term (ri_log_hdr (w_ri (cl_node c p)))).
    { intros z Hz ->. apply (inv_cast _ _ Hinv) in Hz; [lia | done]. }
    destruct Hx as [Hx|(? & ? & ? & Hx)], Hy as [Hy|(? & ? & ? & Hy)].
    + by eapply (inv_once _ _ Hinv).
    + specialize (Hold _ Hx). lia.
    + specialize (Hold _ Hy). lia.
    + congruence.
Qed.

Lemma cluster_init_inv (c : cluster B A) : cluster_init members c -> cluster_inv members c.
Proof.
  intros [Hnet Hb]. split.
  - intros p (? & ? & ? & _)%Hb. done.
  - intros p (_ & _ & _ & Hc & Hl)%Hb. unfold node_ok. by destruct (ri_state _).
  - intros p cand t _ (pk & Hin & _). rewrite Hnet in Hin. by apply elem_of_nil in Hin.
  - intros p x y t _ (pk & Hin & _). rewrite Hnet in Hin. by apply elem_of_nil in Hin.
Qed.

Lemma timely_steps_inv (c c' : cluster B A) :
  rtc (timely_step members) c c' -> cluster_inv members c -> cluster_inv members c'.
Proof.
  induction 1 as [|c1 c2 c3 (p & e & a & Hx & Ht) _ IH]; [done|].
  intros Hc. eapply IH, cl_exec_inv; done.
Qed.

(** C1. Election safety. Start a cluster whose servers are neither candidate nor
    leader and let its servers process any events in any order, over a network
    that loses, delays, duplicates and reorders messages, as long as every granted
    vote reply that reaches a candidate was given in the candidate's current term.
    Then two leaders of the same term are the same server. *)
Theorem election_safety (c0 c : cluster B A) p q t :
  cluster_init members c0 -> rtc (timely_step members) c0 c ->
  leads members c p t -> leads members c q t -> p = q.
Proof.
  intros H0 Hsteps (Hp & Hlp & Htp) (Hq & Hlq & Htq).
  pose proof (timely_steps_inv _ _ Hsteps (cluster_init_inv _ H0)) as Hinv.
  destruct (inv_conf _ _ Hinv p Hp) as (Hmp & Hsp & _), (inv_conf _ _ Hinv q Hq) as (Hmq & Hsq & _).
  pose proof (inv_node _ _ Hinv p Hp) as Np. pose proof (inv_node _ _ Hinv q Hq) as Nq.
  unfold node_ok in Np, Nq. rewrite Hlp in Np. rewrite Hlq in Nq.
  destruct Np as (Tp & Vp & Q1 & ND1 & Maj1 & F1), Nq as (Tq & Vq & Q2 & ND2 & Maj2 & F2).
  unfold num_members in Maj1, Maj2. rewrite Hmp in Maj1. rewrite Hmq in Maj2.
  unfold voted_by in F1, F2. rewrite Hmp, Hsp in F1. rewrite Hmq, Hsq in F2.
  rewrite Hsp in Vp. rewrite Hsq in Vq. rewrite <- Tp, Htp in F1. rewrite <- Tq, Htq in F2.
  assert (Hlt : forall x u (Q : list nat), Forall (fun i => exists v, members !! i = Some v /\
      (v = x \/ cast c v x u)) Q -> Forall (fun i => i < length members)%nat Q).
  { intros x u Q HQ. eapply Forall_impl; [exact HQ|].
    intros i (v & Hv%lookup_lt_Some & _). exact Hv. }
  destruct (positions_meet (length members) Q1 Q2) as (i & Hi1 & Hi2); try done.
  { by eapply Hlt. } { by eapply Hlt. }
  { unfold majority in *.
    pose proof (Z.div_mod (Z.of_nat (length members)) 2). pose proof (Z.mod_pos_bound (Z.of_nat (length members)) 2). lia. }
  rewrite Forall_forall in F1, F2.
  destruct (F1 i Hi1) as (v & Hv & H1), (F2 i Hi2) as (v' & Hv' & H2).
  rewrite Hv in Hv'. injection Hv' as <-.
  assert (Hvm : v ∈ members) by by eapply list_elem_of_lookup_2.
  destruct H1 as [->|H1], H2 as [->|H2]; [done | | | exact (inv_once _ _ Hinv v p q _ Hvm H1 H2)].
  - apply (inv_cast _ _ Hinv) in H2 as [H2|[_ H2]]; [lia | congruence | done].
  - apply (inv_cast _ _ Hinv) in H1 as [H1|[_ H1]]; [lia | congruence | done].
Qed.
End election_safety.

(** The part of a cluster's run that one server sees is a run of that server. *)
Lemma cluster_node_reachable `{NC : NiovaCore} {B A : Type} {BE : Backend B} {SM : StateMachine A}
    members (c c' : cluster B A) p :
  rtc (cluster_step members) c c' -> reachable (cl_node c p) (cl_node c' p).
Proof.
  induction 1 as [|c1 c2 c3 (q & e & a & Hx) _ IH]; [apply rtc_refl|].
  etransitivity; [|exact IH].
  apply cl_exec_run in Hx as (_ & ev & w' & _ & Hr & ->). simpl.
  destruct (Z.eqb_spec p q) as [->|]; [|apply rtc_refl].
  apply rtc_once. by exists e, ev.
Qed.

(** ** Runs of a concrete cluster *)
Definition sim_cluster : cluster raft_instance_posix Z :=
  Cluster (fun p => sim_node true p) [].

(** A step of a scenario: server [p] processes an event of its own, or the message
    [src] sent it last, or the one [back] messages before. *)
Inductive sim_cmd :=
| Do (p : uuid) (ev : event)
| Recv (p src : uuid) (back : nat).

Fixpoint positions {X} (f : X -> bool) (l : list X) (i : nat) : list nat :=
  match l with
  | [] => []
  | x :: l' => if f x then i :: positions f l' (S i) else positions f l' (S i)
  end.
Definition sim_who (cmd : sim_cmd) : uuid := match cmd with Do p _ | Recv p _ _ => p end.
Definition sim_action (cmd : sim_cmd) (c : cluster raft_instance_posix Z) : action :=
  match cmd with
  | Do _ ev => ActLocal ev
  | Recv p src back =>
      let k := nth back (rev (positions (fun pk => (pk_src pk =? src) && (pk_dst pk =? p))
                                (cl_net c) 0)) (length (cl_net c)) in
      ActDeliver k (sizeof_raft_rpc_msg +
        match cl_net c !! k with
        | Some pk => match rrm_payload (pk_msg pk) with
                     | rrm_append_entries_request r => raerqm_entries_sz r
                     | _ => 0
                     end
        | None => 0
        end)
  end.

(** Run the scenario; the flag says whether every vote reply was timely. *)
Fixpoint sim_script (l : list sim_cmd) (c : cluster raft_instance_posix Z) :
  option (bool * cluster raft_instance_posix Z) :=
  match l with
  | [] => Some (true, c)
  | cmd :: l' =>
      let a := sim_action cmd c in
      c' ← cl_exec sim_peers (sim_who cmd) (sim_env no_faults 2000) a c;
      r ← sim_script l' c';
      Some (timely c (sim_who cmd) a && r.1, r.2)
  end.

Lemma sim_script_steps l b c c' :
  sim_script l c = Some (b, c') ->
  rtc (cluster_step sim_peers) c c' /\ (b = true -> rtc (timely_step sim_peers) c c').
Proof.
  revert b c. induction l as [|cmd l IH]; intros b c; simpl.
  { intros [= <- <-]. split; [|intros _]; apply rtc_refl. }
  intros (c1 & H1 & ([b1 c2] & H2 & [= <- <-])%option.bind_Some)%option.bind_Some.
  simpl in *. apply IH in H2 as [Hs Ht]. split.
  - eapply rtc_l; [|exact Hs]. by eexists _, _, _.
  - intros [Hp Hb]%andb_true_iff. eapply rtc_l; [|by apply Ht]. by eexists _, _, _.
Qed.

Definition sim_end (l : list sim_cmd) : cluster raft_instance_posix Z :=
  match sim_script l sim_cluster with Some (_, c) => c | None => sim_cluster end.
(** Whether the run succeeds, and whether every vote reply in it was timely. *)
Definition sim_script_ok (l : list sim_cmd) : bool * bool :=
  match sim_script l sim_cluster with Some (b, _) => (true, b) | None => (false, false) end.

Lemma sim_end_steps l b :
  sim_script_ok l = (true, b) ->
  rtc (cluster_step sim_peers) sim_cluster (sim_end l) /\
  (b = true -> rtc (timely_step sim_peers) sim_cluster (sim_end l)).
Proof.
  unfold sim_script_ok, sim_end. destruct (sim_script l sim_cluster) as [[b' c]|] eqn:E; [|done].
  intros [= <-]. by apply sim_script_steps in E.
Qed.

(** [p] is elected with the pre-vote and the vote of [q]. *)
Definition sim_elects (p q : uuid) : list sim_cmd :=
  [Do p EvTimer; Recv q p 0; Recv p q 0; Recv q p 0; Recv p q 0].
Definition sim_led := sim_end (sim_elects 1 2).

(** The YES of server 2 for term 1 reaches server 1 after both server 1 and server
    3 have become candidates of term 2 and server 3 has won. *)
Definition sim_stale : list sim_cmd :=
  [Do 1 EvTimer; Recv 2 1 0; Recv 1 2 0; Recv 2 1 0; Recv 3 1 0;
   Do 1 EvTimer; Do 3 EvTimer; Recv 3 1 0; Recv 1 3 0;
   Do 2 EvTimer; Recv 2 3 0; Recv 3 2 0; Recv 2 3 0; Recv 3 2 0;
   Recv 1 2 1].
Definition sim_split := sim_end sim_stale.

Lemma sim_cluster_init : cluster_init sim_peers sim_cluster.
Proof.
  split; [reflexivity|]. intros p Hp.
  unfold sim_peers in Hp. repeat (apply elem_of_cons in Hp as [->|Hp]); [..|by apply elem_of_nil in Hp].
  all: (split; [by_run|]); split; [by_run|]; (split; [|by_run]);
    split_and!; [by_run | left; by_run | left; by_run | left; by_run].
Qed.

Lemma sim_leads l p t :
  bool_decide (p ∈ sim_peers) = true ->
  (ri_state (w_ri (cl_node (sim_end l) p)), rls_leader_term (ri_leader (w_ri (cl_node (sim_end l) p))))
  = (RAFT_STATE_LEADER, t) ->
  leads sim_peers (sim_end l) p t.
Proof. intros H [= H1 H2]. apply bool_decide_eq_true in H. by split. Qed.

(** C9. The premise on vote replies cannot be dropped, since the code compares
    no term when it counts a reply: three servers that boot from empty logs reach,
    by ordinary events and a delayed delivery, a state in which servers 1 and 3
    are both leader of term 2. *)
Theorem stale_vote_reply_two_leaders :
  cluster_init sim_peers sim_cluster /\
  rtc (cluster_step sim_peers) sim_cluster sim_split /\
  leads sim_peers sim_split 1 2 /\ leads sim_peers sim_split 3 2.
Proof.
  split; [exact sim_cluster_init|]. split.
  - apply (sim_end_steps sim_stale false). vm_compute. reflexivity.
  - split; apply (sim_leads sim_stale); vm_compute; reflexivity.
Qed.

Lemma election_safety_witness : leads sim_peers sim_led 1 1 /\ 1 = 1.
Proof.
  assert (H : leads sim_peers sim_led 1 1) by (apply (sim_leads (sim_elects 1 2)); vm_compute; reflexivity).
  split; [exact H|].
  apply (election_safety sim_peers
           sim_cluster sim_led 1 1 1); [exact sim_cluster_init | | exact H | exact H].
  apply (sim_end_steps (sim_elects 1 2) true); [vm_compute; reflexivity | reflexivity].
Defined.
