(* ===== verification/CommitProps.v ===== *)
(** Committing and applying: the applied index never passes the commit index,
    which never passes the synced log and never decreases; a leader commits only
    what a majority has stored. *)
From stdpp Require Import base tactics list gmap relations.
From Stdlib Require Import ZArith Lia Strings.Byte.
From S2P Require Import Prelude RaftTypes World Quorum Net WriteSupp Entry Log Election Append Leader ClientReq Apply Server Steps PosixBackend Sim LogProps VoteProps ElectionProps Cluster.
Local Open Scope Z_scope.
Local Open Scope raft_scope.

(** applied <= committed <= synced, and the sub-entry cursor is in its entry. *)
Definition indices_ok (ri : raft_instance) : Prop :=
  nehdr_ok ri /\
  ri_commit_idx ri <= reh_index (ri_newest_entry_sync ri) /\
  rla_idx (ri_last_applied ri) <= ri_commit_idx ri /\
  rla_sub_idx (ri_last_applied ri) <= rla_sub_idx_max (ri_last_applied ri).

(** The same, with the commit index at [k] at least. *)
Definition indices_above (k : Z) (ri : raft_instance) : Prop :=
  indices_ok ri /\ k <= ri_commit_idx ri.

#[local] Hint Extern 4 (keeps (on_ri (preserves (indices_above _))) (ri_upd _)) =>
  apply keeps_ri_upd; let X := fresh in intros ? X;
  first [exact X | destruct X as [[[? X] ?] ?]; split; [split; [split; [done | exact X] | done] | done]] : keeps.
#[local] Hint Extern 4 (keeps (on_ri (preserves (indices_above _))) (modify _)) =>
  apply keeps_modify; let X := fresh in intros ? X; exact X : keeps.

(** The synced header does not move back. *)
Definition sync_mono (ri ri' : raft_instance) : Prop :=
  reh_index (ri_newest_entry_sync ri) <= reh_index (ri_newest_entry_sync ri').
#[export] Instance sync_mono_preorder : PreOrder sync_mono.
Proof. split; red; unfold sync_mono; lia. Qed.
#[local] Hint Extern 4 (keeps (on_ri sync_mono) (ri_upd _)) =>
  apply keeps_ri_upd; let X := fresh in intros X; unfold sync_mono; simpl; lia : keeps.
#[local] Hint Extern 4 (keeps (on_ri sync_mono) (modify _)) =>
  apply keeps_modify; let X := fresh in intros X; unfold on_ri, sync_mono; simpl; lia : keeps.

(** What these predicates look at. *)
Definition idx_view (ri : raft_instance) :=
  (ri_newest_entry_sync ri, ri_newest_entry_unsync ri, ri_synchronous_writes ri, ri_state ri,
   ri_commit_idx ri, (rla_idx (ri_last_applied ri), rla_sub_idx (ri_last_applied ri),
   rla_sub_idx_max (ri_last_applied ri))).
Lemma indices_view k ri ri' : same idx_view ri ri' -> indices_above k ri -> indices_above k ri'.
Proof.
  unfold same, idx_view. intros [= H1 H2 H3 H4 H5 H6 H7 H8].
  unfold indices_above, indices_ok, nehdr_ok. by rewrite H1, H2, H3, H4, H5, H6, H7, H8.
Qed.

Section commit.
Context `{NC : NiovaCore} {B A : Type} {BE : Backend B} {SM : StateMachine A}.
Context (k : Z).
Implicit Types w : world B A.
Local Abbreviation M := (M (world B A)).
Local Abbreviation inv := (on_ri (preserves (indices_above k))).

(** A step that keeps the newest-header invariant, does not move the commit index
    or the apply cursor, and does not move the synced header back. *)
Lemma indices_newest w w' :
  nehdr_ok (w_ri w') ->
  on_ri (same (fun ri => (ri_commit_idx ri, (rla_idx (ri_last_applied ri),
    rla_sub_idx (ri_last_applied ri), rla_sub_idx_max (ri_last_applied ri))))) w w' ->
  reh_index (ri_newest_entry_sync (w_ri w)) <= reh_index (ri_newest_entry_sync (w_ri w')) ->
  indices_above k (w_ri w) -> indices_above k (w_ri w').
Proof.
  intros Hok [= H1 H2 H3 H4] Hs ((_ & ? & ? & ?) & ?).
  split; [split; [done|]|]; rewrite H1, ?H2, ?H3, ?H4; [|done]. split_and!; lia.
Qed.

Lemma nehdr_sync_le ri : nehdr_ok ri ->
  reh_index (ri_newest_entry_sync ri) <= reh_index (ri_newest_entry_unsync ri).
Proof. intros (_ & _ & _ & [->|?]); lia. Qed.

Lemma keeps_indices_backend_sync : keeps inv (raft_server_backend_sync : M Z).
Proof.
  intros w rc w' H Hok. destruct (Hok) as [[Hn _] _].
  pose proof (backend_sync_run _ _ _ H Hn) as (Hs & _).
  eapply indices_newest; [ | | | exact Hok].
  - by apply keeps_nehdr_backend_sync in H; apply H.
  - eapply keeps_run; [|exact H]. solve_keeps.
  - rewrite Hs. pose proof (nehdr_sync_le _ Hn). destruct (rc =? 0); lia.
Qed.

(** Without [force] the synced header only moves forward. *)
Lemma keeps_sync_mono_update reh ty :
  keeps (on_ri sync_mono) (raft_instance_update_newest_entry_hdr reh ty false : M unit).
Proof.
  intros w u w' H. destruct (Z.ltb_spec (reh_index reh) 0).
  - unfold raft_instance_update_newest_entry_hdr in H.
    rewrite (proj2 (Z.ltb_lt _ _)) in H by done. run_inv H. unfold on_ri, sync_mono. lia.
  - apply update_newest_run in H as (Hs & _); [|done]. unfold on_ri, sync_mono.
    rewrite Hs. destruct (updates _ _); simpl; [|lia]. destruct (Z.ltb_spec (reh_index
      (ri_newest_entry_sync (w_ri w))) (reh_index reh)); lia.
Qed.
#[local] Hint Resolve keeps_sync_mono_update : keeps.

Lemma keeps_indices_entry_write idx term data sizes n opts ws :
  keeps inv (raft_server_entry_write idx term data sizes n opts ws : M Z).
Proof.
  intros w rc w' H Hok. destruct (Hok) as [[Hn _] _].
  eapply indices_newest; [ | | | exact Hok].
  - by apply keeps_nehdr_entry_write in H; apply H.
  - eapply keeps_run; [|exact H]. solve_keeps.
  - eapply (keeps_run (on_ri sync_mono)) in H; [exact H | solve_keeps].
Qed.

(** Pruning stops above the commit index and the applied index. *)
Lemma keeps_indices_prune raerq :
  keeps inv (raft_server_append_entry_log_prune_if_needed raerq : M unit).
Proof.
  unfold raft_server_append_entry_log_prune_if_needed. intros w u w' H Hok.
  run_step H. run_step H. run_step H. apply bind_Some in H as (rc & w1 & H1 & H).
  apply keeps_indices_backend_sync in H1. specialize (H1 Hok). run_step H. run_step H.
  run_step H. unfold id in Hfatal0. apply orb_false_iff in Hfatal0 as [Hc Ha].
  apply bind_Some in H as (? & w2 & H2 & H).
  assert (Hok2 : indices_above k (w_ri w2)).
  { destruct (Z.leb_spec 0 (raerqm_prev_log_index raerq)); cbn [when] in H2; [|by run_inv H2].
    unfold prune_to in H2. apply bind_Some in H2 as (reh & w3 & H3 & H2).
    pose proof H3 as (Hi & Hm & Hidx)%header_read_run.
    eapply (keeps_run (on_ri (same idx_view))) in H3; [|solve_keeps].
    pose proof (indices_view k _ _ H3 H1) as Hok3.
    pose proof H2 as Hst.
    eapply (keeps_run (on_ri (same (fun ri => (ri_state ri, ri_commit_idx ri,
      (rla_idx (ri_last_applied ri), rla_sub_idx (ri_last_applied ri),
       rla_sub_idx_max (ri_last_applied ri))))))) in Hst; [|solve_keeps].
    injection Hst as E1 E2 E3 E4 E5.
    apply update_newest_run in H2 as (Hs & Hu & Hw); [|lia].
    injection H3 as _ _ _ _ Ec _ _ _.
    destruct Hok3 as ((Hn & _ & ? & ?) & ?). destruct Hn as [? _].
    assert (Hv : hdr_valid reh) by (right; split; [done | lia]).
    unfold indices_above, indices_ok, nehdr_ok. rewrite Hs, Hu, Hw, E1, E2, E3, E4, E5, Ec in *.
    simpl. rewrite Hidx. split_and!; auto; lia. }
  revert Hok2. eapply (keeps_run inv) in H; [exact H | solve_keeps].
Qed.

(** The commit index only moves up to what is synced. *)
Lemma keeps_indices_advance idx : keeps inv (raft_server_advance_commit_idx idx : M unit).
Proof.
  unfold raft_server_advance_commit_idx. intros w u w' H Hok. destruct (Hok) as (((Hc & Hv & _) & _) & _).
  run_step H. run_if H; [|by run_inv H]. unfold id in *.
  apply bind_Some in H as (s & ? & [-> ->]%current_index_run & H); [|done..].
  destruct (Z.leb_spec idx (reh_index (newest_hdr (w_ri w) RI_NEHDR_SYNC))); cbn [when] in H;
    [|by run_inv H].
  run_step H.
  match type of H with ?m ?w1 = _ => enough (Hok1 : indices_above k (w_ri w1)) by
    (revert Hok1; eapply (keeps_run inv) in H; [exact H | solve_keeps]) end.
  simpl in *. destruct Hok as ((Hn & ? & ? & ?) & ?).
  split; [split; [exact Hn|]|]; simpl; split_and?; lia.
Qed.
End commit.
#[local] Hint Resolve keeps_indices_backend_sync keeps_indices_entry_write keeps_indices_prune
  keeps_indices_advance : keeps.

(** ** The apply cursor *)
Section apply.
Context `{NC : NiovaCore} {B A : Type} {BE : Backend B} {SM : StateMachine A}.
Implicit Types w : world B A.
Local Abbreviation M := (M (world B A)).

Lemma set_last_applied_run k nai w nai' w' :
  raft_server_set_last_applied nai w = Some (nai', w') ->
  rla_idx nai <= k -> indices_above k (w_ri w) ->
  rla_idx nai' = rla_idx nai /\ indices_above k (w_ri w').
Proof.
  unfold raft_server_set_last_applied. intros H Hk Hok. do 3 run_step H. run_inv H.
  unfold id in *. apply andb_true_iff in Hassert as [_ Hsub].
  unfold set_last_applied. simpl. destruct Hok as ((? & ? & ? & ?) & ?).
  split; [by destruct (_ =? _)|].
  split; [split; [done|]|]; simpl; split_and?; lia.
Qed.

Lemma keeps_indices_apply_sub k reh sz data nai :
  rla_idx nai <= k ->
  ensures (fun w => indices_above k (w_ri w)) (apply_sub_entry reh sz data nai : M _)
    (fun nai' w' => rla_idx nai' = rla_idx nai /\ indices_above k (w_ri w')).
Proof.
  intros Hk w nai' w' Hok H. unfold apply_sub_entry in H.
  apply bind_Some in H as (rncr & w1 & H1 & H).
  eapply (keeps_run (on_ri (preserves (indices_above k)))) in H1; [specialize (H1 Hok) | solve_keeps].
  apply bind_Some in H as ([rc rncr'] & w2 & H2 & H).
  eapply (keeps_run (on_ri (preserves (indices_above k)))) in H2; [specialize (H2 H1) | solve_keeps].
  apply bind_Some in H as (nai1 & w3 & H3 & H).
  apply (set_last_applied_run k) in H3 as [Hn H3]; [|done..].
  do 2 (apply bind_Some in H as (? & ? & H4 & H);
    eapply (keeps_run (on_ri (preserves (indices_above k)))) in H4; [specialize (H4 H3); clear H3; rename H4 into H3 | solve_keeps]).
  apply bind_Some in H as (? & ? & H4 & H).
  eapply (keeps_run (on_ri (preserves (indices_above k)))) in H4; [specialize (H4 H3) | solve_keeps].
  run_step H. run_inv H. done.
Qed.

Lemma keeps_indices_apply_loop k reh i sizes data nai :
  rla_idx nai <= k ->
  keeps (on_ri (preserves (indices_above k))) (apply_loop reh i sizes data nai : M unit).
Proof.
  revert i data nai. induction sizes as [|sz sizes IH]; intros i data nai Hk; simpl; [solve_keeps|].
  destruct (i <? rla_sub_idx nai); [by apply IH|].
  intros w u w' (nai1 & w1 & H1 & H)%bind_Some Hok.
  eapply keeps_indices_apply_sub in H1 as [Hn Hok1]; [|done..].
  eapply (IH (i + 1) _ nai1); [lia | exact H | done].
Qed.

(** What is applied next is committed. *)
Lemma next_apply_committed ri :
  needs_apply ri = true -> rla_idx (ri_last_applied ri) <= ri_commit_idx ri ->
  rla_idx (next_apply_idx (ri_last_applied ri)) <= ri_commit_idx ri.
Proof.
  unfold needs_apply, next_apply_idx. intros [H|H]%orb_true_iff Hle; case_match; simpl; try lia.
Qed.

Lemma indices_above_self k ri : indices_above k ri -> indices_above (ri_commit_idx ri) ri.
Proof. intros [H _]. split; [done | lia]. Qed.
Lemma indices_above_le k k' ri : k <= k' -> indices_above k' ri -> indices_above k ri.
Proof. intros ? [H ?]. split; [done | lia]. Qed.

Lemma header_to_apply_run w nai reh w' :
  raft_server_get_raft_header_to_apply w = Some ((nai, reh), w') ->
  rla_idx nai = rla_idx (next_apply_idx (ri_last_applied (w_ri w))) /\ on_ri (same idx_view) w w'.
Proof.
  unfold raft_server_get_raft_header_to_apply. intros H.
  split; [|eapply keeps_run; [|exact H]; solve_keeps].
  apply bind_Some in H as (nai1 & w1 & H1 & H). unfold raft_server_next_apply_idx in H1.
  run_inv H1. apply bind_Some in H as (r & w2 & _ & H). run_step H. run_step H. run_step H.
  apply bind_Some in H as (? & w3 & _ & H). by run_inv H.
Qed.

Lemma keeps_indices_apply k :
  keeps (on_ri (preserves (indices_above k))) (raft_server_state_machine_apply : M unit).
Proof.
  intros w u w' H Hok. unfold raft_server_state_machine_apply in H.
  apply bind_Some in H as (needs & w1 & H1 & H). unfold raft_server_needs_apply in H1.
  run_inv H1. run_if H; [by run_inv H|]. apply negb_false_iff in Hif. unfold id in *.
  apply (indices_above_le k (ri_commit_idx (w_ri w))); [apply Hok|].
  pose proof (indices_above_self _ _ Hok) as Hok1. set (c := ri_commit_idx (w_ri w)) in *.
  apply bind_Some in H as (by_ & w2 & H2 & H).
  eapply (keeps_run (on_ri (same id))) in H2; [|solve_keeps]. unfold on_ri, same, id in H2.
  rewrite <- H2 in Hok1. run_if H; [by run_inv H|].
  apply bind_Some in H as ([nai reh] & w3 & H3 & H).
  apply header_to_apply_run in H3 as [Hidx H3]. apply (indices_view _ _ _ H3) in Hok1.
  assert (Hle : rla_idx nai <= c).
  { rewrite Hidx, H2. apply next_apply_committed; [done|]. apply Hok. }
  revert Hok1. run_if H.
  - intros Hok1. apply bind_Some in H as (nai1 & w4 & H4 & H).
    apply (set_last_applied_run c) in H4 as [_ H4]; [|done..]. revert H4.
    eapply (keeps_run (on_ri (preserves (indices_above c)))) in H; [exact H | solve_keeps].
  - pose proof (fun i sizes data => keeps_indices_apply_loop c reh i sizes data nai Hle).
    eapply (keeps_run (on_ri (preserves (indices_above c)))) in H; [exact H | solve_keeps].
Qed.
End apply.
#[local] Hint Resolve keeps_indices_apply : keeps.

Section events.
Context `{NC : NiovaCore} {B A : Type} {BE : Backend B} {SM : StateMachine A}.
Implicit Types w : world B A.
Local Abbreviation M := (M (world B A)).

Lemma run_event_indices k ev :
  keeps (on_ri (preserves (indices_above k))) (run_event ev : M unit).
Proof. destruct ev. all: solve_keeps. Qed.


(** C8. The commit index of a server never decreases. *)
Theorem commit_idx_monotone w w' :
  reachable w w' -> indices_ok (w_ri w) -> ri_commit_idx (w_ri w) <= ri_commit_idx (w_ri w').
Proof.
  intros H Hok.
  apply (reachable_keeps (preserves (indices_above (ri_commit_idx (w_ri w))))) in H.
  - by apply H.
  - apply run_event_indices.
Qed.
End events.

(** ** The commit rule of the leader *)
(** The leader keeps a record for every possible member. *)
Definition rfi_full `{NC : NiovaCore} (ri : raft_instance) : Prop :=
  Z.of_nat (length (rls_rfi (ri_leader ri))) = CTL_SVC_MAX_RAFT_PEERS.

Section leader_commit.
Context `{NC : NiovaCore} {OK : NiovaCoreOk NC} {B A : Type} {BE : Backend B} {SM : StateMachine A}.
Implicit Types w : world B A.
Local Abbreviation M := (M (world B A)).

Lemma length_sync_indexes ri :
  rfi_full ri -> num_members ri <= CTL_SVC_MAX_RAFT_PEERS ->
  Z.of_nat (length (sync_indexes ri)) = num_members ri.
Proof.
  unfold rfi_full, num_members, sync_indexes. intros. rewrite length_map, length_take. lia.
Qed.

Lemma rfi_upd_run i f w u w' :
  rfi_upd i f w = Some (u, w') ->
  raft_num_members_is_valid (num_members (w_ri w)) = true /\
  exists rfi, znth (rls_rfi (ri_leader (w_ri w))) i = Some rfi /\ i < num_members (w_ri w) /\
  w_ri w' = (w_ri w) <| ri_leader ::= fun rls => rls <| rls_rfi ::= fun l => zupd l i (f rfi) |> |>.
Proof.
  unfold rfi_upd, raft_server_get_follower_info, raft_member_idx_is_valid,
    raft_num_members_validate_and_get. intros H.
  apply bind_Some in H as (rfi & w1 & H1 & H). apply bind_Some in H1 as (ok & w2 & H2 & H1).
  run_inv H2. run_inv H1. run_inv H. simpl in *. apply negb_false_iff in Hfatal.
  split; [done|]. exists rfi. split; [done|]. split; [lia | done].
Qed.

(** What is recorded about the leader itself is what its log says. *)
Lemma setup_self_run w u w' :
  raft_server_leader_setup_self_follower_info w = Some (u, w') ->
  nehdr_ok (w_ri w) -> rfi_full (w_ri w) ->
  rfi_full (w_ri w') /\ raft_num_members_is_valid (num_members (w_ri w')) = true /\
  on_ri (same (fun ri => (ri_commit_idx ri, rls_initial_term_idx (ri_leader ri),
    ri_newest_entry_sync ri, ri_state ri, ri_csn_raft_peers ri))) w w'.
Proof.
  unfold raft_server_leader_setup_self_follower_info, raft_server_instance_self_idx.
  intros H Hok Hf. split; [|split].
  3:{ eapply keeps_run; [|exact H]. solve_keeps. }
  all: do 2 run_step H; apply bind_Some in H as (i & w1 & H1 & H); run_step H1;
    apply raft_peer_2_idx_run in H1 as (-> & -> & _);
    apply bind_Some in H as (h & ? & [-> ->]%get_newest_header_run & H); [|apply Hok];
    apply rfi_upd_run in H as (Hv & rfi & _ & _ & H); rewrite H.
  - unfold rfi_full in *. simpl. by rewrite length_zupd.
  - done.
Qed.

(** C3. When a leader moves its commit index, the new value is above the old one,
    at least the index its log ended with when its term began, not above what it
    has synced itself, and a majority of the members is recorded to hold it. *)
Theorem leader_commits_majority w w' :
  raft_server_leader_try_advance_commit_idx w = Some (tt, w') ->
  nehdr_ok (w_ri w) -> rfi_full (w_ri w) ->
  ri_commit_idx (w_ri w') <> ri_commit_idx (w_ri w) ->
  let c := ri_commit_idx (w_ri w') in
  ri_commit_idx (w_ri w) < c /\
  rls_initial_term_idx (ri_leader (w_ri w')) <= c /\
  c <= reh_index (ri_newest_entry_sync (w_ri w')) /\
  majority (num_members (w_ri w')) <= count_ge c (sync_indexes (w_ri w')).
Proof.
  intros H Hok Hf Hne c. unfold raft_server_leader_try_advance_commit_idx,
    raft_server_leader_can_advance_commit_idx, raft_server_leader_calculate_committed_idx in H.
  do 2 run_step H. apply bind_Some in H as (idx & w1 & H1 & H).
  run_step H1. run_if H1; [run_inv H1; run_inv H; done|].
  apply bind_Some in H1 as (maj & w2 & H2 & H1).
  do 2 run_step H2. apply bind_Some in H2 as (? & w3 & H3 & H2).
  apply setup_self_run in H3 as (Hf3 & Hv & H3); [|done..]. injection H3 as Ec Ei Es Est Ep.
  run_step H2. run_step H2. run_step H2. run_step H2. run_inv H2. unfold id in *.
  run_step H1. run_step H1. run_inv H1.
  match goal with Hx : (num_members _ <=? _) = true |- _ => apply Z.leb_le in Hx; rename Hx into Hn end.
  pose proof (length_sync_indexes _ Hf3 Hn) as Hlen. rewrite <- Hlen in Hopt, Hv.
  destruct (get_majority_entry_idx_eq _ Hv) as (m & Hm & Hmaj & _). rewrite Hm in Hopt.
  injection Hopt as <-. simpl in *. rewrite Hlen in Hmaj.
  destruct ((rls_initial_term_idx (ri_leader (w_ri w3)) <=? m) && (ri_commit_idx (w_ri w3) <? m)) eqn:E;
    [|cbn [RAFT_ENTRY_IDX_ANY Z.eqb Pos.eqb negb when] in H; run_inv H; by rewrite Ec in Hne].
  apply andb_true_iff in E as [E1 E2].
  destruct (negb (m =? RAFT_ENTRY_IDX_ANY)); cbn [when] in H; [|run_inv H; by rewrite Ec in Hne].
  unfold raft_server_advance_commit_idx in H. run_step H. unfold id in H. rewrite E2 in H.
  apply bind_Some in H as (s & ? & [-> ->]%current_index_run & H);
    [| rewrite Est; by destruct Hok | simpl; rewrite Es; by destruct Hok as (_ & ? & _)].
  simpl newest_hdr in H.
  destruct (Z.leb_spec m (reh_index (ri_newest_entry_sync (w_ri w3)))); cbn [when] in H;
    [|run_inv H; by rewrite Ec in Hne].
  run_step H. eapply (keeps_run (on_ri (same (fun ri => (ri_commit_idx ri, ri_leader ri,
    ri_newest_entry_sync ri, ri_csn_raft_peers ri))))) in H; [|solve_keeps].
  injection H as Fc Fl Fs Fp. unfold c, num_members, sync_indexes in *.
  rewrite Fc, Fl, Fs, Fp. simpl. rewrite <- Ec. split_and!; [lia | lia | lia | done].
Qed.
End leader_commit.

(** ** Runs of the concrete cluster *)
(** A client writes [data] through server [p]. *)
Definition sim_write (p client msg_id : Z) (data : bytes) : sim_cmd :=
  let n := Z.of_nat (length data) in
  Do p (EvClientMsg (sizeof_raft_client_rpc_msg + n)
    {| rcrm_type := RAFT_CLIENT_RPC_MSG_TYPE_WRITE; rcrm_data_size := n; rcrm_msg_id := msg_id;
       rcrm_raft_id := sim_raft; rcrm_sender_id := client; rcrm_dest_id := 0;
       rcrm_app_error := 0; rcrm_sys_error := 0; rcrm_user_tag := 0; rcrm_data := data |}).
(** Leader [p] sends to [q], which replies. *)
Definition sim_replicate (p q : uuid) : list sim_cmd := [Do p EvRemoteSend; Recv q p 0; Recv p q 0].

(** Server 1 leads term 1, commits its marker at index 0 with the others, and has a
    client's write at index 1 in its own log only. *)
Definition sim_written : list sim_cmd :=
  sim_elects 1 2 ++
  [Do 1 EvRemoteSend; Recv 2 1 0; Recv 3 1 0; Recv 1 2 0; Recv 1 3 0; Do 1 EvSmApply;
   sim_write 1 50 7 [x61; x62; x63]].
(** Server 3 is elected in term 2 by server 2 and has its marker at index 1 in its
    own log only; server 1 is elected in term 3 by server 2. *)
Definition sim_reelected : list sim_cmd :=
  sim_written ++ Do 2 EvTimer :: sim_elects 3 2 ++
  [Do 1 EvRemoteSend; Recv 3 1 0; Recv 1 3 0] ++ Do 2 EvTimer :: sim_elects 1 2.
(** Server 1 replicates index 1, but not its marker of term 3 at index 2. *)
Definition sim_before : list sim_cmd :=
  sim_reelected ++ sim_replicate 1 2 ++ sim_replicate 1 2 ++ [Do 1 EvRemoteSend; Recv 2 1 0].
Definition sim_committed : list sim_cmd := sim_before ++ [Recv 1 2 0; Do 1 EvSmApply].
(** Server 3 is elected in term 4 by server 2 and replicates its log. *)
Definition sim_replaced : list sim_cmd :=
  sim_committed ++ sim_replicate 3 2 ++ Do 2 EvTimer :: sim_elects 3 2 ++
  sim_replicate 3 2 ++ sim_replicate 3 2 ++ sim_replicate 3 2.

(** The term of the entry at [idx] in the log of [p]. *)
Definition sim_entry_term (c : cluster raft_instance_posix Z) (p : uuid) (idx : Z) : option Z :=
  r ← rib_entry_header_read (w_ri (cl_node c p)) idx (w_be (cl_node c p));
  if r.1 =? 0 then Some (reh_term r.2) else None.
Definition sim_commit (c : cluster raft_instance_posix Z) (p : uuid) : Z :=
  ri_commit_idx (w_ri (cl_node c p)).

(** C10. The rule above lets a leader commit the last entry of an earlier term
    before any entry of its own term is replicated, and such an entry can be lost.
    In a run of three servers in which every vote reply is timely, server 1 commits
    and applies the entry of term 1 at index 1 as the leader of term 3; afterwards
    server 3 is elected in term 4, replaces the entry on server 2 by one of term 2
    and commits that. *)
Theorem committed_entry_replaced :
  cluster_init sim_peers sim_cluster /\
  rtc (timely_step sim_peers) sim_cluster (sim_end sim_replaced) /\
  (let c := sim_end sim_replaced in
   (rla_idx (ri_last_applied (w_ri (cl_node c 1))), sim_commit c 1, sim_entry_term c 1 1)
   = (1, 1, Some 1) /\
   (sim_commit c 3, sim_entry_term c 3 1, sim_entry_term c 2 1) = (2, Some 2, Some 2)).
Proof.
  split; [exact sim_cluster_init|]. split.
  - apply (sim_end_steps sim_replaced true); [vm_compute; reflexivity | reflexivity].
  - vm_compute. split; reflexivity.
Qed.

(** ** Witnesses *)
Lemma sim_boot_indices : indices_ok (w_ri (cl_node sim_cluster 1)).
Proof.
  split; [|by_run]. split_and!; [by_run | left; by_run | left; by_run | left; by_run].
Qed.

Lemma sim_committed_reachable :
  reachable (cl_node sim_cluster 1) (cl_node (sim_end sim_committed) 1).
Proof.
  apply (cluster_node_reachable sim_peers).
  apply (sim_end_steps sim_committed true). vm_compute. reflexivity.
Qed.


Lemma commit_idx_monotone_witness :
  ri_commit_idx (w_ri (cl_node sim_cluster 1)) <=
  ri_commit_idx (w_ri (cl_node (sim_end sim_committed) 1)).
Proof.
  apply (commit_idx_monotone (cl_node sim_cluster 1));
    [exact sim_committed_reachable | exact sim_boot_indices].
Defined.

(** Server 1 when the reply of server 2 for index 1 has been recorded. *)
Definition sim_acked : sworld :=
  let w := cl_node (sim_end sim_committed) 1 in
  w <| w_ri ::= fun ri => ri <| ri_commit_idx := 0 |> |>.
Abbreviation sim_advance := (raft_server_leader_try_advance_commit_idx : M sworld unit).
Abbreviation sim_advanced := (sim_do sim_advance sim_acked).
Lemma sim_advance_result : sim_result sim_advance sim_acked = Some tt.
Proof. vm_compute. reflexivity. Qed.
Lemma sim_acked_nehdr : nehdr_ok (w_ri sim_acked).
Proof. split_and!; [by_run | right; by_run | right; by_run | left; by_run]. Qed.

Lemma leader_commits_majority_witness :
  let c := ri_commit_idx (w_ri sim_advanced) in
  ri_commit_idx (w_ri sim_acked) < c /\
  rls_initial_term_idx (ri_leader (w_ri sim_advanced)) <= c /\
  c <= reh_index (ri_newest_entry_sync (w_ri sim_advanced)) /\
  majority (num_members (w_ri sim_advanced)) <= count_ge c (sync_indexes (w_ri sim_advanced)).
Proof.
  apply (leader_commits_majority sim_acked sim_advanced).
  - exact (sim_do_run sim_advance sim_acked tt sim_advance_result).
  - exact sim_acked_nehdr.
  - by_run.
  - by_run.
Defined.
