(* ===== verification/RocksKeys.v ===== *)
(** The key space of the RocksDB backend ([src/raft_server_backend_rocksdb.c]):
    byte strings and their order, decimal printing and parsing as the C library
    does them, the fixed keys and the keys of the log entries. *)
From Stdlib Require Import Strings.String.
From stdpp Require Import base tactics list countable.
From Stdlib Require Import ZArith Lia Strings.Byte.
From S2P Require Import Prelude RaftTypes World Entry.
Local Open Scope Z_scope.
Local Open Scope raft_scope.

#[export] Instance byte_eq : EqDecision byte := Byte.byte_eq_dec.
#[export] Program Instance byte_countable : Countable byte :=
  inj_countable Byte.to_N Byte.of_N _.
Next Obligation. intros x. apply Byte.of_to_N. Qed.

(** A C string literal, without its terminator. *)
Definition str (s : String.string) : bytes := String.list_byte_of_string s.
Definition slen (l : bytes) : Z := Z.of_nat (length l).
Definition PATH_MAX : Z := 4096.
(** snprintf(buf, size, ...) of the text [s]: its return value and the string left in
    the buffer. *)
Definition snprintf (size : Z) (s : bytes) : Z * bytes := (slen s, take (Z.to_nat (size - 1)) s).

(** ** The order of byte strings (memcmp, then the length) *)
Fixpoint bytes_ltb (a b : bytes) : bool :=
  match a, b with
  | _, [] => false
  | [], _ :: _ => true
  | x :: a', y :: b' =>
      (Z_of_byte x <? Z_of_byte y)
      || ((Z_of_byte x =? Z_of_byte y) && bytes_ltb a' b')
  end.
Definition bytes_leb (a b : bytes) : bool := negb (bytes_ltb b a).
Definition bytes_lt (a b : bytes) : Prop := bytes_ltb a b = true.
Definition bytes_le (a b : bytes) : Prop := bytes_ltb b a = false.

(** strncmp(s, k, strlen(s)) == 0 for a literal [s] without NUL. *)
Fixpoint prefix_of (s k : bytes) : bool :=
  match s, k with
  | [], _ => true
  | x :: s', y :: k' => bool_decide (x = y) && prefix_of s' k'
  | _, [] => false
  end.

(** ** Decimal numbers *)
Definition ascii_0 : Z := 48.
Definition digit (z : Z) : byte := byte_of_Z (ascii_0 + z).
(** The last [n] decimal digits of [z]. *)
Fixpoint dec_digits (n : nat) (z : Z) : bytes :=
  match n with
  | O => []
  | S n' => dec_digits n' (z / 10) ++ [digit (z mod 10)]
  end.
(** How many digits a number has; a [size_t] has at most 20. *)
Fixpoint num_digits (fuel : nat) (z : Z) : nat :=
  match fuel with
  | O => 1%nat
  | S fuel' => if z <? 10 then 1%nat else S (num_digits fuel' (z / 10))
  end.
(** "%0<w>zu" of a 64-bit value. *)
Definition fmt_zu (w : nat) (z : Z) : bytes :=
  dec_digits (Nat.max w (num_digits 20 (u64 z))) (u64 z).

Definition isdigit (b : byte) : bool := (48 <=? Z_of_byte b) && (Z_of_byte b <=? 57).
Definition isspace (b : byte) : bool :=
  (Z_of_byte b =? 32) || ((9 <=? Z_of_byte b) && (Z_of_byte b <=? 13)).
Fixpoint digits_val (acc : Z) (l : bytes) : Z :=
  match l with
  | b :: l' => if isdigit b then digits_val (10 * acc + (Z_of_byte b - ascii_0)) l' else acc
  | [] => acc
  end.
(** strtoull(s, NULL, 10): white space, a sign, digits; the value saturates. *)
Definition strtoull_mag (l : bytes) : Z := Z.min (digits_val 0 l) (2 ^ 64 - 1).
Fixpoint strtoull (l : bytes) : Z :=
  match l with
  | b :: l' =>
      if isspace b then strtoull l'
      else if Z_of_byte b =? 45 then u64 (- strtoull_mag l')
      else if Z_of_byte b =? 43 then strtoull_mag l'
      else strtoull_mag l
  | [] => 0
  end.

(** ** The keys *)
Definition RAFT_ROCKSDB_KEY_LEN_MAX : Z := 256.
Definition RAFT_ENTRY_SIZE_ROCKSDB : Z := 4 * 1024 * 1024.
Definition RAFT_LOG_HEADER_ROCKSDB : bytes := str "a0_hdr.".
Definition RAFT_LOG_HEADER_ROCKSDB_END : bytes := str "a1_hdr.".
Definition RAFT_LOG_HEADER_ROCKSDB_LAST_SYNC : bytes :=
  RAFT_LOG_HEADER_ROCKSDB_END ++ str "last_sync".
Definition RAFT_LOG_HEADER_LAST_APPLIED_ROCKSDB : bytes :=
  RAFT_LOG_HEADER_ROCKSDB_END ++ str "last_applied".
Definition RAFT_LOG_HEADER_UUID : bytes := RAFT_LOG_HEADER_ROCKSDB_END ++ str "UUID".
Definition RAFT_LOG_HEADER_UUID_PRE_RECOVERY : bytes :=
  RAFT_LOG_HEADER_UUID ++ str ".pre-recovery".
Definition RAFT_LOG_LASTENTRY_ROCKSDB : bytes := str "z0_last.".
Definition RAFT_ENTRY_KEY_PREFIX_ROCKSDB : bytes := str "e0.".

(** RAFT_LOG_HEADER_FMT and RAFT_LOG_LASTENTRY_FMT. *)
Definition RAFT_LOG_HEADER_FMT (raft_uuid_str peer_uuid_str : bytes) : bytes :=
  RAFT_LOG_HEADER_ROCKSDB ++ raft_uuid_str ++ str "__" ++ peer_uuid_str.
Definition RAFT_LOG_LASTENTRY_FMT (raft_uuid_str peer_uuid_str : bytes) : bytes :=
  RAFT_LOG_LASTENTRY_ROCKSDB ++ raft_uuid_str ++ str "__" ++ peer_uuid_str.
(** RAFT_ENTRY_HEADER_KEY_PRINTF and RAFT_ENTRY_KEY_PRINTF. *)
Definition RAFT_ENTRY_HEADER_KEY_PRINTF (idx : raft_entry_idx_t) : bytes :=
  RAFT_ENTRY_KEY_PREFIX_ROCKSDB ++ fmt_zu 16 idx ++ str "h".
Definition RAFT_ENTRY_KEY_PRINTF (idx : raft_entry_idx_t) : bytes :=
  RAFT_ENTRY_KEY_PREFIX_ROCKSDB ++ fmt_zu 16 idx ++ str "e".

(** The indices whose keys have the fixed width. *)
Definition key_idx_ok (idx : raft_entry_idx_t) : Prop := 0 <= idx < 10 ^ 16.

(** ** Order *)
Lemma Z_of_byte_inj x y : Z_of_byte x = Z_of_byte y -> x = y.
Proof.
  unfold Z_of_byte. intros H%N2Z.inj. apply (f_equal Byte.of_N) in H.
  rewrite !Byte.of_to_N in H. by injection H.
Qed.

Lemma bytes_ltb_irrefl a : bytes_ltb a a = false.
Proof. induction a as [|x a IH]; [done|]. simpl. rewrite IH. lia. Qed.

Lemma bytes_ltb_trans a b c :
  bytes_ltb a b = true -> bytes_ltb b c = true -> bytes_ltb a c = true.
Proof.
  revert b c. induction a as [|x a IH]; intros [|y b] [|z c]; simpl; try done.
  rewrite !orb_true_iff, !andb_true_iff. intros [?|[? Hab]] [?|[? Hbc]]; try lia.
  right. split; [lia|]. by eapply IH.
Qed.

Lemma bytes_ltb_total a b : bytes_ltb a b = false -> bytes_ltb b a = false -> a = b.
Proof.
  revert b. induction a as [|x a IH]; intros [|y b]; simpl; try done.
  rewrite !orb_false_iff, !andb_false_iff. intros [? H1] [? H2].
  assert (Z_of_byte x = Z_of_byte y) as Hxy by lia.
  apply Z_of_byte_inj in Hxy as Heq. subst. f_equal. apply IH.
  - destruct H1; [lia | done].
  - destruct H2; [lia | done].
Qed.

Lemma bytes_ltb_asym a b : bytes_ltb a b = true -> bytes_ltb b a = false.
Proof.
  intros H. destruct (bytes_ltb b a) eqn:E; [|done].
  pose proof (bytes_ltb_trans _ _ _ H E) as Ha. by rewrite bytes_ltb_irrefl in Ha.
Qed.

#[export] Instance bytes_lt_strict : StrictOrder bytes_lt.
Proof.
  split; [intros a H | intros a b c; apply bytes_ltb_trans].
  unfold bytes_lt in H. by rewrite bytes_ltb_irrefl in H.
Qed.

Lemma bytes_le_lt_trans a b c : bytes_le a b -> bytes_lt b c -> bytes_lt a c.
Proof.
  unfold bytes_le, bytes_lt. intros H1 H2. destruct (bytes_ltb a c) eqn:E; [done|].
  destruct (bytes_ltb c a) eqn:E2.
  - by rewrite (bytes_ltb_trans _ _ _ H2 E2) in H1.
  - by rewrite (bytes_ltb_total _ _ E E2), H2 in H1.
Qed.

Lemma bytes_lt_le_trans a b c : bytes_lt a b -> bytes_le b c -> bytes_lt a c.
Proof.
  unfold bytes_le, bytes_lt. intros H1 H2. destruct (bytes_ltb a c) eqn:E; [done|].
  destruct (bytes_ltb c a) eqn:E2.
  - by rewrite (bytes_ltb_trans _ _ _ E2 H1) in H2.
  - rewrite (bytes_ltb_total _ _ E E2) in H1. congruence.
Qed.

Lemma bytes_le_antisym a b : bytes_le a b -> bytes_le b a -> a = b.
Proof. intros ? ?. by apply bytes_ltb_total. Qed.
Lemma bytes_lt_le a b : bytes_lt a b -> bytes_le a b.
Proof. apply bytes_ltb_asym. Qed.
Lemma bytes_le_refl a : bytes_le a a.
Proof. apply bytes_ltb_irrefl. Qed.

Lemma bytes_ltb_app p a b : bytes_ltb (p ++ a) (p ++ b) = bytes_ltb a b.
Proof.
  induction p as [|x p IH]; [done|]. simpl. rewrite IH, Z.ltb_irrefl, Z.eqb_refl. done.
Qed.

(** At equal lengths the order is decided before what follows. *)
Lemma bytes_ltb_app_l a b a' b' :
  length a = length b -> bytes_ltb a b = true -> bytes_ltb (a ++ a') (b ++ b') = true.
Proof.
  revert b. induction a as [|x a IH]; intros [|y b]; simpl; try done.
  intros [= Hl]. rewrite !orb_true_iff, !andb_true_iff. intros [?|[? ?]]; auto.
Qed.

Lemma bytes_ltb_prefix p k : bytes_ltb (p ++ k) p = false.
Proof. rewrite <- (app_nil_r p) at 2. rewrite bytes_ltb_app. by destruct k. Qed.

Lemma prefix_of_app s k : prefix_of s (s ++ k) = true.
Proof. induction s as [|x s IH]; [done|]. simpl. by rewrite bool_decide_true. Qed.
Lemma prefix_of_true s k : prefix_of s k = true -> exists k', k = s ++ k'.
Proof.
  revert k. induction s as [|x s IH]; intros [|y k]; simpl; try done; [by exists [] | by eexists |].
  intros [->%bool_decide_eq_true (k' & ->)%IH]%andb_true_iff. by exists k'.
Qed.

(** ** Decimal round trip *)
Lemma length_dec_digits n z : length (dec_digits n z) = n.
Proof.
  revert z. induction n as [|n IH]; intros z; [done|].
  simpl. rewrite length_app, IH. simpl. lia.
Qed.

Lemma Z_of_digit z : 0 <= z < 10 -> Z_of_byte (digit z) = ascii_0 + z.
Proof. intros. unfold digit. rewrite Z_of_byte_of_Z, Z.mod_small; unfold ascii_0; lia. Qed.

Lemma dec_digits_lt n a b :
  0 <= a < b -> b < 10 ^ Z.of_nat n -> bytes_ltb (dec_digits n a) (dec_digits n b) = true.
Proof.
  revert a b. induction n as [|n IH]; intros a b Hab Hb; [simpl in Hb; lia|].
  simpl. rewrite Nat2Z.inj_succ, Z.pow_succ_r in Hb by lia.
  destruct (Z.eq_dec (a / 10) (b / 10)) as [Heq|Hne].
  - rewrite Heq, bytes_ltb_app. simpl.
    rewrite !Z_of_digit by (apply Z.mod_pos_bound; lia).
    pose proof (Z.div_mod a 10). pose proof (Z.div_mod b 10). lia.
  - apply bytes_ltb_app_l; [by rewrite !length_dec_digits|]. apply IH.
    + assert (a / 10 <= b / 10) by (apply Z.div_le_mono; lia).
      assert (0 <= a / 10) by (apply Z.div_pos; lia). lia.
    + apply Z.div_lt_upper_bound; lia.
Qed.

Lemma digits_val_app n z acc rest :
  0 <= z < 10 ^ Z.of_nat n ->
  digits_val acc (dec_digits n z ++ rest) = digits_val (acc * 10 ^ Z.of_nat n + z) rest.
Proof.
  revert z acc rest. induction n as [|n IH]; intros z acc rest Hz.
  { simpl in *. f_equal. lia. }
  rewrite Nat2Z.inj_succ, Z.pow_succ_r in * by lia. simpl. rewrite <- app_assoc.
  rewrite IH by (split; [apply Z.div_pos | apply Z.div_lt_upper_bound]; lia).
  simpl. pose proof (Z.mod_pos_bound z 10 ltac:(lia)).
  unfold isdigit. rewrite Z_of_digit by done. unfold ascii_0.
  destruct (_ && _) eqn:E; [|lia]. f_equal. pose proof (Z.div_mod z 10). lia.
Qed.

Lemma num_digits_le fuel n z :
  (1 <= n)%nat -> 0 <= z < 10 ^ Z.of_nat n -> (num_digits fuel z <= n)%nat.
Proof.
  revert n z. induction fuel as [|fuel IH]; intros n z Hn Hz; simpl; [lia|].
  destruct (Z.ltb_spec z 10); [lia|].
  destruct n as [|[|n]]; [lia | simpl in Hz; lia |].
  apply le_n_S, IH; [lia|]. rewrite Nat2Z.inj_succ, Z.pow_succ_r in Hz by lia.
  split; [apply Z.div_pos | apply Z.div_lt_upper_bound]; lia.
Qed.

Lemma fmt_zu_16 idx : key_idx_ok idx -> fmt_zu 16 idx = dec_digits 16 idx.
Proof.
  unfold key_idx_ok. intros H. unfold fmt_zu. rewrite u64_small by lia.
  pose proof (num_digits_le 20 16 idx ltac:(lia) ltac:(lia)).
  by rewrite Nat.max_l by lia.
Qed.

Lemma isspace_digit b : isdigit b = true -> isspace b = false /\ Z_of_byte b <> 45 /\ Z_of_byte b <> 43.
Proof. unfold isdigit, isspace. lia. Qed.

Lemma strtoull_digits b l : isdigit b = true -> strtoull (b :: l) = strtoull_mag (b :: l).
Proof.
  intros H. pose proof (isspace_digit _ H) as (Hs & ? & ?). simpl. rewrite Hs.
  destruct (Z.eqb_spec (Z_of_byte b) 45); [done|].
  by destruct (Z.eqb_spec (Z_of_byte b) 43).
Qed.

Lemma dec_digits_head n z :
  0 <= z -> exists b l, dec_digits (S n) z = b :: l /\ isdigit b = true.
Proof.
  revert z. induction n as [|n IH]; intros z Hz.
  - simpl. pose proof (Z.mod_pos_bound z 10 ltac:(lia)). do 2 eexists. split; [done|].
    unfold isdigit. rewrite Z_of_digit by done. unfold ascii_0. lia.
  - destruct (IH (z / 10)) as (b & l & Heq & Hb); [apply Z.div_pos; lia|].
    change (dec_digits (S (S n)) z) with (dec_digits (S n) (z / 10) ++ [digit (z mod 10)]).
    rewrite Heq. by exists b, (l ++ [digit (z mod 10)]).
Qed.

Lemma strtoull_key idx c rest :
  key_idx_ok idx -> isdigit c = false -> strtoull (fmt_zu 16 idx ++ c :: rest) = idx.
Proof.
  intros Hok Hc. rewrite fmt_zu_16 by done. destruct Hok as [? ?].
  destruct (dec_digits_head 15 idx) as (b & l & Heq & Hb); [done|].
  assert (Hv : strtoull_mag (dec_digits 16 idx ++ c :: rest) = idx).
  { unfold strtoull_mag. rewrite digits_val_app by (simpl; lia). simpl. rewrite Hc. lia. }
  rewrite Heq in *. simpl app in *. by rewrite strtoull_digits.
Qed.

(** ** The keys of the entries *)
Lemma entry_key_lt i j s s' :
  key_idx_ok i -> key_idx_ok j -> i < j ->
  bytes_lt (RAFT_ENTRY_KEY_PREFIX_ROCKSDB ++ fmt_zu 16 i ++ s)
           (RAFT_ENTRY_KEY_PREFIX_ROCKSDB ++ fmt_zu 16 j ++ s').
Proof.
  intros Hi Hj Hij. unfold bytes_lt. rewrite bytes_ltb_app, !fmt_zu_16 by done.
  apply bytes_ltb_app_l; [by rewrite !length_dec_digits|].
  destruct Hi, Hj. apply dec_digits_lt; simpl; lia.
Qed.

(** The value of an entry precedes its header, and both precede the next entry's. *)
Lemma entry_key_header_lt i :
  bytes_lt (RAFT_ENTRY_KEY_PRINTF i) (RAFT_ENTRY_HEADER_KEY_PRINTF i).
Proof.
  unfold bytes_lt, RAFT_ENTRY_KEY_PRINTF, RAFT_ENTRY_HEADER_KEY_PRINTF.
  by rewrite !bytes_ltb_app.
Qed.

(** Entry keys lie between the metadata keys and the end marker. *)
Lemma entry_key_before_last k rest :
  bytes_lt (RAFT_ENTRY_KEY_PREFIX_ROCKSDB ++ k) (RAFT_LOG_LASTENTRY_ROCKSDB ++ rest).
Proof. reflexivity. Qed.
Lemma entry_key_after_hdr k rest :
  bytes_lt (RAFT_LOG_HEADER_ROCKSDB_END ++ rest) (RAFT_ENTRY_KEY_PREFIX_ROCKSDB ++ k).
Proof. reflexivity. Qed.
