(* ===== verification/RocksBackend.v ===== *)
(** The RocksDB storage backend ([src/raft_server_backend_rocksdb.c]): the
    interface to the RocksDB library, the backend's handle, and the operations of
    the table [ribRocksDB] that read and write the log; checkpoints, recovery and
    set-up are in [RocksRecovery]. *)
From stdpp Require Import base tactics list gmap.
From Stdlib Require Import ZArith Lia Strings.Byte.
From S2P Require Import Prelude RaftTypes World Entry PosixBackend RocksKeys.
Local Open Scope Z_scope.
Local Open Scope raft_scope.

Definition ENXIO : Z := 6.
Definition EBADF : Z := 9.
Definition ENOTDIR : Z := 20.
Definition EBADE : Z := 52.
Definition ENOKEY : Z := 126.

(** ** The RocksDB library

    The items of a write batch; a handle names a column family other than the
    default one. *)
Inductive wb_op :=
| rocksdb_writebatch_put (key val : bytes)
| rocksdb_writebatch_put_cf (cf : Z) (key val : bytes)
| rocksdb_writebatch_delete (key : bytes)
| rocksdb_writebatch_delete_cf (cf : Z) (key : bytes)
| rocksdb_writebatch_delete_range (start_key end_key : bytes).

(** A database of type [D].  An iterator is the key it rests on, [None] when it is
    not valid; a failing call of rocksdb_write() gives [None]. *)
Class RocksDB (D : Type) := {
  rocksdb_get : D -> bytes -> option bytes;
  rocksdb_get_cf : D -> Z -> bytes -> option bytes;
  rocksdb_write : bool -> list wb_op -> D -> option D;
  rocksdb_keys : D -> list bytes;
  rocksdb_create_iterator : D -> bool; (* an iterator that is not yet valid *)
  rocksdb_iter_seek : D -> bytes -> option bytes;
  rocksdb_iter_next : D -> bytes -> option bytes;
  rocksdb_iter_prev : D -> bytes -> option bytes;
  rocksdb_iter_get_error : D -> bool;
  rocksdb_compact_range : bytes -> bytes -> D -> D;
  rocksdb_delete_file_in_range : bytes -> bytes -> D -> D;
  rocksdb_open : bool -> option D -> option D;
  rocksdb_open_column_families : bool -> list bytes -> option D -> option (D * list Z);
  rocksdb_checkpoint_object_create : D -> bool;
  rocksdb_checkpoint_create : D -> option D;
}.

(** The default column family after one item, and after a batch. *)
Definition wb_apply (f : bytes -> option bytes) (op : wb_op) (k : bytes) : option bytes :=
  match op with
  | rocksdb_writebatch_put key val => if bool_decide (k = key) then Some val else f k
  | rocksdb_writebatch_delete key => if bool_decide (k = key) then None else f k
  | rocksdb_writebatch_delete_range a b =>
      if negb (bytes_ltb k a) && bytes_ltb k b then None else f k
  | _ => f k
  end.
Definition wb_run (ops : list wb_op) (f : bytes -> option bytes) : bytes -> option bytes :=
  foldl wb_apply f ops.

(** [r] is the first key of [l] that satisfies [P], or no key does. *)
Definition first_key (P : bytes -> Prop) (l : list bytes) (r : option bytes) : Prop :=
  match r with
  | Some k => k ∈ l /\ P k /\ forall k', k' ∈ l -> P k' -> bytes_le k k'
  | None => forall k', k' ∈ l -> ~ P k'
  end.
Definition last_key (P : bytes -> Prop) (l : list bytes) (r : option bytes) : Prop :=
  match r with
  | Some k => k ∈ l /\ P k /\ forall k', k' ∈ l -> P k' -> bytes_le k' k
  | None => forall k', k' ∈ l -> ~ P k'
  end.

(** What the backend relies on: a write is atomic and visible to later reads,
    iteration is in key order, compaction changes no content, and deleting files
    in a range removes nothing outside of the range. *)
Class RocksDBOk (D : Type) `{RocksDB D} : Prop := {
  rocksdb_write_get sync ops d d' k :
    rocksdb_write sync ops d = Some d' ->
    rocksdb_get d' k = wb_run ops (rocksdb_get d) k;
  rocksdb_keys_spec d k : k ∈ rocksdb_keys d <-> is_Some (rocksdb_get d k);
  rocksdb_iter_seek_spec d k :
    first_key (bytes_le k) (rocksdb_keys d) (rocksdb_iter_seek d k);
  rocksdb_iter_next_spec d k :
    first_key (bytes_lt k) (rocksdb_keys d) (rocksdb_iter_next d k);
  rocksdb_iter_prev_spec d k :
    last_key (fun k' => bytes_lt k' k) (rocksdb_keys d) (rocksdb_iter_prev d k);
  rocksdb_compact_get a b d k : rocksdb_get (rocksdb_compact_range a b d) k = rocksdb_get d k;
  rocksdb_delete_file_get a b d k :
    rocksdb_get (rocksdb_delete_file_in_range a b d) k = rocksdb_get d k \/
    (rocksdb_get (rocksdb_delete_file_in_range a b d) k = None
     /\ bytes_le a k /\ bytes_le k b);
  rocksdb_checkpoint_get d d' k :
    rocksdb_checkpoint_create d = Some d' -> rocksdb_get d' k = rocksdb_get d k;
  rocksdb_open_get create d d' k :
    rocksdb_open create (Some d) = Some d' -> rocksdb_get d' k = rocksdb_get d k;
  rocksdb_open_cf_get create names d d' hs k :
    rocksdb_open_column_families create names (Some d) = Some (d', hs) ->
    rocksdb_get d' k = rocksdb_get d k;
  rocksdb_open_new create d' k :
    rocksdb_open create None = Some d' -> create = true /\ rocksdb_get d' k = None;
  rocksdb_open_cf_new create names d' hs k :
    rocksdb_open_column_families create names None = Some (d', hs) ->
    create = true /\ rocksdb_get d' k = None;
}.

(** Helpers of niova-core and libuuid. *)
Class NiovaUtil := {
  (* the return code and the value *)
  niova_string_to_unsigned_long_long : bytes -> Z * Z;
  (* the value, or no number *)
  niova_parse_comma_delimited_uint_string : bytes -> Z * Z;
  (* the position of the last such character, or a negative number *)
  niova_string_find_last_instance_of_char : bytes -> byte -> Z;
  uuid_unparse : uuid -> bytes;
  uuid_parse : bytes -> option uuid;
}.

(** A number is read up to its first non-digit; a uuid prints as 36 characters,
    the first of them a hexadecimal digit, and parses back. *)
Definition isxdigit (b : byte) : bool :=
  isdigit b || ((65 <=? Z_of_byte b) && (Z_of_byte b <=? 70))
  || ((97 <=? Z_of_byte b) && (Z_of_byte b <=? 102)).
Class NiovaUtilOk `{NiovaUtil} : Prop := {
  string_to_ull_digits n z c rest :
    0 <= z < 10 ^ Z.of_nat n -> (0 < n <= 19)%nat -> isdigit c = false ->
    niova_string_to_unsigned_long_long (dec_digits n z ++ c :: rest) = (0, z);
  uuid_unparse_length u : length (uuid_unparse u) = 36%nat;
  uuid_parse_unparse u : 0 <= u < 2 ^ 128 -> uuid_parse (uuid_unparse u) = Some u;
  uuid_parse_head c l u : uuid_parse (c :: l) = Some u -> isxdigit c = true;
}.

(** ** The handle *)
Record raft_server_rocksdb_cf_table := {
  rsrcfe_cf_names : list bytes;
  rsrcfe_cf_handles : list Z; (* 0: NULL *)
}.

(** [rir_options] is the create_if_missing option once the options exist; the
    booleans tell whether the pointer is set.  The write batch is empty between
    operations: each of them clears it, fills it, writes it and clears it. *)
Record raft_instance_rocks_db (D : Type) := {
  rir_log_fd : Z;
  rir_db : option D;
  rir_options : option bool;
  rir_writeoptions_sync : bool;
  rir_writeoptions_async : bool;
  rir_readoptions : bool;
  rir_writebatch : bool;
  rir_cf_table : option raft_server_rocksdb_cf_table;
}.
Arguments rir_log_fd {D}.
Arguments rir_db {D}.
Arguments rir_options {D}.
Arguments rir_writeoptions_sync {D}.
Arguments rir_writeoptions_async {D}.
Arguments rir_readoptions {D}.
Arguments rir_writebatch {D}.
Arguments rir_cf_table {D}.
#[export] Instance eta_rir D : Eta (raft_instance_rocks_db D) := fun r =>
  {| rir_log_fd := rir_log_fd r; rir_db := rir_db r; rir_options := rir_options r;
     rir_writeoptions_sync := rir_writeoptions_sync r;
     rir_writeoptions_async := rir_writeoptions_async r;
     rir_readoptions := rir_readoptions r; rir_writebatch := rir_writebatch r;
     rir_cf_table := rir_cf_table r |}.

(** A directory, a plain file or the directory of a database, by path name. *)
Inductive fs_node (D : Type) := FsDir | FsFile | FsDb (d : D).
Arguments FsDir {D}.
Arguments FsFile {D}.
Arguments FsDb {D}.

(** The backend's state: ri->ri_backend_arg, the file system and the number of
    open directory descriptors.  The content of an open database is in the handle
    and goes back to its directory [rs_db_path] on close. *)
Record rocks_state (D : Type) := {
  ri_backend_arg : option (raft_instance_rocks_db D);
  rs_fs : gmap bytes (fs_node D);
  rs_db_path : bytes;
  rs_open_fds : Z;
}.
Arguments ri_backend_arg {D}.
Arguments rs_fs {D}.
Arguments rs_db_path {D}.
Arguments rs_open_fds {D}.
#[export] Instance eta_rocks_state D : Eta (rocks_state D) := fun r =>
  {| ri_backend_arg := ri_backend_arg r; rs_fs := rs_fs r; rs_db_path := rs_db_path r;
     rs_open_fds := rs_open_fds r |}.

Section rocks.
Context `{NC : NiovaCore} {D : Type} `{RD : RocksDB D} `{NU : NiovaUtil}.

Definition rsbr_ri_to_rirdb (ri : raft_instance) (st : rocks_state D) :
  option (raft_instance_rocks_db D) :=
  rir ← ri_backend_arg st;
  if bool_decide (ri_proc_state ri = RAFT_PROC_STATE_RUNNING)
     && negb (rir_writeoptions_sync rir && rir_writeoptions_async rir
              && rir_writebatch rir && rir_readoptions rir)
  then None else Some rir.

Definition rsbr_ri_to_rocksdb (ri : raft_instance) (st : rocks_state D) : option D :=
  rir ← rsbr_ri_to_rirdb ri st; rir_db rir.

(** rocksdb_write() with the synchronous or the asynchronous options; an error
    is fatal to every caller. *)
Definition rir_write (sync : bool) (ops : list wb_op) (rir : raft_instance_rocks_db D) :
  option (raft_instance_rocks_db D) :=
  if rir_writebatch rir
     && (if sync then rir_writeoptions_sync rir else rir_writeoptions_async rir)
  then
    d ← rir_db rir;
    d' ← rocksdb_write sync ops d;
    Some (rir <| rir_db := Some d' |>)
  else None.

Definition rs_write (sync : bool) (ops : list wb_op) (ri : raft_instance)
    (st : rocks_state D) : option (rocks_state D) :=
  rir ← rsbr_ri_to_rirdb ri st;
  rir' ← rir_write sync ops rir;
  Some (st <| ri_backend_arg := Some rir' |>).

(** ** Iterators *)
Definition rsbr_create_iterator (rir : raft_instance_rocks_db D) : option D :=
  if rir_readoptions rir
  then d ← rir_db rir; if rocksdb_create_iterator d then Some d else None
  else None.

Definition rsbr_iter_check_error (d : D) (iter : option bytes) (expect_valid : bool) : Z :=
  if rocksdb_iter_get_error d then - EIO
  else if Bool.eqb (bool_decide (is_Some iter)) expect_valid then 0
  else if expect_valid then - ENOENT else - EEXIST.

Definition rsbr_iter_seek (d : D) (seek_str : bytes) (expect_valid : bool) :
  Z * option bytes :=
  if slen seek_str =? 0 then (- EINVAL, None)
  else
    let iter := rocksdb_iter_seek d seek_str in
    (rsbr_iter_check_error d iter expect_valid, iter).

Definition rsbr_iter_next_or_prev (d : D) (iter : bytes) (expect_valid next_or_prev : bool) :
  Z * option bytes :=
  let iter' := if next_or_prev then rocksdb_iter_next d iter else rocksdb_iter_prev d iter in
  (rsbr_iter_check_error d iter' expect_valid, iter').

Definition rsbr_string_matches_iter_key (s iter_key : bytes) (exact_len : bool) : bool :=
  if (exact_len && negb (slen s =? slen iter_key)) || negb (prefix_of s iter_key)
  then false else true.

(** ** Encodings *)
Definition sizeof_raft_last_applied : Z := 32.
Definition rla_bytes (la : raft_last_applied) : bytes :=
  le_bytes 8 (rla_idx la) ++ le_bytes 4 (rla_sub_idx la) ++ le_bytes 4 (rla_sub_idx_max la)
  ++ le_bytes 8 (rla_synced_idx la) ++ le_bytes 4 (rla_cumulative_crc la)
  ++ le_bytes 4 (rla_kv_cumulative_crc la).
Definition rla_of_bytes (l : bytes) : raft_last_applied :=
  let fld off w := le_val (take w (drop off l)) in
  {| rla_idx := s64 (fld 0%nat 8%nat); rla_sub_idx := fld 8%nat 4%nat;
     rla_sub_idx_max := fld 12%nat 4%nat; rla_synced_idx := s64 (fld 16%nat 8%nat);
     rla_cumulative_crc := fld 24%nat 4%nat; rla_kv_cumulative_crc := fld 28%nat 4%nat |}.
Definition uuid_bytes (u : uuid) : bytes := le_bytes 16 u.
Definition timespec_bytes (t : timespec) : bytes :=
  le_bytes 8 (t / 10 ^ 9) ++ le_bytes 8 (t mod 10 ^ 9).

(** What memcpy() leaves in a buffer. *)
Definition memcpy (dst src : bytes) : bytes := src ++ drop (length src) dst.

(** ** Writing *)
Definition supp_op (supp : raft_net_wr_supp) : wb_op :=
  match rnws_op supp with
  | RAFT_NET_WR_SUPP_OP_DELETE =>
      if negb (rnws_handle supp =? 0)
      then rocksdb_writebatch_delete_cf (rnws_handle supp) (rnws_key supp)
      else rocksdb_writebatch_delete (rnws_key supp)
  | RAFT_NET_WR_SUPP_OP_WRITE =>
      if negb (rnws_handle supp =? 0)
      then rocksdb_writebatch_put_cf (rnws_handle supp) (rnws_key supp) (rnws_value supp)
      else rocksdb_writebatch_put (rnws_key supp) (rnws_value supp)
  end.
Definition rsbr_write_supplements_put (ws : option raft_net_sm_write_supplements)
    (wb : list wb_op) : list wb_op :=
  match ws with
  | None => wb
  | Some ws => wb ++ map supp_op (rnsws_ws ws)
  end.

Definition rsb_sm_apply_add_last_applied_kv (rla : raft_last_applied) (wb : list wb_op) :
  list wb_op :=
  wb ++ [rocksdb_writebatch_put RAFT_LOG_HEADER_LAST_APPLIED_ROCKSDB (rla_bytes rla)].

Definition rsbr_sm_apply_opt (ri : raft_instance) (ws : option raft_net_sm_write_supplements)
    (st : rocks_state D) : option (rocks_state D) :=
  let wb := rsb_sm_apply_add_last_applied_kv (ri_last_applied ri) [] in
  let wb := rsbr_write_supplements_put ws wb in
  rs_write false wb ri st.

Definition rsbr_entry_header_write_recovery_scrub (ri : raft_instance)
    (reh : raft_entry_header) (st : rocks_state D) : option (rocks_state D) :=
  if raft_instance_is_recovering ri
  then rs_write false
         [rocksdb_writebatch_put (RAFT_ENTRY_HEADER_KEY_PRINTF (reh_index reh)) (reh_bytes reh)]
         ri st
  else None.

Definition rsbr_entry_write (ri : raft_instance) (re : raft_entry)
    (ws : option raft_net_sm_write_supplements) (st : rocks_state D) :
    option (rocks_state D) :=
  let reh := re_header re in
  if reh_index reh <? 0 then None
  else
    let entry_idx := reh_index reh in
    let wb := [rocksdb_writebatch_put (RAFT_ENTRY_HEADER_KEY_PRINTF entry_idx) (reh_bytes reh)] in
    let entry_val := if negb (reh_data_size reh =? 0)
                     then take (Z.to_nat (reh_data_size reh)) (re_data re) else [x00] in
    let wb := wb ++ [rocksdb_writebatch_put (RAFT_ENTRY_KEY_PRINTF entry_idx) entry_val] in
    let wb := rsbr_write_supplements_put ws wb in
    rs_write (raft_server_does_synchronous_writes ri) wb ri st.

(** ** Reading *)
(** The return code, the bytes copied to the buffer and the size of the value. *)
Definition rsbr_get (rir : raft_instance_rocks_db D) (key : bytes) (max_value_len : Z) :
  option (Z * bytes * Z) :=
  if (slen key =? 0) || (max_value_len =? 0) then Some (- EINVAL, [], 0)
  else
    d ← rir_db rir;
    Some (match rocksdb_get d key with
          | None => (- ENOENT, [], 0)
          | Some v => (0, take (Z.to_nat max_value_len) v, slen v)
          end).

Definition rsbr_get_exact_val_size (rir : raft_instance_rocks_db D) (key : bytes)
    (expected_value_len : Z) : option (Z * bytes) :=
  if (slen key =? 0) || (expected_value_len =? 0) then Some (- EINVAL, [])
  else
    r ← rsbr_get rir key expected_value_len;
    let '(rc, value, ret_value_len) := r in
    Some (if negb (rc =? 0) then (rc, value)
          else if negb (ret_value_len =? expected_value_len)
          then (if expected_value_len <? ret_value_len then - ENOSPC else - EMSGSIZE, value)
          else (0, value)).

(** The caller's buffer holds the wanted index. *)
Definition rsbr_entry_header_read (ri : raft_instance) (idx : raft_entry_idx_t)
    (st : rocks_state D) : option (Z * raft_entry_header) :=
  let reh := zero_reh <| reh_index := idx |> in
  if idx <? 0 then Some (- EINVAL, reh)
  else
    rir ← rsbr_ri_to_rirdb ri st;
    r ← rsbr_get_exact_val_size rir (RAFT_ENTRY_HEADER_KEY_PRINTF idx)
          sizeof_raft_entry_header;
    Some (r.1, reh_of_bytes (memcpy (reh_bytes reh) r.2)).

Definition rsbr_entry_read (ri : raft_instance) (idx : raft_entry_idx_t) (_ : Z)
    (st : rocks_state D) : option (Z * raft_entry) :=
  r ← rsbr_entry_header_read ri idx st;
  let '(rc, reh) := r in
  if negb (rc =? 0) then Some (rc, {| re_header := reh; re_data := [] |})
  else
    rir ← rsbr_ri_to_rirdb ri st;
    v ← rsbr_get_exact_val_size rir (RAFT_ENTRY_KEY_PRINTF (reh_index reh))
          (reh_data_size reh);
    Some (if v.1 <? 0 then v.1 else u64 (reh_data_size reh + sizeof_raft_entry_header),
          {| re_header := reh; re_data := v.2 |}).

(** ** The log header *)
Definition rsbr_header_load (ri : raft_instance) (st : rocks_state D) :
  option (Z * raft_log_header) :=
  rir ← rsbr_ri_to_rirdb ri st;
  r ← rsbr_get_exact_val_size rir
        (RAFT_LOG_HEADER_FMT (ri_raft_uuid_str ri) (ri_this_peer_uuid_str ri))
        sizeof_raft_log_header;
  let hdr := rlh_of_bytes (memcpy (rlh_bytes (ri_log_hdr ri)) r.2) in
  Some (if (r.1 =? 0) && negb (rlh_magic hdr =? RAFT_HEADER_MAGIC) then - EBADMSG else r.1, hdr).

Definition rsbr_header_write (ri : raft_instance) (st : rocks_state D) :
  option (Z * rocks_state D) :=
  st' ← rs_write true
          [rocksdb_writebatch_put
             (RAFT_LOG_HEADER_FMT (ri_raft_uuid_str ri) (ri_this_peer_uuid_str ri))
             (rlh_bytes (ri_log_hdr ri))] ri st;
  Some (0, st').

(** [instance_uuid]: what uuid_generate() returns. *)
Definition rsbr_init_header (instance_uuid : uuid) (ri : raft_instance)
    (st : rocks_state D) : option (Z * raft_instance * rocks_state D) :=
  let recovering := raft_instance_is_recovering ri in
  if recovering && negb (rlh_magic (ri_log_hdr ri) =? RAFT_HEADER_MAGIC) then None
  else
    let ri := if recovering then ri
              else ri <| ri_log_hdr := zero_rlh <| rlh_magic := RAFT_HEADER_MAGIC |> |> in
    let last_key := RAFT_LOG_LASTENTRY_FMT (ri_raft_uuid_str ri) (ri_this_peer_uuid_str ri) in
    let wb := [rocksdb_writebatch_put last_key (rlh_bytes (ri_log_hdr ri));
               rocksdb_writebatch_put RAFT_LOG_HEADER_UUID (uuid_bytes instance_uuid)] in
    let rrh := ri_recovery_handle ri in
    let wb := if recovering && negb (rrh_peer_db_uuid rrh =? ri_db_recovery_uuid ri)
              then wb ++ [rocksdb_writebatch_put RAFT_LOG_HEADER_UUID_PRE_RECOVERY
                            (uuid_bytes (rrh_peer_db_uuid rrh))]
              else wb in
    st ← rs_write true wb ri st;
    r ← rsbr_header_write ri st;
    Some (r.1, ri, r.2).

(** ** The extent of the log *)
(** Moving forward to the first entry key: the return code and the index. *)
Fixpoint lowest_entry_loop (fuel : nat) (d : D) (iter : bytes) : option (Z * raft_entry_idx_t) :=
  match fuel with
  | O => None
  | S fuel' =>
      let '(rc, iter') := rsbr_iter_next_or_prev d iter true true in
      match iter' with
      | Some key =>
          if negb (rc =? 0) then Some (rc, -1)
          else if rsbr_string_matches_iter_key RAFT_LOG_LASTENTRY_ROCKSDB key false
          then Some (rc, -1)
          else if rsbr_string_matches_iter_key RAFT_ENTRY_KEY_PREFIX_ROCKSDB key false
          then
            let '(rc, val) := niova_string_to_unsigned_long_long
                                (drop (length RAFT_ENTRY_KEY_PREFIX_ROCKSDB) key) in
            if rc =? 0 then Some (0, s64 val) else None
          else lowest_entry_loop fuel' d key
      | None => Some (rc, -1)
      end
  end.

Definition rsbr_lowest_entry_get (ri : raft_instance) (st : rocks_state D) :
  option (Z * raft_entry_idx_t) :=
  rir ← rsbr_ri_to_rirdb ri st;
  match rsbr_create_iterator rir with
  | None => Some (- ENOMEM, -1)
  | Some d =>
      let '(rc, iter) := rsbr_iter_seek d RAFT_LOG_HEADER_ROCKSDB_END true in
      match iter with
      | Some key =>
          if negb (rc =? 0) then Some (rc, -1)
          else lowest_entry_loop (S (length (rocksdb_keys d))) d key
      | None => Some (rc, -1)
      end
  end.

Definition rsbr_num_entries_calc (ri : raft_instance) (st : rocks_state D) : option Z :=
  rir ← rsbr_ri_to_rirdb ri st;
  match rsbr_create_iterator rir with
  | None => Some (- ENOMEM)
  | Some d =>
      let '(rc, iter) := rsbr_iter_seek d RAFT_LOG_LASTENTRY_ROCKSDB true in
      match iter with
      | None => Some rc
      | Some key =>
          if negb (rc =? 0) then Some rc
          else
            let '(rc, iter) := rsbr_iter_next_or_prev d key true false in
            match iter with
            | None => Some rc
            | Some iter_key =>
                if negb (rc =? 0) then Some rc
                else if rsbr_string_matches_iter_key RAFT_LOG_HEADER_ROCKSDB_END iter_key false
                then Some 0
                else if negb (rsbr_string_matches_iter_key RAFT_ENTRY_KEY_PREFIX_ROCKSDB
                                iter_key false)
                then Some (- ENOKEY)
                else if slen iter_key <=? slen RAFT_ENTRY_KEY_PREFIX_ROCKSDB
                then Some (- EBADMSG)
                else
                  let last_entry_idx :=
                    s64 (strtoull (drop (length RAFT_ENTRY_KEY_PREFIX_ROCKSDB) iter_key)) in
                  Some (if 0 <=? last_entry_idx then last_entry_idx + 1 else last_entry_idx)
            end
      end
  end.

(** ** Removing entries *)
Definition rsbr_log_truncate (ri : raft_instance) (entry_idx : raft_entry_idx_t)
    (st : rocks_state D) : option (rocks_state D) :=
  rs_write true
    [rocksdb_writebatch_delete_range (RAFT_ENTRY_KEY_PRINTF entry_idx)
       RAFT_LOG_LASTENTRY_ROCKSDB] ri st.

(** The batch is the checkpoint thread's own. *)
Definition rsbr_log_reap (ri : raft_instance) (entry_idx : raft_entry_idx_t)
    (st : rocks_state D) : option (rocks_state D) :=
  rir ← rsbr_ri_to_rirdb ri st;
  if (entry_idx <? 0) || negb (rir_writeoptions_sync rir) then None
  else
    let start_entry_key := RAFT_ENTRY_KEY_PRINTF 0 in
    let end_entry_key := RAFT_ENTRY_KEY_PRINTF entry_idx in
    d ← rir_db rir;
    d ← rocksdb_write true [rocksdb_writebatch_delete_range start_entry_key end_entry_key] d;
    let d := rocksdb_compact_range start_entry_key end_entry_key d in
    let d := rocksdb_delete_file_in_range start_entry_key end_entry_key d in
    Some (st <| ri_backend_arg := Some (rir <| rir_db := Some d |>) |>).

(** [now]: niova_realtime_coarse_clock(). *)
Definition rsbr_sync (now : timespec) (ri : raft_instance) (st : rocks_state D) :
  option (Z * rocks_state D) :=
  rir ← rsbr_ri_to_rirdb ri st;
  if negb (rir_writeoptions_sync rir) then None
  else
    d ← rir_db rir;
    d ← rocksdb_write true
          [rocksdb_writebatch_put RAFT_LOG_HEADER_ROCKSDB_LAST_SYNC (timespec_bytes now)] d;
    Some (0, st <| ri_backend_arg := Some (rir <| rir_db := Some d |>) |>).

(** ** The metadata of an opened database *)
Definition rsb_sm_get_last_applied_kv_idx (ri : raft_instance) (st : rocks_state D) :
  option raft_instance :=
  rir ← rsbr_ri_to_rirdb ri st;
  r ← rsbr_get_exact_val_size rir RAFT_LOG_HEADER_LAST_APPLIED_ROCKSDB
        sizeof_raft_last_applied;
  if negb (r.1 =? 0) then Some ri
  else
    (* raft_server_backend_setup_last_applied() *)
    if raft_instance_is_booting ri || raft_instance_is_recovering ri
    then Some (ri <| ri_last_applied := rla_of_bytes r.2 |>) else None.

Definition rsb_sm_get_instance_uuid (ri : raft_instance) (st : rocks_state D) :
  option raft_instance :=
  rir ← rsbr_ri_to_rirdb ri st;
  r ← rsbr_get_exact_val_size rir RAFT_LOG_HEADER_UUID 16;
  if negb (r.1 =? 0) then None
  else
    let ri := ri <| ri_db_uuid := le_val r.2 |> in
    r ← rsbr_get_exact_val_size rir RAFT_LOG_HEADER_UUID_PRE_RECOVERY 16;
    Some (if r.1 =? 0 then ri <| ri_db_recovery_uuid := le_val r.2 |> else ri).
End rocks.
