(* ===== verification/RocksRecovery.v ===== *)
(** Checkpoints of the RocksDB backend and the detection of an interrupted
    recovery ([src/raft_server_backend_rocksdb.c]): path names, the file system
    calls, the trash directory, the checkpoint directories and their scan, taking
    a checkpoint, and the recovery marker. *)
From Stdlib Require Import Strings.String.
From stdpp Require Import base tactics list gmap sorting.
From Stdlib Require Import ZArith Lia Strings.Byte.
From S2P Require Import Prelude RaftTypes World Entry Server PosixBackend RocksKeys RocksBackend.
Local Open Scope Z_scope.
Local Open Scope raft_scope.

Definition ENOTEMPTY : Z := 39.
Definition UUID_STR_LEN : Z := 37.

Inductive recovery_regexes :=
| RECOVERY_MARKER_NAME__regex | RECOVERY_RSYNC_TOTAL_SIZE__regex
| RECOVERY_RSYNC_TOTAL_XFER_SIZE__regex | RECOVERY_RSYNC_PROGRESS_LINE__regex
| RECOVERY_RSYNC_PROGRESS_LINE_RATE__regex | RECOVERY_CHKPT_DIRNAME__regex.

#[export] Instance recovery_regexes_eq : EqDecision recovery_regexes.
Proof. solve_decision. Defined.

(** What the code finds outside: the regular expressions (whose texts use
    definitions of niova-core), other processes, the peers' configuration, the
    uuids drawn, and failures of system calls (a return code other than 0). *)
Class RecoveryEnv (D : Type) := {
  recovery_regexec : recovery_regexes -> bytes -> bool;
  recovery_rate_match : bytes -> option (Z * Z); (* rm_so, rm_eo *)
  popen_cmd_out : bytes -> nat ->
    (bytes -> raft_recovery_handle -> Z * raft_recovery_handle) ->
    raft_recovery_handle -> gmap bytes (fs_node D) ->
    Z * raft_recovery_handle * gmap bytes (fs_node D);
  limit_rsync_bw : bool; (* FAULT_INJECT(raft_limit_rsync_bw) *)
  ctl_svc_node_lookup : uuid -> Z;
  ctl_svc_node_peer_2_store : uuid -> option bytes;
  ctl_svc_node_peer_2_ipaddr : uuid -> bytes;
  statvfs_rc : bytes -> Z;
  statvfs_rdonly : bytes -> bool;
  statvfs_f_bsize : bytes -> Z;
  statvfs_f_bavail : bytes -> Z;
  uuid_generate : gmap bytes (fs_node D) -> uuid;
  uuid_generate_time : gmap bytes (fs_node D) -> uuid;
  file_util_pathname_build : bytes -> gmap bytes (fs_node D) -> Z * gmap bytes (fs_node D);
  fs_rename_rc : bytes -> bytes -> Z;
  fs_mkdir_rc : bytes -> Z;
  fs_scandir_rc : bytes -> Z;
  fs_unremovable : bytes -> bool;
  close_rc : Z -> Z;
  rocksdb_alloc : nat -> bool; (* the options and the write batch, in the order of their creation *)
}.

(** ** Path names *)
Definition slash : byte := x2f.
Fixpoint norm_path (p : bytes) : bytes :=
  match p with
  | a :: (b :: _) as p' =>
      if bool_decide (a = slash) && bool_decide (b = slash) then norm_path p'
      else a :: norm_path p'
  | _ => p
  end.
Definition path_join (dir name : bytes) : bytes := dir ++ [slash] ++ name.
Definition is_absolute (p : bytes) : bool :=
  match p with a :: _ => bool_decide (a = slash) | [] => false end.
(** The path an *at() call resolves relative to the log directory. *)
Definition at_path (ri : raft_instance) (p : bytes) : bytes :=
  if is_absolute p then p else path_join (ri_log ri) p.
(** A C string in a buffer of [n] bytes, up to the first NUL. *)
Fixpoint cstr (l : bytes) : bytes :=
  match l with
  | [] => []
  | b :: l' => if bool_decide (b = x00) then [] else b :: cstr l'
  end.

(** ribSubDirs[] *)
Inductive raft_instance_rocks_db_subdirs :=
| RIR_SUBDIR_DB | RIR_SUBDIR_CHKPT_ROOT | RIR_SUBDIR_CHKPT_SELF
| RIR_SUBDIR_CHKPT_PEERS | RIR_SUBDIR_TRASH.
Definition ribSubDirs (d : raft_instance_rocks_db_subdirs) : bytes :=
  match d with
  | RIR_SUBDIR_DB => str "db"
  | RIR_SUBDIR_CHKPT_ROOT => str "chkpt"
  | RIR_SUBDIR_CHKPT_SELF => str "chkpt/self"
  | RIR_SUBDIR_CHKPT_PEERS => str "chkpt/peers"
  | RIR_SUBDIR_TRASH => str "trash"
  end.
Definition all_subdirs : list raft_instance_rocks_db_subdirs :=
  [RIR_SUBDIR_DB; RIR_SUBDIR_CHKPT_ROOT; RIR_SUBDIR_CHKPT_SELF;
   RIR_SUBDIR_CHKPT_PEERS; RIR_SUBDIR_TRASH].

Definition RECOVERY_MARKER_NAME : bytes := str "inprogress-recovery-db".
Definition RECOVERY_MARKER_NAME_LEN : Z := 22.

(** ** The file system calls *)
Section fs.
Context {D : Type}.
Implicit Types fs : gmap bytes (fs_node D).

Definition fs_stat fs (p : bytes) : option (fs_node D) := fs !! norm_path p.
Definition is_dir (n : option (fs_node D)) : bool :=
  match n with Some FsDir | Some (FsDb _) => true | _ => false end.

(** The directory part of a path and what follows its last '/'. *)
Fixpoint path_split (p : bytes) : bytes * bytes :=
  match p with
  | [] => ([], [])
  | a :: p' =>
      let '(d, n) := path_split p' in
      if bool_decide (a = slash) && negb (existsb (fun b => bool_decide (b = slash)) p')
      then ([], n)
      else if existsb (fun b => bool_decide (b = slash)) p' then (a :: d, n)
      else (d, a :: n)
  end.
Definition fs_children fs (dir : bytes) : list (bytes * fs_node D) :=
  omap (fun '(p, n) =>
    if bool_decide ((path_split p).1 = norm_path dir)
       && existsb (fun b => bool_decide (b = slash)) p
    then Some ((path_split p).2, n) else None) (map_to_list fs).
Definition fs_parent_ok fs (p : bytes) : bool :=
  is_dir (fs !! (path_split (norm_path p)).1).

Definition fs_mkdir fs (p : bytes) : Z * gmap bytes (fs_node D) :=
  match fs_stat fs p with
  | Some _ => (- EEXIST, fs)
  | None => if fs_parent_ok fs p then (0, <[norm_path p := FsDir]> fs) else (- ENOENT, fs)
  end.

(** The nodes the backend renames have no nodes below them: the directories of
    databases, and an empty "db". *)
Definition fs_rename fs (src dst : bytes) : Z * gmap bytes (fs_node D) :=
  match fs_stat fs src with
  | None => (- ENOENT, fs)
  | Some n =>
      if negb (fs_parent_ok fs dst) then (- ENOENT, fs)
      else
        let moved := <[norm_path dst := n]> (delete (norm_path src) fs) in
        match fs_stat fs dst, n with
        | None, _ => (0, moved)
        | Some FsFile, FsFile => (0, moved)
        | Some FsFile, _ => (- ENOTDIR, fs)
        | Some FsDir, FsFile => (- EEXIST, fs)
        | Some FsDir, _ =>
            if bool_decide (fs_children fs dst = []) then (0, moved) else (- ENOTEMPTY, fs)
        | Some (FsDb _), _ => (- ENOTEMPTY, fs)
        end
  end.

(** nftw() over [dir] with rsbr_remove_trash_cb(): every node below is removed,
    but for those that cannot be. *)
Definition fs_remove_below (keep : bytes -> bool) fs (dir : bytes) : gmap bytes (fs_node D) :=
  filter (fun '(p, _) => negb (prefix_of (norm_path (path_join dir [])) p) || keep p) fs.

#[export] Instance dirent_le_dec :
  RelDecision (fun a b : bytes * fs_node D => bytes_le a.1 b.1).
Proof. intros a b. unfold bytes_le. apply _. Defined.
End fs.

(** ** The state of an operation *)
Record rworld (D : Type) := RWorld { rw_ri : raft_instance; rw_st : rocks_state D }.
Arguments RWorld {D}.
Arguments rw_ri {D}.
Arguments rw_st {D}.
#[export] Instance eta_rworld D : Eta (rworld D) := fun w => RWorld (rw_ri w) (rw_st w).

Section recovery.
Context `{NC : NiovaCore} {D : Type} `{RD : RocksDB D} `{NU : NiovaUtil} `{RE : RecoveryEnv D}.
Local Abbreviation M := (M (rworld D)).

Definition rget {T} (f : raft_instance -> T) : M T := gets (fun w => f (rw_ri w)).
Definition rset (f : raft_instance -> raft_instance) : M unit :=
  modify (fun w => w <| rw_ri ::= f |>).
Definition sget {T} (f : rocks_state D -> T) : M T := gets (fun w => f (rw_st w)).
Definition sset (f : rocks_state D -> rocks_state D) : M unit :=
  modify (fun w => w <| rw_st ::= f |>).
(** The operations of [RocksBackend] on this state. *)
Definition sread {T} (f : raft_instance -> rocks_state D -> option T) : M T :=
  fun w => x ← f (rw_ri w) (rw_st w); Some (x, w).
Definition sstep (f : raft_instance -> rocks_state D -> option (rocks_state D)) : M unit :=
  fun w => st ← f (rw_ri w) (rw_st w); Some (tt, w <| rw_st := st |>).
Definition rstep (f : raft_instance -> rocks_state D -> option raft_instance) : M unit :=
  fun w => ri ← f (rw_ri w) (rw_st w); Some (tt, w <| rw_ri := ri |>).
Definition rir_upd (f : raft_instance_rocks_db D -> raft_instance_rocks_db D) : M unit :=
  sset (fun st => st <| ri_backend_arg ::= fmap f |>).

(** A system call: its own failure, or what it does to the file system. *)
Definition syscall (rc : Z)
    (f : gmap bytes (fs_node D) -> Z * gmap bytes (fs_node D)) : M Z :=
  if negb (rc =? 0) then ret rc
  else
    let! fs := sget rs_fs in
    sset (fun st => st <| rs_fs := (f fs).2 |>) ;;;
    ret (f fs).1.
Definition rename (src dst : bytes) : M Z :=
  syscall (fs_rename_rc src dst) (fun fs => fs_rename fs src dst).
Definition mkdir (p : bytes) : M Z := syscall (fs_mkdir_rc p) (fun fs => fs_mkdir fs p).

Definition log_fd_of (st : rocks_state D) : option Z :=
  option_map rir_log_fd (ri_backend_arg st).

(** ** The trash directory *)
Definition rsbr_remove_trash : M Z :=
  let! ri := rget id in
  let '(rc, trash_path) :=
    snprintf PATH_MAX (path_join (ri_log ri) (ribSubDirs RIR_SUBDIR_TRASH)) in
  if PATH_MAX <? rc then ret (- ENAMETOOLONG)
  else
    sset (fun st => st <| rs_fs ::= fun fs => fs_remove_below fs_unremovable fs trash_path |>) ;;;
    ret 0.

(** open() of the log directory: a descriptor, or -1. *)
Definition rsbr_log_dir_open_fd : M Z :=
  let! ri := rget id in
  let! st := sget id in
  if is_dir (fs_stat (rs_fs st) (ri_log ri)) then
    sset (fun st => st <| rs_open_fds ::= fun n => n + 1 |>) ;;;
    ret (3 + rs_open_fds st)
  else ret (-1).

Definition rsbr_try_ri_to_rirdb_logfd : M Z :=
  let! st := sget id in
  match ri_backend_arg st with
  | None => ret (- ENOENT)
  | Some _ => let! rir := sread rsbr_ri_to_rirdb in ret (rir_log_fd rir)
  end.

Definition rsbr_move_item_to_trash (path : bytes) : M Z :=
  let! fd := rsbr_try_ri_to_rirdb_logfd in
  let close_fd := fd =? - ENOENT in
  let! fd := if close_fd then rsbr_log_dir_open_fd else ret fd in
  if fd <? 0 then ret (- EBADF)
  else
    let! ri := rget id in
    let! dir_name_uuid := sget (fun st => uuid_generate_time (rs_fs st)) in
    let dir_name := uuid_unparse dir_name_uuid in
    let trash_dir := path_join (ribSubDirs RIR_SUBDIR_TRASH) dir_name in
    let '(rc, tmp_path) := snprintf PATH_MAX trash_dir in
    if PATH_MAX <? rc then ret (- ENAMETOOLONG)
    else
      let! rc := mkdir (at_path ri tmp_path) in
      if negb (rc =? 0) then ret rc
      else
        let tmp := niova_string_find_last_instance_of_char path slash in
        let file_name_idx := Z.max 0 tmp in
        let '(rc, tmp_path) :=
          snprintf PATH_MAX (path_join trash_dir (drop (Z.to_nat file_name_idx) path)) in
        if PATH_MAX <? rc then ret (- ENAMETOOLONG)
        else
          let! rc := rename (at_path ri path) (at_path ri tmp_path) in
          if negb (rc =? 0) then ret rc
          else
            when close_fd (sset (fun st => st <| rs_open_fds ::= fun n => n - 1 |>)) ;;;
            ret 0.

(** ** Building path names: the return code and the path *)
Definition CHKPT_RESTORE_PATH_FMT (db peer : bytes) : bytes := db ++ str "_" ++ peer.
Definition CHKPT_PATH_FMT (db peer : bytes) (idx : Z) : bytes :=
  CHKPT_RESTORE_PATH_FMT db peer ++ str "_" ++ fmt_zu 20 idx.

Definition rsbr_recovery_rsync_path_build (base : bytes) (peer_id db_id : uuid) (len : Z) :
  Z * bytes :=
  if uuid_is_null peer_id || uuid_is_null db_id || (len =? 0) then (- EINVAL, [])
  else
    let '(rc, p) := snprintf len
      (path_join base (path_join (ribSubDirs RIR_SUBDIR_CHKPT_PEERS)
         (CHKPT_RESTORE_PATH_FMT (uuid_unparse db_id) (uuid_unparse peer_id)))) in
    (if len <=? rc then - ENAMETOOLONG else 0, p).

Definition rsbr_recovery_inprogress_path_build (base : bytes) (rrh : raft_recovery_handle)
    (len : Z) : Z * bytes :=
  if (len =? 0) || uuid_is_null (rrh_peer_uuid rrh) || uuid_is_null (rrh_peer_db_uuid rrh)
  then (- EINVAL, [])
  else
    let '(rc, p) := snprintf len
      (path_join base (RECOVERY_MARKER_NAME ++ str "." ++
         CHKPT_RESTORE_PATH_FMT (uuid_unparse (rrh_peer_db_uuid rrh))
           (uuid_unparse (rrh_peer_uuid rrh)))) in
    (if len <=? rc then - ENAMETOOLONG else 0, p).

Definition rsbr_checkpoint_path_build (base : bytes) (peer_id db_id : uuid)
    (sync_idx : raft_entry_idx_t) (local initial : bool) (len : Z) : Z * bytes :=
  if uuid_is_null peer_id || uuid_is_null db_id || (len =? 0) || (sync_idx <? 0)
  then (- EINVAL, [])
  else
    let dir := ribSubDirs (if local then RIR_SUBDIR_CHKPT_SELF else RIR_SUBDIR_CHKPT_PEERS) in
    let '(rc, p) := snprintf len
      (path_join base (path_join dir
         ((if initial then str ".in-progress_" else [])
          ++ CHKPT_PATH_FMT (uuid_unparse db_id) (uuid_unparse peer_id) sync_idx))) in
    (if len <? rc then - ENAMETOOLONG else 0, p).

(** ** Checkpoint directories *)
Definition CHKPT_FILENAME_LEN : Z := UUID_STR_LEN * 2 + 20.
(** dent->d_reclen on Linux: the fixed part, the name and its NUL, aligned to 8. *)
Definition d_reclen (d_name : bytes) : Z := (19 + slen d_name + 1 + 7) / 8 * 8.

Definition sub_bytes (off len : Z) (l : bytes) : bytes :=
  cstr (take (Z.to_nat len) (drop (Z.to_nat off) l)).

(** The return code, db_uuid, peer_uuid and chkpt_idx. *)
Definition rsbr_chkpt_scan_parse_entry (dent : bytes * fs_node D) :
  Z * uuid * uuid * raft_entry_idx_t :=
  let d_name := dent.1 in
  if d_reclen d_name <? CHKPT_FILENAME_LEN then (- ERANGE, 0, 0, 0)
  else if negb (is_dir (Some dent.2)) then (- ENOTDIR, 0, 0, 0)
  else
    match uuid_parse (sub_bytes 0 (UUID_STR_LEN - 1) d_name) with
    | None => (- EBADMSG, 0, 0, 0)
    | Some db_uuid =>
        match uuid_parse (sub_bytes UUID_STR_LEN (UUID_STR_LEN - 1) d_name) with
        | None => (- EBADMSG, db_uuid, 0, 0)
        | Some peer_uuid =>
            let '(rc, idx) := niova_string_to_unsigned_long_long
                                (sub_bytes (UUID_STR_LEN * 2) 20 d_name) in
            (if rc =? 0 then 0 else - EBADMSG, db_uuid, peer_uuid, s64 idx)
        end
    end.

Definition scandirat (p : bytes) (filt : bytes * fs_node D -> bool) :
  M (Z * list (bytes * fs_node D)) :=
  let! fs := sget rs_fs in
  if negb (fs_scandir_rc p =? 0) then ret (fs_scandir_rc p, [])
  else if negb (is_dir (fs_stat fs p)) then ret (- ENOENT, [])
  else
    let ents := merge_sort (fun a b => bytes_le a.1 b.1)
                  (List.filter filt (fs_children fs p)) in
    ret (Z.of_nat (length ents), ents).

Definition rsbr_startup_self_chkpt_scan_cb (dent : bytes * fs_node D) : bool :=
  recovery_regexec RECOVERY_CHKPT_DIRNAME__regex dent.1.

(** The loop, from the last entry to the first: [num] checkpoints were found. *)
Fixpoint self_chkpt_scan_loop (dents : list (bytes * fs_node D)) (num : Z) : M unit :=
  match dents with
  | [] => ret tt
  | dent :: dents' =>
      let! ri := rget id in
      let '(rc, db_uuid, peer_uuid, chkpt_idx) := rsbr_chkpt_scan_parse_entry dent in
      let mine := (rc =? 0) && (ri_csn_this_peer ri =? peer_uuid) && (ri_db_uuid ri =? db_uuid) in
      let num' := if mine then num + 1 else num in
      let trash := negb mine || ((1 <? num') && (ri_num_checkpoints ri <? num')) in
      when (mine && (num' =? 1) && raft_instance_is_booting ri)
        (rset (fun ri => ri <| ri_checkpoint_last_idx := chkpt_idx |>)) ;;;
      when trash
        (let '(_, path) :=
           snprintf PATH_MAX (path_join (ribSubDirs RIR_SUBDIR_CHKPT_SELF) dent.1) in
         let! rc := rsbr_move_item_to_trash path in ret tt) ;;;
      self_chkpt_scan_loop dents' num'
  end.

Definition rsbr_self_chkpt_scan : M Z :=
  let! st := sget id in
  let! fd := lift_option (log_fd_of st) in
  assert_ (0 <=? fd) ;;;
  let! ri := rget id in
  let! r := scandirat (at_path ri (ribSubDirs RIR_SUBDIR_CHKPT_SELF))
              rsbr_startup_self_chkpt_scan_cb in
  if r.1 <? 0 then ret r.1
  else self_chkpt_scan_loop (rev r.2) 0 ;;; ret 0.

Definition rsbr_checkpoint_cleanup : M unit :=
  let! chkpt_scan_rc := rsbr_self_chkpt_scan in
  let! trash_rc := rsbr_remove_trash in
  ret tt.

Definition rsbr_startup_checkpoint_scan : M Z :=
  let! st := sget id in
  let! ri := rget id in
  match log_fd_of st with
  | None => ret (- EINVAL)
  | Some fd =>
      if uuid_is_null (ri_db_uuid ri) then ret (- EINVAL)
      else
        assert_ (raft_instance_is_booting ri) ;;;
        if fd <? 0 then ret (- EBADF) else rsbr_self_chkpt_scan
  end.

(** The end of rsbr_checkpoint(): the database is written to the temporary
    directory, which is then renamed. *)
Definition checkpoint_create (chkpt_idx : Z) (chkpt_tmp_path chkpt_path : bytes) : M Z :=
  let! db := sread rsbr_ri_to_rocksdb in
  if negb (rocksdb_checkpoint_object_create db) then ret (- ENOMEM)
  else
    match rocksdb_checkpoint_create db with
    | None => ret (- ENOMEM)
    | Some cp =>
        sset (fun st => st <| rs_fs ::= insert (norm_path chkpt_tmp_path) (FsDb cp) |>) ;;;
        let! rc := rename chkpt_tmp_path chkpt_path in
        rsbr_checkpoint_cleanup ;;;
        ret (if negb (rc =? 0) then rc else chkpt_idx)
    end.

Definition rsbr_checkpoint : M Z :=
  let! rir := sread rsbr_ri_to_rirdb in
  let! ri := rget id in
  let chkpt_idx := raft_server_instance_chkpt_compact_max_idx ri in
  if chkpt_idx <? 0 then ret (- ENODATA)
  else if chkpt_idx =? ri_checkpoint_last_idx ri then ret (- EALREADY)
  else
    let '(rc, chkpt_tmp_path) := rsbr_checkpoint_path_build (ri_log ri) (ri_csn_this_peer ri)
                                   (ri_db_uuid ri) chkpt_idx true true PATH_MAX in
    if negb (rc =? 0) then ret (- rc)
    else
      let '(rc, chkpt_path) := rsbr_checkpoint_path_build (ri_log ri) (ri_csn_this_peer ri)
                                 (ri_db_uuid ri) chkpt_idx true false PATH_MAX in
      if negb (rc =? 0) then ret (- rc)
      else
        let! fs := sget rs_fs in
        let! rc := if bool_decide (is_Some (fs_stat fs chkpt_tmp_path))
                   then rsbr_move_item_to_trash chkpt_tmp_path else ret 0 in
        if negb (rc =? 0) then ret rc
        else
          let! fs := sget rs_fs in
          if bool_decide (is_Some (fs_stat fs chkpt_path)) then ret (- EALREADY)
          else checkpoint_create chkpt_idx chkpt_tmp_path chkpt_path.

(** ** The recovery marker *)
Definition rsbr_scandir_recovery_marker_cb (dent : bytes * fs_node D) : bool :=
  is_dir (Some dent.2) && recovery_regexec RECOVERY_MARKER_NAME__regex dent.1.

Definition raft_server_init_recovery_handle_from_marker (now : timespec)
    (db_uuid_str peer_uuid_str : bytes) : M Z :=
  match uuid_parse peer_uuid_str, uuid_parse db_uuid_str with
  | Some peer_uuid, Some db_uuid =>
      if uuid_is_null peer_uuid || uuid_is_null db_uuid then ret (- EINVAL)
      else
        rset (fun ri => ri <| ri_recovery_handle ::= fun rrh =>
          rrh <| rrh_peer_uuid := peer_uuid |> <| rrh_peer_db_uuid := db_uuid |>
              <| rrh_peer_chkpt_idx := -1 |> <| rrh_chkpt_size := -1 |>
              <| rrh_remaining := -1 |> <| rrh_from_recovery_marker := true |>
              <| rrh_start := now |> |>) ;;;
        ret 0
  | _, _ => ret (- EINVAL)
  end.

Definition rsbr_recovery_marker_scan (now : timespec) : M Z :=
  let! st := sget id in
  match log_fd_of st with
  | None => ret (- EINVAL)
  | Some fd =>
      if fd <? 0 then ret (- EBADF)
      else
        rset (fun ri => ri <| ri_incomplete_recovery := false |>) ;;;
        let! ri := rget id in
        let! r := scandirat (ri_log ri) rsbr_scandir_recovery_marker_cb in
        if r.1 <? 0 then ret r.1
        else
          match r.2 with
          | [] => ret 0
          | [dent] =>
              let db_uuid_str :=
                sub_bytes RECOVERY_MARKER_NAME_LEN (UUID_STR_LEN - 1) dent.1 in
              let peer_uuid_str :=
                sub_bytes (RECOVERY_MARKER_NAME_LEN + UUID_STR_LEN) (UUID_STR_LEN - 1) dent.1 in
              let! rc := raft_server_init_recovery_handle_from_marker now db_uuid_str
                           peer_uuid_str in
              when (rc =? 0) (rset (fun ri => ri <| ri_incomplete_recovery := true |>)) ;;;
              ret rc
          | _ => ret (- E2BIG)
          end
  end.

Definition rsbr_setup_detect_recovery (now : timespec) : M Z :=
  let! rc := rsbr_recovery_marker_scan now in
  let! ri := rget id in
  if (rc =? 0) && ri_incomplete_recovery ri then
    let rrh := ri_recovery_handle ri in
    if negb (rrh_from_recovery_marker rrh) || uuid_is_null (rrh_peer_uuid rrh)
       || uuid_is_null (rrh_peer_db_uuid rrh)
    then ret (- ENXIO) else ret (- EUCLEAN)
  else
    assert_ (negb (rc =? - EUCLEAN)) ;;;
    ret rc.
End recovery.
