(* ===== verification/RocksBulk.v ===== *)
(** Bulk recovery, opening, closing and set-up of the RocksDB backend
    ([src/raft_server_backend_rocksdb.c]): the import of a peer's checkpoint with
    rsync, staging, scrubbing and promotion, the column family table, and the
    table [ribRocksDB]. *)
From Stdlib Require Import Strings.String.
From stdpp Require Import base tactics list gmap.
From Stdlib Require Import ZArith Lia Strings.Byte.
From S2P Require Import Prelude RaftTypes World Entry Server PosixBackend RocksKeys RocksBackend RocksRecovery.
Local Open Scope Z_scope.
Local Open Scope raft_scope.

Definition BW_RATE_LEN : Z := 31.
Definition BULK_RECOVERY_RSYNC_RETRY_MAX : Z := 4.
Definition RAFT_ROCKSDB_MAX_CF : Z := 32.
Definition RAFT_ROCKSDB_MAX_CF_NAME_LEN : Z := 4096.

Section bulk.
Context `{NC : NiovaCore} {D : Type} `{RD : RocksDB D} `{NU : NiovaUtil} `{RE : RecoveryEnv D}.
Local Abbreviation M := (M (rworld D)).
Abbreviation rrh_t := raft_recovery_handle (only parsing).

(** ** Importing a peer's checkpoint *)
Definition rsbr_bulk_recover_build_remote_path (rrh : rrh_t) (len : Z) : Z * bytes :=
  let rc := ctl_svc_node_lookup (rrh_peer_uuid rrh) in
  if negb (rc =? 0) then (rc, [])
  else
    match ctl_svc_node_peer_2_store (rrh_peer_uuid rrh) with
    | None => (- ENOENT, [])
    | Some remote_store =>
        let '(rc, remote_relative_path) :=
          rsbr_checkpoint_path_build remote_store (rrh_peer_uuid rrh) (rrh_peer_db_uuid rrh)
            (rrh_peer_chkpt_idx rrh) true false PATH_MAX in
        if negb (rc =? 0) then (rc, [])
        else
          let '(rc, p) := snprintf (len - 1)
            (ctl_svc_node_peer_2_ipaddr (rrh_peer_uuid rrh) ++ str ":" ++ remote_relative_path) in
          (if len <=? rc then - ENAMETOOLONG else 0, p)
    end.

Definition rsbr_bulk_recover_try_parse (rrh : rrh_t) (output : bytes)
    (val_type : recovery_regexes) : Z * rrh_t :=
  if negb (recovery_regexec val_type output) then (0, rrh)
  else
    let '(rc, val) := niova_parse_comma_delimited_uint_string output in
    let val := if negb (rc =? 0) then -1 else s64 val in
    (rc, if bool_decide (val_type = RECOVERY_RSYNC_TOTAL_SIZE__regex)
         then rrh <| rrh_chkpt_size := val |> else rrh <| rrh_remaining := val |>).

Definition rsbr_bulk_recover_calculate_remaining_rsync_cb (output : bytes) (rrh : rrh_t) :
  Z * rrh_t :=
  if slen output =? 0 then (- EINVAL, rrh)
  else
    let '(rc, rrh) :=
      if rrh_chkpt_size rrh <? 0
      then rsbr_bulk_recover_try_parse rrh output RECOVERY_RSYNC_TOTAL_SIZE__regex
      else (0, rrh) in
    if rrh_remaining rrh <? 0
    then rsbr_bulk_recover_try_parse rrh output RECOVERY_RSYNC_TOTAL_XFER_SIZE__regex
    else (rc, rrh).

(** popen_cmd_out(), on the handle and the file system; [attempt] counts the
    calls so far. *)
Definition popen (cmd : bytes) (attempt : nat) (cb : bytes -> rrh_t -> Z * rrh_t)
    (rrh : rrh_t) : M (Z * rrh_t) :=
  let! fs := sget rs_fs in
  let r := popen_cmd_out cmd attempt cb rrh fs in
  sset (fun st => st <| rs_fs := r.2 |>) ;;;
  ret r.1.

Definition rsbr_bulk_recover_calculate_remaining_rsync (attempt : nat) (rrh : rrh_t)
    (remote_path local_path : bytes) : M (Z * rrh_t) :=
  let '(rc, cmd) := snprintf PATH_MAX
    (str "rsync -an --info=stats2 " ++ remote_path ++ str "/ " ++ local_path ++ str " 2>&1") in
  if PATH_MAX <? rc then ret (- ENAMETOOLONG, rrh)
  else popen cmd attempt rsbr_bulk_recover_calculate_remaining_rsync_cb rrh.

Definition rsbr_bulk_recover_xfer_rsync_try_rate_parse (output : bytes) (rrh : rrh_t) : rrh_t :=
  match recovery_rate_match output with
  | Some (rm_so, rm_eo) =>
      rrh <| rrh_rate_bytes_per_sec :=
        take (Z.to_nat (Z.min BW_RATE_LEN (rm_eo - rm_so))) (drop (Z.to_nat rm_so) output) |>
  | None => rrh
  end.

Definition rsbr_bulk_recover_xfer_rsync_cb (output : bytes) (rrh : rrh_t) : Z * rrh_t :=
  if slen output =? 0 then (- EINVAL, rrh)
  else if negb (recovery_regexec RECOVERY_RSYNC_PROGRESS_LINE__regex output) then (0, rrh)
  else
    let '(rc, val) := niova_parse_comma_delimited_uint_string output in
    if negb (rc =? 0) then (rc, rrh)
    else
      let rrh := if rrh_completed rrh <? val then rrh <| rrh_completed := val |> else rrh in
      (0, rsbr_bulk_recover_xfer_rsync_try_rate_parse output rrh).

Definition rsbr_bulk_recover_xfer_rsync (attempt : nat) (rrh : rrh_t)
    (remote_path local_path : bytes) : M (Z * rrh_t) :=
  let opts := if limit_rsync_bw then str "rsync -a --bwlimit=1 --info=progress2 "
              else str "rsync -a --info=progress2 " in
  let '(rc, cmd) := snprintf PATH_MAX
    (opts ++ remote_path ++ str "/ " ++ local_path ++ str " 2>&1") in
  if PATH_MAX <? rc then ret (- ENAMETOOLONG, rrh)
  else popen cmd attempt rsbr_bulk_recover_xfer_rsync_cb rrh.

(** RSBR_BULK_RECOVER_RSYNC_CMD: [left] attempts are left. *)
Fixpoint rsync_cmd_loop (func : nat -> rrh_t -> bytes -> bytes -> M (Z * rrh_t))
    (left nretries : nat) (rrh : rrh_t) (remote_path local_path : bytes) : M (Z * rrh_t) :=
  let! r := func nretries rrh remote_path local_path in
  match left with
  | S left' =>
      if negb (r.1 =? 0)
      then rsync_cmd_loop func left' (S nretries) r.2 remote_path local_path
      else ret r
  | O => ret r
  end.
Definition RSBR_BULK_RECOVER_RSYNC_CMD (func : nat -> rrh_t -> bytes -> bytes -> M (Z * rrh_t))
    (rrh : rrh_t) (remote_path local_path : bytes) : M (Z * rrh_t) :=
  rsync_cmd_loop func (Z.to_nat (BULK_RECOVERY_RSYNC_RETRY_MAX - 1)) 0 rrh
    remote_path local_path.

Definition rsbr_bulk_recover_xfer (rrh : rrh_t) (remote_path local_path : bytes) :
  M (Z * rrh_t) :=
  RSBR_BULK_RECOVER_RSYNC_CMD rsbr_bulk_recover_xfer_rsync rrh remote_path local_path.

Definition rsbr_bulk_recover_get_fs_free_space (ri : raft_instance) : Z :=
  if negb (statvfs_rc (ri_log ri) =? 0) then statvfs_rc (ri_log ri)
  else if statvfs_rdonly (ri_log ri) then - EPERM
  else s64 (statvfs_f_bsize (ri_log ri) * statvfs_f_bavail (ri_log ri)).

Definition rsbr_bulk_recover_calculate_remaining (rrh : rrh_t)
    (remote_path local_path : bytes) (available_cap : Z) : M (Z * rrh_t) :=
  let! r := RSBR_BULK_RECOVER_RSYNC_CMD rsbr_bulk_recover_calculate_remaining_rsync rrh
              remote_path local_path in
  ret (if negb (r.1 =? 0) then r
       else if (rrh_remaining r.2 <? 0) || (rrh_chkpt_size r.2 <? 0) then (- ENODATA, r.2)
       else if available_cap <? rrh_remaining r.2 then (- ENOSPC, r.2)
       else r).

(** The handle is ri->ri_recovery_handle, written back after each step. *)
Definition with_rrh (f : rrh_t -> M (Z * rrh_t)) : M Z :=
  let! rrh := rget ri_recovery_handle in
  let! r := f rrh in
  rset (fun ri => ri <| ri_recovery_handle := r.2 |>) ;;;
  ret r.1.

Definition rsbr_bulk_recovery_import_remote_db : M Z :=
  let! ri := rget id in
  let rrh := ri_recovery_handle ri in
  if ri_incomplete_recovery ri || rrh_from_recovery_marker rrh
     || (rrh_peer_chkpt_idx rrh <? 0) || (rrh_peer_uuid rrh =? ri_csn_this_peer ri)
  then ret (- EINVAL)
  else
    let available_cap := rsbr_bulk_recover_get_fs_free_space ri in
    if available_cap <? 0 then ret (s32 available_cap)
    else
      let '(rc, remote_path) := rsbr_bulk_recover_build_remote_path rrh PATH_MAX in
      if negb (rc =? 0) then ret rc
      else
        let '(rc, local_path) := rsbr_recovery_rsync_path_build (ri_log ri)
                                   (rrh_peer_uuid rrh) (rrh_peer_db_uuid rrh) PATH_MAX in
        if negb (rc =? 0) then ret rc
        else
          let! rc := with_rrh (fun rrh => rsbr_bulk_recover_calculate_remaining rrh
                       remote_path local_path available_cap) in
          if negb (rc =? 0) then ret rc
          else
            let! rc := with_rrh (fun rrh => rsbr_bulk_recover_xfer rrh remote_path local_path) in
            if negb (rc =? 0) then ret rc
            else
              rset (fun ri => ri <| ri_recovery_handle ::= fun rrh =>
                                      rrh <| rrh_remaining := -1 |> |>) ;;;
              let! rc := with_rrh (fun rrh => rsbr_bulk_recover_calculate_remaining rrh
                           remote_path local_path available_cap) in
              let! rrh := rget ri_recovery_handle in
              ret (if negb (rc =? 0) then rc
                   else if negb (rrh_remaining rrh =? 0) then - EBADE else 0).

(** ** Staging, scrubbing, promotion *)
Definition rsbr_bulk_recovery_remove_current_db_contents : M Z :=
  let! rc := rsbr_move_item_to_trash (ribSubDirs RIR_SUBDIR_DB) in
  if negb (rc =? 0) && negb (rc =? - ENOENT) then ret rc else rsbr_remove_trash.

Definition rsbr_bulk_recovery_stage_remote_db : M Z :=
  let! ri := rget id in
  let rrh := ri_recovery_handle ri in
  let '(rc, rsync_path) := rsbr_recovery_rsync_path_build (ri_log ri) (rrh_peer_uuid rrh)
                             (rrh_peer_db_uuid rrh) PATH_MAX in
  if negb (rc =? 0) then ret rc
  else
    let '(rc, stage_path) := rsbr_recovery_inprogress_path_build (ri_log ri) rrh PATH_MAX in
    if negb (rc =? 0) then ret rc else rename rsync_path stage_path.

(** One header: its return code, and whether the loop stops. *)
Definition scrub_entry_header (i : raft_entry_idx_t) : M (Z * bool) :=
  let! r := sread (fun ri st => rsbr_entry_header_read ri i st) in
  let '(rc, reh) := r in
  if negb (rc =? 0) || negb (reh_magic reh =? RAFT_ENTRY_MAGIC) || negb (reh_index reh =? i)
  then ret (rc, true)
  else
    sstep (fun ri st => rsbr_entry_header_write_recovery_scrub ri
             (reh <| reh_self_uuid := ri_csn_this_peer ri |>) st) ;;;
    ret (0, false).
Fixpoint scrub_entry_headers_loop (idxs : list raft_entry_idx_t) : M Z :=
  match idxs with
  | [] => ret 0
  | i :: idxs' =>
      let! r := scrub_entry_header i in
      if r.2 then ret r.1 else scrub_entry_headers_loop idxs'
  end.
Definition rsbr_bulk_recovery_db_scrub_entry_headers : M Z :=
  let! ri := rget id in
  assert_ (raft_instance_is_recovering ri) ;;;
  assert_ (negb (ri_csn_this_peer ri =? rrh_peer_uuid (ri_recovery_handle ri))) ;;;
  let start := ri_lowest_idx ri in
  let end_ := ri_entries_detected_at_startup ri in
  assert_ ((0 <=? start) && (0 <=? end_) && (start <=? end_)) ;;;
  scrub_entry_headers_loop (zrange start end_).

Definition header_load : M Z :=
  let! r := sread rsbr_header_load in
  rset (fun ri => ri <| ri_log_hdr := r.2 |>) ;;;
  ret r.1.
Definition init_header : M Z := fun w =>
  r ← rsbr_init_header (uuid_generate (rs_fs (rw_st w))) (rw_ri w) (rw_st w);
  Some (r.1.1, RWorld r.1.2 r.2).

Definition rsbr_bulk_recovery_db_scrub : M Z :=
  let! ri := rget id in
  let rrh := ri_recovery_handle ri in
  assert_ (raft_instance_is_recovering ri) ;;;
  if negb (ri_db_uuid ri =? rrh_peer_db_uuid rrh)
     && negb (ri_db_recovery_uuid ri =? rrh_peer_db_uuid rrh)
  then ret (- ENODEV)
  else
    rset (fun ri => ri <| ri_this_peer_uuid_str := uuid_unparse (rrh_peer_uuid rrh) |>) ;;;
    let! rc := header_load in
    if negb (rc =? 0) then ret rc
    else
      let! rc := rsbr_bulk_recovery_db_scrub_entry_headers in
      if negb (rc =? 0) then ret rc
      else
        rset (fun r => r <| ri_this_peer_uuid_str := ri_this_peer_uuid_str ri |>) ;;;
        init_header.

Definition rsbr_make_db_pathname (ri : raft_instance) (len : Z) : Z * bytes :=
  if raft_instance_is_recovering ri
  then rsbr_recovery_inprogress_path_build (ri_log ri) (ri_recovery_handle ri) len
  else
    let '(rc, p) := snprintf len (path_join (ri_log ri) (ribSubDirs RIR_SUBDIR_DB)) in
    (if PATH_MAX <=? rc then - ENAMETOOLONG else 0, p).

Definition rsbr_bulk_recovery_promote_scrubbed_db : M Z :=
  let! ri := rget id in
  let '(rc, stage_path) := rsbr_recovery_inprogress_path_build (ri_log ri)
                             (ri_recovery_handle ri) PATH_MAX in
  if negb (rc =? 0) then ret rc
  else
    rset (fun ri => ri <| ri_proc_state := RAFT_PROC_STATE_SHUTDOWN |>) ;;;
    let! ri := rget id in
    let '(rc, db_path) := rsbr_make_db_pathname ri PATH_MAX in
    if negb (rc =? 0) then ret rc else rename stage_path db_path.

(** ** Closing *)
Definition rsbr_destroy : M Z :=
  let! st := sget id in
  match ri_backend_arg st with
  | None => ret (- EALREADY)
  | Some _ =>
      let! rir := sread rsbr_ri_to_rirdb in
      when (rir_log_fd rir <? 0)
        (when (close_rc (rir_log_fd rir) =? 0)
           (sset (fun st => st <| rs_open_fds ::= fun n => n - 1 |>))) ;;;
      match rir_db rir with
      | Some d =>
          sset (fun st => st <| rs_fs ::= insert (norm_path (rs_db_path st)) (FsDb d) |>)
      | None => ret tt
      end ;;;
      sset (fun st => st <| ri_backend_arg := None |>) ;;;
      ret 0
  end.

(** ** Opening *)
Fixpoint create_subdirs_loop (dirs : list raft_instance_rocks_db_subdirs) : M Z :=
  match dirs with
  | [] => ret 0
  | d :: dirs' =>
      let! ri := rget id in
      let p := at_path ri (ribSubDirs d) in
      let! rc := mkdir p in
      let! fs := sget rs_fs in
      if rc =? 0 then create_subdirs_loop dirs'
      else if rc =? - EEXIST then
        match fs_stat fs p with
        | None => ret (- ENOENT)
        | Some n => if is_dir (Some n) then create_subdirs_loop dirs' else ret (- ENOTDIR)
        end
      else ret rc
  end.
Definition rsbr_setup_create_subdirs : M Z :=
  let! st := sget id in
  match log_fd_of st with
  | Some fd => if fd <? 0 then ret (- EINVAL) else create_subdirs_loop all_subdirs
  | None => ret (- EINVAL)
  end.

Definition rsbr_subdirs_setup : M Z :=
  let! ri := rget id in
  let! rc := syscall 0 (file_util_pathname_build (ri_log ri)) in
  if negb (rc =? 0) then ret rc
  else
    let! fd := rsbr_log_dir_open_fd in
    rir_upd (fun rir => rir <| rir_log_fd := fd |>) ;;;
    if fd <? 0 then ret (- ENOENT)
    else if raft_instance_is_recovering ri then ret 0
    else rsbr_setup_create_subdirs.

Definition rsbr_setup_rir_rockdsdb_items : M Z :=
  if negb (rocksdb_alloc 0) then ret (- ENOMEM)
  else
    rir_upd (fun rir => rir <| rir_options := Some false |>) ;;;
    if negb (rocksdb_alloc 1) then ret (- ENOMEM)
    else
      rir_upd (fun rir => rir <| rir_writeoptions_sync := true |>) ;;;
      if negb (rocksdb_alloc 2) then ret (- ENOMEM)
      else
        rir_upd (fun rir => rir <| rir_writeoptions_async := true |>) ;;;
        if negb (rocksdb_alloc 3) then ret (- ENOMEM)
        else
          rir_upd (fun rir => rir <| rir_readoptions := true |>) ;;;
          if negb (rocksdb_alloc 4) then ret (- ENOMEM)
          else rir_upd (fun rir => rir <| rir_writebatch := true |>) ;;; ret 0.

(** [init_arg]: ri->ri_backend_init_arg, the column families to open. *)
Definition rsbr_setup_rir (init_arg : option raft_server_rocksdb_cf_table) : M Z :=
  let! st := sget id in
  match ri_backend_arg st with
  | Some _ => ret (- EALREADY)
  | None =>
      sset (fun st => st <| ri_backend_arg := Some
        {| rir_log_fd := -1; rir_db := None; rir_options := None;
           rir_writeoptions_sync := false; rir_writeoptions_async := false;
           rir_readoptions := false; rir_writebatch := false;
           rir_cf_table := init_arg |} |>) ;;;
      let! rc := rsbr_subdirs_setup in
      if negb (rc =? 0) then ret rc else rsbr_setup_rir_rockdsdb_items
  end.

(** The database a directory holds. *)
Definition fs_db (fs : gmap bytes (fs_node D)) (p : bytes) : option D :=
  match fs_stat fs p with Some (FsDb d) => Some d | _ => None end.

Definition open_db (rir : raft_instance_rocks_db D) (create : bool) (db : option D) :
  option (D * option raft_server_rocksdb_cf_table) :=
  match rir_cf_table rir with
  | Some cft =>
      if 0 <? Z.of_nat (length (rsrcfe_cf_names cft)) then
        r ← rocksdb_open_column_families create (rsrcfe_cf_names cft) db;
        Some (r.1, Some {| rsrcfe_cf_names := rsrcfe_cf_names cft; rsrcfe_cf_handles := r.2 |})
      else d ← rocksdb_open create db; Some (d, Some cft)
  | None => d ← rocksdb_open create db; Some (d, None)
  end.

Definition booting_or_recovering (ri : raft_instance) : bool :=
  raft_instance_is_booting ri || raft_instance_is_recovering ri.

Definition rsbr_db_open_internal (create_db : bool) : M Z :=
  let! ri := rget id in
  let! rir := sread rsbr_ri_to_rirdb in
  let! opts := lift_option (rir_options rir) in
  assert_ (booting_or_recovering ri) ;;;
  let create := opts || create_db in
  rir_upd (fun rir => rir <| rir_options := Some create |>) ;;;
  let '(rc, rocksdb_dir) := rsbr_make_db_pathname ri PATH_MAX in
  if negb (rc =? 0) then ret rc
  else
    assert_ (match rir_cf_table rir with
             | Some cft => Z.of_nat (length (rsrcfe_cf_names cft)) <=? RAFT_ROCKSDB_MAX_CF
             | None => true
             end) ;;;
    let! fs := sget rs_fs in
    match open_db rir create (fs_db fs rocksdb_dir) with
    | None => ret (- ENOENT)
    | Some (d, cft) =>
        rir_upd (fun rir => rir <| rir_db := Some d |> <| rir_cf_table := cft |>) ;;;
        sset (fun st => st <| rs_db_path := rocksdb_dir |>
                           <| rs_fs ::= insert (norm_path rocksdb_dir) (FsDb d) |>) ;;;
        ret 0
    end.

Definition rsbr_prep_raft_instance_from_db : M Z :=
  rstep rsb_sm_get_instance_uuid ;;;
  let! n := sread rsbr_num_entries_calc in
  rset (fun ri => ri <| ri_entries_detected_at_startup := n |>) ;;;
  fatal_if ((n <? 0) && negb (s32 n =? 0)) ;;;
  let! r := if 0 <? n then sread rsbr_lowest_entry_get else ret (0, -1) in
  fatal_if (negb (r.1 =? 0)) ;;;
  rset (fun ri => ri <| ri_lowest_idx := r.2 |>) ;;;
  let! ri := rget id in
  when (bool_decide (ri_store_type ri = RAFT_INSTANCE_STORE_ROCKSDB_PERSISTENT_APP))
    (rstep rsb_sm_get_last_applied_kv_idx) ;;;
  let! rc := if raft_instance_is_booting ri then rsbr_startup_checkpoint_scan else ret 0 in
  fatal_if (negb (rc =? 0)) ;;;
  ret 0.

Definition rsbr_db_open : M Z :=
  let! ri := rget id in
  assert_ (booting_or_recovering ri) ;;;
  let! rc := rsbr_db_open_internal false in
  let! rc := if negb (rc =? 0) && negb (raft_instance_is_recovering ri) then
               let! rc := rsbr_db_open_internal true in
               if rc =? 0 then init_header else ret rc
             else ret rc in
  if negb (rc =? 0) then ret (- ENOTCONN) else rsbr_prep_raft_instance_from_db.

(** ** Bulk recovery *)
(** From rsbr_setup_rir() to the label "out". *)
Definition bulk_recover_scrub (init_arg : option raft_server_rocksdb_cf_table) : M Z :=
  let! rc := rsbr_setup_rir init_arg in
  if negb (rc =? 0) then ret rc
  else
    let! rc := rsbr_db_open in
    if negb (rc =? 0) then ret rc else rsbr_bulk_recovery_db_scrub.

Definition rsbr_bulk_recover (init_arg : option raft_server_rocksdb_cf_table) : M Z :=
  let! ri := rget id in
  assert_ (raft_instance_is_recovering ri) ;;;
  rset (fun ri => ri <| ri_recovery_handle ::= fun rrh =>
    rrh <| rrh_remaining := -1 |> <| rrh_chkpt_size := -1 |> |>) ;;;
  let! rrh := rget ri_recovery_handle in
  if uuid_is_null (rrh_peer_uuid rrh) || uuid_is_null (rrh_peer_db_uuid rrh)
  then ret (- EINVAL)
  else
    let! rc := if negb (rrh_from_recovery_marker rrh) then
                 let! rc := rsbr_bulk_recovery_import_remote_db in
                 if negb (rc =? 0) then ret rc else rsbr_bulk_recovery_stage_remote_db
               else ret 0 in
    if negb (rc =? 0) then ret rc
    else
      let! rc := rsbr_bulk_recovery_remove_current_db_contents in
      if negb (rc =? 0) then ret rc
      else
        let! rc := bulk_recover_scrub init_arg in
        let! rc_destroy := rsbr_destroy in
        if rc =? 0 then rsbr_bulk_recovery_promote_scrubbed_db else ret rc.

(** [now]: the clock read when a recovery marker is found. *)
Definition rsbr_setup (now : timespec) (init_arg : option raft_server_rocksdb_cf_table) : M Z :=
  rset (fun ri => ri <| ri_max_entry_size := RAFT_ENTRY_SIZE_ROCKSDB |>) ;;;
  let! rc := rsbr_setup_rir init_arg in
  let! rc := if negb (rc =? 0) then ret rc
             else
               let! trash_rc := rsbr_remove_trash in
               let! rc := rsbr_setup_detect_recovery now in
               if negb (rc =? 0) then ret rc else rsbr_db_open in
  when (negb (rc =? 0)) (let! rc := rsbr_destroy in ret tt) ;;;
  ret rc.

(** ** Column families *)
Definition raft_server_get_rocksdb_instance (ri : raft_instance) (st : rocks_state D) :
  option (option D) :=
  if (bool_decide (ri_store_type ri = RAFT_INSTANCE_STORE_ROCKSDB)
      || bool_decide (ri_store_type ri = RAFT_INSTANCE_STORE_ROCKSDB_PERSISTENT_APP))
     && bool_decide (is_Some (ri_backend_arg st))
  then rir ← rsbr_ri_to_rirdb ri st; Some (rir_db rir)
  else Some None.

(** The table [ribRocksDB]; what a checkpoint does to the instance is nothing
    unless the instance is booting. *)
#[export] Instance ribRocksDB : Backend (rocks_state D) := {
  rib_entry_write := rsbr_entry_write;
  rib_entry_header_read := rsbr_entry_header_read;
  rib_entry_read := rsbr_entry_read;
  rib_log_truncate := rsbr_log_truncate;
  rib_log_reap := Some rsbr_log_reap;
  rib_header_load := rsbr_header_load;
  rib_header_write := fun _ => rsbr_header_write;
  rib_backend_sync := Some rsbr_sync;
  rib_backend_checkpoint := Some (fun ri st =>
    r ← rsbr_checkpoint (RWorld ri st); Some (r.1, rw_st r.2));
  rib_sm_apply_opt := Some rsbr_sm_apply_opt;
}.
End bulk.

Definition raft_server_rocksdb_release_cf_table (cft : raft_server_rocksdb_cf_table) :
  raft_server_rocksdb_cf_table :=
  {| rsrcfe_cf_names := []; rsrcfe_cf_handles := [] |}.

(** [cf_name] is the C string the caller passes; the return code and the table. *)
Definition raft_server_rocksdb_add_cf_name (cft : raft_server_rocksdb_cf_table)
    (cf_name : bytes) (cf_name_len : Z) : Z * raft_server_rocksdb_cf_table :=
  if (cf_name_len =? 0) || (RAFT_ROCKSDB_MAX_CF_NAME_LEN <? cf_name_len) then (- EINVAL, cft)
  else
    let names := rsrcfe_cf_names cft in
    let handles := rsrcfe_cf_handles cft in
    let names := if Z.of_nat (length names) =? 0 then [str "default"] else names in
    let handles := if Z.of_nat (length (rsrcfe_cf_names cft)) =? 0 then [0] else handles in
    let cft := {| rsrcfe_cf_names := names; rsrcfe_cf_handles := handles |} in
    let n := Z.to_nat RAFT_ROCKSDB_MAX_CF in
    if RAFT_ROCKSDB_MAX_CF <=? Z.of_nat (length names) then (- ENOSPC, cft)
    else if existsb (fun name => bool_decide (take n cf_name = take n name)) (drop 1 names)
    then (- EALREADY, cft)
    else (0, {| rsrcfe_cf_names := names ++ [take (Z.to_nat cf_name_len) cf_name];
                rsrcfe_cf_handles := handles ++ [0] |}).
