(* ===== verification/LogStore.v ===== *)
(** What the server expects of a storage backend: an abstract log (a first index
    and the entries from there on), the operations of [struct
    raft_instance_backend] as operations on it, and the reading and writing of the
    server proved against that interface. *)
From stdpp Require Import base tactics list gmap.
From Stdlib Require Import ZArith Lia Strings.Byte.
From S2P Require Import Prelude RaftTypes World Quorum Net WriteSupp Entry Log Election Append Leader ClientReq Apply Server Steps LogProps.
Local Open Scope Z_scope.
Local Open Scope raft_scope.

(** ** The abstract log *)
Record alog := { al_lo : Z; al_entries : list raft_entry }.
Definition al_next (l : alog) : Z := al_lo l + Z.of_nat (length (al_entries l)).
Definition al_get (l : alog) (idx : Z) : option raft_entry := znth (al_entries l) (idx - al_lo l).
Definition al_append (l : alog) (re : raft_entry) : alog :=
  {| al_lo := al_lo l; al_entries := al_entries l ++ [re] |}.
Definition al_truncate (l : alog) (idx : Z) : alog :=
  {| al_lo := al_lo l; al_entries := take (Z.to_nat (idx - al_lo l)) (al_entries l) |}.
Definition al_reap (l : alog) (idx : Z) : alog :=
  {| al_lo := idx; al_entries := drop (Z.to_nat (idx - al_lo l)) (al_entries l) |}.

Lemma al_get_Some l i re : al_get l i = Some re -> al_lo l <= i < al_next l.
Proof.
  unfold al_get, al_next. intros H.
  assert (is_Some (znth (al_entries l) (i - al_lo l))) as H'%znth_is_Some by eauto. lia.
Qed.
Lemma al_get_is_Some l i : is_Some (al_get l i) <-> al_lo l <= i < al_next l.
Proof. unfold al_get, al_next. rewrite znth_is_Some. lia. Qed.

Lemma al_lo_next l : al_lo l <= al_next l.
Proof. unfold al_next. lia. Qed.

Lemma al_get_append l re i :
  al_get (al_append l re) i = if i =? al_next l then Some re else al_get l i.
Proof.
  unfold al_get, al_append, al_next, znth. simpl.
  destruct (Z.eqb_spec i (al_lo l + Z.of_nat (length (al_entries l)))) as [->|].
  - rewrite decide_True by lia. rewrite lookup_app_r by lia.
    by replace (Z.to_nat _ - _)%nat with 0%nat by lia.
  - case_decide; [|done]. destruct (decide (Z.to_nat (i - al_lo l) < length (al_entries l))%nat).
    + by rewrite lookup_app_l.
    + rewrite !lookup_ge_None_2; [done | lia | rewrite length_app; simpl; lia].
Qed.
Lemma al_next_append l re : al_next (al_append l re) = al_next l + 1.
Proof. unfold al_next, al_append. simpl. rewrite length_app. simpl. lia. Qed.

Lemma al_get_truncate l n i :
  al_get (al_truncate l n) i = if i <? n then al_get l i else None.
Proof.
  unfold al_get, al_truncate, znth. simpl. case_decide; [|by destruct (i <? n)].
  destruct (Z.ltb_spec i n).
  - rewrite lookup_take_lt by lia. done.
  - by rewrite lookup_take_ge by lia.
Qed.
Lemma al_next_truncate l n : al_lo l <= n <= al_next l -> al_next (al_truncate l n) = n.
Proof. unfold al_next, al_truncate. simpl. intros. rewrite length_take. lia. Qed.

Lemma al_get_reap l n i :
  al_lo l <= n -> al_get (al_reap l n) i = if i <? n then None else al_get l i.
Proof.
  intros Hn. unfold al_get, al_reap, znth. simpl. destruct (Z.ltb_spec i n).
  - by rewrite decide_False by lia.
  - rewrite !decide_True, lookup_drop by lia. f_equal. lia.
Qed.
Lemma al_next_reap l n : al_lo l <= n <= al_next l -> al_next (al_reap l n) = al_next l.
Proof. unfold al_next, al_reap. simpl. intros. rewrite length_drop. lia. Qed.

(** ** Well-formed entries *)
Record entry_wf (ri : raft_instance) (re : raft_entry) (idx : raft_entry_idx_t) : Prop := {
  ew_hdr : reh_wf (re_header re);
  ew_magic : reh_magic (re_header re) = RAFT_ENTRY_MAGIC;
  ew_index : reh_index (re_header re) = idx;
  ew_idx : 0 <= idx;
  ew_size : reh_data_size (re_header re) = Z.of_nat (length (re_data re));
  ew_max : reh_data_size (re_header re) <= RAFT_ENTRY_MAX_DATA_SIZE ri;
  ew_sizes : sizeof_raft_entry_header < ri_max_entry_size ri < 2 ^ 32;
}.

(** The total size of a well-formed entry fits its slot. *)
Lemma entry_wf_total ri re idx :
  entry_wf ri re idx ->
  raft_server_entry_to_total_size re = sizeof_raft_entry_header + Z.of_nat (length (re_data re)) /\
  raft_server_entry_to_total_size re <= ri_max_entry_size ri.
Proof.
  intros [? ? ? ? Hsz Hmax Hm]. unfold raft_server_entry_to_total_size, RAFT_ENTRY_MAX_DATA_SIZE,
    RAFT_ENTRY_HEADER_RESERVE, sizeof_raft_entry_header in *.
  rewrite u64_small in Hmax by lia. rewrite Hsz, u64_small by lia. lia.
Qed.

(** ** The interface

    [ls_repr ri b l]: the backend in state [b] holds the log [l]; of the instance
    it depends on [ls_config] only.  [ls_ws]: the write supplements that leave the
    log alone. *)
Definition ls_config (ri : raft_instance) : Z * raft_instance_store_type * raft_process_state * Z :=
  (ri_max_entry_size ri, ri_store_type ri, ri_proc_state ri, rlh_version (ri_log_hdr ri)).
Class LogStore (B : Type) `{BE : Backend B} := {
  ls_repr : raft_instance -> B -> alog -> Prop;
  ls_ws : option raft_net_sm_write_supplements -> Prop;
  ls_limit : Z;
  ls_repr_config ri ri' b l : ls_config ri' = ls_config ri -> ls_repr ri b l -> ls_repr ri' b l;
  ls_write ri re ws b b' l :
    ls_repr ri b l -> entry_wf ri re (al_next l) -> ls_ws ws -> al_next l < ls_limit ->
    rib_entry_write ri re ws b = Some b' -> ls_repr ri b' (al_append l re);
  ls_header_read ri b l idx re :
    ls_repr ri b l -> al_get l idx = Some re ->
    rib_entry_header_read ri idx b = Some (0, re_header re);
  ls_header_absent ri b l idx :
    ls_repr ri b l -> al_next l <= idx < ls_limit ->
    exists rc h, rib_entry_header_read ri idx b = Some (rc, h) /\ rc < 0;
  ls_entry_read ri b l idx re :
    ls_repr ri b l -> al_get l idx = Some re -> reh_data_size (re_header re) <> 0 ->
    rib_entry_read ri idx (reh_data_size (re_header re)) b =
      Some (raft_server_entry_to_total_size re, re);
  ls_truncate ri b b' l idx :
    ls_repr ri b l -> al_lo l <= idx <= al_next l -> idx < ls_limit ->
    rib_log_truncate ri idx b = Some b' -> ls_repr ri b' (al_truncate l idx);
  ls_header_write ri b b' l now rc :
    ls_repr ri b l -> rib_header_write now ri b = Some (rc, b') -> ls_repr ri b' l;
  ls_sync ri sync b b' l now rc :
    rib_backend_sync = Some sync -> ls_repr ri b l -> sync now ri b = Some (rc, b') ->
    ls_repr ri b' l;
}.

(** ** Entries the server makes are well formed *)
Record ids_ok (ri : raft_instance) : Prop := {
  io_self : 0 <= ri_csn_this_peer ri < 2 ^ 128;
  io_raft : 0 <= ri_csn_raft ri < 2 ^ 128;
  io_version : 0 <= ri_apply_handler_version ri < 2 ^ 64;
  io_max : sizeof_raft_entry_header < ri_max_entry_size ri < 2 ^ 32;
}.

Section server_store.
Context `{NC : NiovaCore} {OK : NiovaCoreOk NC}.

Lemma calc_crc_range re crc : raft_server_entry_calc_crc re = Some crc -> 0 <= crc < 2 ^ 32.
Proof.
  unfold raft_server_entry_calc_crc. intros H. case_match; [|done]. injection H as <-.
  apply niova_crc_range.
Qed.

Lemma entry_init_reh_wf ri now idx term d sizes n opts re :
  raft_server_entry_init ri now idx term d sizes n opts = Some re ->
  ids_ok ri -> 0 <= now < 2 ^ 64 -> - 2 ^ 63 <= idx < 2 ^ 63 -> - 2 ^ 63 <= term < 2 ^ 63 ->
  Forall (fun x => 0 <= x < 2 ^ 32) sizes -> reh_wf (re_header re).
Proof.
  intros H [? ? ? ?] Hnow Hidx Hterm Hsizes.
  pose proof (raft_server_entry_init_inv _ _ _ _ _ _ _ _ _ H)
    as (Hcrc & Hm & Hi & Ht & Hself & Hraft & Hnum & Hds & Hmax & Hv & Hlcm & Hdata & _).
  apply calc_crc_range in Hcrc. pose proof (total_size_range sizes n) as Hts.
  assert (Hshape : reh_store_time (re_header re) = now /\
    length (reh_entry_sz (re_header re)) = 100%nat /\
    Forall (fun x => 0 <= x < 2 ^ 32) (reh_entry_sz (re_header re))).
  { unfold raft_server_entry_init in H. destruct (_ || (negb (_ =? 0) && _)) in H; [done|].
    destruct (raft_server_entry_calc_crc _) in H; [|done].
    injection H as <-. cbn [re_header reh_store_time reh_entry_sz]. split; [done|].
    change (Z.to_nat RAFT_ENTRY_NUM_ENTRIES) with 100%nat.
    assert (Forall (fun x => 0 <= x < 2 ^ 32) (replicate 100 0)) by (apply Forall_replicate; lia).
    destruct (_ =? 0); [split; done|]. split.
    - rewrite length_take, length_app. simpl length. lia.
    - apply Forall_take, Forall_app. split; [by apply Forall_take | done]. }
  destruct Hshape as (Hst & Hl & Hf).
  split; rewrite ?Hm, ?Hself, ?Hst, ?Hi, ?Ht, ?Hraft, ?Hnum, ?Hds, ?Hv, ?Hlcm; try done; try lia.
  - destruct (bool_decide _); lia.
  - apply u8_range.
Qed.

Lemma entry_init_wf ri now idx term d sizes n opts re :
  raft_server_entry_init ri now idx term (Some d) sizes n opts = Some re ->
  opts <> RAFT_WR_ENTRY_OPT_LOG_HEADER ->
  ids_ok ri -> 0 <= now < 2 ^ 64 -> 0 <= idx < 2 ^ 63 -> 0 <= term < 2 ^ 63 ->
  Forall (fun x => 0 <= x < 2 ^ 32) sizes ->
  raft_server_wr_entries_get_total_size sizes n <= Z.of_nat (length d) ->
  entry_wf ri re idx.
Proof.
  intros H Hopts Hids Hnow Hidx Hterm Hsizes Hlen.
  pose proof (raft_server_entry_init_inv _ _ _ _ _ _ _ _ _ H)
    as (_ & Hm & Hi & _ & _ & _ & _ & Hds & Hmax & _ & _ & Hdata & _).
  pose proof (total_size_range sizes n) as Hts. destruct Hids as [? ? ? ?] eqn:E.
  split; try done; try lia.
  - eapply entry_init_reh_wf; try done; lia.
  - rewrite Hdata, Hds. simpl. rewrite length_take. lia.
Qed.

Context {B A : Type} {BE : Backend B} {LS : LogStore B}.
Implicit Types w : world B A.

Lemma write_by_store_run re ws w u w' :
  raft_server_entry_write_by_store re ws w = Some (u, w') ->
  exists b, rib_entry_write (w_ri w) re ws (w_be w) = Some b /\ w' = w <| w_be := b |>.
Proof.
  unfold raft_server_entry_write_by_store. intros H. run_step H. run_step H.
  run_inv H. unfold id in *. destruct (rib_entry_write _ _ _ _); [|done]. eauto.
Qed.

(** A successful write: the entry it builds is what the backend stores and what
    the newest written header becomes. *)
Lemma entry_write_run idx term d sizes n opts ws w w' :
  raft_server_entry_write idx term (Some d) sizes n opts ws w = Some (0, w') ->
  nehdr_ok (w_ri w) -> 0 <= idx ->
  exists re,
    raft_server_entry_init (w_ri w) (env_realtime (w_env w)) idx term (Some d) sizes n opts
      = Some re /\
    rib_entry_write (w_ri w) re ws (w_be w) = Some (w_be w') /\
    ri_newest_entry_unsync (w_ri w') = re_header re /\
    reh_index (ri_newest_entry_unsync (w_ri w)) + 1 = idx.
Proof.
  unfold raft_server_entry_write. intros H Hok Hidx.
  rewrite (bool_decide_false (Some d = None)), andb_false_r in H by done. run_step H.
  destruct (_ <? _); [by run_inv H|]. run_step H.
  apply bind_Some in H as (re & ? & Hre & H). run_inv Hre. unfold id in *.
  pose proof (raft_server_entry_init_inv _ _ _ _ _ _ _ _ _ Hopt) as (_ & _ & Hi & _).
  apply bind_Some in H as (b & w1 & Hv & H).
  apply bind_Some in H as (? & w2 & Hb & H). run_inv Hb. destruct b; [|done].
  apply next_entry_valid_run in Hv as (-> & Hv); [|done].
  apply bind_Some in H as (? & w3 & (b & Hw & ->)%write_by_store_run & H).
  apply bind_Some in H as (? & w4 & Hupd & H).
  assert (Hbe : w_be w4 = b).
  { eapply (keeps_run (same w_be)) in Hupd; [exact Hupd|]. clear. solve_keeps. }
  exists re. split; [done|].
  apply update_newest_run in Hupd as (_ & Hu & _); [|lia].
  assert (Hend : w' = w4).
  { clear -H. destruct (raft_server_does_synchronous_writes _); [|by run_inv H].
    apply bind_Some in H as (? & w5 & Hs & H). run_inv H. cbn [when] in Hs.
    apply bind_Some in Hs as (? & w6 & [-> _]%has_unsynced_run & Hs). by run_inv Hs. }
  subst w'. rewrite Hbe, Hu. destruct Hv as [?|[Hv _]]; [lia|].
  split; [done|]. split; [|lia]. simpl.
  assert (Hlt : (reh_index (ri_newest_entry_unsync (w_ri w)) <? reh_index (re_header re)) = true)
    by lia.
  rewrite Hlt. by destruct (raft_server_does_synchronous_writes _).
Qed.

(** Reading makes progress: the forward direction of [current_index_run]. *)
Lemma current_index_eq ty w :
  ri_state (w_ri w) <> RAFT_STATE_CLIENT -> hdr_valid (newest_hdr (w_ri w) ty) ->
  ty <> RI_NEHDR_ALL ->
  raft_server_get_current_raft_entry_index ty w =
    Some (reh_index (newest_hdr (w_ri w) ty), w).
Proof.
  intros Hc Hv Hty.
  unfold raft_server_get_current_raft_entry_index, raft_instance_get_newest_header,
    raft_instance_is_client, bind, ri_get, gets, assert_, ret, lift_option, fatal, id.
  simpl. rewrite bool_decide_false by done.
  rewrite (bool_decide_false (ty = RI_NEHDR_ALL)) by done. simpl.
  rewrite bool_decide_false by done.
  unfold raft_server_entry_header_is_null.
  destruct Hv as [Hn|[Hm Hi]].
  - by rewrite Hn.
  - rewrite Hm. simpl. by replace (0 <=? _) with true by lia.
Qed.

Lemma range_check_eq idx w :
  nehdr_ok (w_ri w) -> idx <= reh_index (ri_newest_entry_unsync (w_ri w)) ->
  ri_lowest_idx (w_ri w) <= idx ->
  raft_server_entry_range_check idx w = Some (0, w).
Proof.
  intros (Hc & _ & Hu & _) Hi Hlo. unfold raft_server_entry_range_check.
  erewrite bind_eq by (by apply current_index_eq). cbn [newest_hdr].
  unfold raft_server_entry_has_been_compacted, bind, ri_get, gets, ret.
  replace (_ <? idx) with false by lia. simpl. by replace (idx <? _) with false by lia.
Qed.

Lemma entry_read_by_store_eq w l idx re :
  ls_repr (w_ri w) (w_be w) l -> al_get l idx = Some re -> 0 <= idx ->
  reh_data_size (re_header re) <> 0 ->
  nehdr_ok (w_ri w) -> idx <= reh_index (ri_newest_entry_unsync (w_ri w)) ->
  ri_lowest_idx (w_ri w) <= idx -> ri_pending_read_idx (w_ri w) = RAFT_ENTRY_IDX_ANY ->
  raft_server_entry_read_by_store idx (reh_data_size (re_header re)) w =
    Some ((raft_server_entry_to_total_size re, Some re), w).
Proof.
  intros Hr Hg Hidx Hsz Hok Hi Hlo Hp. unfold raft_server_entry_read_by_store, assert_.
  replace (0 <=? idx) with true by lia. cbn [bind ret].
  unfold raft_server_read_entry_register_idx, raft_server_read_entry_register_idx_race,
    raft_server_entry_has_been_compacted, raft_server_read_entry_unregister_idx, assert_, when,
    be_get, ri_get, ri_upd, gets, modify, lift_option, fatal_if, fatal, id.
  replace (0 <=? idx) with true by lia.
  unfold bind at 1 2 3. cbn [ret]. unfold bind at 1. rewrite range_check_eq by done.
  unfold bind, ret. simpl. rewrite Hp. simpl. replace (idx <? _) with false by lia. simpl.
  rewrite (ls_entry_read _ _ l idx re); [|by eapply ls_repr_config; [|exact Hr] | done..].
  simpl. rewrite !Z.eqb_refl. simpl. rewrite andb_false_r. do 2 f_equal.
  destruct w as [ri ? ? ? ? ?], ri. simpl in *. by subst.
Qed.

(** What is read back of an entry the server made. *)
Lemma entry_read_eq w l idx re :
  ls_repr (w_ri w) (w_be w) l -> al_get l idx = Some re ->
  entry_wf (w_ri w) re idx -> reh_data_size (re_header re) <> 0 ->
  raft_server_entry_calc_crc re = Some (reh_crc (re_header re)) ->
  reh_self_uuid (re_header re) = ri_csn_this_peer (w_ri w) ->
  reh_raft_uuid (re_header re) = ri_csn_raft (w_ri w) ->
  nehdr_ok (w_ri w) -> idx <= reh_index (ri_newest_entry_unsync (w_ri w)) ->
  ri_lowest_idx (w_ri w) <= idx -> ri_pending_read_idx (w_ri w) = RAFT_ENTRY_IDX_ANY ->
  raft_server_entry_read idx (reh_data_size (re_header re)) w = Some ((0, re_data re), w).
Proof.
  intros Hr Hg Hwf Hsz Hcrc Hself Hraft Hok Hi Hlo Hp.
  destruct Hwf as [_ Hm Hidx Hpos Hsize Hmax Hmes].
  assert (reh_data_size (re_header re) <= ri_max_entry_size (w_ri w)).
  { unfold RAFT_ENTRY_MAX_DATA_SIZE, RAFT_ENTRY_HEADER_RESERVE, sizeof_raft_entry_header in *.
    rewrite u64_small in Hmax by lia. lia. }
  unfold raft_server_entry_read.
  unfold bind at 1, ri_get, gets, id. replace (_ <? _) with false by lia.
  erewrite bind_eq by (by eapply entry_read_by_store_eq). cbn [snd lift_option].
  unfold bind at 1. cbn [ret]. unfold read_server_entry_validate.
  rewrite Hm, Hidx, Hself, Hraft, !Z.eqb_refl. cbn [negb orb].
  replace (_ <? reh_data_size _) with false by lia. cbn [negb Z.eqb orb].
  rewrite Z.ltb_irrefl. unfold raft_server_entry_check_crc. rewrite Hcrc, Z.eqb_refl.
  cbn [lift_option]. unfold bind, ret. cbn [Z.eqb]. rewrite Hsize, Nat2Z.id, firstn_all. done.
Qed.
End server_store.
