(* ===== verification/PosixProps.v ===== *)
(** The flat-file backend as a log store: what reading gives after a write
    elsewhere, at the same place and after truncation, the representation of a log
    by the slots of the file, and the alternation of the two log headers. *)
From stdpp Require Import base tactics list gmap.
From Stdlib Require Import ZArith Lia Strings.Byte.
From S2P Require Import Prelude RaftTypes World Quorum Net WriteSupp Entry Log Election Append Leader ClientReq Apply Server Steps LogProps PosixBackend LogStore.
Local Open Scope Z_scope.
Local Open Scope raft_scope.

(** ** The file *)
(** [holds f off data]: the file contains [data] at [off]. *)
Definition holds (f : posix_file) (off : Z) (data : bytes) : Prop :=
  off + Z.of_nat (length data) <= f_size f /\
  forall j, (j < length data)%nat -> file_byte f (off + Z.of_nat j) = nth j data x00.

Lemma holds_read f off data : holds f off data -> file_read f off (Z.of_nat (length data)) = data.
Proof.
  intros [Hs Hb]. unfold file_read. rewrite Z.min_l by done. unfold zrange. rewrite map_map.
  replace (off + Z.of_nat (length data) - off) with (Z.of_nat (length data)) by lia.
  rewrite Nat2Z.id. apply (nth_ext _ _ x00 x00); [by rewrite length_map, length_seq|].
  intros n Hn. rewrite length_map, length_seq in Hn.
  rewrite (nth_indep _ x00 (file_byte f (off + Z.of_nat 0))) by (by rewrite length_map, length_seq).
  rewrite (map_nth (fun m => file_byte f (off + Z.of_nat m)) _ 0%nat), seq_nth by done. by apply Hb.
Qed.

Lemma holds_app f off a b : holds f off (a ++ b) -> holds f off a.
Proof.
  intros [Hs Hb]. rewrite length_app in *. split; [lia|]. intros j Hj.
  rewrite Hb by lia. by apply app_nth1.
Qed.

Lemma holds_write_same f off data : 0 <= off -> holds (file_write f off data) off data.
Proof.
  intros Hoff. split; [simpl; lia|]. intros j Hj. unfold file_byte. simpl.
  replace (_ && _) with true by lia. replace (_ && _) with true by lia. f_equal. lia.
Qed.

Lemma holds_write_other f off data o d :
  0 <= o -> holds f o d ->
  o + Z.of_nat (length d) <= off \/ off + Z.of_nat (length data) <= o ->
  holds (file_write f off data) o d.
Proof.
  intros Ho [Hs Hb] Hdisj. split; [simpl; lia|]. intros j Hj. rewrite <- Hb by done.
  unfold file_byte at 1. simpl. replace (_ && _) with true by lia.
  by replace (_ && _) with false by lia.
Qed.

Lemma holds_truncate f size o d :
  0 <= o -> holds f o d -> o + Z.of_nat (length d) <= size -> holds (file_truncate f size) o d.
Proof.
  intros Ho [Hs Hb] Hd. split; [done|]. intros j Hj. rewrite <- Hb by done.
  unfold file_byte at 1. simpl. by replace (_ && _) with true by lia.
Qed.

(** ** Entries as bytes *)
Lemma length_re_bytes re :
  length (reh_entry_sz (re_header re)) = 100%nat ->
  Z.of_nat (length (re_bytes re)) = sizeof_raft_entry_header + Z.of_nat (length (re_data re)).
Proof.
  intros H. unfold re_bytes. rewrite length_app. destruct (length_reh_bytes _ H). lia.
Qed.

Lemma re_of_bytes_re_bytes re : reh_wf (re_header re) -> re_of_bytes (re_bytes re) = re.
Proof.
  intros Hwf. destruct (length_reh_bytes _ (wf_sz_len _ Hwf)) as [Hl _].
  assert (Hn : Z.to_nat sizeof_raft_entry_header = length (reh_bytes (re_header re))) by lia.
  unfold re_of_bytes, re_bytes. rewrite Hn, take_app_length, drop_app_length.
  rewrite reh_of_bytes_reh_bytes by done. by destruct re.
Qed.

(** ** The representation *)
Definition posix_config (ri : raft_instance) : Prop :=
  ri_max_entry_size ri = RAFT_ENTRY_SIZE_POSIX /\ rlh_version (ri_log_hdr ri) = 0 /\
  ri_store_type ri = RAFT_INSTANCE_STORE_POSIX_FLAT_FILE.
Definition slot_off (idx : raft_entry_idx_t) : Z :=
  (idx + NUM_RAFT_LOG_HEADERS) * RAFT_ENTRY_SIZE_POSIX.

Record posix_repr (ri : raft_instance) (rip : raft_instance_posix) (l : alog) : Prop := {
  pr_config : posix_config ri;
  pr_io : rip_io rip = io_ok;
  pr_lo : al_lo l = 0;
  pr_size : f_size (rip_file rip) <= slot_off (al_next l);
  pr_entry i re : al_get l i = Some re ->
    entry_wf ri re i /\ holds (rip_file rip) (slot_off i) (re_bytes re);
}.

Section posix.
Context `{NC : NiovaCore}.

Lemma phys_offset_eq ri idx :
  posix_config ri -> - NUM_RAFT_LOG_HEADERS <= idx ->
  rsbr_raft_index_to_phys_offset ri idx = Some (slot_off idx).
Proof.
  intros (Hm & Hv & Hs) Hi. unfold rsbr_raft_index_to_phys_offset, rsbr_entry_idx_to_phys_idx,
    rsbr_get_num_log_headers, NUM_RAFT_LOG_HEADERS in *.
  rewrite Hm, Hv, Hs. rewrite bool_decide_true by done. simpl.
  by replace (0 <=? _) with true by lia.
Qed.

Lemma entry_total ri re idx :
  entry_wf ri re idx ->
  raft_server_entry_to_total_size re = Z.of_nat (length (re_bytes re)).
Proof.
  intros Hwf. destruct (entry_wf_total _ _ _ Hwf) as [-> _].
  rewrite length_re_bytes; [done|]. apply Hwf.
Qed.

(** Entries fit their slots. *)
Lemma slot_end ri re idx :
  posix_config ri -> entry_wf ri re idx ->
  slot_off idx + Z.of_nat (length (re_bytes re)) <= slot_off (idx + 1).
Proof.
  intros (Hm & _) Hwf. rewrite <- (entry_total _ _ _ Hwf).
  destruct (entry_wf_total _ _ _ Hwf) as [_ Hle]. rewrite Hm in Hle.
  unfold slot_off, NUM_RAFT_LOG_HEADERS, RAFT_ENTRY_SIZE_POSIX in *. lia.
Qed.
Lemma slot_mono i j : i <= j -> slot_off i <= slot_off j.
Proof. unfold slot_off, NUM_RAFT_LOG_HEADERS, RAFT_ENTRY_SIZE_POSIX. lia. Qed.
Lemma slot_nonneg i : - NUM_RAFT_LOG_HEADERS <= i -> 0 <= slot_off i.
Proof. unfold slot_off, NUM_RAFT_LOG_HEADERS, RAFT_ENTRY_SIZE_POSIX. lia. Qed.

Lemma pwrite_ok rip data off :
  rip_io rip = io_ok ->
  rip_pwrite rip data off =
    (Z.of_nat (length data), rip <| rip_file ::= fun f => file_write f off data |>).
Proof. unfold rip_pwrite. by intros ->. Qed.

Lemma take_total ri re idx :
  entry_wf ri re idx ->
  take (Z.to_nat (raft_server_entry_to_total_size re)) (re_bytes re) = re_bytes re.
Proof. intros Hwf. rewrite (entry_total _ _ _ Hwf), Nat2Z.id. apply firstn_all. Qed.

Lemma posix_write ri re ws rip rip' l :
  posix_repr ri rip l -> entry_wf ri re (al_next l) ->
  rsbp_entry_write ri re ws rip = Some rip' -> posix_repr ri rip' (al_append l re).
Proof.
  intros [Hc Hio Hlo Hsz He] Hwf H. unfold rsbp_entry_write, rsbr_raft_entry_to_phys_offset,
    rsbr_raft_entry_header_to_phys_offset in H.
  pose proof (ew_index _ _ _ Hwf) as Hi. pose proof (ew_idx _ _ _ Hwf) as Hpos.
  rewrite Hi, phys_offset_eq in H by (done || unfold NUM_RAFT_LOG_HEADERS; lia). simpl in H.
  rewrite (take_total _ _ _ Hwf), pwrite_ok in H by done.
  rewrite (entry_total _ _ _ Hwf), Z.eqb_refl in H. injection H as <-.
  pose proof (slot_end _ _ _ Hc Hwf). pose proof (slot_mono (al_next l) (al_next l + 1) ltac:(lia)).
  split; rewrite ?al_next_append; [done|done|done|apply Z.max_lub; lia|].
  intros i re'. rewrite al_get_append. destruct (Z.eqb_spec i (al_next l)) as [->|Hne].
  - intros [= <-]. split; [done|]. apply holds_write_same, slot_nonneg. unfold NUM_RAFT_LOG_HEADERS. lia.
  - intros Hg. pose proof (al_get_Some _ _ _ Hg). destruct (He _ _ Hg) as [Hw Hh].
    split; [done|]. apply holds_write_other; [apply slot_nonneg; unfold NUM_RAFT_LOG_HEADERS; lia | done|].
    left. pose proof (slot_end _ _ _ Hc Hw). pose proof (slot_mono (i + 1) (al_next l) ltac:(lia)). lia.
Qed.

Lemma posix_truncate ri rip rip' l n :
  posix_repr ri rip l -> al_lo l <= n <= al_next l ->
  rsbp_log_truncate ri n rip = Some rip' -> posix_repr ri rip' (al_truncate l n).
Proof.
  intros [Hc Hio Hlo Hsz He] Hn H. unfold rsbp_log_truncate in H.
  rewrite phys_offset_eq in H by (done || unfold NUM_RAFT_LOG_HEADERS; lia).
  rewrite Hio in H. simpl in H. unfold rsbp_sync in H. simpl in H. rewrite Hio in H. simpl in H.
  injection H as <-. split; simpl; rewrite ?al_next_truncate by done; try done.
  intros i re. rewrite al_get_truncate. destruct (Z.ltb_spec i n); [|done]. intros Hg.
  pose proof (al_get_Some _ _ _ Hg). destruct (He _ _ Hg) as [Hw Hh]. split; [done|].
  apply holds_truncate; [apply slot_nonneg; unfold NUM_RAFT_LOG_HEADERS; lia | done|].
  pose proof (slot_end _ _ _ Hc Hw). pose proof (slot_mono (i + 1) n ltac:(lia)). lia.
Qed.

Lemma pread_ok rip off data :
  rip_io rip = io_ok -> holds (rip_file rip) off data ->
  rip_pread rip (Z.of_nat (length data)) off = (Z.of_nat (length data), data).
Proof. intros Hio Hh. unfold rip_pread. rewrite Hio. simpl. by rewrite (holds_read _ _ _ Hh). Qed.

Lemma posix_entry_read ri rip l idx re :
  posix_repr ri rip l -> al_get l idx = Some re ->
  rsbp_entry_read ri idx (reh_data_size (re_header re)) rip =
    Some (raft_server_entry_to_total_size re, re).
Proof.
  intros [Hc Hio Hlo Hsz He] Hg. destruct (He _ _ Hg) as [Hw Hh].
  pose proof (al_get_Some _ _ _ Hg). unfold rsbp_entry_read, rsbp_read_common.
  rewrite phys_offset_eq by (done || unfold NUM_RAFT_LOG_HEADERS; lia). simpl.
  pose proof (entry_total _ _ _ Hw) as Ht. unfold raft_server_entry_to_total_size in *.
  rewrite Ht, pread_ok by done. cbn [mbind option_bind fst snd].
  by rewrite re_of_bytes_re_bytes by apply Hw.
Qed.

Lemma posix_header_read ri rip l idx re :
  posix_repr ri rip l -> al_get l idx = Some re ->
  rsbp_entry_header_read ri idx rip = Some (0, re_header re).
Proof.
  intros [Hc Hio Hlo Hsz He] Hg. destruct (He _ _ Hg) as [Hw Hh].
  pose proof (al_get_Some _ _ _ Hg). unfold rsbp_entry_header_read, rsbp_read_common.
  replace (idx <? 0) with false by lia.
  rewrite phys_offset_eq by (done || unfold NUM_RAFT_LOG_HEADERS; lia). cbn [mbind option_bind].
  unfold re_bytes in Hh. apply holds_app in Hh. destruct Hw as [Hw _ _ _ _ _ _].
  destruct (length_reh_bytes _ (wf_sz_len _ Hw)) as [Hl _].
  assert (Hp : rip_pread rip sizeof_raft_entry_header (slot_off idx) =
               (sizeof_raft_entry_header, reh_bytes (re_header re))).
  { rewrite <- Hl. by apply pread_ok. }
  rewrite Hp. cbn [fst snd]. rewrite reh_of_bytes_reh_bytes by done. done.
Qed.

Lemma posix_header_absent ri rip l idx :
  posix_repr ri rip l -> al_next l <= idx ->
  exists rc h, rsbp_entry_header_read ri idx rip = Some (rc, h) /\ rc < 0.
Proof.
  intros [Hc Hio Hlo Hsz He] Hi. pose proof (al_lo_next l).
  unfold rsbp_entry_header_read, rsbp_read_common. replace (idx <? 0) with false by lia.
  rewrite phys_offset_eq by (done || unfold NUM_RAFT_LOG_HEADERS; lia). simpl.
  unfold rip_pread. rewrite Hio. simpl.
  assert (file_read (rip_file rip) (slot_off idx) sizeof_raft_entry_header = []) as ->.
  { unfold file_read. rewrite zrange_nil; [done|]. pose proof (slot_mono (al_next l) idx ltac:(lia)). lia. }
  simpl. eexists _, _. split; [done|]. unfold EIO. lia.
Qed.

(** ** The log headers *)
Record rlh_wf (h : raft_log_header) : Prop := {
  hw_version : 0 <= rlh_version h < 2 ^ 64;
  hw_magic : rlh_magic h = RAFT_HEADER_MAGIC;
  hw_term : - 2 ^ 63 <= rlh_term h < 2 ^ 63;
  hw_seqno : 0 <= rlh_seqno h < 2 ^ 64;
  hw_voted : 0 <= rlh_voted_for h < 2 ^ 128;
}.

Lemma length_rlh_bytes h : Z.of_nat (length (rlh_bytes h)) = sizeof_raft_log_header.
Proof. unfold rlh_bytes. rewrite !length_app, !length_le_bytes. done. Qed.

Lemma rlh_of_bytes_rlh_bytes h : rlh_wf h -> rlh_of_bytes (rlh_bytes h) = h.
Proof.
  intros [? Hm ? ? ?]. unfold rlh_of_bytes, rlh_bytes. drop_fields.
  rewrite <- (app_nil_r (le_bytes 16 _)), take_le_bytes, le_val_le_bytes, s64_mod by done.
  change (256 ^ Z.of_nat 8) with (2 ^ 64). change (256 ^ Z.of_nat 16) with (2 ^ 128).
  rewrite !(Z.mod_small _ (2 ^ _)) by (done || rewrite Hm; done). by destruct h.
Qed.

(** The header slot [i] holds the valid header [h]. *)
Record valid_slot (rip : raft_instance_posix) (i : Z) (h : raft_log_header) : Prop := {
  vs_entry : exists re, holds (rip_file rip) (slot_off (i - NUM_RAFT_LOG_HEADERS)) (re_bytes re) /\
    reh_wf (re_header re) /\ re_data re = rlh_bytes h /\
    raft_server_entry_check_crc re = Some 0;
  vs_wf : rlh_wf h;
}.

Definition newer (most h : raft_log_header) : raft_log_header :=
  if negb (rlh_magic most =? RAFT_HEADER_MAGIC) || (rlh_seqno most <? rlh_seqno h) then h else most.

Lemma load_one_valid ri rip most i h :
  posix_config ri -> rip_io rip = io_ok -> 0 <= i -> valid_slot rip i h ->
  header_load_one ri rip most i = Some (newer most h).
Proof.
  intros Hc Hio Hi [(re & Hh & Hwf & Hd & Hcrc) Hw]. unfold header_load_one, rsbp_entry_read,
    rsbp_read_common.
  assert (rsbr_get_num_log_headers ri = Some NUM_RAFT_LOG_HEADERS) as ->.
  { destruct Hc as (_ & Hv & Hs). unfold rsbr_get_num_log_headers. rewrite Hv, Hs.
    by rewrite bool_decide_true. }
  cbn [mbind option_bind]. rewrite phys_offset_eq by (done || unfold NUM_RAFT_LOG_HEADERS; lia).
  cbn [mbind option_bind]. rewrite u64_small by done.
  pose proof (length_re_bytes _ (wf_sz_len _ Hwf)) as Hl. rewrite Hd, length_rlh_bytes in Hl.
  assert (Hp : rip_pread rip (sizeof_raft_entry_header + sizeof_raft_log_header)
                 (slot_off (i - NUM_RAFT_LOG_HEADERS)) =
               (sizeof_raft_entry_header + sizeof_raft_log_header, re_bytes re)).
  { rewrite <- Hl. by apply pread_ok. }
  rewrite Hp. cbn [fst snd]. rewrite Z.eqb_refl, re_of_bytes_re_bytes by done. cbn [negb].
  destruct re as [rh rd]. cbn [re_header re_data] in *. rewrite Hcrc. cbn [mbind option_bind Z.eqb negb].
  rewrite Hd, rlh_of_bytes_rlh_bytes by done. reflexivity.
Qed.

(** A slot whose content cannot be validated is skipped. *)
Definition torn_slot (ri : raft_instance) (rip : raft_instance_posix) (i : Z) : Prop :=
  forall most, header_load_one ri rip most i = Some most.

Lemma entry_init_header_some ri now idx term d :
  Z.of_nat (length d) = sizeof_raft_log_header -> idx < 0 ->
  ri_max_entry_size ri = RAFT_ENTRY_SIZE_POSIX ->
  exists re, raft_server_entry_init ri now idx term (Some d) [sizeof_raft_log_header] 1
               RAFT_WR_ENTRY_OPT_LOG_HEADER = Some re.
Proof.
  intros Hl Hi Hm. unfold raft_server_entry_init, RAFT_ENTRY_MAX_DATA_SIZE.
  change (raft_server_wr_entries_get_total_size [sizeof_raft_log_header] 1) with 48.
  rewrite Hm. replace (idx <? 0) with true by lia.
  match goal with |- context [if ?c then _ else _] => replace c with false by done end.
  cbv zeta. match goal with |- context [raft_server_entry_calc_crc ?e] => set (re := e) end.
  assert (Hsz : length (reh_entry_sz (re_header re)) = 100%nat) by done.
  destruct (length_reh_bytes _ Hsz) as [_ Hcb]. unfold raft_server_entry_calc_crc.
  change (s32 (sizeof_raft_entry_header + reh_data_size (re_header re) - offsetof_reh_data_size))
    with 500.
  replace (_ && _) with true; [by eexists|]. symmetry. apply andb_true_iff. split; [done|].
  apply Z.leb_le. rewrite length_app, Nat2Z.inj_add, Hcb.
  change (re_data re) with (take 48 d). rewrite length_take.
  unfold sizeof_raft_entry_header, offsetof_reh_data_size, sizeof_raft_log_header in *. lia.
Qed.

Context {OK : NiovaCoreOk NC}.

(** Writing the header: the entry goes to the slot the sequence number selects. *)
Lemma header_write_eq ri now rip :
  posix_config ri -> rip_io rip = io_ok -> ids_ok ri -> 0 <= now < 2 ^ 64 ->
  rlh_wf (ri_log_hdr ri) ->
  exists re, rsbp_header_write now ri rip =
    Some (0, rip <| rip_file ::= fun f => file_write f
       (slot_off (rlh_seqno (ri_log_hdr ri) mod 2 - NUM_RAFT_LOG_HEADERS)) (re_bytes re) |>) /\
    Z.of_nat (length (re_bytes re)) = sizeof_raft_entry_header + sizeof_raft_log_header /\
    reh_wf (re_header re) /\ re_data re = rlh_bytes (ri_log_hdr ri) /\
    raft_server_entry_check_crc re = Some 0.
Proof.
  intros Hc Hio Hids Hnow Hw. unfold rsbp_header_write.
  assert (rsbr_get_num_log_headers ri = Some NUM_RAFT_LOG_HEADERS) as ->.
  { destruct Hc as (_ & Hv & Hs). unfold rsbr_get_num_log_headers. rewrite Hv, Hs.
    by rewrite bool_decide_true. }
  cbn [mbind option_bind]. change (Z.max 1 NUM_RAFT_LOG_HEADERS) with 2.
  set (s := rlh_seqno (ri_log_hdr ri)). pose proof (Z.mod_pos_bound s 2 ltac:(lia)) as Hs.
  assert (Hi : s mod 2 - NUM_RAFT_LOG_HEADERS < 0) by (unfold NUM_RAFT_LOG_HEADERS; lia).
  unfold raft_server_entry_init_for_log_header. rewrite (proj2 (Z.ltb_lt _ _) Hi).
  destruct (entry_init_header_some ri now _ (rlh_term (ri_log_hdr ri)) _
              (length_rlh_bytes (ri_log_hdr ri)) Hi (proj1 Hc)) as [re Hre].
  rewrite Hre. cbn [mbind option_bind]. exists re.
  pose proof (raft_server_entry_init_inv _ _ _ _ _ _ _ _ _ Hre)
    as (Hcrc & _ & Hidx & _ & _ & _ & _ & Hds & _ & _ & _ & Hdata & _).
  change (raft_server_wr_entries_get_total_size [sizeof_raft_log_header] 1) with 48 in Hds.
  assert (Hd : re_data re = rlh_bytes (ri_log_hdr ri)).
  { rewrite Hdata, Hds. simpl default. rewrite firstn_all2; [done|].
    pose proof (length_rlh_bytes (ri_log_hdr ri)). unfold sizeof_raft_log_header in *. lia. }
  assert (Hwf : reh_wf (re_header re)).
  { apply (entry_init_reh_wf _ _ _ _ _ _ _ _ _ Hre); [done..| |apply Hw|].
    - unfold NUM_RAFT_LOG_HEADERS in *. lia.
    - constructor; [done|constructor]. }
  pose proof (length_re_bytes _ (wf_sz_len _ Hwf)) as Hl. rewrite Hd, length_rlh_bytes in Hl.
  assert (Ht : raft_server_entry_to_total_size re = Z.of_nat (length (re_bytes re))).
  { unfold raft_server_entry_to_total_size. by rewrite Hds, Hl. }
  unfold rsbr_raft_entry_to_phys_offset, rsbr_raft_entry_header_to_phys_offset.
  rewrite Hidx, phys_offset_eq by (done || unfold NUM_RAFT_LOG_HEADERS in *; lia).
  cbn [mbind option_bind]. rewrite Ht, Nat2Z.id, firstn_all, pwrite_ok, Z.eqb_refl by done.
  split_and!; try done. unfold raft_server_entry_check_crc. by rewrite Hcrc, Z.eqb_refl.
Qed.

Lemma header_write_repr_posix ri now rip rip' rc l :
  posix_repr ri rip l -> rsbp_header_write now ri rip = Some (rc, rip') -> posix_repr ri rip' l.
Proof.
  intros [Hc Hio Hlo Hsz He] H. unfold rsbp_header_write in H.
  destruct (rsbr_get_num_log_headers ri) as [n|] eqn:Hn; [|done]. cbn [mbind option_bind] in H.
  assert (n = NUM_RAFT_LOG_HEADERS) as ->.
  { unfold rsbr_get_num_log_headers in Hn. by destruct (_ && _); simplify_eq. }
  change (Z.max 1 NUM_RAFT_LOG_HEADERS) with 2 in H.
  set (s := rlh_seqno (ri_log_hdr ri)) in *. pose proof (Z.mod_pos_bound s 2 ltac:(lia)) as Hs.
  unfold raft_server_entry_init_for_log_header in H. destruct (_ <? 0); [|done].
  destruct (raft_server_entry_init _ _ _ _ _ _ _ _) as [re|] eqn:Hre; [|done].
  cbn [mbind option_bind] in H.
  pose proof (raft_server_entry_init_inv _ _ _ _ _ _ _ _ _ Hre)
    as (_ & _ & Hidx & _ & _ & _ & _ & Hds & _).
  change (raft_server_wr_entries_get_total_size [sizeof_raft_log_header] 1) with 48 in Hds.
  unfold rsbr_raft_entry_to_phys_offset, rsbr_raft_entry_header_to_phys_offset in H.
  rewrite Hidx, phys_offset_eq in H by (done || unfold NUM_RAFT_LOG_HEADERS in *; lia).
  cbn [mbind option_bind] in H. rewrite pwrite_ok in H by done. injection H as _ <-.
  set (data := take _ (re_bytes re)). set (off := slot_off _).
  assert (Hd : off + Z.of_nat (length data) <= slot_off 0).
  { assert (Z.of_nat (length data) <= 544).
    { unfold data. rewrite length_take. unfold raft_server_entry_to_total_size. rewrite Hds.
      change (u64 (sizeof_raft_entry_header + 48)) with 544. lia. }
    unfold off, slot_off, NUM_RAFT_LOG_HEADERS, RAFT_ENTRY_SIZE_POSIX in *. lia. }
  pose proof (al_lo_next l). split; try done.
  - pose proof (slot_mono 0 (al_next l) ltac:(lia)). apply Z.max_lub; lia.
  - intros i re' Hg. destruct (He _ _ Hg) as [Hw Hh]. split; [done|].
    pose proof (al_get_Some _ _ _ Hg). pose proof (slot_mono 0 i ltac:(lia)).
    apply holds_write_other; [apply slot_nonneg; unfold NUM_RAFT_LOG_HEADERS; lia | done | lia].
Qed.

#[export] Instance posix_log_store : LogStore raft_instance_posix.
Proof.
  refine (Build_LogStore raft_instance_posix _ posix_repr (fun _ => True) (2 ^ 46) _ _ _ _ _ _ _ _).
  - intros ri ri' rip l Hcfg [(Hm & Hv & Hs) Hio Hlo Hsz He]. unfold ls_config in Hcfg.
    injection Hcfg as Hm' Hs' _ Hv'. split; try done.
    + unfold posix_config. rewrite Hm', Hs', Hv'. done.
    + intros i re Hg. destruct (He i re Hg) as [[? ? ? ? ? Hx ?] Hh]. split; [|done].
      split; try done; [|by rewrite Hm']. unfold RAFT_ENTRY_MAX_DATA_SIZE in *. by rewrite Hm'.
  - intros ri re ws rip rip' l Hr Hwf _ _ H. exact (posix_write ri re ws rip rip' l Hr Hwf H).
  - exact posix_header_read.
  - intros ri rip l idx Hr [Hi _]. exact (posix_header_absent ri rip l idx Hr Hi).
  - intros ri rip l idx re Hr Hg _. exact (posix_entry_read ri rip l idx re Hr Hg).
  - intros ri rip rip' l n Hr Hn _ H. exact (posix_truncate ri rip rip' l n Hr Hn H).
  - intros ri rip rip' l now rc Hr H. exact (header_write_repr_posix ri now rip rip' rc l Hr H).
  - intros ri sync rip rip' l now rc [= <-] Hr [= _ <-]. exact Hr.
Defined.
End posix.
