(* ===== verification/RocksProps.v ===== *)
(** The RocksDB backend as a log store: which key-value pairs represent a log,
    and that every operation of [RocksBackend] that touches the log implements the
    operation on the abstract log. *)
From Stdlib Require Import Strings.String.
From stdpp Require Import base tactics list gmap.
From Stdlib Require Import ZArith Lia Strings.Byte.
From S2P Require Import Prelude RaftTypes World Quorum Net WriteSupp Entry Log Election Append Leader ClientReq Apply Server Steps LogProps PosixBackend RocksKeys RocksBackend RocksRecovery RocksBulk LogStore.
Local Open Scope Z_scope.
Local Open Scope raft_scope.

(** ** Write batches *)
Definition touches (op : wb_op) (k : bytes) : bool :=
  match op with
  | rocksdb_writebatch_put key _ | rocksdb_writebatch_delete key => bool_decide (k = key)
  | rocksdb_writebatch_delete_range a b => negb (bytes_ltb k a) && bytes_ltb k b
  | _ => false
  end.

Lemma wb_run_untouched ops f k :
  Forall (fun op => touches op k = false) ops -> wb_run ops f k = f k.
Proof.
  intros H. revert f. induction H as [|op ops Hop _ IH]; intros f; [done|].
  change (wb_run (op :: ops) f k) with (wb_run ops (wb_apply f op) k). rewrite IH.
  destruct op; simpl in *; try done; by rewrite Hop.
Qed.

Lemma wb_run_app ops ops' f : wb_run (ops ++ ops') f = wb_run ops' (wb_run ops f).
Proof. apply foldl_app. Qed.

(** ** Keys *)
Lemma ekey_inj i j s s' :
  key_idx_ok i -> key_idx_ok j ->
  RAFT_ENTRY_KEY_PREFIX_ROCKSDB ++ fmt_zu 16 i ++ s =
  RAFT_ENTRY_KEY_PREFIX_ROCKSDB ++ fmt_zu 16 j ++ s' -> i = j /\ s = s'.
Proof.
  intros Hi Hj H. destruct (Z.lt_trichotomy i j) as [Hl|[<-|Hl]].
  - pose proof (entry_key_lt i j s s' Hi Hj Hl) as Hlt. rewrite H in Hlt.
    by apply irreflexivity in Hlt; [|apply _].
  - split; [done|]. by apply app_inv_head, app_inv_head in H.
  - pose proof (entry_key_lt j i s' s Hj Hi Hl) as Hlt. rewrite H in Hlt.
    by apply irreflexivity in Hlt; [|apply _].
Qed.

Lemma hkey_inj i j : key_idx_ok i -> key_idx_ok j ->
  RAFT_ENTRY_HEADER_KEY_PRINTF i = RAFT_ENTRY_HEADER_KEY_PRINTF j -> i = j.
Proof. intros ? ? H. by eapply ekey_inj in H as [? _]. Qed.
Lemma ekey_inj' i j : key_idx_ok i -> key_idx_ok j ->
  RAFT_ENTRY_KEY_PRINTF i = RAFT_ENTRY_KEY_PRINTF j -> i = j.
Proof. intros ? ? H. by eapply ekey_inj in H as [? _]. Qed.
Lemma hkey_ekey i j : key_idx_ok i -> key_idx_ok j ->
  RAFT_ENTRY_HEADER_KEY_PRINTF i <> RAFT_ENTRY_KEY_PRINTF j.
Proof. intros ? ? H. by eapply ekey_inj in H as [_ ?]. Qed.

(** The keys an application may use in the default column family: those below
    the log header and those above every end marker. *)
Definition app_key (k : bytes) : Prop :=
  bytes_lt k RAFT_LOG_HEADER_ROCKSDB \/ bytes_le (str "z0_last/") k.
Definition rocks_ws_ok (ws : option raft_net_sm_write_supplements) : Prop :=
  match ws with
  | None => True
  | Some ws => Forall (fun s => rnws_handle s <> 0 \/ app_key (rnws_key s)) (rnsws_ws ws)
  end.

(** The keys of the backend, from the metadata to the end markers. *)
Definition own_key (k : bytes) : Prop :=
  bytes_le RAFT_LOG_HEADER_ROCKSDB k /\ bytes_lt k (str "z0_last/").

Lemma own_not_app k : own_key k -> ~ app_key k.
Proof.
  intros [H1 H2] [H3|H3]; unfold bytes_le, bytes_lt in *; congruence.
Qed.

Lemma supp_untouched ws k :
  rocks_ws_ok ws -> own_key k ->
  Forall (fun op => touches op k = false) (rsbr_write_supplements_put ws []).
Proof.
  destruct ws as [ws|]; simpl; [|constructor]. intros H Hk. apply Forall_fmap.
  eapply Forall_impl; [exact H|]. intros s Hs. unfold compose, supp_op.
  destruct (Z.eqb_spec (rnws_handle s) 0) as [E|E], (rnws_op s); simpl; try done;
    apply bool_decide_eq_false; intros ->; (destruct Hs as [?|Hs]; [done|]);
    by eapply own_not_app.
Qed.

Lemma supp_put_app ws wb :
  rsbr_write_supplements_put ws wb = wb ++ rsbr_write_supplements_put ws [].
Proof. destruct ws; simpl; [done | by rewrite app_nil_r]. Qed.

Lemma own_entry_key x : own_key (RAFT_ENTRY_KEY_PREFIX_ROCKSDB ++ x).
Proof. split; reflexivity. Qed.
Lemma own_meta_key x : own_key (RAFT_LOG_HEADER_ROCKSDB_END ++ x).
Proof. split; reflexivity. Qed.
Lemma own_last_key x : own_key (RAFT_LOG_LASTENTRY_ROCKSDB ++ x).
Proof. split; reflexivity. Qed.

(** ** Logs as key-value pairs *)
Definition entry_val (re : raft_entry) : bytes :=
  if negb (reh_data_size (re_header re) =? 0)
  then take (Z.to_nat (reh_data_size (re_header re))) (re_data re) else [x00].

Record db_log (f : bytes -> option bytes) (l : alog) : Prop := {
  dl_lo : 0 <= al_lo l;
  dl_hi : al_next l <= 10 ^ 16;
  dl_hdr i re : al_get l i = Some re ->
    f (RAFT_ENTRY_HEADER_KEY_PRINTF i) = Some (reh_bytes (re_header re));
  dl_val i re : al_get l i = Some re -> f (RAFT_ENTRY_KEY_PRINTF i) = Some (entry_val re);
  dl_only x : is_Some (f (RAFT_ENTRY_KEY_PREFIX_ROCKSDB ++ x)) ->
    exists i, al_lo l <= i < al_next l /\
      (RAFT_ENTRY_KEY_PREFIX_ROCKSDB ++ x = RAFT_ENTRY_HEADER_KEY_PRINTF i \/
       RAFT_ENTRY_KEY_PREFIX_ROCKSDB ++ x = RAFT_ENTRY_KEY_PRINTF i);
  dl_wf i re : al_get l i = Some re -> reh_wf (re_header re) /\ reh_index (re_header re) = i /\
    reh_data_size (re_header re) = Z.of_nat (length (re_data re)) /\
    reh_data_size (re_header re) < 2 ^ 32;
}.

(** The metadata around the log: the end marker, the database's uuid, and nothing
    else between the metadata and the end marker than they and the log. *)
Record db_meta (f : bytes -> option bytes) : Prop := {
  dm_last : exists x, is_Some (f (RAFT_LOG_LASTENTRY_ROCKSDB ++ x));
  dm_uuid : is_Some (f RAFT_LOG_HEADER_UUID);
  dm_only k : is_Some (f k) -> bytes_le RAFT_LOG_HEADER_ROCKSDB_END k ->
    bytes_lt k RAFT_LOG_LASTENTRY_ROCKSDB ->
    prefix_of RAFT_LOG_HEADER_ROCKSDB_END k = true \/
    prefix_of RAFT_ENTRY_KEY_PREFIX_ROCKSDB k = true;
}.

Lemma dl_idx_ok f l i : db_log f l -> al_lo l <= i < al_next l -> key_idx_ok i.
Proof. intros [? ? _ _ _ _] ?. unfold key_idx_ok. lia. Qed.

(** Writes elsewhere leave log and metadata alone. *)
Lemma db_log_ext f f' l :
  (forall x, f' (RAFT_ENTRY_KEY_PREFIX_ROCKSDB ++ x) = f (RAFT_ENTRY_KEY_PREFIX_ROCKSDB ++ x)) ->
  db_log f l -> db_log f' l.
Proof.
  intros He [? ? Hh Hv Ho Hw]. split; try done.
  - intros i re Hi. rewrite <- (Hh i re Hi). apply He.
  - intros i re Hi. rewrite <- (Hv i re Hi). apply He.
  - intros x. rewrite He. apply Ho.
Qed.

Lemma db_meta_ext f f' :
  (forall k, bytes_le RAFT_LOG_HEADER_ROCKSDB_END k -> bytes_lt k (str "z0_last/") ->
     f' k = f k \/ (is_Some (f' k) /\ prefix_of RAFT_LOG_HEADER_ROCKSDB_END k = true)
     \/ prefix_of RAFT_ENTRY_KEY_PREFIX_ROCKSDB k = true) ->
  db_meta f -> db_meta f'.
Proof.
  intros He [(x & Hl) Hu Ho]. split.
  - exists x. destruct (He (RAFT_LOG_LASTENTRY_ROCKSDB ++ x)) as [->|[[? _]|?]]; try done.
  - destruct (He RAFT_LOG_HEADER_UUID) as [->|[[? _]|?]]; done.
  - intros k Hk H1 H2. destruct (He k H1) as [Heq|[[_ ?]|?]]; [|rewrite Heq in Hk|auto..]; auto.
    eapply transitivity; [exact H2 | reflexivity].
Qed.

(** ** The operations on the pairs *)
Lemma db_log_write f l ri re ws :
  db_log f l -> entry_wf ri re (al_next l) -> rocks_ws_ok ws -> al_next l < 10 ^ 16 ->
  db_log (wb_run ([rocksdb_writebatch_put (RAFT_ENTRY_HEADER_KEY_PRINTF (al_next l))
                     (reh_bytes (re_header re))]
                  ++ [rocksdb_writebatch_put (RAFT_ENTRY_KEY_PRINTF (al_next l)) (entry_val re)]
                  ++ rsbr_write_supplements_put ws []) f) (al_append l re).
Proof.
  intros Hl Hwf Hws Hlt.
  set (f1 := wb_run [rocksdb_writebatch_put (RAFT_ENTRY_HEADER_KEY_PRINTF (al_next l))
                     (reh_bytes (re_header re));
                  rocksdb_writebatch_put (RAFT_ENTRY_KEY_PRINTF (al_next l)) (entry_val re)] f).
  assert (Hn : key_idx_ok (al_next l)).
  { destruct Hl. pose proof (al_lo_next l). unfold key_idx_ok. lia. }
  pose proof (al_lo_next l) as Hle.
  assert (H1 : db_log f1 (al_append l re)).
  { destruct Hl as [? ? Hh Hv Ho Hw].
    assert (Hok : forall i re', al_get l i = Some re' -> key_idx_ok i /\ i <> al_next l).
    { intros i re' Hi%al_get_Some. unfold key_idx_ok. lia. }
    split; simpl; rewrite ?al_next_append; try done; try lia.
    - intros i re'. rewrite al_get_append. unfold f1. simpl.
      destruct (Z.eqb_spec i (al_next l)) as [->|Hne].
      + intros [= ->]. rewrite bool_decide_false by (by apply hkey_ekey).
        by rewrite bool_decide_true.
      + intros Hi. destruct (Hok _ _ Hi). rewrite bool_decide_false by (by apply hkey_ekey).
        rewrite bool_decide_false; [by apply Hh | by intros ?%hkey_inj].
    - intros i re'. rewrite al_get_append. unfold f1. simpl.
      destruct (Z.eqb_spec i (al_next l)) as [->|Hne].
      + intros [= ->]. by rewrite bool_decide_true.
      + intros Hi. destruct (Hok _ _ Hi).
        rewrite bool_decide_false by (by intros ?%ekey_inj').
        rewrite bool_decide_false; [by apply Hv | intros E; symmetry in E; by apply hkey_ekey in E].
    - intros x Hx. unfold f1, wb_run in Hx. simpl in Hx. case_bool_decide as E1.
      { exists (al_next l). split; [lia | by right]. }
      case_bool_decide as E2. { exists (al_next l). split; [lia | by left]. }
      destruct (Ho x Hx) as (i & ? & ?). exists i. split; [lia | done].
    - intros i re'. rewrite al_get_append. destruct (Z.eqb_spec i (al_next l)) as [->|]; [|apply Hw].
      intros [= <-]. destruct Hwf as [Hh' _ ? _ Hs _ _]. split_and!; [done..|].
      apply Hh'. }
  eapply db_log_ext; [|exact H1]. intros x. rewrite (app_assoc [_] [_]), wb_run_app.
  rewrite wb_run_untouched; [done|]. apply supp_untouched; [done | apply own_entry_key].
Qed.

Lemma db_log_truncate f l n :
  db_log f l -> al_lo l <= n <= al_next l ->
  n < 10 ^ 16 ->
  db_log (wb_run [rocksdb_writebatch_delete_range (RAFT_ENTRY_KEY_PRINTF n)
                    RAFT_LOG_LASTENTRY_ROCKSDB] f) (al_truncate l n).
Proof.
  intros Hl Hn Hlim. pose proof Hl as [Hlo Hhi Hh Hv Ho Hw].
  assert (Hnok : key_idx_ok n) by (unfold key_idx_ok; lia).
  assert (Hkeep : forall i, key_idx_ok i -> i < n ->
    bytes_ltb (RAFT_ENTRY_HEADER_KEY_PRINTF i) (RAFT_ENTRY_KEY_PRINTF n) = true /\
    bytes_ltb (RAFT_ENTRY_KEY_PRINTF i) (RAFT_ENTRY_KEY_PRINTF n) = true).
  { intros i ? ?. split; by apply (entry_key_lt i n). }
  split; rewrite ?al_next_truncate by done; cbn [al_lo al_truncate]; try lia.
  - intros i re. rewrite al_get_truncate. destruct (Z.ltb_spec i n); [|done]. intros Hi.
    cbn [wb_run foldl wb_apply]. destruct (Hkeep i) as [-> _]; [|done|by apply Hh].
    eapply dl_idx_ok, al_get_Some; done.
  - intros i re. rewrite al_get_truncate. destruct (Z.ltb_spec i n); [|done]. intros Hi.
    cbn [wb_run foldl wb_apply]. destruct (Hkeep i) as [_ ->]; [|done|by apply Hv].
    eapply dl_idx_ok, al_get_Some; done.
  - intros x Hx. unfold wb_run in Hx. cbn [foldl wb_apply] in Hx.
    destruct (negb _ && _) eqn:E; [by destruct Hx|].
    destruct (Ho x Hx) as (i & Hi & Hk). exists i. split; [|done].
    split; [lia|]. apply Z.nle_gt. intros Hni.
    assert (Hok : key_idx_ok i) by (by eapply dl_idx_ok).
    assert (Hge : bytes_ltb (RAFT_ENTRY_KEY_PREFIX_ROCKSDB ++ x) (RAFT_ENTRY_KEY_PRINTF n) = false).
    { destruct (decide (i = n)) as [->|].
      - destruct Hk as [->| ->]; [apply bytes_lt_le, entry_key_header_lt | apply bytes_le_refl].
      - destruct Hk as [->| ->]; apply bytes_lt_le; apply (entry_key_lt n i); done || lia. }
    rewrite Hge in E. simpl in E.
    change (bytes_ltb (RAFT_ENTRY_KEY_PREFIX_ROCKSDB ++ x) RAFT_LOG_LASTENTRY_ROCKSDB) with true in E.
    done.
  - intros i re. rewrite al_get_truncate. destruct (_ <? _); [|done]. apply Hw.
Qed.

(** Items that leave the log alone and at most add metadata. *)
Definition quiet (op : wb_op) : Prop :=
  match op with
  | rocksdb_writebatch_put k _ => ~ own_key k \/
      prefix_of RAFT_LOG_HEADER_ROCKSDB_END k = true \/
      prefix_of RAFT_LOG_HEADER_ROCKSDB k = true \/
      exists x, k = RAFT_LOG_LASTENTRY_ROCKSDB ++ x
  | _ => forall k, own_key k -> touches op k = false
  end.

Lemma quiet_get ops f k :
  Forall quiet ops -> own_key k ->
  wb_run ops f k = f k \/ (is_Some (wb_run ops f k) /\
    (prefix_of RAFT_LOG_HEADER_ROCKSDB_END k = true \/
     prefix_of RAFT_LOG_HEADER_ROCKSDB k = true \/
     exists x, k = RAFT_LOG_LASTENTRY_ROCKSDB ++ x)).
Proof.
  intros Hops Hk. revert f. induction Hops as [|op ops Hop _ IH]; [by left|].
  intros f. change (wb_run (op :: ops) f k) with (wb_run ops (wb_apply f op) k).
  destruct (IH (wb_apply f op)) as [->|?]; [|by right].
  destruct op as [key val| | | |]; simpl; try specialize (Hop k Hk); simpl in *;
    [|by left|by rewrite Hop; left|by left|by rewrite Hop; left].
  case_bool_decide as E; [subst|by left]. right. split; [done|]. tauto.
Qed.

(** What lies between the metadata and the end markers is the backend's. *)
Lemma own_between k :
  bytes_le RAFT_LOG_HEADER_ROCKSDB_END k -> bytes_lt k RAFT_LOG_LASTENTRY_ROCKSDB -> own_key k.
Proof.
  intros H1 H2. split; [|eapply transitivity; [exact H2 | reflexivity]].
  apply bytes_lt_le. destruct (bytes_ltb RAFT_LOG_HEADER_ROCKSDB k) eqn:E; [done|].
  exfalso. assert (bytes_lt k RAFT_LOG_HEADER_ROCKSDB_END);
    [|unfold bytes_le, bytes_lt in *; congruence].
  eapply bytes_le_lt_trans; [exact E | reflexivity].
Qed.

Lemma quiet_repr ops f f' l :
  (forall k, f' k = wb_run ops f k) -> Forall quiet ops ->
  db_log f l -> db_meta f -> db_log f' l /\ db_meta f'.
Proof.
  intros Hf Hops Hl Hm.
  pose proof (fun k Hk => quiet_get ops f k Hops Hk) as Hg. setoid_rewrite <- Hf in Hg. split.
  - eapply db_log_ext; [|done]. intros x.
    destruct (Hg (RAFT_ENTRY_KEY_PREFIX_ROCKSDB ++ x) (own_entry_key x)) as [?|[_ [?|[?|(? & ?)]]]];
      done.
  - destruct Hm as [(x & Hlast) Hu Ho]. split.
    + exists x. by destruct (Hg (RAFT_LOG_LASTENTRY_ROCKSDB ++ x) (own_last_key x)) as [->|[? _]].
    + by destruct (Hg RAFT_LOG_HEADER_UUID (own_meta_key (str "UUID"))) as [->|[? _]].
    + intros k Hk H1 H2.
      destruct (Hg k (own_between k H1 H2)) as [Heq|[_ [?|[Hp|(y & ->)]]]]; [|by left| |].
      * rewrite Heq in Hk. auto.
      * apply prefix_of_true in Hp as (y & ->). unfold bytes_le in H1. done.
      * unfold bytes_lt in H2. by rewrite bytes_ltb_prefix in H2.
Qed.

(** ** The backend *)
Section rocks_store.
Context `{NC : NiovaCore} {D : Type} `{RD : RocksDB D} {ROK : RocksDBOk D}
  `{NU : NiovaUtil} `{RE : RecoveryEnv D}.
Implicit Types st : rocks_state D.

(** The open database of the state, and that it represents the log [l]. *)
Definition rocks_db (ri : raft_instance) st (d : D) : Prop :=
  rsbr_ri_to_rocksdb ri st = Some d.
Definition rocks_repr (ri : raft_instance) st (l : alog) : Prop :=
  exists d, rocks_db ri st d /\ db_log (rocksdb_get d) l /\ db_meta (rocksdb_get d).

Lemma rirdb_set_db ri st rir d :
  rsbr_ri_to_rirdb ri st = Some rir ->
  rsbr_ri_to_rirdb ri (st <| ri_backend_arg := Some (rir <| rir_db := Some d |>) |>)
    = Some (rir <| rir_db := Some d |>).
Proof.
  unfold rsbr_ri_to_rirdb. simpl. destruct (ri_backend_arg st) as [r|]; simpl; [|done].
  destruct (bool_decide _ && negb _) eqn:E; [done|]. intros [= <-]. by rewrite E.
Qed.

Lemma rs_write_run sync ops ri st st' d :
  rs_write sync ops ri st = Some st' -> rocks_db ri st d ->
  exists d', rocks_db ri st' d' /\ rocksdb_write sync ops d = Some d'.
Proof.
  unfold rocks_db, rsbr_ri_to_rocksdb, rs_write, rir_write, rsbr_ri_to_rirdb.
  intros H Hd. destruct (ri_backend_arg st) as [rir|] eqn:Ea; simpl in *; [|done].
  destruct (bool_decide _ && negb _) eqn:Ep; simpl in *; [done|].
  destruct (rir_writebatch rir && _) eqn:Ef; simpl in *; [|done].
  rewrite Hd in H. simpl in H. destruct (rocksdb_write sync ops d) as [d'|] eqn:Ew; [|done].
  simpl in H. injection H as <-. exists d'. split; [|done].
  simpl. rewrite Ep. done.
Qed.

Lemma rocks_db_config ri ri' st d :
  ri_proc_state ri' = ri_proc_state ri -> rocks_db ri st d -> rocks_db ri' st d.
Proof. unfold rocks_db, rsbr_ri_to_rocksdb, rsbr_ri_to_rirdb. by intros ->. Qed.

(** While the server is not running the state of its process does not matter. *)
Lemma rocks_repr_proc ri ri' st l :
  ri_proc_state ri <> RAFT_PROC_STATE_RUNNING -> ri_proc_state ri' <> RAFT_PROC_STATE_RUNNING ->
  rocks_repr ri st l -> rocks_repr ri' st l.
Proof.
  intros H H' (d & Hd & Hr). exists d. split; [|exact Hr]. revert Hd.
  unfold rocks_db, rsbr_ri_to_rocksdb, rsbr_ri_to_rirdb. by rewrite !bool_decide_false.
Qed.

Lemma rs_write_repr sync ops ri st st' l :
  rs_write sync ops ri st = Some st' -> rocks_repr ri st l -> Forall quiet ops ->
  rocks_repr ri st' l.
Proof.
  intros H (d & Hd & Hl & Hm) Hops.
  destruct (rs_write_run _ _ _ _ _ _ H Hd) as (d' & Hd' & Hw). exists d'. split; [done|].
  eapply quiet_repr; [intros k; by eapply rocksdb_write_get | done..].
Qed.

Lemma supp_quiet ws : rocks_ws_ok ws -> Forall quiet (rsbr_write_supplements_put ws []).
Proof.
  intros H. apply Forall_forall. intros op Hop.
  assert (Ht : forall k, own_key k -> touches op k = false).
  { intros k Hk. pose proof (supp_untouched ws k H Hk) as Hf. rewrite Forall_forall in Hf. auto. }
  destruct op; simpl; auto. left. intros Hk. specialize (Ht _ Hk). simpl in Ht.
  by rewrite bool_decide_true in Ht.
Qed.

(** The other operations of the backend leave the log as it is. *)
Lemma sm_apply_opt_repr ri ws st st' l :
  rsbr_sm_apply_opt ri ws st = Some st' -> rocks_repr ri st l -> rocks_ws_ok ws ->
  rocks_repr ri st' l.
Proof.
  unfold rsbr_sm_apply_opt. rewrite supp_put_app. intros H Hr Hws.
  eapply rs_write_repr; [exact H | done|].
  apply Forall_app. split; [|by apply supp_quiet].
  apply Forall_singleton. simpl. auto.
Qed.

Lemma header_write_repr ri st st' l rc :
  rsbr_header_write ri st = Some (rc, st') -> rocks_repr ri st l -> rocks_repr ri st' l.
Proof.
  unfold rsbr_header_write. intros H Hr.
  destruct (rs_write _ _ _ _) as [st1|] eqn:Hw; [|done]. injection H as <- <-.
  eapply rs_write_repr; [exact Hw | done|]. apply Forall_singleton. simpl. auto.
Qed.

Lemma sync_repr ri now st st' l rc :
  rsbr_sync now ri st = Some (rc, st') -> rocks_repr ri st l -> rocks_repr ri st' l.
Proof.
  unfold rsbr_sync. intros H (d & Hd & Hl & Hm).
  destruct (rsbr_ri_to_rirdb ri st) as [rir|] eqn:Er; [|done]. cbn [mbind option_bind] in H.
  destruct (negb _) in H; [done|].
  pose proof Hd as Hrd. unfold rocks_db, rsbr_ri_to_rocksdb in Hrd. rewrite Er in Hrd.
  simpl in Hrd. rewrite Hrd in H. cbn [mbind option_bind] in H.
  destruct (rocksdb_write _ _ _) as [d'|] eqn:Ew; [|done]. injection H as _ <-.
  exists d'. split.
  - unfold rocks_db, rsbr_ri_to_rocksdb. exact (f_equal (fun r => r ≫= rir_db) (rirdb_set_db ri st rir d' Er)).
  - eapply quiet_repr; [intros k; by eapply rocksdb_write_get | | done..].
    apply Forall_singleton. simpl. auto.
Qed.

Lemma entry_write_repr ri re ws st st' l :
  rsbr_entry_write ri re ws st = Some st' -> rocks_repr ri st l ->
  entry_wf ri re (al_next l) -> rocks_ws_ok ws -> al_next l < 10 ^ 16 ->
  rocks_repr ri st' (al_append l re).
Proof.
  unfold rsbr_entry_write. intros H (d & Hd & Hl & Hm) Hwf Hws Hlt.
  rewrite (ew_index _ _ _ Hwf) in H.
  destruct (al_next l <? 0) eqn:E; [done|]. rewrite supp_put_app, <- app_assoc in H.
  destruct (rs_write_run _ _ _ _ _ _ H Hd) as (d' & Hd' & Hw). exists d'. split; [done|].
  pose proof (fun k => rocksdb_write_get _ _ _ _ k Hw) as Hg. split.
  - eapply db_log_ext; [intros x; apply Hg|]. by eapply db_log_write.
  - eapply db_meta_ext; [|exact Hm]. intros k H1 H2. rewrite Hg.
    rewrite (app_assoc [_] [_]), wb_run_app.
    assert (Hown : own_key k).
    { split; [|done]. destruct (bytes_ltb k RAFT_LOG_HEADER_ROCKSDB) eqn:E2; [|done].
      exfalso. assert (bytes_lt k RAFT_LOG_HEADER_ROCKSDB_END); [|unfold bytes_le, bytes_lt in *; congruence].
      eapply transitivity; [exact E2 | reflexivity]. }
    rewrite wb_run_untouched by (by apply supp_untouched). cbn [wb_run foldl wb_apply app].
    do 2 (case_bool_decide as Hk; [subst; right; right; apply prefix_of_app | clear Hk]). by left.
Qed.

(** Removing entry keys keeps the metadata. *)
Lemma db_meta_removed f f' a :
  (forall k, f' k = f k \/
     (bytes_le (RAFT_ENTRY_KEY_PREFIX_ROCKSDB ++ a) k /\ bytes_lt k RAFT_LOG_LASTENTRY_ROCKSDB /\
      f' k = None)) ->
  db_meta f -> db_meta f'.
Proof.
  intros Hf Hm. eapply db_meta_ext; [|exact Hm]. intros k H1 H2.
  destruct (Hf k) as [?|(Ha & Hk & Hnone)]; [by left|]. rewrite Hnone.
  destruct (f k) as [v|] eqn:Ev; [|by left].
  destruct (dm_only _ Hm k) as [Hp|?]; [by rewrite Ev | done | done | | by right; right].
  apply prefix_of_true in Hp as (y & ->). done.
Qed.

(** The two keys of an entry, and their order. *)
Definition entry_key_of (i : Z) (k : bytes) : Prop :=
  k = RAFT_ENTRY_HEADER_KEY_PRINTF i \/ k = RAFT_ENTRY_KEY_PRINTF i.
Lemma entry_key_of_lt i j k k' :
  key_idx_ok i -> key_idx_ok j -> i < j -> entry_key_of i k -> entry_key_of j k' -> bytes_lt k k'.
Proof. intros ? ? ? [->| ->] [->| ->]; by apply (entry_key_lt i j). Qed.
Lemma entry_key_of_ge i j k :
  key_idx_ok i -> key_idx_ok j -> i <= j -> entry_key_of j k -> bytes_le (RAFT_ENTRY_KEY_PRINTF i) k.
Proof.
  intros Hi Hj Hij Hk. destruct (decide (i = j)) as [->|].
  - destruct Hk as [->| ->]; [apply bytes_lt_le, entry_key_header_lt | apply bytes_le_refl].
  - apply bytes_lt_le, (entry_key_of_lt i j); [done|done|lia|by right|done].
Qed.
Lemma not_lt_le k k' : bytes_lt k k' -> bytes_le k' k -> False.
Proof. unfold bytes_lt, bytes_le. congruence. Qed.

Lemma delete_range_cases f a b k :
  wb_run [rocksdb_writebatch_delete_range a b] f k = f k \/
  (bytes_le a k /\ bytes_lt k b /\ wb_run [rocksdb_writebatch_delete_range a b] f k = None).
Proof.
  cbn [wb_run foldl wb_apply]. destruct (negb _ && _) eqn:E; [|by left]. right.
  by apply andb_true_iff in E as [Ha%negb_true_iff Hk].
Qed.

Lemma truncate_repr ri n st st' l :
  rsbr_log_truncate ri n st = Some st' -> rocks_repr ri st l ->
  al_lo l <= n <= al_next l -> n < 10 ^ 16 -> rocks_repr ri st' (al_truncate l n).
Proof.
  unfold rsbr_log_truncate. intros H (d & Hd & Hl & Hm) Hn Hlim.
  destruct (rs_write_run _ _ _ _ _ _ H Hd) as (d' & Hd' & Hw). exists d'. split; [done|].
  pose proof (fun k => rocksdb_write_get _ _ _ _ k Hw) as Hg. split.
  - eapply db_log_ext; [intros x; apply Hg|]. by apply db_log_truncate.
  - eapply db_meta_removed; [|done]. intros k. rewrite Hg. apply delete_range_cases.
Qed.

(** Compaction of the log: the entries below [n] go.  Deleting the files in the
    range may take the value stored under its last key along, unless that is
    seen to be there. *)
Definition reaped (f f' : bytes -> option bytes) (n : Z) : Prop := forall k,
  f' k = wb_run [rocksdb_writebatch_delete_range (RAFT_ENTRY_KEY_PRINTF 0)
                   (RAFT_ENTRY_KEY_PRINTF n)] f k \/
  (f' k = None /\ bytes_le (RAFT_ENTRY_KEY_PRINTF 0) k /\ bytes_le k (RAFT_ENTRY_KEY_PRINTF n)).

Lemma reaped_cases f f' n k :
  reaped f f' n -> f' k = f k \/
    (f' k = None /\ bytes_le (RAFT_ENTRY_KEY_PRINTF 0) k /\ bytes_le k (RAFT_ENTRY_KEY_PRINTF n)).
Proof.
  intros Hf. destruct (Hf k) as [->|?]; [|by right].
  destruct (delete_range_cases f (RAFT_ENTRY_KEY_PRINTF 0) (RAFT_ENTRY_KEY_PRINTF n) k)
    as [->|(? & ?%bytes_lt_le & ->)]; auto.
Qed.
Lemma reaped_after f f' n k :
  reaped f f' n -> bytes_lt (RAFT_ENTRY_KEY_PRINTF n) k -> f' k = f k.
Proof.
  intros Hf Hk. destruct (reaped_cases _ _ _ k Hf) as [?|(_ & _ & Hle)]; [done|].
  by destruct (not_lt_le _ _ Hk).
Qed.
(** What is left of the entries has an index of at least [n]. *)
Lemma reaped_before f f' n k i :
  reaped f f' n -> key_idx_ok n -> key_idx_ok i -> entry_key_of i k -> is_Some (f' k) -> n <= i.
Proof.
  intros Hf Hn Hi Hk Hs. apply Z.nlt_ge. intros Hin.
  assert (Hge : bytes_le (RAFT_ENTRY_KEY_PRINTF 0) k).
  { apply (entry_key_of_ge 0 i); [unfold key_idx_ok; lia | done | apply Hi | done]. }
  assert (Hlt : bytes_lt k (RAFT_ENTRY_KEY_PRINTF n)) by (apply (entry_key_of_lt i n); [done..|by right]).
  destruct (Hf k) as [E|[E _]]; rewrite E in Hs; [|by destruct Hs].
  cbn [wb_run foldl wb_apply] in Hs. unfold bytes_le, bytes_lt in *. rewrite Hge, Hlt in Hs.
  by destruct Hs.
Qed.

Lemma db_log_reap f f' l n :
  reaped f f' n -> db_log f l -> al_lo l <= n <= al_next l -> n < 10 ^ 16 ->
  is_Some (f' (RAFT_ENTRY_KEY_PRINTF n)) \/ n = al_next l ->
  db_log f' (al_reap l n) /\ (db_meta f -> db_meta f').
Proof.
  intros Hf Hl Hn Hlim Hend. pose proof Hl as [Hlo Hhi Hh Hv Ho Hw].
  assert (Hnok : key_idx_ok n) by (unfold key_idx_ok; lia).
  split; [split|]; rewrite ?al_next_reap by done; cbn [al_lo al_reap]; try lia.
  - intros i re. rewrite al_get_reap by lia. destruct (Z.ltb_spec i n); [done|]. intros Hi.
    assert (key_idx_ok i) by (by eapply dl_idx_ok, al_get_Some).
    rewrite (reaped_after _ _ _ _ Hf); [by apply Hh|].
    eapply bytes_le_lt_trans; [by apply (entry_key_of_ge n i); [..|right]|apply entry_key_header_lt].
  - intros i re. rewrite al_get_reap by lia. destruct (Z.ltb_spec i n); [done|]. intros Hi.
    assert (key_idx_ok i) by (by eapply dl_idx_ok, al_get_Some).
    destruct (decide (i = n)) as [->|].
    + destruct Hend as [[v Hs]| ->]; [|apply al_get_Some in Hi; lia].
      destruct (reaped_cases _ _ _ (RAFT_ENTRY_KEY_PRINTF n) Hf) as [->|[? _]];
        [by apply Hv | congruence].
    + rewrite (reaped_after _ _ _ _ Hf); [by apply Hv|].
      apply (entry_key_of_lt n i); [done|done|lia|by right|by right].
  - intros x Hx. assert (Hsx : is_Some (f (RAFT_ENTRY_KEY_PREFIX_ROCKSDB ++ x))).
    { destruct (reaped_cases _ _ _ (RAFT_ENTRY_KEY_PREFIX_ROCKSDB ++ x) Hf) as [<-|[E _]]; [done|].
      rewrite E in Hx. by destruct Hx. }
    destruct (Ho x Hsx) as (i & Hi & Hk). exists i. split; [|done]. split; [|lia].
    eapply reaped_before; [done | done | by eapply dl_idx_ok | done | done].
  - intros i re. rewrite al_get_reap by lia. destruct (_ <? _); [done|]. apply Hw.
  - apply (db_meta_removed f f' (fmt_zu 16 0 ++ str "e")). intros k.
    destruct (reaped_cases _ _ _ k Hf) as [?|(? & ? & ?)]; [by left|]. right. split_and!; try done.
    eapply bytes_le_lt_trans; [done | apply entry_key_before_last].
Qed.

Lemma reap_repr ri n st st' l :
  rsbr_log_reap ri n st = Some st' -> rocks_repr ri st l ->
  al_lo l <= n <= al_next l -> n < 10 ^ 16 ->
  n = al_next l \/ (forall d, rocks_db ri st' d -> is_Some (rocksdb_get d (RAFT_ENTRY_KEY_PRINTF n))) ->
  rocks_repr ri st' (al_reap l n).
Proof.
  unfold rsbr_log_reap, rocks_repr, rocks_db, rsbr_ri_to_rocksdb.
  intros H (d & Hd & Hl & Hm) Hn Hlim Hend.
  destruct (rsbr_ri_to_rirdb ri st) as [rir|] eqn:Hrir; simpl in *; [|done].
  destruct (_ || _); [done|]. rewrite Hd in H. simpl in H.
  destruct (rocksdb_write _ _ _) as [d1|] eqn:Hw; simpl in H; [|done]. injection H as <-.
  set (d2 := rocksdb_delete_file_in_range _ _ _) in *. exists d2.
  pose proof (rirdb_set_db _ _ _ d2 Hrir) as Hd2.
  simpl in *. rewrite Hd2 in Hend |- *. simpl in *. split; [done|].
  edestruct (db_log_reap (rocksdb_get d) (rocksdb_get d2) l n) as [? ?]; auto.
  - intros k. rewrite <- (rocksdb_write_get _ _ _ _ k Hw).
    rewrite <- (rocksdb_compact_get (RAFT_ENTRY_KEY_PRINTF 0) (RAFT_ENTRY_KEY_PRINTF n) d1 k).
    destruct (rocksdb_delete_file_get (RAFT_ENTRY_KEY_PRINTF 0) (RAFT_ENTRY_KEY_PRINTF n)
                (rocksdb_compact_range (RAFT_ENTRY_KEY_PRINTF 0) (RAFT_ENTRY_KEY_PRINTF n) d1) k); auto.
  - destruct Hend as [->|Hend]; [by right|]. left. by apply Hend.
Qed.

(** ** Reading *)
Lemma slen_nonempty l : l <> [] -> (slen l =? 0) = false.
Proof. destruct l; [done|]. intros _. unfold slen. simpl. lia. Qed.

Lemma get_exact_run ri st d key v :
  rocks_db ri st d -> rocksdb_get d key = Some v -> key <> [] -> v <> [] ->
  exists rir, rsbr_ri_to_rirdb ri st = Some rir /\
    rsbr_get_exact_val_size rir key (slen v) = Some (0, v).
Proof.
  unfold rocks_db, rsbr_ri_to_rocksdb. intros Hd Hg Hk Hv.
  destruct (rsbr_ri_to_rirdb ri st) as [rir|]; [|done]. exists rir. split; [done|].
  unfold rsbr_get_exact_val_size, rsbr_get. simpl in Hd. rewrite Hd.
  rewrite !slen_nonempty by done. simpl. rewrite Hg. simpl. unfold slen.
  rewrite Z.eqb_refl, Nat2Z.id, firstn_all. done.
Qed.

Lemma header_key_nonempty i : RAFT_ENTRY_HEADER_KEY_PRINTF i <> [].
Proof. done. Qed.

Lemma header_read_repr ri st l idx re :
  rocks_repr ri st l -> al_get l idx = Some re ->
  rsbr_entry_header_read ri idx st = Some (0, re_header re).
Proof.
  intros (d & Hd & Hl & _) Hi. pose proof (dl_hdr _ _ Hl _ _ Hi) as Hh.
  destruct (dl_wf _ _ Hl _ _ Hi) as (Hwf & _).
  pose proof (length_reh_bytes _ (wf_sz_len _ Hwf)) as [Hlen _].
  assert (Hne : reh_bytes (re_header re) <> []).
  { intros E. rewrite E in Hlen. done. }
  destruct (get_exact_run _ _ _ _ _ Hd Hh (header_key_nonempty idx) Hne) as (rir & Hrir & Hg).
  unfold rsbr_entry_header_read. pose proof (al_get_Some _ _ _ Hi). pose proof (dl_lo _ _ Hl).
  replace (idx <? 0) with false by lia. rewrite Hrir. simpl.
  unfold slen in Hg. rewrite Hlen in Hg. rewrite Hg. simpl. unfold memcpy.
  rewrite drop_ge, app_nil_r, reh_of_bytes_reh_bytes; [done..|].
  pose proof (length_reh_bytes (zero_reh <| reh_index := idx |>) eq_refl) as [Hz _].
  apply Nat2Z.inj_le. etransitivity; [|rewrite Hlen; reflexivity]. rewrite <- Hz. reflexivity.
Qed.

Lemma entry_read_repr ri st l idx re n :
  rocks_repr ri st l -> al_get l idx = Some re -> reh_data_size (re_header re) <> 0 ->
  rsbr_entry_read ri idx n st = Some (raft_server_entry_to_total_size re, re).
Proof.
  intros Hr Hi Hsz. unfold rsbr_entry_read. erewrite header_read_repr by done. simpl.
  destruct Hr as (d & Hd & Hl & _). pose proof (dl_val _ _ Hl _ _ Hi) as Hv.
  destruct (dl_wf _ _ Hl _ _ Hi) as (_ & Hidx & Hsize & Hlt). rewrite Hidx.
  unfold entry_val in Hv. destruct (Z.eqb_spec (reh_data_size (re_header re)) 0); [done|].
  simpl in Hv. rewrite Hsize, Nat2Z.id, firstn_all in Hv.
  assert (Hne : re_data re <> []) by (intros E; rewrite E in Hsize; done).
  destruct (get_exact_run _ _ _ _ _ Hd Hv ltac:(done) Hne) as (rir & -> & Hg). simpl.
  unfold slen in Hg. rewrite <- Hsize in Hg. rewrite Hg. simpl.
  unfold raft_server_entry_to_total_size. rewrite Z.add_comm. by destruct re.
Qed.

(** An entry without data is stored as one byte and cannot be read back. *)
Lemma empty_entry_read ri st l idx re n :
  rocks_repr ri st l -> al_get l idx = Some re -> reh_data_size (re_header re) = 0 ->
  rsbr_entry_read ri idx n st = Some (- EINVAL, {| re_header := re_header re; re_data := [] |}).
Proof.
  intros Hr Hi Hsz. unfold rsbr_entry_read. erewrite header_read_repr by done. simpl.
  destruct Hr as (d & Hd & _). unfold rocks_db, rsbr_ri_to_rocksdb in Hd.
  destruct (rsbr_ri_to_rirdb ri st) as [rir|]; [|done]. simpl.
  unfold rsbr_get_exact_val_size. by rewrite Hsz, orb_true_r.
Qed.

Lemma header_absent_repr ri st l idx :
  rocks_repr ri st l -> key_idx_ok idx -> ~ al_lo l <= idx < al_next l ->
  exists h, rsbr_entry_header_read ri idx st = Some (- ENOENT, h).
Proof.
  intros (d & Hd & Hl & _) Hok Hi. unfold rsbr_entry_header_read.
  unfold rocks_db, rsbr_ri_to_rocksdb in Hd.
  replace (idx <? 0) with false by (destruct Hok; lia).
  destruct (rsbr_ri_to_rirdb ri st) as [rir|]; [|done]. simpl in *.
  unfold rsbr_get_exact_val_size, rsbr_get. rewrite slen_nonempty by done. simpl. rewrite Hd. simpl.
  destruct (rocksdb_get d _) eqn:Hg; [|by eexists].
  destruct (dl_only _ _ Hl (fmt_zu 16 idx ++ str "h")) as (i & Hr & Hk); [by eexists|].
  exfalso. assert (Hoki : key_idx_ok i) by (by eapply dl_idx_ok).
  destruct Hk as [Hk|Hk].
  - apply hkey_inj in Hk; [|done..]. by subst.
  - by apply hkey_ekey in Hk.
Qed.

(** ** Extent *)
(** The key before the end marker is at or after the header, and is the greatest. *)
Lemma prev_in_log d k :
  db_meta (rocksdb_get d) -> bytes_le RAFT_LOG_LASTENTRY_ROCKSDB k ->
  (forall k', is_Some (rocksdb_get d k') -> bytes_le RAFT_LOG_LASTENTRY_ROCKSDB k' -> bytes_le k k') ->
  exists k', rocksdb_iter_prev d k = Some k' /\ is_Some (rocksdb_get d k') /\
    bytes_le RAFT_LOG_HEADER_ROCKSDB_END k' /\ bytes_lt k' RAFT_LOG_LASTENTRY_ROCKSDB /\
    (forall j, is_Some (rocksdb_get d j) -> bytes_lt j RAFT_LOG_LASTENTRY_ROCKSDB -> bytes_le j k').
Proof.
  intros Hm Hk Hleast.
  assert (Hu : bytes_lt RAFT_LOG_HEADER_UUID k)
    by (eapply bytes_lt_le_trans; [|exact Hk]; reflexivity).
  pose proof (rocksdb_iter_prev_spec d k) as Hp.
  destruct (rocksdb_iter_prev d k) as [k'|]; simpl in Hp.
  2:{ exfalso. eapply Hp; [apply rocksdb_keys_spec, (dm_uuid _ Hm) | exact Hu]. }
  destruct Hp as (Hin%rocksdb_keys_spec & Hlt & Hmax). exists k'. split_and!; try done.
  - apply bytes_lt_le. destruct (bytes_ltb RAFT_LOG_HEADER_ROCKSDB_END k') eqn:E; [done|].
    exfalso. apply (not_lt_le k' RAFT_LOG_HEADER_UUID);
      [eapply bytes_le_lt_trans; [exact E | reflexivity]|].
    apply Hmax; [apply rocksdb_keys_spec, (dm_uuid _ Hm) | exact Hu].
  - unfold bytes_lt. destruct (bytes_ltb k' RAFT_LOG_LASTENTRY_ROCKSDB) eqn:E; [done|].
    destruct (not_lt_le _ _ Hlt). by apply Hleast.
  - intros j Hj Hjl. apply Hmax; [by apply rocksdb_keys_spec | by eapply bytes_lt_le_trans].
Qed.

(** Of the keys of a log with entries, the greatest is the last header. *)
Lemma greatest_entry_key d l i k :
  db_log (rocksdb_get d) l -> al_lo l <= i < al_next l -> entry_key_of i k ->
  (forall j, is_Some (rocksdb_get d j) -> bytes_lt j RAFT_LOG_LASTENTRY_ROCKSDB -> bytes_le j k) ->
  k = RAFT_ENTRY_HEADER_KEY_PRINTF (al_next l - 1).
Proof.
  intros Hl Hi Hk Hmax.
  assert (is_Some (al_get l (al_next l - 1))) as [re Hre] by (apply al_get_is_Some; lia).
  assert (Hle : bytes_le (RAFT_ENTRY_HEADER_KEY_PRINTF (al_next l - 1)) k).
  { apply Hmax; [by rewrite (dl_hdr _ _ Hl _ _ Hre) | apply entry_key_before_last]. }
  assert (Hoki : key_idx_ok i) by (by eapply dl_idx_ok).
  assert (Hokn : key_idx_ok (al_next l - 1)) by (eapply dl_idx_ok; [done | lia]).
  destruct (decide (i = al_next l - 1)) as [->|Hne].
  - destruct Hk as [-> | ->]; [done|]. destruct (not_lt_le _ _ (entry_key_header_lt _) Hle).
  - exfalso. eapply not_lt_le; [|exact Hle].
    apply (entry_key_of_lt i (al_next l - 1)); [done|done|lia|done|by left].
Qed.

Lemma prev_of_last d l k :
  db_log (rocksdb_get d) l -> db_meta (rocksdb_get d) ->
  bytes_le RAFT_LOG_LASTENTRY_ROCKSDB k ->
  (forall k', is_Some (rocksdb_get d k') -> bytes_le RAFT_LOG_LASTENTRY_ROCKSDB k' -> bytes_le k k') ->
  exists k', rocksdb_iter_prev d k = Some k' /\
    if decide (al_entries l = []) then prefix_of RAFT_LOG_HEADER_ROCKSDB_END k' = true
    else k' = RAFT_ENTRY_HEADER_KEY_PRINTF (al_next l - 1).
Proof.
  intros Hl Hm Hk Hleast.
  destruct (prev_in_log d k Hm Hk Hleast) as (k' & Hp & Hin & Hhdr & Hlast & Hmax).
  exists k'. split; [done|].
  destruct (dm_only _ Hm k' Hin Hhdr Hlast) as [Hpre|Hpre]; apply prefix_of_true in Hpre as (y & ->).
  - case_decide as Hemp; [apply prefix_of_app|]. exfalso.
    assert (is_Some (al_get l (al_next l - 1))) as [re Hre].
    { apply al_get_is_Some. unfold al_next. destruct (al_entries l); [done|]. simpl. lia. }
    assert (Hle : bytes_le (RAFT_ENTRY_HEADER_KEY_PRINTF (al_next l - 1))
                    (RAFT_LOG_HEADER_ROCKSDB_END ++ y)); [|done].
    apply Hmax; [by rewrite (dl_hdr _ _ Hl _ _ Hre) | apply entry_key_before_last].
  - destruct (dl_only _ _ Hl y Hin) as (i & Hi & Hki).
    rewrite decide_False by (intros E; unfold al_next in Hi; rewrite E in Hi; simpl in Hi; lia).
    by eapply greatest_entry_key.
Qed.

(** The library can iterate over the open database. *)
Definition iterable (ri : raft_instance) st (d : D) : Prop :=
  exists rir, rsbr_ri_to_rirdb ri st = Some rir /\ rir_db rir = Some d /\
    rir_readoptions rir = true /\ rocksdb_create_iterator d = true /\
    rocksdb_iter_get_error d = false.

Lemma num_entries_repr ri st d l :
  iterable ri st d -> db_log (rocksdb_get d) l -> db_meta (rocksdb_get d) ->
  rsbr_num_entries_calc ri st =
    Some (if decide (al_entries l = []) then 0 else al_next l).
Proof.
  intros (rir & Hrir & Hd & Hro & Hci & Herr) Hl Hm.
  unfold rsbr_num_entries_calc, rsbr_create_iterator. rewrite Hrir. simpl.
  rewrite Hro, Hd. simpl. rewrite Hci.
  unfold rsbr_iter_seek, rsbr_iter_next_or_prev, rsbr_iter_check_error. rewrite Herr.
  change (slen RAFT_LOG_LASTENTRY_ROCKSDB =? 0) with false. cbv iota.
  pose proof (rocksdb_iter_seek_spec d RAFT_LOG_LASTENTRY_ROCKSDB) as Hs.
  destruct (rocksdb_iter_seek d _) as [k|]; simpl in Hs.
  2:{ exfalso. destruct (dm_last _ Hm) as (x & Hx). eapply Hs; [by apply rocksdb_keys_spec|].
      apply bytes_ltb_prefix. }
  destruct Hs as (_ & Hk & Hleast).
  destruct (prev_of_last d l k Hl Hm Hk) as (k' & -> & Hk').
  { intros k' ? ?. apply Hleast; [by apply rocksdb_keys_spec | done]. }
  rewrite !bool_decide_true by eauto. cbn [Bool.eqb Z.eqb negb].
  unfold rsbr_string_matches_iter_key. rewrite !andb_false_l, !orb_false_l. case_decide as He.
  - by rewrite Hk'.
  - subst k'. assert (Hok : key_idx_ok (al_next l - 1)).
    { eapply dl_idx_ok; [done|]. pose proof (al_lo_next l). unfold al_next in *.
      destruct (al_entries l); [done|]. simpl in *. lia. }
    replace (prefix_of RAFT_LOG_HEADER_ROCKSDB_END _) with false by done.
    unfold RAFT_ENTRY_HEADER_KEY_PRINTF at 1. rewrite prefix_of_app. simpl negb. cbv iota.
    replace (_ <=? _) with false.
    2:{ symmetry. apply Z.leb_gt. unfold slen, RAFT_ENTRY_HEADER_KEY_PRINTF.
        rewrite !length_app. simpl. lia. }
    pose proof (drop_app_length RAFT_ENTRY_KEY_PREFIX_ROCKSDB
                  (fmt_zu 16 (al_next l - 1) ++ str "h")) as Hdrop.
    change (length RAFT_ENTRY_KEY_PREFIX_ROCKSDB) with 3%nat in *.
    unfold RAFT_ENTRY_HEADER_KEY_PRINTF. rewrite Hdrop.
    change (str "h") with [x68]. rewrite strtoull_key by done.
    destruct Hok. replace (s64 _) with (al_next l - 1).
    2:{ unfold s64. rewrite Z.mod_small by lia. lia. }
    replace (0 <=? _) with true by lia. f_equal. lia.
Qed.

Lemma filter_next_lt (l : list bytes) k k' :
  k' ∈ l -> bytes_lt k k' ->
  (length (List.filter (bytes_ltb k') l) < length (List.filter (bytes_ltb k) l))%nat.
Proof.
  intros Hin Hlt. induction l as [|x l IH]; [by apply not_elem_of_nil in Hin|].
  assert (Hmono : forall l, (length (List.filter (bytes_ltb k') l) <=
                   length (List.filter (bytes_ltb k) l))%nat).
  { clear -Hlt. induction l as [|x l IH]; [done|]. simpl.
    destruct (bytes_ltb k' x) eqn:E; [|destruct (bytes_ltb k x); simpl; lia].
    rewrite (bytes_ltb_trans _ _ _ Hlt E). simpl. lia. }
  simpl. apply elem_of_cons in Hin as [<-|Hin].
  - rewrite bytes_ltb_irrefl, Hlt. simpl. specialize (Hmono l). lia.
  - specialize (IH Hin). destruct (bytes_ltb k' x) eqn:E.
    + rewrite (bytes_ltb_trans _ _ _ Hlt E). simpl. lia.
    + destruct (bytes_ltb k x); simpl; lia.
Qed.

Lemma filter_length_le {T} (f : T -> bool) l : (length (List.filter f l) <= length l)%nat.
Proof. induction l; simpl; [lia|]. destruct (f a); simpl; lia. Qed.

(** ** The interface *)
#[export] Instance rocks_log_store : LogStore (rocks_state D).
Proof.
  refine (Build_LogStore (rocks_state D) _ rocks_repr rocks_ws_ok (10 ^ 16) _ _ _ _ _ _ _ _).
  - intros ri ri' st l Hc (d & Hd & H). exists d. split; [|done].
    eapply rocks_db_config; [|exact Hd]. unfold ls_config in Hc. congruence.
  - intros ri re ws st st' l Hr Hwf Hws Hlt H.
    exact (entry_write_repr ri re ws st st' l H Hr Hwf Hws Hlt).
  - intros ri st l idx re. apply header_read_repr.
  - intros ri st l idx Hr Hidx. pose proof Hr as (d & _ & Hl & _).
    destruct (header_absent_repr ri st l idx Hr) as [h Hh].
    + pose proof (dl_lo _ _ Hl). pose proof (al_lo_next l). unfold key_idx_ok. lia.
    + lia.
    + exists (- ENOENT), h. split; [done | unfold ENOENT; lia].
  - intros ri st l idx re Hr Hg Hsz. exact (entry_read_repr ri st l idx re _ Hr Hg Hsz).
  - intros ri st st' l idx Hr Hn Hlt H. exact (truncate_repr ri idx st st' l H Hr Hn Hlt).
  - intros ri st st' l now rc Hr H. exact (header_write_repr ri st st' l rc H Hr).
  - intros ri sync st st' l now rc [= <-] Hr H. exact (sync_repr ri now st st' l rc H Hr).
Defined.

(** A new database holds the empty log. *)
Definition empty_alog : alog := {| al_lo := 0; al_entries := [] |}.

Lemma init_header_repr u ri st d rc ri' st' :
  rsbr_init_header u ri st = Some (rc, ri', st') ->
  rocks_db ri st d -> (forall k, rocksdb_get d k = None) ->
  raft_instance_is_recovering ri = false ->
  rc = 0 /\ rocks_repr ri' st' empty_alog.
Proof.
  unfold rsbr_init_header. intros H Hd Hempty Hrec. rewrite Hrec in H. cbn [andb] in H.
  match type of H with context [rs_write true ?ops ?r st] =>
    destruct (rs_write true ops r st) as [st1|] eqn:Hw end; [|done]. simpl in H.
  destruct (rsbr_header_write _ st1) as [[rc1 st2]|] eqn:Hh; [|done].
  simpl in H. injection H as <- <- <-.
  assert (rc1 = 0) as ->.
  { clear -Hh. unfold rsbr_header_write in Hh. destruct (rs_write _ _ _ _); by inversion Hh. }
  split; [done|]. eapply header_write_repr; [exact Hh|].
  eapply rs_write_run in Hw as (d1 & Hd1 & Hw); [|by eapply rocks_db_config].
  exists d1. split; [done|].
  pose proof (fun k => rocksdb_write_get _ _ _ _ k Hw) as Hg.
  assert (Hz : forall k, rocksdb_get d1 k <> None ->
    (exists x, k = RAFT_LOG_LASTENTRY_ROCKSDB ++ x) \/ k = RAFT_LOG_HEADER_UUID).
  { intros k. rewrite Hg. cbn [wb_run foldl wb_apply].
    case_bool_decide as E1; [by right|]. case_bool_decide as E2; [subst; left; by eexists|].
    by rewrite Hempty. }
  split; split; try (intros ? ? Hi; apply al_get_Some in Hi; unfold al_next in Hi; simpl in Hi; lia).
  - simpl. lia.
  - unfold al_next. simpl. lia.
  - intros x [v Hx]. destruct (Hz (RAFT_ENTRY_KEY_PREFIX_ROCKSDB ++ x)) as [[? ?]|?]; congruence || done.
  - eexists. rewrite Hg. cbn [wb_run foldl wb_apply]. case_bool_decide; [by eexists|].
    rewrite bool_decide_true by done. by eexists.
  - rewrite Hg. cbn [wb_run foldl wb_apply]. rewrite bool_decide_true by done. by eexists.
  - intros k [v Hk] _ H2. destruct (Hz k) as [[x ->]| ->]; [congruence| |by left].
    unfold bytes_lt in H2. by rewrite bytes_ltb_prefix in H2.
Qed.

Context {NUK : NiovaUtilOk}.

(** The index printed in a key of an entry is read back from it. *)
Lemma entry_key_parses i k :
  key_idx_ok i -> entry_key_of i k ->
  niova_string_to_unsigned_long_long (drop (length RAFT_ENTRY_KEY_PREFIX_ROCKSDB) k) = (0, i) /\
  s64 i = i.
Proof.
  intros Hok Hk. pose proof Hok as [H0 H1]. split; [|unfold s64; rewrite Z.mod_small; lia].
  assert (exists c, k = RAFT_ENTRY_KEY_PREFIX_ROCKSDB ++ fmt_zu 16 i ++ [c] /\ isdigit c = false)
    as (c & -> & Hc) by (destruct Hk as [->| ->]; eexists; split; reflexivity).
  rewrite drop_app_length, fmt_zu_16 by done.
  apply (string_to_ull_digits 16 _ c []); [|lia|done].
  change (10 ^ Z.of_nat 16) with (10 ^ 16). lia.
Qed.

(** Of the keys of a log, those of its first entry come first. *)
Lemma least_entry_key l i k :
  key_idx_ok i -> key_idx_ok (al_lo l) -> al_lo l <= i < al_next l -> entry_key_of i k ->
  bytes_le k (RAFT_ENTRY_KEY_PRINTF (al_lo l)) -> i = al_lo l.
Proof.
  intros ? ? Hi Hk Hle. destruct (decide (i = al_lo l)); [done|]. exfalso.
  eapply not_lt_le; [|exact Hle].
  apply (entry_key_of_lt (al_lo l) i); [done|done|lia|by right|done].
Qed.

(** Moving forward from the metadata reaches the first entry within the fuel. *)
Lemma lowest_loop_run d l k fuel :
  db_log (rocksdb_get d) l -> db_meta (rocksdb_get d) -> al_entries l <> [] ->
  rocksdb_iter_get_error d = false ->
  bytes_le RAFT_LOG_HEADER_ROCKSDB_END k -> bytes_lt k (RAFT_ENTRY_KEY_PRINTF (al_lo l)) ->
  (length (List.filter (bytes_ltb k) (rocksdb_keys d)) < fuel)%nat ->
  lowest_entry_loop fuel d k = Some (0, al_lo l).
Proof.
  intros Hl Hm Hne Herr. revert k. induction fuel as [|fuel IH]; intros k Hk1 Hk2 Hfuel; [lia|].
  assert (is_Some (al_get l (al_lo l))) as [re Hre].
  { apply al_get_is_Some. unfold al_next. destruct (al_entries l); [done|]. simpl. lia. }
  pose proof (dl_val _ _ Hl _ _ Hre) as Hfirst.
  simpl. unfold rsbr_iter_next_or_prev, rsbr_iter_check_error. rewrite Herr.
  pose proof (rocksdb_iter_next_spec d k) as Hn.
  destruct (rocksdb_iter_next d k) as [k'|]; simpl in Hn.
  2:{ exfalso. eapply Hn; [apply rocksdb_keys_spec; by rewrite Hfirst | done]. }
  destruct Hn as (Hin & Hlt & Hmin). rewrite bool_decide_true by eauto.
  cbn [Bool.eqb negb Z.eqb].
  assert (Hle : bytes_le k' (RAFT_ENTRY_KEY_PRINTF (al_lo l))).
  { apply Hmin; [apply rocksdb_keys_spec; by rewrite Hfirst | done]. }
  assert (Hlast : bytes_lt k' RAFT_LOG_LASTENTRY_ROCKSDB).
  { eapply bytes_le_lt_trans; [exact Hle | apply entry_key_before_last]. }
  assert (Hhdr : bytes_le RAFT_LOG_HEADER_ROCKSDB_END k').
  { apply bytes_lt_le. by eapply bytes_le_lt_trans. }
  unfold rsbr_string_matches_iter_key. rewrite !andb_false_l, !orb_false_l.
  destruct (prefix_of RAFT_LOG_LASTENTRY_ROCKSDB k') eqn:Ep.
  { apply prefix_of_true in Ep as (y & ->). unfold bytes_lt in Hlast.
    by rewrite bytes_ltb_prefix in Hlast. }
  apply rocksdb_keys_spec in Hin as Hsome. cbn [negb].
  destruct (dm_only _ Hm k' Hsome Hhdr Hlast) as [Hp|Hp].
  - pose proof Hp as (y & ->)%prefix_of_true.
    replace (prefix_of RAFT_ENTRY_KEY_PREFIX_ROCKSDB _) with false by done. cbn [negb].
    apply IH; [done | reflexivity |].
    pose proof (filter_next_lt _ _ _ Hin Hlt). lia.
  - rewrite Hp. cbn [negb]. apply prefix_of_true in Hp as (y & ->).
    destruct (dl_only _ _ Hl y Hsome) as (i & Hi & Hki).
    assert (Hoki : key_idx_ok i) by (by eapply dl_idx_ok).
    assert (Hoklo : key_idx_ok (al_lo l)) by (eapply dl_idx_ok; [done | lia]).
    assert (i = al_lo l) as -> by (by eapply least_entry_key).
    destruct (entry_key_parses _ _ Hoklo Hki) as [Hp Hs64].
    change (length RAFT_ENTRY_KEY_PREFIX_ROCKSDB) with 3%nat in Hp. by rewrite Hp, Hs64.
Qed.

Lemma lowest_entry_repr ri st d l :
  iterable ri st d -> db_log (rocksdb_get d) l -> db_meta (rocksdb_get d) ->
  al_entries l <> [] -> rsbr_lowest_entry_get ri st = Some (0, al_lo l).
Proof.
  intros (rir & Hrir & Hd & Hro & Hci & Herr) Hl Hm Hne.
  unfold rsbr_lowest_entry_get, rsbr_create_iterator. rewrite Hrir. simpl.
  rewrite Hro, Hd. simpl. rewrite Hci.
  unfold rsbr_iter_seek, rsbr_iter_check_error. rewrite Herr.
  change (slen RAFT_LOG_HEADER_ROCKSDB_END =? 0) with false. cbv iota.
  pose proof (rocksdb_iter_seek_spec d RAFT_LOG_HEADER_ROCKSDB_END) as Hs.
  destruct (rocksdb_iter_seek d _) as [k|]; simpl in Hs.
  2:{ exfalso. eapply Hs; [apply rocksdb_keys_spec, (dm_uuid _ Hm) | done]. }
  destruct Hs as (Hin & Hk & Hmin). rewrite bool_decide_true by eauto. cbn [Bool.eqb Z.eqb negb].
  assert (Hu : bytes_le k RAFT_LOG_HEADER_UUID).
  { apply Hmin; [apply rocksdb_keys_spec, (dm_uuid _ Hm) | done]. }
  pose proof (lowest_loop_run d l k (S (length (rocksdb_keys d)))) as Hrun.
  simpl in Hrun. unfold rsbr_iter_next_or_prev, rsbr_iter_check_error in Hrun.
  rewrite Herr in Hrun. apply Hrun; try done.
  - eapply bytes_le_lt_trans; [exact Hu | reflexivity].
  - pose proof (filter_length_le (bytes_ltb k) (rocksdb_keys d)). lia.
Qed.
End rocks_store.
