(* ===== verification/RocksSim.v ===== *)
(** A concrete RocksDB to try the backend on: a finite map in memory, with the
    laws the backend relies on; simple helpers of niova-core; and servers whose
    state is in that database. *)
From Stdlib Require Import Strings.String.
From stdpp Require Import base tactics list gmap.
From Stdlib Require Import ZArith Lia Strings.Byte.
From S2P Require Import Prelude RaftTypes World Quorum Net WriteSupp Entry Log Election Append Leader ClientReq Apply Server Steps PosixBackend Sim RocksKeys RocksBackend RocksRecovery RocksBulk.
Local Open Scope Z_scope.
Local Open Scope raft_scope.

(** ** A database in memory: column family and key, handle 0 the default *)
Abbreviation memdb := (gmap (Z * bytes) bytes).

Definition mem_keys (d : memdb) : list bytes :=
  omap (fun '(ck, _) => if ck.1 =? 0 then Some ck.2 else None) (map_to_list d).

(** The least and the greatest element of a list. *)
Fixpoint least (l : list bytes) : option bytes :=
  match l with
  | [] => None
  | k :: l' =>
      match least l' with
      | None => Some k
      | Some k' => Some (if bytes_ltb k k' then k else k')
      end
  end.
Fixpoint greatest (l : list bytes) : option bytes :=
  match l with
  | [] => None
  | k :: l' =>
      match greatest l' with
      | None => Some k
      | Some k' => Some (if bytes_ltb k' k then k else k')
      end
  end.

Definition mem_apply (d : memdb) (op : wb_op) : memdb :=
  match op with
  | rocksdb_writebatch_put k v => <[(0, k) := v]> d
  | rocksdb_writebatch_put_cf cf k v => if cf =? 0 then d else <[(cf, k) := v]> d
  | rocksdb_writebatch_delete k => delete (0, k) d
  | rocksdb_writebatch_delete_cf cf k => if cf =? 0 then d else delete (cf, k) d
  | rocksdb_writebatch_delete_range a b =>
      filter (fun '(ck, _) => negb ((ck.1 =? 0) && negb (bytes_ltb ck.2 a) && bytes_ltb ck.2 b)) d
  end.

#[export] Instance mem_rocksdb : RocksDB memdb := {
  rocksdb_get d k := d !! (0, k);
  rocksdb_get_cf d cf k := d !! (cf, k);
  rocksdb_write _ ops d := Some (foldl mem_apply d ops);
  rocksdb_keys := mem_keys;
  rocksdb_create_iterator _ := true;
  rocksdb_iter_seek d k := least (List.filter (fun k' => negb (bytes_ltb k' k)) (mem_keys d));
  rocksdb_iter_next d k := least (List.filter (bytes_ltb k) (mem_keys d));
  rocksdb_iter_prev d k := greatest (List.filter (fun k' => bytes_ltb k' k) (mem_keys d));
  rocksdb_iter_get_error _ := false;
  rocksdb_compact_range _ _ d := d;
  rocksdb_delete_file_in_range _ _ d := d;
  rocksdb_open create d := match d with Some d => Some d | None => if create then Some ∅ else None end;
  rocksdb_open_column_families create names d :=
    match d with
    | Some d => Some (d, map Z.of_nat (seq 1 (length names)))
    | None => if create then Some (∅, map Z.of_nat (seq 1 (length names))) else None
    end;
  rocksdb_checkpoint_object_create _ := true;
  rocksdb_checkpoint_create d := Some d;
}.

Lemma mem_apply_get d op k :
  mem_apply d op !! (0, k) = wb_apply (fun k => d !! (0, k)) op k.
Proof.
  destruct op as [key v|cf key v|key|cf key|a b]; simpl.
  - case_bool_decide; [subst; apply lookup_insert_eq|]. apply lookup_insert_ne. congruence.
  - destruct (Z.eqb_spec cf 0); [done|]. apply lookup_insert_ne. congruence.
  - case_bool_decide; [subst; apply lookup_delete_eq|]. apply lookup_delete_ne. congruence.
  - destruct (Z.eqb_spec cf 0); [done|]. apply lookup_delete_ne. congruence.
  - destruct (negb (bytes_ltb k a) && bytes_ltb k b) eqn:E; simpl.
    + apply map_lookup_filter_None. right. intros v _. simpl. rewrite E. intros [].
    + destruct (d !! (0, k)) as [v|] eqn:Hv.
      * apply map_lookup_filter_Some. split; [done|]. simpl. by rewrite E.
      * apply map_lookup_filter_None. by left.
Qed.

Lemma elem_of_filter_list {T} (f : T -> bool) l x :
  x ∈ List.filter f l <-> x ∈ l /\ f x = true.
Proof. rewrite !list_elem_of_In. apply filter_In. Qed.

Lemma least_spec l :
  match least l with
  | Some k => k ∈ l /\ forall k', k' ∈ l -> bytes_le k k'
  | None => l = []
  end.
Proof.
  induction l as [|k l IH]; simpl; [done|]. destruct (least l) as [k'|].
  - destruct IH as [Hin Hmin]. destruct (bytes_ltb k k') eqn:E.
    + split; [by left|]. intros x [->|Hx]%elem_of_cons; [apply bytes_le_refl|].
      apply bytes_lt_le. by eapply bytes_lt_le_trans, Hmin.
    + split; [by right|]. intros x [->|Hx]%elem_of_cons; [done|]. by apply Hmin.
  - subst. split; [by left|]. intros x [->|[]%elem_of_nil]%elem_of_cons. apply bytes_le_refl.
Qed.
Lemma greatest_spec l :
  match greatest l with
  | Some k => k ∈ l /\ forall k', k' ∈ l -> bytes_le k' k
  | None => l = []
  end.
Proof.
  induction l as [|k l IH]; simpl; [done|]. destruct (greatest l) as [k'|].
  - destruct IH as [Hin Hmax]. destruct (bytes_ltb k' k) eqn:E.
    + split; [by left|]. intros x [->|Hx]%elem_of_cons; [apply bytes_le_refl|].
      apply bytes_lt_le. eapply bytes_le_lt_trans; [by apply Hmax | done].
    + split; [by right|]. intros x [->|Hx]%elem_of_cons; [done|]. by apply Hmax.
  - subst. split; [by left|]. intros x [->|[]%elem_of_nil]%elem_of_cons. apply bytes_le_refl.
Qed.

Lemma filter_nil_not {T} (f : T -> bool) l x : List.filter f l = [] -> x ∈ l -> f x <> true.
Proof.
  intros E Hin Hf. assert (x ∈ List.filter f l) as H by (by apply elem_of_filter_list).
  rewrite E in H. by apply elem_of_nil in H.
Qed.

Lemma first_key_least (P : bytes -> Prop) (f : bytes -> bool) l :
  (forall k, f k = true <-> P k) -> first_key P l (least (List.filter f l)).
Proof.
  intros Hf. pose proof (least_spec (List.filter f l)) as H. destruct (least _) as [k|]; simpl.
  - destruct H as [[? ?%Hf]%elem_of_filter_list Hmin]. split_and!; try done.
    intros k' ? ?%Hf. apply Hmin. by apply elem_of_filter_list.
  - intros k' Hk' ?%Hf. by eapply filter_nil_not.
Qed.
Lemma last_key_greatest (P : bytes -> Prop) (f : bytes -> bool) l :
  (forall k, f k = true <-> P k) -> last_key P l (greatest (List.filter f l)).
Proof.
  intros Hf. pose proof (greatest_spec (List.filter f l)) as H. destruct (greatest _) as [k|]; simpl.
  - destruct H as [[? ?%Hf]%elem_of_filter_list Hmax]. split_and!; try done.
    intros k' ? ?%Hf. apply Hmax. by apply elem_of_filter_list.
  - intros k' Hk' ?%Hf. by eapply filter_nil_not.
Qed.

#[export] Instance mem_rocksdb_ok : RocksDBOk memdb.
Proof.
  split; simpl.
  - intros _ ops d d' k [= <-]. unfold wb_run. revert d k.
    assert (H : forall d f, (forall k, d !! (0, k) = f k) ->
              forall k, foldl mem_apply d ops !! (0, k) = foldl wb_apply f ops k).
    { induction ops as [|op ops IH]; intros d f Hf k; simpl; [apply Hf|].
      apply IH. intros k'. rewrite mem_apply_get. destruct op; simpl; by rewrite ?Hf. }
    intros d k. by apply H.
  - intros d k. unfold mem_keys. rewrite list_elem_of_omap. split.
    + intros ([[cf k'] v] & Hin & Hk). apply elem_of_map_to_list in Hin. simpl in Hk.
      destruct (Z.eqb_spec cf 0) as [->|]; [|done]. injection Hk as ->. by eexists.
    + intros [v Hv]. exists ((0, k), v). split; [by apply elem_of_map_to_list | done].
  - intros d k. apply first_key_least. intros k'. apply negb_true_iff.
  - intros d k. by apply first_key_least.
  - intros d k. by apply last_key_greatest.
  - done.
  - intros. by left.
  - by intros d d' k [= <-].
  - by intros create d d' k [= <-].
  - by intros create names d d' hs k [= <- <-].
  - intros [] d' k; [|done]. intros [= <-]. split; [done | apply lookup_empty].
  - intros [] names d' hs k; [|done]. intros [= <- <-]. split; [done | apply lookup_empty].
Qed.

(** ** Helpers of niova-core and libuuid *)
Definition hex_digit (z : Z) : byte := byte_of_Z (if z <? 10 then 48 + z else 87 + z).
Definition hex_value (b : byte) : Z :=
  let z := Z_of_byte b in
  if z <=? 57 then z - 48 else if z <=? 70 then z - 55 else z - 87.
Fixpoint hex_digits (n : nat) (z : Z) : bytes :=
  match n with
  | O => []
  | S n' => hex_digits n' (z / 16) ++ [hex_digit (z mod 16)]
  end.
Definition hex_val (l : bytes) : Z := foldl (fun a b => 16 * a + hex_value b) 0 l.
Definition dash : byte := x2d.
Definition sim_unparse (u : uuid) : bytes :=
  let h := hex_digits 32 u in
  take 8 h ++ [dash] ++ take 4 (drop 8 h) ++ [dash] ++ take 4 (drop 12 h) ++ [dash]
  ++ take 4 (drop 16 h) ++ [dash] ++ take 12 (drop 20 h).
Definition uuid_strip (s : bytes) : bytes :=
  take 8 s ++ take 4 (drop 9 s) ++ take 4 (drop 14 s) ++ take 4 (drop 19 s) ++ take 12 (drop 24 s).
Definition sim_parse (s : bytes) : option uuid :=
  if (slen s =? 36) && forallb isxdigit (uuid_strip s)
     && forallb (fun i => bool_decide (s !! i = Some dash)) [8; 13; 18; 23]%nat
  then Some (hex_val (uuid_strip s)) else None.

Fixpoint skip_non_digits (l : bytes) : bytes :=
  match l with
  | b :: l' => if isdigit b then l else skip_non_digits l'
  | [] => []
  end.
Fixpoint last_pos (l : bytes) (c : byte) (i best : Z) : Z :=
  match l with
  | b :: l' => last_pos l' c (i + 1) (if bool_decide (b = c) then i else best)
  | [] => best
  end.

#[export] Instance sim_util : NiovaUtil := {
  niova_string_to_unsigned_long_long l := (0, digits_val 0 l);
  niova_parse_comma_delimited_uint_string l := (0, digits_val 0 (skip_non_digits l));
  niova_string_find_last_instance_of_char l c := last_pos l c 0 (-1);
  uuid_unparse := sim_unparse;
  uuid_parse := sim_parse;
}.

Lemma length_hex_digits n z : length (hex_digits n z) = n.
Proof.
  revert z. induction n as [|n IH]; intros z; [done|]. simpl.
  rewrite length_app, IH. simpl. lia.
Qed.
Lemma hex_digit_ok z : 0 <= z < 16 -> isxdigit (hex_digit z) = true /\ hex_value (hex_digit z) = z.
Proof.
  intros H. assert (z ∈ zrange 0 16) as Hz by (by apply elem_of_zrange). revert z H Hz.
  assert (Forall (fun z => isxdigit (hex_digit z) = true /\ hex_value (hex_digit z) = z)
            (zrange 0 16)) as HF by (repeat constructor).
  intros z _ Hz. rewrite Forall_forall in HF. auto.
Qed.
Lemma hex_digits_ok n z :
  forallb isxdigit (hex_digits n z) = true /\ hex_val (hex_digits n z) = z mod 16 ^ Z.of_nat n.
Proof.
  revert z. induction n as [|n IH]; intros z; [split; [done|]; simpl; by rewrite Z.mod_1_r|].
  simpl hex_digits. destruct (IH (z / 16)) as [Hx Hv].
  destruct (hex_digit_ok (z mod 16)) as [Hd Hdv]; [by apply Z.mod_pos_bound|].
  rewrite forallb_app. simpl. rewrite Hx, Hd. split; [done|].
  unfold hex_val in *. rewrite foldl_app. simpl. rewrite Hv, Hdv.
  rewrite Nat2Z.inj_succ, Z.pow_succ_r, Z.rem_mul_r by lia. lia.
Qed.

(** Taking the dashes out gives the digits back. *)
Lemma strip_unparse h :
  length h = 32%nat ->
  let s := take 8 h ++ [dash] ++ take 4 (drop 8 h) ++ [dash] ++ take 4 (drop 12 h) ++ [dash]
           ++ take 4 (drop 16 h) ++ [dash] ++ take 12 (drop 20 h) in
  uuid_strip s = h /\ length s = 36%nat /\
  forallb (fun i => bool_decide (s !! i = Some dash)) [8; 13; 18; 23]%nat = true.
Proof.
  intros H. do 32 (destruct h as [|? h]; [done|]). destruct h; [|done]. done.
Qed.

#[export] Instance sim_util_ok : NiovaUtilOk.
Proof.
  split; simpl.
  - intros n z c rest Hz _ Hc. rewrite digits_val_app by done. simpl. by rewrite Hc.
  - intros u. by destruct (strip_unparse _ (length_hex_digits 32 u)) as (_ & ? & _).
  - intros u Hu. unfold sim_parse.
    destruct (strip_unparse _ (length_hex_digits 32 u)) as (Hs & Hl & Hd). cbv zeta in *.
    change (sim_unparse u) with (take 8 (hex_digits 32 u) ++ [dash] ++
      take 4 (drop 8 (hex_digits 32 u)) ++ [dash] ++ take 4 (drop 12 (hex_digits 32 u)) ++ [dash]
      ++ take 4 (drop 16 (hex_digits 32 u)) ++ [dash] ++ take 12 (drop 20 (hex_digits 32 u))).
    unfold slen. rewrite Hl, Hs, Hd. destruct (hex_digits_ok 32 u) as [Hx Hv]. rewrite Hx, Hv.
    simpl. by rewrite Z.mod_small.
  - intros c l u. unfold sim_parse. destruct (_ && _ && _) eqn:E; [|done]. intros _.
    apply andb_true_iff in E as [[_ E]%andb_true_iff _]. simpl in E.
    by apply andb_true_iff in E as [? _].
Qed.

(** ** The environment: rsync brings [remote] to the directory [local]. *)
Definition sim_recovery_env (remote : option memdb) (local : bytes) : RecoveryEnv memdb := {|
  recovery_regexec re s :=
    match re with
    | RECOVERY_MARKER_NAME__regex => prefix_of (RECOVERY_MARKER_NAME ++ str ".") s
    | RECOVERY_RSYNC_TOTAL_SIZE__regex => prefix_of (str "Total file size: ") s
    | RECOVERY_RSYNC_TOTAL_XFER_SIZE__regex => prefix_of (str "Total transferred file size: ") s
    | RECOVERY_CHKPT_DIRNAME__regex => slen s =? 94
    | _ => false
    end;
  recovery_rate_match _ := None;
  popen_cmd_out cmd _ cb rrh fs :=
    if prefix_of (str "rsync -an") cmd then
      let '(rc, rrh) := cb (str "Total file size: 100 bytes") rrh in
      let '(rc, rrh) := cb (if bool_decide (is_Some (fs !! local))
                            then str "Total transferred file size: 0 bytes"
                            else str "Total transferred file size: 100 bytes") rrh in
      (0, rrh, fs)
    else match remote with
         | Some d => (0, rrh, <[local := FsDb d]> fs)
         | None => (- EIO, rrh, fs)
         end;
  limit_rsync_bw := false;
  ctl_svc_node_lookup _ := 0;
  ctl_svc_node_peer_2_store _ := Some (str "/peer");
  ctl_svc_node_peer_2_ipaddr _ := str "host";
  statvfs_rc _ := 0;
  statvfs_rdonly _ := false;
  statvfs_f_bsize _ := 4096;
  statvfs_f_bavail _ := 4096;
  uuid_generate fs := 1000 + Z.of_nat (size fs);
  uuid_generate_time fs := 2000 + Z.of_nat (size fs);
  file_util_pathname_build p fs := (0, <[norm_path p := FsDir]> fs);
  fs_rename_rc _ _ := 0;
  fs_mkdir_rc _ := 0;
  fs_scandir_rc _ := 0;
  fs_unremovable _ := false;
  close_rc _ := 0;
  rocksdb_alloc _ := true;
|}.
#[export] Instance sim_env_rocks : RecoveryEnv memdb := sim_recovery_env None [].

(** ** A server on the database *)
Definition sim_log_dir : bytes := str "/raft".
Definition sim_st0 : rocks_state memdb :=
  {| ri_backend_arg := None; rs_fs := ∅; rs_db_path := []; rs_open_fds := 0 |}.
Definition sim_rocks_ri (self : uuid) : option raft_instance :=
  ri ← raft_server_instance_init RAFT_INSTANCE_STORE_ROCKSDB (uuid_unparse sim_raft)
         (uuid_unparse self) false false false false 1 zero_raft_instance;
  Some (ri <| ri_csn_raft := sim_raft |> <| ri_csn_raft_peers := [1; 2; 3] |>
           <| ri_csn_this_peer := self |> <| ri_last_send := replicate 11 0 |>
           <| ri_last_recv := replicate 11 0 |> <| ri_log := sim_log_dir |>).
(** rsbr_setup() on the file system of [st], and then the start-up of the server. *)
Definition sim_rocks_boot (self : uuid) (st : rocks_state memdb) :
  option (world (rocks_state memdb) Z) :=
  ri ← sim_rocks_ri self;
  r ← rsbr_setup 0 None (RWorld ri st);
  if negb (r.1 =? 0) then None
  else
    let w := World (rw_ri r.2) (rw_st r.2) 0 (sim_env no_faults 1000) 0 [] in
    r ← (raft_instance_initialize_newest_entry_hdr ;;;
         let! rc := raft_server_log_load in
         assert_ (rc =? 0) ;;;
         let! rc := raft_server_evp_setup (fun _ => 0) (fun _ => 0) in
         assert_ (rc =? 0) ;;;
         ri_upd (fun ri => ri <| ri_proc_state := RAFT_PROC_STATE_RUNNING |>
                              <| ri_coalesced_wr := Some zero_co_wr |>) ;;;
         raft_server_main_loop_enter) w;
    Some r.2.
Definition sim_rocks_world0 : world (rocks_state memdb) Z :=
  World zero_raft_instance sim_st0 0 (sim_env no_faults 0) 0 [].
Definition sim_rocks_node (self : uuid) : world (rocks_state memdb) Z :=
  default sim_rocks_world0 (sim_rocks_boot self sim_st0).
