(* ===== verification/StoreProps.v ===== *)
(** Correctness of storage: any sequence of log operations on a backend refines
    the abstract log, what the server writes it reads back, and what the two
    backends promise beyond the interface: headers that survive a torn write in
    the flat file; the extent of the log and its reaping in RocksDB. *)
From Stdlib Require Import Strings.String.
From stdpp Require Import base tactics list gmap.
From Stdlib Require Import ZArith Lia Strings.Byte.
From S2P Require Import Prelude RaftTypes World Quorum Net WriteSupp Entry Log Election Append Leader ClientReq Apply Server Steps PosixBackend Sim LogProps RocksKeys RocksBackend RocksRecovery RocksBulk LogStore PosixProps RocksProps RocksSim.
Local Open Scope Z_scope.
Local Open Scope raft_scope.

(** ** Sequences of log operations *)
Inductive log_op :=
  | LogWrite (re : raft_entry) (ws : option raft_net_sm_write_supplements)
  | LogTruncate (idx : raft_entry_idx_t)
  | LogHeaderWrite (now : Z).

Section ops.
Context `{NC : NiovaCore} {B : Type} {BE : Backend B} {LS : LogStore B}.
Implicit Types (b : B) (l : alog).

Definition log_op_run (ri : raft_instance) (op : log_op) b : option B :=
  match op with
  | LogWrite re ws => rib_entry_write ri re ws b
  | LogTruncate idx => rib_log_truncate ri idx b
  | LogHeaderWrite now => r ← rib_header_write now ri b; Some r.2
  end.
Definition log_op_spec (op : log_op) l : alog :=
  match op with
  | LogWrite re _ => al_append l re
  | LogTruncate idx => al_truncate l idx
  | LogHeaderWrite _ => l
  end.
(** The next entry, with supplements that leave the log alone; a truncation
    within the log. *)
Definition log_op_ok (ri : raft_instance) (op : log_op) l : Prop :=
  match op with
  | LogWrite re ws => entry_wf ri re (al_next l) /\ ls_ws ws /\ al_next l < ls_limit
  | LogTruncate idx => al_lo l <= idx <= al_next l /\ idx < ls_limit
  | LogHeaderWrite _ => True
  end.
Fixpoint ops_run (ri : raft_instance) (ops : list log_op) b : option B :=
  match ops with
  | [] => Some b
  | op :: ops => b ← log_op_run ri op b; ops_run ri ops b
  end.
Fixpoint ops_ok (ri : raft_instance) (ops : list log_op) l : Prop :=
  match ops with
  | [] => True
  | op :: ops => log_op_ok ri op l /\ ops_ok ri ops (log_op_spec op l)
  end.
Definition ops_spec (ops : list log_op) l : alog := foldl (fun l op => log_op_spec op l) l ops.


Lemma log_op_refines ri op b b' l :
  ls_repr ri b l -> log_op_ok ri op l -> log_op_run ri op b = Some b' ->
  ls_repr ri b' (log_op_spec op l).
Proof.
  intros Hr Hok H. destruct op as [re ws|idx|now]; simpl in *.
  - destruct Hok as (? & ? & ?). by eapply ls_write.
  - destruct Hok. by eapply ls_truncate.
  - destruct (rib_header_write now ri b) as [[rc b1]|] eqn:E; [|done].
    injection H as <-. by eapply ls_header_write.
Qed.

Lemma ops_run_repr ri ops b b' l :
  ls_repr ri b l -> ops_ok ri ops l -> ops_run ri ops b = Some b' ->
  ls_repr ri b' (ops_spec ops l).
Proof.
  revert b l. induction ops as [|op ops IH]; intros b l Hr Hok H; simpl in *.
  - by injection H as <-.
  - destruct Hok as [Hop Hok]. destruct (log_op_run ri op b) as [b1|] eqn:E; [|done].
    eapply (IH b1); [by eapply log_op_refines | done..].
Qed.

End ops.

(** ** A run on a flat file *)
Definition sim_store_ri : raft_instance :=
  zero_raft_instance <| ri_max_entry_size := RAFT_ENTRY_SIZE_POSIX |>
    <| ri_csn_raft := sim_raft |> <| ri_csn_this_peer := 1 |>
    <| ri_store_type := RAFT_INSTANCE_STORE_POSIX_FLAT_FILE |>.
Definition null_entry : raft_entry := {| re_header := null_reh; re_data := [] |}.
Definition sim_entry (ri : raft_instance) (idx term : Z) (d : bytes) : raft_entry :=
  default null_entry (raft_server_entry_init ri (7 * 10 ^ 9) idx term (Some d)
    [Z.of_nat (length d)] 1 RAFT_WR_ENTRY_OPT_NONE).

Lemma sim_entry_wf ri idx term d :
  ids_ok ri ->
  raft_server_entry_init ri (7 * 10 ^ 9) idx term (Some d)
    [Z.of_nat (length d)] 1 RAFT_WR_ENTRY_OPT_NONE = Some (sim_entry ri idx term d) ->
  0 <= idx < 2 ^ 63 -> 0 <= term < 2 ^ 63 -> Z.of_nat (length d) < 2 ^ 32 ->
  entry_wf ri (sim_entry ri idx term d) idx.
Proof.
  intros Hids H ? ? ?. eapply entry_init_wf; [exact H | done | exact Hids | done..| |].
  - repeat constructor; lia.
  - unfold raft_server_wr_entries_get_total_size. simpl. rewrite u32_small; lia.
Qed.


(** Closed bounds on evaluable numbers. *)
Ltac eval_bounds := vm_compute; repeat split; discriminate.

(** The run completes: only whether it does is evaluated. *)
Definition completes {T} (r : option T) : bool := match r with Some _ => true | None => false end.
Lemma completes_is_Some {T} (r : option T) : completes r = true -> is_Some r.
Proof. destruct r; [by eexists | done]. Qed.

(** Likewise its return code. *)
Definition rc_of {T} (r : option (Z * T)) : option Z := match r with Some (rc, _) => Some rc | None => None end.
Lemma result_code {T} (r : option (Z * T)) rc : rc_of r = Some rc -> exists x, r = Some (rc, x).
Proof. destruct r as [[rc' x]|]; [intros [= ->]; by eexists | done]. Qed.


(** ** Writing and reading by the server *)
Section server_rw.
Context `{NC : NiovaCore} {OK : NiovaCoreOk NC} {B A : Type} {BE : Backend B} {LS : LogStore B}.
Implicit Types w : world B A.

(** What the reading side depends on, besides the newest headers. *)
Definition read_config (ri : raft_instance) :=
  (ls_config ri, ri_csn_this_peer ri, ri_csn_raft ri, ri_lowest_idx ri, ri_pending_read_idx ri).

(** C12. Round trip through the log: after the server has written the next entry,
    over any backend that implements the log interface, the backend represents the
    log with that entry appended and reading the entry's index gives exactly the
    data that was written, in the same state. *)
Theorem server_write_read idx term d sizes n opts ws w w' l :
  raft_server_entry_write idx term (Some d) sizes n opts ws w = Some (0, w') ->
  ls_repr (w_ri w) (w_be w) l -> idx = al_next l -> 0 <= idx < ls_limit -> ls_ws ws ->
  nehdr_ok (w_ri w) -> ids_ok (w_ri w) ->
  0 <= env_realtime (w_env w) < 2 ^ 64 -> idx < 2 ^ 63 -> 0 <= term < 2 ^ 63 ->
  Forall (fun x => 0 <= x < 2 ^ 32) sizes -> opts <> RAFT_WR_ENTRY_OPT_LOG_HEADER ->
  raft_server_wr_entries_get_total_size sizes n = Z.of_nat (length d) -> d <> [] ->
  ri_lowest_idx (w_ri w) <= idx -> ri_pending_read_idx (w_ri w) = RAFT_ENTRY_IDX_ANY ->
  exists re, re_data re = d /\ reh_term (re_header re) = term /\
    ls_repr (w_ri w') (w_be w') (al_append l re) /\
    raft_server_entry_read idx (Z.of_nat (length d)) w' = Some ((0, d), w').
Proof.
  intros H Hr -> Hidx Hws Hok Hids Hnow Hidx' Hterm Hsizes Hopts Htot Hd Hlo Hpend.
  pose proof H as Hkeep. eapply (keeps_run (on_ri (same read_config))) in Hkeep; [|solve_keeps].
  unfold on_ri, same in Hkeep. injection Hkeep as Hcm Hcs Hcp Hcv Hself Hraft Hlow Hp.
  pose proof H as Hok'. eapply (keeps_run (on_ri (preserves nehdr_ok))) in Hok';
    [|apply keeps_nehdr_entry_write]. specialize (Hok' Hok).
  apply entry_write_run in H as (re & Hre & Hw & Hu & _); [|done|lia].
  pose proof (entry_init_wf _ _ _ _ _ _ _ _ _ Hre Hopts Hids Hnow
    (conj (proj1 Hidx) Hidx') Hterm Hsizes ltac:(lia)) as Hwf.
  pose proof (raft_server_entry_init_inv _ _ _ _ _ _ _ _ _ Hre)
    as (Hcrc & _ & Hi & Ht & Hs & Hra & _ & Hds & _ & _ & _ & Hdata & _).
  assert (Hd' : re_data re = d).
  { rewrite Hdata, Hds, Htot, Nat2Z.id. simpl. apply firstn_all. }
  assert (Hr' : ls_repr (w_ri w') (w_be w') (al_append l re)).
  { eapply ls_repr_config; [|eapply ls_write; [exact Hr|exact Hwf|done|lia|exact Hw]].
    unfold ls_config. congruence. }
  exists re. split_and!; try done.
  assert (Hsz : reh_data_size (re_header re) = Z.of_nat (length d)) by congruence.
  assert (Hnz : Z.of_nat (length d) <> 0) by (destruct d; [done | simpl; lia]).
  rewrite <- Hsz, <- Hd' at 1. eapply entry_read_eq; try done; try congruence; try lia.
  - rewrite al_get_append. by rewrite Z.eqb_refl.
  - destruct Hwf as [? ? ? ? ? Hmax ?]. split; try done; [|congruence].
    unfold RAFT_ENTRY_MAX_DATA_SIZE in *. by rewrite Hcm.
  - rewrite Hu, Hi. lia.
Qed.
End server_rw.

(** A new database, and a server on it. *)
Definition sim_rir : raft_instance_rocks_db memdb :=
  {| rir_log_fd := 3; rir_db := Some ∅; rir_options := Some true; rir_writeoptions_sync := true;
     rir_writeoptions_async := true; rir_readoptions := true; rir_writebatch := true;
     rir_cf_table := None |}.
Definition sim_rir_st : rocks_state memdb :=
  {| ri_backend_arg := Some sim_rir; rs_fs := ∅; rs_db_path := []; rs_open_fds := 1 |}.
Definition sim_rocks_ri1 : raft_instance :=
  (default zero_raft_instance (sim_rocks_ri 1)) <| ri_max_entry_size := RAFT_ENTRY_SIZE_ROCKSDB |>.
Definition sim_new_db : raft_instance * rocks_state memdb :=
  match rsbr_init_header 5 sim_rocks_ri1 sim_rir_st with
  | Some (_, ri, st) => (ri, st)
  | None => (sim_rocks_ri1, sim_rir_st)
  end.
Definition sim_rw_world : world (rocks_state memdb) Z :=
  World (sim_new_db.1 <| ri_newest_entry_sync := null_reh |> <| ri_newest_entry_unsync := null_reh |>
           <| ri_state := RAFT_STATE_FOLLOWER |>)
    sim_new_db.2 0 (sim_env no_faults 1000) 0 [].

Lemma sim_new_db_repr : rocks_repr sim_new_db.1 sim_new_db.2 empty_alog.
Proof.
  unfold sim_new_db. destruct (rsbr_init_header _ _ _) as [[[rc ri] st]|] eqn:E.
  - by apply (init_header_repr 5 sim_rocks_ri1 sim_rir_st ∅ rc ri st E).
  - exfalso. apply (f_equal completes) in E. vm_compute in E. done.
Qed.

Lemma sim_rw_nehdr : nehdr_ok (w_ri sim_rw_world).
Proof.
  refine (conj _ (conj (or_introl eq_refl) (conj (or_introl eq_refl) (or_introl eq_refl)))).
  discriminate.
Qed.
Lemma sim_rw_repr : rocks_repr (w_ri sim_rw_world) (w_be sim_rw_world) empty_alog.
Proof.
  apply (ls_repr_config (LogStore := rocks_log_store) sim_new_db.1);
    [vm_compute; reflexivity | exact sim_new_db_repr].
Qed.
Lemma sim_rw_ids : ids_ok (w_ri sim_rw_world).
Proof. split; eval_bounds. Qed.
Lemma sim_rw_write : exists w', (raft_server_entry_write 0 1 (Some [x61; x62]) [2] 1
  RAFT_WR_ENTRY_OPT_NONE None sim_rw_world) = Some (0, w').
Proof.
  apply (result_code _ 0). vm_compute. reflexivity.
Qed.

Lemma server_write_read_witness :
  exists (w' : world (rocks_state memdb) Z) re, re_data re = [x61; x62] /\ reh_term (re_header re) = 1 /\
    rocks_repr (w_ri w') (w_be w') (al_append empty_alog re) /\
    raft_server_entry_read 0 2 w' = Some ((0, [x61; x62]), w').
Proof.
  destruct sim_rw_write as [w' E]. exists w'.
  exact (server_write_read (LS := rocks_log_store) 0 1 [x61; x62] [2] 1 RAFT_WR_ENTRY_OPT_NONE
    None sim_rw_world w' empty_alog E sim_rw_repr eq_refl ltac:(done) I sim_rw_nehdr sim_rw_ids
    ltac:(eval_bounds) ltac:(done) ltac:(done) ltac:(apply Forall_singleton; done) ltac:(done)
    ltac:(reflexivity) ltac:(done) ltac:(eval_bounds) ltac:(vm_compute; reflexivity)).
Defined.

(** ** The two header slots of the flat file *)
Section posix_headers.
Context `{NC : NiovaCore} {OK : NiovaCoreOk NC}.
Implicit Types rip : raft_instance_posix.

Definition hdr_slot (i : Z) : Z := slot_off (i - NUM_RAFT_LOG_HEADERS).
(** Bytes written to slot [i]. *)
Definition write_slot (i : Z) (data : bytes) rip : raft_instance_posix :=
  rip <| rip_file ::= fun f => file_write f (hdr_slot i) data |>.

Lemma valid_slot_write rip i j h data :
  0 <= i < 2 -> 0 <= j < 2 -> i <> j -> Z.of_nat (length data) <= RAFT_ENTRY_SIZE_POSIX ->
  valid_slot rip i h -> valid_slot (write_slot j data rip) i h.
Proof.
  intros Hi Hj Hij Hl [(re & Hh & Hwf & Hd & Hcrc) Hw]. split; [|done].
  exists re. split; [|done]. pose proof (length_re_bytes re (wf_sz_len _ Hwf)) as Hlen.
  rewrite Hd, length_rlh_bytes in Hlen.
  apply holds_write_other; [| done |]; unfold hdr_slot, slot_off, NUM_RAFT_LOG_HEADERS,
    RAFT_ENTRY_SIZE_POSIX, sizeof_raft_entry_header, sizeof_raft_log_header in *; lia.
Qed.

Lemma newer_zero h : newer zero_rlh h = h.
Proof. done. Qed.

(** Loading takes the slots in order. *)
Lemma header_load_two ri rip h a b :
  posix_config ri -> header_load_one ri rip zero_rlh 0 = Some a ->
  header_load_one ri rip a 1 = Some b -> b = h -> rlh_wf h ->
  rsbp_header_load ri rip = Some (0, h).
Proof.
  intros (_ & Hv & Hs) Ha Hb -> Hw. unfold rsbp_header_load.
  assert (rsbr_get_num_log_headers ri = Some NUM_RAFT_LOG_HEADERS) as ->.
  { unfold rsbr_get_num_log_headers. rewrite Hv, Hs. by rewrite bool_decide_true. }
  cbn [mbind option_bind]. change (zrange 0 NUM_RAFT_LOG_HEADERS) with [0; 1].
  cbn [foldl mbind option_bind]. rewrite Ha. cbn [mbind option_bind]. rewrite Hb.
  cbn [mbind option_bind]. by rewrite (hw_magic _ Hw), Z.eqb_refl.
Qed.

(** One slot valid with the newer header, the other one older or not valid. *)
Lemma header_load_newest ri rip i h :
  posix_config ri -> rip_io rip = io_ok -> 0 <= i < 2 -> valid_slot rip i h ->
  torn_slot ri rip (1 - i) \/
    (exists h0, valid_slot rip (1 - i) h0 /\ rlh_seqno h0 < rlh_seqno h) ->
  rsbp_header_load ri rip = Some (0, h).
Proof.
  intros Hc Hio Hi Hv Hother. pose proof (vs_wf _ _ _ Hv) as Hw.
  pose proof (hw_magic _ Hw) as Hm.
  assert (i = 0 \/ i = 1) as [->| ->] by lia; simpl in Hother.
  - eapply header_load_two; [done | by apply load_one_valid | | reflexivity | done].
    destruct Hother as [Ht|(h0 & Hv0 & Hlt)]; [by rewrite Ht|].
    erewrite load_one_valid by done. rewrite newer_zero. unfold newer. rewrite Hm, Z.eqb_refl.
    simpl. by replace (_ <? _) with false by lia.
  - destruct Hother as [Ht|(h0 & Hv0 & Hlt)].
    + eapply header_load_two; [done | by rewrite Ht | by apply load_one_valid | done..].
    + eapply header_load_two; [done | by apply load_one_valid | by apply load_one_valid | | done].
      rewrite newer_zero. unfold newer. replace (_ <? _) with true by lia. by rewrite orb_true_r.
Qed.

(** A slot the file ends in is torn. *)
Lemma short_slot_torn ri rip i :
  posix_config ri -> rip_io rip = io_ok -> 0 <= i ->
  f_size (rip_file rip) < hdr_slot i + sizeof_raft_entry_header + sizeof_raft_log_header ->
  torn_slot ri rip i.
Proof.
  intros Hc Hio Hi Hs most. unfold header_load_one, rsbp_entry_read, rsbp_read_common.
  assert (rsbr_get_num_log_headers ri = Some NUM_RAFT_LOG_HEADERS) as ->.
  { destruct Hc as (_ & Hv & Ht). unfold rsbr_get_num_log_headers. rewrite Hv, Ht.
    by rewrite bool_decide_true. }
  cbn [mbind option_bind]. rewrite phys_offset_eq by (done || unfold NUM_RAFT_LOG_HEADERS; lia).
  cbn [mbind option_bind]. rewrite u64_small by done. unfold rip_pread. rewrite Hio.
  cbn [io_ok io_pread fst snd]. unfold file_read, hdr_slot in *. rewrite length_map, length_zrange.
  destruct (Z.eqb_spec (Z.of_nat (Z.to_nat (Z.min (slot_off (i - NUM_RAFT_LOG_HEADERS) +
    (sizeof_raft_entry_header + sizeof_raft_log_header)) (f_size (rip_file rip)) -
    slot_off (i - NUM_RAFT_LOG_HEADERS)))) (sizeof_raft_entry_header + sizeof_raft_log_header))
    as [E|]; [|done].
  unfold sizeof_raft_entry_header, sizeof_raft_log_header in *. lia.
Qed.

(** C22. Crash safety of the log header (term and vote): the header goes to the
    slot its sequence number selects, the other slot keeps the previous header.
    After a completed write the new header is loaded; and whatever a crash leaves
    in the written slot, if it does not validate the previous header is loaded. *)
Theorem posix_header_write_atomic ri now rip h0 :
  posix_config ri -> rip_io rip = io_ok -> ids_ok ri -> 0 <= now < 2 ^ 64 ->
  rlh_wf (ri_log_hdr ri) ->
  let i := rlh_seqno (ri_log_hdr ri) mod 2 in
  valid_slot rip (1 - i) h0 -> rlh_seqno h0 < rlh_seqno (ri_log_hdr ri) ->
  (exists data,
     rsbp_header_write now ri rip = Some (0, write_slot i data rip) /\
     rsbp_header_load ri (write_slot i data rip) = Some (0, ri_log_hdr ri)) /\
  (forall part, Z.of_nat (length part) <= RAFT_ENTRY_SIZE_POSIX ->
     torn_slot ri (write_slot i part rip) i ->
     rsbp_header_load ri (write_slot i part rip) = Some (0, h0)).
Proof.
  intros Hc Hio Hids Hnow Hw i Hv Hlt.
  pose proof (Z.mod_pos_bound (rlh_seqno (ri_log_hdr ri)) 2 ltac:(lia)) as Hi. fold i in Hi.
  split.
  - destruct (header_write_eq ri now rip Hc Hio Hids Hnow Hw) as (re & Hr & Hl & Hwf & Hd & Hcrc).
    exists (re_bytes re). split; [exact Hr|].
    apply (header_load_newest _ _ i); try done.
    + split; [|done]. exists re. split_and!; try done. apply holds_write_same.
      unfold slot_off, NUM_RAFT_LOG_HEADERS, RAFT_ENTRY_SIZE_POSIX. lia.
    + right. exists h0. split; [|done]. apply valid_slot_write; try lia; try done.
      rewrite Hl. done.
  - intros part Hp Ht. apply (header_load_newest _ _ (1 - i)); try done; try lia.
    + apply valid_slot_write; try lia; done.
    + left. by replace (1 - (1 - i)) with i by lia.
Qed.
End posix_headers.

Definition sim_rlh (term seqno voted : Z) : raft_log_header :=
  {| rlh_version := 0; rlh_magic := RAFT_HEADER_MAGIC; rlh_term := term; rlh_seqno := seqno;
     rlh_voted_for := voted |}.
Definition sim_hdr_ri (seqno : Z) : raft_instance :=
  sim_store_ri <| ri_log_hdr := sim_rlh (3 + seqno) seqno 2 |>.

(** Term 3 is on disk in slot 0; term 4 goes to slot 1, of which a crash leaves
    300 bytes. *)
Lemma posix_header_write_atomic_witness :
  exists rip, (exists data,
     rsbp_header_write 9 (sim_hdr_ri 1) rip = Some (0, write_slot 1 data rip) /\
     rsbp_header_load (sim_hdr_ri 1) (write_slot 1 data rip) = Some (0, sim_rlh 4 1 2)) /\
  rsbp_header_load (sim_hdr_ri 1) (write_slot 1 (replicate 300 x61) rip) = Some (0, sim_rlh 3 0 2).
Proof.
  assert (Hids : ids_ok (sim_hdr_ri 0)) by done.
  assert (Hw0 : rlh_wf (sim_rlh 3 0 2)) by done.
  assert (Hw1 : rlh_wf (sim_rlh 4 1 2)) by done.
  assert (Hc0 : posix_config (sim_hdr_ri 0)) by done.
  destruct (header_write_eq (sim_hdr_ri 0) 8 empty_file Hc0 eq_refl Hids ltac:(done) Hw0)
    as (re & _ & Hl & Hwf & Hd & Hcrc).
  set (rip := write_slot 0 (re_bytes re) empty_file). exists rip.
  assert (Hv : valid_slot rip 0 (sim_rlh 3 0 2)).
  { split; [|done]. exists re. split_and!; try done. by apply holds_write_same. }
  destruct (posix_header_write_atomic (sim_hdr_ri 1) 9 rip (sim_rlh 3 0 2) ltac:(done) eq_refl
              ltac:(done) ltac:(done) Hw1 Hv ltac:(done)) as [H1 H2].
  split; [exact H1|]. apply H2; [done|].
  apply short_slot_torn; try done.
  change (Z.max (Z.max 0 (0 + Z.of_nat (length (re_bytes re)))) (hdr_slot 1 + 300)
          < hdr_slot 1 + sizeof_raft_entry_header + sizeof_raft_log_header).
  rewrite Hl. reflexivity.
Defined.

(** ** The log in RocksDB *)
Section rocks_log.
Context `{NC : NiovaCore} {D : Type} `{RD : RocksDB D} {ROK : RocksDBOk D}
  `{NU : NiovaUtil} {NUK : NiovaUtilOk} `{RE : RecoveryEnv D}.
Implicit Types st : rocks_state D.

(** C27. The extent the server finds at start-up: on a database that represents a
    log, rsbr_num_entries_calc() gives the index after the last entry (0 for an
    empty log) and rsbr_lowest_entry_get() the first index, whatever the
    application has stored around the log. *)
Theorem rocks_log_extent ri st d l :
  rocks_repr ri st l -> iterable ri st d ->
  rsbr_num_entries_calc ri st = Some (if decide (al_entries l = []) then 0 else al_next l) /\
  (al_entries l <> [] -> rsbr_lowest_entry_get ri st = Some (0, al_lo l)).
Proof.
  intros (d' & Hd & Hl & Hm) Hit.
  assert (d' = d) as ->.
  { destruct Hit as (rir & Hrir & Hdb & _). unfold rocks_db, rsbr_ri_to_rocksdb in Hd.
    rewrite Hrir in Hd. simpl in Hd. congruence. }
  split; [by eapply num_entries_repr | intros; by eapply lowest_entry_repr].
Qed.

(** C38. An entry without data, as the leader change marker: its header can be read,
    but RocksDB stores one byte for it and reading its data fails with -EINVAL,
    whatever size is asked for. *)
Theorem rocks_empty_entry_read_fails ri st l idx re n :
  rocks_repr ri st l -> al_get l idx = Some re -> reh_data_size (re_header re) = 0 ->
  rsbr_entry_header_read ri idx st = Some (0, re_header re) /\
  exists re', rsbr_entry_read ri idx n st = Some (- EINVAL, re') /\ re_data re' = [].
Proof.
  intros Hr Hg Hsz. split; [by eapply header_read_repr|].
  erewrite empty_entry_read by done. eauto.
Qed.


(** The database holds the header [h] under the keys of [ri]. *)
Definition stored_header (ri : raft_instance) (h : raft_log_header) st : Prop :=
  exists d, rocks_db ri st d /\
    rocksdb_get d (RAFT_LOG_HEADER_FMT (ri_raft_uuid_str ri) (ri_this_peer_uuid_str ri))
      = Some (rlh_bytes h).

Lemma header_write_stored ri st st' rc d :
  rsbr_header_write ri st = Some (rc, st') -> rocks_db ri st d ->
  rc = 0 /\ stored_header ri (ri_log_hdr ri) st'.
Proof.
  unfold rsbr_header_write. intros H Hd.
  destruct (rs_write _ _ _ _) as [st1|] eqn:Hw; [|done]. injection H as <- <-.
  split; [done|]. destruct (rs_write_run _ _ _ _ _ _ Hw Hd) as (d' & Hd' & Hdw).
  exists d'. split; [done|]. rewrite (rocksdb_write_get _ _ _ _ _ Hdw).
  cbn [wb_run foldl wb_apply]. by rewrite bool_decide_true.
Qed.

Lemma header_load_stored ri ri' h st :
  stored_header ri h st -> rlh_wf h ->
  ri_raft_uuid_str ri' = ri_raft_uuid_str ri ->
  ri_this_peer_uuid_str ri' = ri_this_peer_uuid_str ri ->
  ri_proc_state ri' = ri_proc_state ri ->
  rsbr_header_load ri' st = Some (0, h).
Proof.
  intros (d & Hd & Hg) Hwf E1 E2 Hp. unfold rsbr_header_load. rewrite E1, E2.
  assert (Hd2 : rocks_db ri' st d) by (by eapply rocks_db_config; [|exact Hd]).
  pose proof (length_rlh_bytes h) as Hl.
  assert (Hne : rlh_bytes h <> []) by (intros E; rewrite E in Hl; done).
  destruct (get_exact_run ri' st d _ _ Hd2 Hg ltac:(done) Hne) as (rir & -> & Hget).
  cbn [mbind option_bind]. unfold slen in Hget. rewrite Hl in Hget. rewrite Hget.
  cbn [mbind option_bind fst snd]. unfold memcpy.
  rewrite drop_ge, app_nil_r, rlh_of_bytes_rlh_bytes, (hw_magic _ Hwf), Z.eqb_refl; [done..|].
  pose proof (length_rlh_bytes (ri_log_hdr ri')). lia.
Qed.




(** C35. A new database: after rsbr_init_header() on an empty database it holds the
    empty log, no entry is found, and the header is the initial one. *)
Theorem rocks_new_database u ri st d rc ri' st' :
  rsbr_init_header u ri st = Some (rc, ri', st') ->
  rocks_db ri st d -> (forall k, rocksdb_get d k = None) ->
  raft_instance_is_recovering ri = false ->
  rc = 0 /\ rocks_repr ri' st' empty_alog /\
  ri_log_hdr ri' = zero_rlh <| rlh_magic := RAFT_HEADER_MAGIC |> /\
  rsbr_header_load ri' st' = Some (0, ri_log_hdr ri') /\
  (forall d', iterable ri' st' d' -> rsbr_num_entries_calc ri' st' = Some 0).
Proof.
  intros H Hd Hempty Hrec.
  destruct (init_header_repr _ _ _ _ _ _ _ H Hd Hempty Hrec) as [-> Hr].
  split; [done|]. split; [done|].
  assert (Hhdr : ri_log_hdr ri' = zero_rlh <| rlh_magic := RAFT_HEADER_MAGIC |>).
  { unfold rsbr_init_header in H. rewrite Hrec in H. cbn [andb] in H.
    destruct (rs_write _ _ _ _); [|done]. simpl in H. destruct (rsbr_header_write _ _) as [[rc1 st2]|]; [|done].
    simpl in H. injection H as _ <- _. done. }
  split; [done|]. split.
  - unfold rsbr_init_header in H. rewrite Hrec in H. cbn [andb] in H.
    destruct (rs_write _ _ _ _) as [st1|] eqn:Hw; [|done]. simpl in H.
    destruct (rsbr_header_write _ st1) as [[rc1 st2]|] eqn:Hh; [|done].
    simpl in H. injection H as ? <- <-. simpl in Hhdr.
    apply rs_write_run with (d := d) in Hw as (d1 & Hd1 & _); [|by eapply rocks_db_config].
    destruct (header_write_stored _ _ _ _ _ Hh Hd1) as [_ Hst].
    by apply (header_load_stored _ _ _ _ Hst).
  - intros d' Hit. pose proof Hr as (d2 & Hd2 & Hl & Hm).
    assert (d2 = d') as ->.
    { destruct Hit as (rir & Hrir & Hdb & _). unfold rocks_db, rsbr_ri_to_rocksdb in Hd2.
      rewrite Hrir in Hd2. simpl in Hd2. congruence. }
    erewrite num_entries_repr by done. by rewrite decide_True.
Qed.
End rocks_log.

(** A database with two entries, the second one without data. *)
Definition sim_rocks_ops : list log_op :=
  [LogWrite (sim_entry sim_new_db.1 0 1 [x61; x62]) None;
   LogWrite (sim_entry sim_new_db.1 1 1 []) None].
Definition sim_two_entries : rocks_state memdb :=
  default sim_rir_st (ops_run sim_new_db.1 sim_rocks_ops sim_new_db.2).
Definition sim_two_log : alog := ops_spec sim_rocks_ops empty_alog.

Lemma two_ops_ok (ri : raft_instance) e0 e1 :
  entry_wf ri e0 0 -> entry_wf ri e1 1 ->
  ops_ok (B := rocks_state memdb) ri [LogWrite e0 None; LogWrite e1 None] empty_alog.
Proof. intros H0 H1. split_and!; first [exact H0 | exact H1 | done]. Qed.
Lemma sim_new_db_ids : ids_ok sim_new_db.1.
Proof. split; eval_bounds. Qed.

Lemma sim_two_repr : rocks_repr sim_new_db.1 sim_two_entries sim_two_log.
Proof.
  unfold sim_two_entries. destruct (ops_run _ _ _) as [b|] eqn:E.
  - apply (ops_run_repr (LS := rocks_log_store) _ _ _ _ _ sim_new_db_repr); [|exact E].
    apply two_ops_ok; (apply sim_entry_wf; [exact sim_new_db_ids | vm_compute; reflexivity | done..]).
  - exfalso. apply (f_equal completes) in E. vm_compute in E. done.
Qed.

Definition sim_db_of (st : rocks_state memdb) : memdb :=
  default ∅ (rsbr_ri_to_rocksdb sim_new_db.1 st).
Lemma sim_two_rocks_db : rocks_db sim_new_db.1 sim_two_entries (sim_db_of sim_two_entries).
Proof.
  destruct sim_two_repr as (d & Hd & _). unfold rocks_db, sim_db_of in *. by rewrite Hd.
Qed.
Lemma sim_iterable st d : rocks_db sim_new_db.1 st d ->
  match rsbr_ri_to_rirdb sim_new_db.1 st with Some rir => rir_readoptions rir | None => true end
    = true ->
  iterable sim_new_db.1 st d.
Proof.
  unfold rocks_db, rsbr_ri_to_rocksdb, iterable. destruct (rsbr_ri_to_rirdb _ _) as [rir|]; [|done].
  intros Hd Hro. by exists rir; auto.
Qed.
Lemma sim_two_iterable : iterable sim_new_db.1 sim_two_entries (sim_db_of sim_two_entries).
Proof. apply sim_iterable; [exact sim_two_rocks_db|]. vm_compute. reflexivity. Qed.

Lemma rocks_log_extent_witness :
  rsbr_num_entries_calc sim_new_db.1 sim_two_entries = Some 2 /\
  rsbr_lowest_entry_get sim_new_db.1 sim_two_entries = Some (0, 0).
Proof.
  destruct (rocks_log_extent sim_new_db.1 sim_two_entries (sim_db_of sim_two_entries) sim_two_log
    sim_two_repr sim_two_iterable) as [H1 H2].
  split; [exact H1 | exact (H2 ltac:(done))].
Defined.

(** Reaping the first of the two entries. *)
Definition sim_reaped : rocks_state memdb :=
  default sim_rir_st (rsbr_log_reap sim_new_db.1 1 sim_two_entries).
Lemma sim_reaped_db : is_Some (rsbr_ri_to_rocksdb sim_new_db.1 sim_reaped).
Proof. apply completes_is_Some. vm_compute. reflexivity. Qed.


Lemma rocks_new_database_witness :
  exists rc ri' st', rsbr_init_header 5 sim_rocks_ri1 sim_rir_st = Some (rc, ri', st') /\
  rc = 0 /\ rocks_repr ri' st' empty_alog /\
  ri_log_hdr ri' = zero_rlh <| rlh_magic := RAFT_HEADER_MAGIC |> /\
  rsbr_header_load ri' st' = Some (0, ri_log_hdr ri') /\
  (forall d', iterable ri' st' d' -> rsbr_num_entries_calc ri' st' = Some 0).
Proof.
  destruct (rsbr_init_header 5 sim_rocks_ri1 sim_rir_st) as [[[rc ri'] st']|] eqn:E.
  - exists rc, ri', st'. split; [reflexivity|].
    exact (rocks_new_database 5 sim_rocks_ri1 sim_rir_st ∅ rc ri' st' E eq_refl
             (fun k => lookup_empty _) eq_refl).
  - exfalso. apply (f_equal completes) in E. vm_compute in E. discriminate E.
Defined.


Lemma sim_two_second : exists re, al_get sim_two_log 1 = Some re /\ reh_data_size (re_header re) = 0.
Proof. eexists. split; [reflexivity|]. vm_compute. reflexivity. Qed.
Lemma rocks_empty_entry_read_fails_witness :
  exists re, rsbr_entry_header_read sim_new_db.1 1 sim_two_entries = Some (0, re_header re) /\
  exists re', rsbr_entry_read sim_new_db.1 1 0 sim_two_entries = Some (- EINVAL, re') /\
    re_data re' = [].
Proof.
  destruct sim_two_second as (re & H1 & H2). exists re.
  exact (rocks_empty_entry_read_fails _ _ _ 1 re 0 sim_two_repr H1 H2).
Defined.

(** ** Keys and encodings *)
(** C36. The keys of the entries: the header's key sorts between the key of its
    entry's data and the next entry's keys, all entry keys lie between the metadata
    and the end marker, and the index can be parsed back from both; from index
    10^16 on the order is lost. *)
Theorem entry_keys_ordered i j :
  key_idx_ok i -> key_idx_ok j -> i < j ->
  bytes_lt (RAFT_ENTRY_KEY_PRINTF i) (RAFT_ENTRY_HEADER_KEY_PRINTF i) /\
  bytes_lt (RAFT_ENTRY_HEADER_KEY_PRINTF i) (RAFT_ENTRY_KEY_PRINTF j) /\
  bytes_lt RAFT_LOG_HEADER_ROCKSDB_END (RAFT_ENTRY_KEY_PRINTF i) /\
  bytes_lt (RAFT_ENTRY_HEADER_KEY_PRINTF j) RAFT_LOG_LASTENTRY_ROCKSDB /\
  s64 (strtoull (drop 3 (RAFT_ENTRY_KEY_PRINTF i))) = i /\
  s64 (strtoull (drop 3 (RAFT_ENTRY_HEADER_KEY_PRINTF i))) = i /\
  bytes_lt (RAFT_ENTRY_KEY_PRINTF (10 ^ 16)) (RAFT_ENTRY_KEY_PRINTF (10 ^ 16 - 1)).
Proof.
  intros Hi Hj Hij.
  assert (Hs : s64 i = i) by (destruct Hi; unfold s64; rewrite Z.mod_small; lia).
  split; [apply entry_key_header_lt|]. split; [by apply (entry_key_lt i j)|].
  split; [apply (entry_key_after_hdr _ [])|]. split; [apply (entry_key_before_last _ [])|].
  unfold RAFT_ENTRY_KEY_PRINTF at 1, RAFT_ENTRY_HEADER_KEY_PRINTF at 1.
  change 3%nat with (length RAFT_ENTRY_KEY_PREFIX_ROCKSDB). rewrite !drop_app_length.
  change (str "e") with [x65]. change (str "h") with [x68]. rewrite !strtoull_key by done.
  split_and!; [done..|]. vm_compute. reflexivity.
Qed.
Lemma entry_keys_ordered_witness :
  bytes_lt (RAFT_ENTRY_HEADER_KEY_PRINTF 9) (RAFT_ENTRY_KEY_PRINTF 10).
Proof. exact (proj1 (proj2 (entry_keys_ordered 9 10 ltac:(done) ltac:(done) ltac:(done)))). Defined.

