(* ===== verification/FollowerProps.v ===== *)
(** The follower's side of AppendEntries as an operation on the abstract log: over
    any backend that implements the log interface, a request appends to the log cut
    after the previous index, or leaves the log alone, and never touches what comes
    before that index. *)
From stdpp Require Import base tactics list gmap relations.
From Stdlib Require Import ZArith Lia Strings.Byte.
From S2P Require Import Prelude RaftTypes World Quorum Net WriteSupp Entry Log Election Append Leader ClientReq Apply Server Steps PosixBackend Sim LogProps RocksKeys RocksBackend RocksRecovery RocksBulk LogStore PosixProps RocksProps RocksSim StoreProps.
Local Open Scope Z_scope.
Local Open Scope raft_scope.

(** The header at an index of the log, and of its last entry. *)
Definition al_hdr (l : alog) (idx : Z) : raft_entry_header :=
  match al_get l idx with Some re => re_header re | None => null_reh end.
Definition al_newest (l : alog) : raft_entry_header := al_hdr l (al_next l - 1).

(** The request makes the entry [re]. *)
Record entry_of_request (raerq : raft_append_entries_request_msg) (re : raft_entry) : Prop := {
  er_index : reh_index (re_header re) = raerqm_prev_log_index raerq + 1;
  er_term : reh_term (re_header re) = raerqm_log_term raerq;
  er_data : re_data re = take (Z.to_nat (reh_data_size (re_header re))) (raerqm_entries raerq);
  er_size : reh_data_size (re_header re) =
    raft_server_wr_entries_get_total_size (raerqm_size_arr raerq) (u8 (raerqm_num_entries raerq));
}.

(** The log is only cut where its next entry has another term than the request's. *)
Definition ae_conflict (l : alog) (raerq : raft_append_entries_request_msg) : Prop :=
  raerqm_prev_log_index raerq + 1 < al_next l ->
  reh_term (al_hdr l (raerqm_prev_log_index raerq + 1)) <> raerqm_log_term raerq.

(** What a request makes of the log [l]: the result of the check, whether the
    ignore-AE fault hit, whether the reply says that the previous term does not
    match, and the new log. *)
Inductive ae_outcome (ri : raft_instance) (raerq : raft_append_entries_request_msg)
    (l : alog) : Z * bool * bool -> alog -> Prop :=
| ae_append re :
    raerqm_heartbeat_msg raerq = false ->
    raerqm_prev_log_index raerq < al_next l ->
    reh_term (al_hdr l (raerqm_prev_log_index raerq)) = raerqm_prev_log_term raerq ->
    entry_of_request raerq re ->
    ae_conflict l raerq ->
    ae_outcome ri raerq l (0, false, false)
      (al_append (al_truncate l (raerqm_prev_log_index raerq + 1)) re)
| ae_no_entry ignored :
    raerqm_heartbeat_msg raerq = true \/ ignored = true ->
    raerqm_prev_log_index raerq < al_next l ->
    reh_term (al_hdr l (raerqm_prev_log_index raerq)) = raerqm_prev_log_term raerq ->
    ae_conflict l raerq ->
    ae_outcome ri raerq l (0, ignored, false)
      (al_truncate l (raerqm_prev_log_index raerq + 1))
| ae_already :
    raerqm_prev_log_index raerq + 1 < al_next l ->
    (0 < raerqm_log_term raerq ->
     reh_term (al_hdr l (raerqm_prev_log_index raerq + 1)) = raerqm_log_term raerq) ->
    (0 <= raerqm_prev_log_index raerq ->
     reh_term (al_hdr l (raerqm_prev_log_index raerq)) = raerqm_prev_log_term raerq) ->
    ae_outcome ri raerq l (- EALREADY, false, false) l
| ae_mismatch :
    raerqm_prev_log_index raerq < al_next l ->
    reh_term (al_hdr l (raerqm_prev_log_index raerq)) <> raerqm_prev_log_term raerq ->
    ae_conflict l raerq ->
    ae_outcome ri raerq l (- EEXIST, false, true)
      (al_truncate l (raerqm_prev_log_index raerq + 1))
| ae_gap :
    al_next l <= raerqm_prev_log_index raerq ->
    ae_outcome ri raerq l (- ERANGE, false, true) l
| ae_bounds :
    raft_server_append_entry_request_bounds_check raerq ri = - EBADR ->
    ae_outcome ri raerq l (- EBADR, false, false) l.

Lemma al_hdr_truncate l n i : i < n -> al_hdr (al_truncate l n) i = al_hdr l i.
Proof. intros. unfold al_hdr. rewrite al_get_truncate. by replace (i <? n) with true by lia. Qed.
Lemma al_truncate_all l : al_truncate l (al_next l) = l.
Proof.
  destruct l as [lo es]. unfold al_truncate, al_next. simpl. f_equal.
  rewrite take_ge by lia. done.
Qed.
Lemma al_newest_append l re : al_newest (al_append l re) = re_header re.
Proof.
  unfold al_newest, al_hdr. rewrite al_next_append, al_get_append.
  by replace (al_next l + 1 - 1 =? al_next l) with true by lia.
Qed.

#[local] Hint Resolve keeps_nehdr_backend_sync keeps_nehdr_prune_to : keeps.

Section follower.
Context `{NC : NiovaCore} {OK : NiovaCoreOk NC} {B A : Type} {BE : Backend B} {LS : LogStore B}.
Implicit Types w : world B A.
Local Abbreviation M := (M (world B A)).

(** The server and its backend agree on the log. *)
Record log_state w (l : alog) : Prop := {
  lg_ok : nehdr_ok (w_ri w);
  lg_repr : ls_repr (w_ri w) (w_be w) l;
  lg_newest : ri_newest_entry_unsync (w_ri w) = al_newest l;
  lg_next : reh_index (al_newest l) = al_next l - 1;
  lg_lo : al_lo l <= Z.max 0 (ri_lowest_idx (w_ri w));
}.

(** What the representation depends on, beside the backend. *)
Definition log_view w :=
  (ri_state (w_ri w), ls_config (w_ri w), ri_lowest_idx (w_ri w), ri_synchronous_writes (w_ri w),
   ri_newest_entry_sync (w_ri w), ri_newest_entry_unsync (w_ri w), w_be w).
Lemma log_state_view w w' l : log_view w' = log_view w -> log_state w l -> log_state w' l.
Proof.
  unfold log_view. intros [= Hst Hc1 Hc2 Hc3 Hc4 Hlo Hsw Hs Hu Hb] [Hok Hr Hn Hx Hl].
  split; [|rewrite Hb; eapply ls_repr_config; [|exact Hr] | | done |].
  - unfold nehdr_ok in *. by rewrite Hst, Hs, Hu, Hsw.
  - unfold ls_config. by rewrite Hc1, Hc2, Hc3, Hc4.
  - by rewrite Hu.
  - by rewrite Hlo.
Qed.

Lemma keeps_view_header_read idx : keeps (same log_view) (header_read_or_fatal idx : M raft_entry_header).
Proof. solve_keeps. Qed.

(** Reading a header gives the header of the log's entry. *)
Lemma header_read_log w l idx h w' re :
  header_read_or_fatal idx w = Some (h, w') -> ls_repr (w_ri w) (w_be w) l ->
  al_get l idx = Some re -> h = re_header re.
Proof.
  intros H Hr Hg. unfold header_read_or_fatal in H.
  apply bind_Some in H as ([rc o] & w1 & H1 & H). run_step H. run_inv H. simpl in *. subst o.
  unfold raft_server_entry_header_read_by_store in H1.
  destruct (idx <? 0); [by run_inv H1|].
  apply bind_Some in H1 as ([rc2 [h2|]] & w2 & H2 & H1); [|by run_inv H1].
  assert (h2 = h) as ->.
  { destruct (negb (rc2 =? 0)); [by run_inv H1|]. run_step H1. by run_inv H1. }
  clear H1. unfold entry_header_read_by_store_common in H2.
  run_step H2. apply bind_Some in H2 as (rc3 & w3 & H3 & H2).
  eapply (keeps_run (same log_view)) in H3; [|solve_keeps].
  destruct (negb (rc3 =? 0)); [by run_inv H2|].
  run_step H2. run_step H2. run_step H2. run_step H2. run_step H2. run_inv H2.
  injection H3 as _ Hm Ht Hp Hv _ _ _ _ Hb. rewrite Hb in Hopt.
  rewrite (ls_header_read (w_ri w3) _ l idx re) in Hopt; [by injection Hopt as <- | | done].
  eapply ls_repr_config; [|exact Hr]. unfold ls_config. by rewrite Hm, Ht, Hp, Hv.
Qed.

(** Synchronising leaves the log alone. *)
Lemma backend_sync_log w rc w' l :
  raft_server_backend_sync w = Some (rc, w') -> log_state w l -> log_state w' l.
Proof.
  intros H [Hok Hr Hn Hx Hlo]. pose proof (backend_sync_run _ _ _ H Hok) as (_ & Hu & _).
  pose proof (keeps_nehdr_backend_sync _ _ _ H Hok) as Hok'.
  pose proof H as Hc. eapply (keeps_run (on_ri (same (fun ri => (ls_config ri, ri_lowest_idx ri)))))
    in Hc; [|solve_keeps]. injection Hc as Hm Ht Hp Hv Hl.
  split; [done | | by rewrite Hu | done | by rewrite Hl].
  eapply (ls_repr_config (w_ri w)); [unfold ls_config; by rewrite Hm, Ht, Hp, Hv|].
  unfold raft_server_backend_sync in H. run_step H.
  destruct (raft_server_does_synchronous_writes _).
  - apply bind_Some in H as (b & ? & (-> & _)%has_unsynced_run & H). by run_inv H.
  - apply bind_Some in H as (f & ? & Hf & H). run_inv Hf. run_step H.
    apply bind_Some in H as (reh & ? & [-> ->]%get_newest_header_run & H); [|apply Hok].
    apply bind_Some in H as (i & ? & [-> ->]%current_index_run & H); [|apply Hok..].
    do 4 run_step H. apply bind_Some in H as (r & sr & Hrr & H).
    run_inv Hrr. run_step H. eapply (keeps_run (same w_be)) in H; [|solve_keeps].
    rewrite H. simpl. destruct r as [rc' b']. simpl. unfold id in *. by eapply ls_sync.
Qed.

(** Cutting the log: the entry before the cut becomes the newest one. *)
Lemma prune_to_log w u w' l idx :
  prune_to idx w = Some (u, w') -> log_state w l -> al_lo l <= idx < al_next l ->
  nehdr_ok (w_ri w') /\ ls_repr (w_ri w') (w_be w') l /\
  ri_newest_entry_sync (w_ri w') = al_hdr l idx /\
  ri_newest_entry_unsync (w_ri w') = al_hdr l idx /\
  reh_index (al_hdr l idx) = idx /\ ri_lowest_idx (w_ri w') = ri_lowest_idx (w_ri w).
Proof.
  intros H Hl Hin. pose proof (keeps_nehdr_prune_to _ _ _ _ H (lg_ok _ _ Hl)) as Hok'.
  pose proof H as Hc. eapply (keeps_run (same (fun w => (ls_config (w_ri w), ri_lowest_idx (w_ri w), w_be w))))
    in Hc; [|solve_keeps]. injection Hc as Hm Ht Hp Hv Hlo Hb.
  unfold prune_to in H. apply bind_Some in H as (h & w1 & H1 & H).
  assert (is_Some (al_get l idx)) as [re Hg] by (by apply al_get_is_Some).
  pose proof (header_read_log _ _ _ _ _ _ H1 (lg_repr _ _ Hl) Hg) as ->.
  pose proof H1 as (Hi & _ & Hidx)%header_read_run.
  apply update_newest_run in H as (Hs & Hu & _); [|lia]. unfold al_hdr. rewrite Hg.
  split_and!; try done. rewrite Hb. eapply ls_repr_config; [|exact (lg_repr _ _ Hl)].
  unfold ls_config. by rewrite Hm, Ht, Hp, Hv.
Qed.

Lemma truncate_log w u w' l idx :
  raft_server_log_truncate w = Some (u, w') -> nehdr_ok (w_ri w) ->
  ls_repr (w_ri w) (w_be w) l -> ri_newest_entry_sync (w_ri w) = al_hdr l idx ->
  reh_index (al_hdr l idx) = idx -> al_lo l <= idx < al_next l -> idx + 1 < ls_limit ->
  w_ri w' = w_ri w /\ ls_repr (w_ri w') (w_be w') (al_truncate l (idx + 1)).
Proof.
  intros H Hok Hr Hs Hi Hin Hlim. unfold raft_server_log_truncate in H.
  apply bind_Some in H as (i & ? & [-> ->]%current_index_run & H); [|apply Hok..].
  cbn [newest_hdr] in H. rewrite Hs, Hi in H. do 3 run_step H.
  apply bind_Some in H as (b & s & Hb & H). run_inv Hb. run_inv H. simpl. split; [done|].
  eapply ls_truncate; [exact Hr | lia | done | done].
Qed.

Lemma al_newest_truncate l idx : al_lo l <= idx < al_next l ->
  al_newest (al_truncate l (idx + 1)) = al_hdr l idx /\ al_next (al_truncate l (idx + 1)) = idx + 1.
Proof.
  intros. unfold al_newest. rewrite al_next_truncate by lia. split; [|done].
  rewrite al_hdr_truncate by lia. f_equal. lia.
Qed.

(** Pruning: the log is cut after the previous index of the request. *)
Lemma prune_log raerq w u w' l :
  raft_server_append_entry_log_prune_if_needed raerq w = Some (u, w') -> log_state w l ->
  0 <= raerqm_prev_log_index raerq -> raerqm_prev_log_index raerq + 1 < ls_limit ->
  al_lo l <= raerqm_prev_log_index raerq < al_next l ->
  log_state w' (al_truncate l (raerqm_prev_log_index raerq + 1)) /\
  ri_newest_entry_sync (w_ri w') = al_hdr l (raerqm_prev_log_index raerq).
Proof.
  unfold raft_server_append_entry_log_prune_if_needed. intros H Hl Hpos Hlim Hin.
  do 3 run_step H. apply bind_Some in H as (rc & w1 & H1 & H).
  apply (backend_sync_log _ _ _ l) in H1; [|done]. do 3 run_step H.
  apply bind_Some in H as (? & w2 & H2 & H).
  replace (0 <=? _) with true in H2 by lia. cbn [when] in H2.
  apply (prune_to_log _ _ _ l) in H2 as (Hok & Hr & Hs & Hu & Hi & Hlo); [|done..].
  destruct (truncate_log _ _ _ l _ H Hok Hr Hs Hi Hin Hlim) as [Hri Hr'].
  destruct (al_newest_truncate l _ Hin) as [Hn Hx].
  split; [|by rewrite Hri]. split; rewrite ?Hri, ?Hn, ?Hx; try done; [by rewrite <- Hri | lia |].
  rewrite Hlo. apply (lg_lo _ _ H1).
Qed.

(** Whether the request's entry is there already. *)
Lemma already_stored_log raerq w b w' l :
  raft_server_append_entry_check_already_stored raerq w = Some (b, w') -> log_state w l ->
  raerqm_entry_out_of_range raerq = false -> al_lo l <= Z.max 0 (raerqm_prev_log_index raerq) ->
  log_view w' = log_view w /\ -1 <= raerqm_prev_log_index raerq < al_next l - 1 /\
  if b then
    (0 < raerqm_log_term raerq ->
     reh_term (al_hdr l (raerqm_prev_log_index raerq + 1)) = raerqm_log_term raerq) /\
    (0 <= raerqm_prev_log_index raerq ->
     reh_term (al_hdr l (raerqm_prev_log_index raerq)) = raerqm_prev_log_term raerq)
  else reh_term (al_hdr l (raerqm_prev_log_index raerq + 1)) <> raerqm_log_term raerq.
Proof.
  intros H Hl Hout Hlo.
  assert (Hv : log_view w' = log_view w).
  { eapply (keeps_run (same log_view)) in H; [exact H | solve_keeps]. }
  split; [done|]. clear Hv. unfold raft_server_append_entry_check_already_stored in H.
  rewrite Hout in H. do 3 run_step H.
  apply bind_Some in H as (i & ? & [-> ->]%current_index_run & H); [|apply Hl..].
  run_step H. cbn [newest_hdr] in *. rewrite (lg_newest _ _ Hl), (lg_next _ _ Hl) in *.
  unfold RAFT_MIN_APPEND_ENTRY_IDX in *.
  assert (Hhdr : forall idx (v : world B A) h v', header_read_or_fatal idx v = Some (h, v') ->
    log_view v = log_view w -> 0 <= idx -> al_lo l <= idx < al_next l -> h = al_hdr l idx).
  { intros idx v h v' Hh Hvw Hi Hin. unfold al_hdr.
    assert (is_Some (al_get l idx)) as [re Hg] by (by apply al_get_is_Some). rewrite Hg.
    eapply header_read_log; [exact Hh | | exact Hg]. apply (log_state_view w); done. }
  apply bind_Some in H as (st & w1 & H1 & H).
  pose proof H1 as Hv1. eapply (keeps_run (same log_view)) in Hv1; [|solve_keeps].
  assert (Hst : if st then 0 < raerqm_log_term raerq ->
      reh_term (al_hdr l (raerqm_prev_log_index raerq + 1)) = raerqm_log_term raerq
    else reh_term (al_hdr l (raerqm_prev_log_index raerq + 1)) <> raerqm_log_term raerq).
  { clear H. destruct (Z.ltb_spec 0 (raerqm_log_term raerq)); [|run_inv H1; lia].
    apply bind_Some in H1 as (h & w2 & Hr & H1).
    pose proof (Hhdr _ _ _ _ Hr eq_refl ltac:(lia) ltac:(lia)) as ->.
    destruct (Z.eqb_spec (reh_term (al_hdr l (raerqm_prev_log_index raerq + 1)))
      (raerqm_log_term raerq)); cbn [negb] in H1; [|by run_inv H1].
    run_step H1. by run_inv H1. }
  split; [lia|]. destruct st; cbn [negb] in H; [|by run_inv H].
  apply bind_Some in H as (? & w3 & H2 & H). run_inv H. split; [done|]. intros Hpos.
  replace (0 <=? _) with true in H2 by lia. cbn [when] in H2.
  apply bind_Some in H2 as (h & w4 & Hr & H2).
  pose proof (Hhdr _ _ _ _ Hr Hv1 ltac:(lia) ltac:(lia)) as ->. run_step H2. lia.
Qed.

(** Without a previous entry there is nothing to cut back to. *)
Lemma prune_first_log raerq w u w' l :
  raft_server_append_entry_log_prune_if_needed raerq w = Some (u, w') -> log_state w l ->
  raerqm_prev_log_index raerq < 0 -> ri_newest_entry_unsync (w_ri w') = al_newest l.
Proof.
  unfold raft_server_append_entry_log_prune_if_needed. intros H Hl Hneg.
  do 3 run_step H. apply bind_Some in H as (rc & w1 & H1 & H).
  apply (backend_sync_log _ _ _ l) in H1; [|done]. do 3 run_step H.
  replace (0 <=? _) with false in H by lia. run_step H.
  eapply (keeps_run (on_ri (same ri_newest_entry_unsync))) in H; [|solve_keeps].
  rewrite H. apply (lg_newest _ _ H1).
Qed.

Lemma bounds_ok raerq ri :
  (raft_server_append_entry_request_bounds_check raerq ri =? 0) = true ->
  ri_lowest_idx ri <= raerqm_prev_log_index raerq /\ raerqm_entry_out_of_range raerq = false.
Proof.
  unfold raft_server_append_entry_request_bounds_check. intros H.
  destruct (_ && _); [done|]. destruct (Z.ltb_spec (raerqm_prev_log_index raerq) (ri_lowest_idx ri));
    [done|]. by destruct (raerqm_entry_out_of_range raerq).
Qed.
Lemma bounds_not_ok raerq ri rc :
  raft_server_append_entry_request_bounds_check raerq ri = rc -> rc <> 0 -> rc = - EBADR.
Proof.
  unfold raft_server_append_entry_request_bounds_check. intros <- H. by repeat case_match.
Qed.

(** The log check when the log is longer than the request expects. *)
Lemma index_ahead_log raerq w r w' l :
  raft_server_follower_index_ahead_of_leader raerq w = Some (r, w') -> log_state w l ->
  raerqm_entry_out_of_range raerq = false -> raerqm_prev_log_index raerq + 1 < ls_limit ->
  al_lo l <= Z.max 0 (raerqm_prev_log_index raerq) ->
  let idx := raerqm_prev_log_index raerq in
  (r.1 = - EALREADY /\ log_state w' l /\ forall ri, ae_outcome ri raerq l (r.1, false, false) l) \/
  (r.1 = 0 /\ idx < 0 /\ reh_index r.2 = al_next l - 1 /\ idx < al_next l - 1) \/
  (r.1 = 0 /\ r.2 = al_hdr l idx /\ idx < al_next l /\ reh_index r.2 = idx /\
   log_state w' (al_truncate l (idx + 1)) /\ ae_conflict l raerq).
Proof.
  intros H Hl Hout Hlim Hlo. unfold raft_server_follower_index_ahead_of_leader in H.
  apply bind_Some in H as (b & w1 & H1 & H).
  pose proof (already_stored_log _ _ _ _ _ H1 Hl Hout Hlo) as (Hv1 & Hin & Hb).
  pose proof (log_state_view _ _ _ Hv1 Hl) as Hl1.
  destruct b.
  - left. run_step H. apply bind_Some in H as (h & ? & [-> ->]%get_newest_header_run & H);
      [|apply Hl1]. run_inv H. simpl. split_and!; [done..|]. intros ri.
    apply ae_already; [lia | apply Hb..].
  - right. apply bind_Some in H as (rc & w2 & H2 & H).
    apply bind_Some in H2 as (? & w3 & Hp & H2).
    apply bind_Some in H2 as (un & ? & (-> & Hun)%has_unsynced_run & H2). run_step H2. run_inv H2.
    destruct un; [done|]. destruct Hun as [Hun _]. specialize (Hun eq_refl).
    apply bind_Some in H as (h & ? & Hg & H). run_inv H. simpl.
    assert (Hok : nehdr_ok (w_ri w3)).
    { eapply (keeps_run (on_ri (preserves nehdr_ok))) in Hp; [apply Hp, Hl1|]. clear. solve_keeps. }
    apply get_newest_header_run in Hg as [-> ->]; [|apply Hok]. cbn [newest_hdr].
    destruct (Z.ltb_spec (raerqm_prev_log_index raerq) 0).
    + left. rewrite Hun, (prune_first_log _ _ _ _ _ Hp Hl1) by done.
      split_and!; [done..| apply Hl | lia].
    + right. apply (prune_log _ _ _ _ l) in Hp as [Hl2 Hs]; [|done|lia..].
      rewrite Hs. split_and!; [done | done | lia | | done | by intros ?].
      rewrite <- Hs, Hun, (lg_newest _ _ Hl2), (lg_next _ _ Hl2).
      destruct (al_newest_truncate l (raerqm_prev_log_index raerq)) as [_ ->]; lia.
Qed.

(** The check of the log. *)
Inductive ae_checked (raerq : raft_append_entries_request_msg) (l : alog) w : Z -> Prop :=
| ack_match :
    log_state w (al_truncate l (raerqm_prev_log_index raerq + 1)) -> ae_conflict l raerq ->
    raerqm_prev_log_index raerq < al_next l ->
    reh_term (al_hdr l (raerqm_prev_log_index raerq)) = raerqm_prev_log_term raerq ->
    ae_checked raerq l w 0
| ack_mismatch :
    log_state w (al_truncate l (raerqm_prev_log_index raerq + 1)) -> ae_conflict l raerq ->
    raerqm_prev_log_index raerq < al_next l ->
    reh_term (al_hdr l (raerqm_prev_log_index raerq)) <> raerqm_prev_log_term raerq ->
    ae_checked raerq l w (- EEXIST)
| ack_already :
    log_state w l -> (forall ri, ae_outcome ri raerq l (- EALREADY, false, false) l) ->
    ae_checked raerq l w (- EALREADY)
| ack_gap :
    log_state w l -> al_next l <= raerqm_prev_log_index raerq -> ae_checked raerq l w (- ERANGE).

Lemma checked_tail raerq w l h :
  log_state w (al_truncate l (raerqm_prev_log_index raerq + 1)) -> ae_conflict l raerq ->
  raerqm_prev_log_index raerq < al_next l -> h = al_hdr l (raerqm_prev_log_index raerq) ->
  reh_index h = raerqm_prev_log_index raerq ->
  ae_checked raerq l w
    (if reh_index h <? raerqm_prev_log_index raerq then - ERANGE
     else if negb (reh_term h =? raerqm_prev_log_term raerq) then - EEXIST else 0).
Proof.
  intros Hl Hc Hin -> ->. rewrite Z.ltb_irrefl.
  destruct (Z.eqb_spec (reh_term (al_hdr l (raerqm_prev_log_index raerq)))
    (raerqm_prev_log_term raerq)); by constructor.
Qed.

Lemma prepare_and_check_log raerq w rc w' l :
  raft_server_append_entry_log_prepare_and_check raerq w = Some (rc, w') -> log_state w l ->
  raerqm_prev_log_index raerq + 1 < ls_limit ->
  if raft_server_append_entry_request_bounds_check raerq (w_ri w) =? 0
  then ae_checked raerq l w' rc else rc = - EBADR /\ w' = w.
Proof.
  intros H Hl Hlim. unfold raft_server_append_entry_log_prepare_and_check in H. run_step H.
  destruct (_ =? 0) eqn:Hb; cbn [negb] in H.
  2:{ run_inv H. split; [|done]. eapply bounds_not_ok; [done | by apply Z.eqb_neq]. }
  apply bounds_ok in Hb as [Hlow Hout]. pose proof (lg_lo _ _ Hl) as Hlo.
  apply bind_Some in H as (h & ? & [-> ->]%get_newest_header_run & H); [|apply Hl].
  cbn [newest_hdr] in H. rewrite (lg_newest _ _ Hl), (lg_next _ _ Hl) in H.
  apply bind_Some in H as (r & w1 & H1 & H).
  destruct (Z.ltb_spec (raerqm_prev_log_index raerq) (al_next l - 1)).
  - apply (index_ahead_log _ _ _ _ l) in H1 as [(Hr & Hl1 & Ho)|[(Hr & Hneg & Hi & Hn)|
      (Hr & Hh & Hn & Hi & Hl1 & Hc)]]; [| | |done..|lia].
    + rewrite Hr in *. change (negb (- EALREADY =? 0)) with true in H. run_inv H. by apply ack_already.
    + rewrite Hr in H. cbn [negb Z.eqb] in H. run_step H. lia.
    + rewrite Hr in H. cbn [negb Z.eqb] in H. run_step H. run_inv H. by apply checked_tail.
  - run_inv H1. simpl in H. run_step H. run_inv H. rewrite (lg_next _ _ Hl).
    destruct (Z.eq_dec (raerqm_prev_log_index raerq) (al_next l - 1)) as [He|].
    + rewrite <- (lg_next _ _ Hl). apply checked_tail; rewrite ?He; try done; [|intros ?; lia|lia|].
      * by replace (al_next l - 1 + 1) with (al_next l) by lia; rewrite al_truncate_all.
      * apply Hl.
    + replace (al_next l - 1 <? _) with true by lia. apply ack_gap; [done | lia].
Qed.

(** A request whose fields are in the range of their types and that carries the data
    it declares, on a server whose identifiers are. *)
Record request_ok (raerq : raft_append_entries_request_msg) w : Prop := {
  rq_ids : ids_ok (w_ri w);
  rq_now : 0 <= env_realtime (w_env w) < 2 ^ 64;
  rq_min : RAFT_MIN_APPEND_ENTRY_IDX <= raerqm_prev_log_index raerq;
  rq_limit : raerqm_prev_log_index raerq + 1 < ls_limit;
  rq_index : raerqm_prev_log_index raerq + 1 < 2 ^ 63;
  rq_term : raerqm_log_term raerq < 2 ^ 63;
  rq_sizes : Forall (fun x => 0 <= x < 2 ^ 32) (raerqm_size_arr raerq);
  rq_data : raft_server_wr_entries_get_total_size (raerqm_size_arr raerq)
    (u8 (raerqm_num_entries raerq)) <= Z.of_nat (length (raerqm_entries raerq));
  rq_ws : ls_ws None;
}.
Definition request_view w :=
  (ri_csn_this_peer (w_ri w), ri_csn_raft (w_ri w), ri_apply_handler_version (w_ri w),
   ri_max_entry_size (w_ri w), env_realtime (w_env w)).
Lemma request_ok_view raerq w w' :
  request_view w' = request_view w -> request_ok raerq w -> request_ok raerq w'.
Proof.
  intros [= H1 H2 H3 H4 H5] [[? ? ? ?] ? ? ? ? ? ? ? ?]. split; try done; [|by rewrite H5].
  split; by rewrite ?H1, ?H2, ?H3, ?H4.
Qed.

Lemma write_entry_log raerq w u w' l :
  raft_server_write_new_entry_from_leader raerq w = Some (u, w') -> log_state w l ->
  request_ok raerq w -> raerqm_heartbeat_msg raerq = false ->
  exists re, entry_of_request raerq re /\ log_state w' (al_append l re).
Proof.
  intros H Hl [Hids Hnow _ Hlim Hidx Hterm Hsz Hdat Hws] Hhb.
  pose proof H as Hc. eapply (keeps_run (on_ri (same (fun ri => (ls_config ri, ri_lowest_idx ri)))))
    in Hc; [|solve_keeps]. injection Hc as Hm Ht Hp Hv Hlo.
  unfold raft_server_write_new_entry_from_leader in H. rewrite Hhb in H. do 2 run_step H.
  apply bind_Some in H as (h & ? & [-> ->]%get_newest_header_run & H); [|apply Hl].
  do 3 run_step H. run_step H. run_step H. apply bind_Some in H as (? & w1 & Hm1 & H).
  assert (w1 = w) as ->.
  { destruct (raerqm_leader_change_marker raerq); by run_inv Hm1. }
  unfold raft_server_write_next_entry in H.
  apply bind_Some in H as (h & ? & [-> ->]%get_newest_header_run & H); [|apply Hl].
  do 2 run_step H. apply bind_Some in H as (rc & w2 & H2 & H). run_inv H.
  apply negb_false_iff, Z.eqb_eq in Hfatal0 as ->. cbn [newest_hdr] in *.
  pose proof (keeps_nehdr_entry_write _ _ _ _ _ _ _ _ _ _ H2 (lg_ok _ _ Hl)) as Hok'.
  rewrite (lg_newest _ _ Hl), (lg_next _ _ Hl) in *.
  apply entry_write_run in H2 as (re & Hre & Hw & Hu & Hi); [|apply Hl | lia].
  replace (al_next l - 1 + 1) with (al_next l) in Hre by lia.
  pose proof (raft_server_entry_init_inv _ _ _ _ _ _ _ _ _ Hre)
    as (_ & _ & Hri & Hrt & _ & _ & _ & Hds & _ & _ & _ & Hdata & _).
  pose proof (al_lo_next l).
  assert (Hwf : entry_wf (w_ri w) re (al_next l)).
  { eapply entry_init_wf; [exact Hre | | done..| | |done|done]; [|lia|lia].
    by destruct (raerqm_leader_change_marker raerq). }
  exists re. split.
  - split; [lia | done | done | done].
  - split; [done | | by rewrite al_newest_append | |].
    + eapply ls_repr_config; [|eapply ls_write; [apply Hl | exact Hwf | done | lia | exact Hw]].
      unfold ls_config. by rewrite Hm, Ht, Hp, Hv.
    + rewrite al_newest_append, al_next_append. lia.
    + rewrite Hlo. apply (lg_lo _ _ Hl).
Qed.

Lemma store_entry_log raerq w r w1 w' l :
  (let! ignore :=
     if negb (raerqm_heartbeat_msg raerq) then
       let! fi := FAULT_INJECT raft_follower_ignores_AE in
       when (negb fi) (raft_server_write_new_entry_from_leader raerq) ;;; ret fi
     else ret false in
   raft_server_advance_commit_idx (raerqm_commit_index raerq) ;;;
   ret (0, ignore, false)) w1 = Some (r, w') ->
  log_state w1 (al_truncate l (raerqm_prev_log_index raerq + 1)) -> request_ok raerq w1 ->
  ae_conflict l raerq -> raerqm_prev_log_index raerq < al_next l ->
  reh_term (al_hdr l (raerqm_prev_log_index raerq)) = raerqm_prev_log_term raerq ->
  exists l', ae_outcome (w_ri w) raerq l r l' /\ log_state w' l'.
Proof.
  intros H Hl Hq Hc Hin Ht. apply bind_Some in H as (ig & w2 & H1 & H).
  run_step H. run_inv H. eapply (keeps_run (same log_view)) in Hrun; [|solve_keeps].
  destruct (raerqm_heartbeat_msg raerq) eqn:Hhb; cbn [negb] in H1.
  - run_inv H1. eexists. split; [|by eapply log_state_view]. apply ae_no_entry; auto.
  - apply bind_Some in H1 as (fi & w3 & Hf & H1).
    pose proof Hf as Hfv. eapply (keeps_run (same request_view)) in Hfv; [|solve_keeps].
    eapply (keeps_run (same log_view)) in Hf; [|solve_keeps].
    apply (log_state_view _ _ _ Hf) in Hl. apply (request_ok_view _ _ _ Hfv) in Hq.
    destruct fi; cbn [negb when] in H1.
    + run_inv H1. eexists. split; [|by eapply log_state_view]. apply ae_no_entry; auto.
    + apply bind_Some in H1 as (? & w4 & Hw & H1). run_inv H1.
      apply (write_entry_log _ _ _ _ _ Hw Hl Hq) in Hhb as H2. destruct H2 as (re & He & Hl').
      eexists. split; [|by eapply log_state_view]. by apply ae_append.
Qed.

(** The part of the log up to the previous index stays. *)
Lemma outcome_prefix ri raerq l r l' i :
  ae_outcome ri raerq l r l' -> al_lo l <= Z.max 0 (raerqm_prev_log_index raerq) ->
  -1 <= raerqm_prev_log_index raerq ->
  i <= raerqm_prev_log_index raerq -> al_get l' i = al_get l i.
Proof.
  intros [re _ Hin _ _ _|? _ _ _ _|? ? ?|? ? ?|?|?] Hlo Hm Hi; try done.
  - rewrite al_get_append, al_next_truncate, al_get_truncate by lia.
    replace (i =? _) with false by lia. by replace (i <? _) with true by lia.
  - rewrite al_get_truncate. by replace (i <? _) with true by lia.
  - rewrite al_get_truncate. by replace (i <? _) with true by lia.
Qed.

Lemma append_entries_store_log raerq w r w' l :
  append_entries_store raerq w = Some (r, w') -> log_state w l -> request_ok raerq w ->
  exists l', ae_outcome (w_ri w) raerq l r l' /\ log_state w' l' /\
    forall i, i <= raerqm_prev_log_index raerq -> al_get l' i = al_get l i.
Proof.
  intros H Hl Hq. unfold append_entries_store in H. apply bind_Some in H as (rc & w1 & H1 & H).
  pose proof H1 as Hv. eapply (keeps_run (same request_view)) in Hv; [|solve_keeps].
  apply (request_ok_view _ _ _ Hv) in Hq as Hq1.
  apply (prepare_and_check_log _ _ _ _ l) in H1; [|done|apply Hq].
  destruct (_ =? 0) eqn:Hb in H1.
  2:{ destruct H1 as [-> ->]. simpl in H. run_inv H. exists l. split_and!; [|done..].
      apply ae_bounds. eapply bounds_not_ok; [done | by apply Z.eqb_neq]. }
  assert (exists l', ae_outcome (w_ri w) raerq l r l' /\ log_state w' l') as (l' & Ho & Hl').
  { destruct H1 as [Hl1 Hc Hin Ht|Hl1 Hc Hin Ht|Hl1 Ho|Hl1 Hgap].
    - by eapply store_entry_log.
    - simpl in H. run_inv H. eexists. split; [|exact Hl1]. by apply ae_mismatch.
    - simpl in H. apply bind_Some in H as (i & ? & [-> _]%current_index_run & H); [|apply Hl1..].
      run_step H. run_inv H. eexists. split; [apply Ho|].
      eapply (keeps_run (same log_view)) in Hrun; [|solve_keeps]. by eapply log_state_view.
    - simpl in H. run_inv H. eexists. split; [|exact Hl1]. by apply ae_gap. }
  exists l'. split_and!; [done..|]. intros i. eapply outcome_prefix; [exact Ho | |].
  - apply bounds_ok in Hb as [? _]. pose proof (lg_lo _ _ Hl). lia.
  - apply Hq.
Qed.

(** *** The whole handler *)
(** A change of the instance outside what the representation depends on. *)
Local Ltac kept_by_view :=
  apply keeps_modify; let Hl := fresh in intros ? ? Hl; split;
    [ first [exact (lg_ok _ _ Hl) | split; [done | apply (lg_ok _ _ Hl)]]
    | eapply ls_repr_config; [|exact (lg_repr _ _ Hl)]; reflexivity
    | exact (lg_newest _ _ Hl) | exact (lg_next _ _ Hl) | exact (lg_lo _ _ Hl) ].
Definition log_kept w w' : Prop := forall l, log_state w l -> log_state w' l.
#[local] Instance log_kept_preorder : PreOrder log_kept.
Proof. split; red; unfold log_kept; auto. Qed.
Lemma view_log_kept {T} (m : M T) : keeps (same log_view) m -> keeps log_kept m.
Proof. intros Hm w a w' H l Hl. eapply log_state_view; [by eapply Hm | done]. Qed.

Lemma header_write_log candidate term :
  keeps log_kept (raft_server_log_header_write candidate term : M Z).
Proof.
  intros w rc w' H l Hl. unfold raft_server_log_header_write in H.
  apply bind_Some in H as (? & w1 & H1 & H).
  assert (Hl1 : log_state w1 l).
  { destruct Hl as [Hok Hr Hn Hx Hlo].
    eapply (keeps_run (same (fun w => (ri_state (w_ri w), ls_config (w_ri w), ri_lowest_idx (w_ri w),
      ri_synchronous_writes (w_ri w), ri_newest_entry_sync (w_ri w),
      ri_newest_entry_unsync (w_ri w), w_be w)))) in H1; [|solve_keeps].
    eapply log_state_view; [exact H1 | by split]. }
  do 2 run_step H. apply bind_Some in H as (r & ? & Hr & H). run_inv Hr.
  run_step H. unfold id in *.
  match goal with E : rib_header_write _ _ _ = Some ?x |- _ => destruct x as [rc' b'] end.
  simpl in *.
  assert (Hl2 : log_state (w1 <| w_be := b' |>) l).
  { destruct Hl1 as [Hok Hr Hn Hx Hlo]. split; try done. simpl. eapply ls_header_write; [exact Hr | exact Hopt]. }
  run_step H. destruct (rc' =? 0); cbn [negb] in H; [|by run_inv H]. by eapply backend_sync_log.
Qed.

#[local] Hint Resolve header_write_log : keeps.
#[local] Hint Extern 4 (keeps log_kept (ri_upd _)) => kept_by_view : keeps.
#[local] Hint Extern 4 (keeps log_kept (modify _)) => kept_by_view : keeps.

Lemma term_check_log sender raerq :
  keeps log_kept (raft_server_process_append_entries_term_check_ops sender raerq : M Z).
Proof. solve_keeps. Qed.

(** C4. Refinement of AppendEntries: over any backend that implements the log
    interface, what a server does with a request from its leader leaves the log as it
    is or is one of the outcomes of the abstract log; a request of an older term never
    changes it.  An entry is appended only behind an entry that has the request's
    previous index and term, after cutting the log there; the log is only cut where
    its next entry has another term than the request's; an entry that is there
    already, a gap and a request out of bounds leave the log as it is; the log up to
    the previous index never changes.  The newest header, the backend and the log
    agree again afterwards. *)
Theorem follower_append_refines sender rrm raerq w u w' l :
  raft_server_process_append_entries_request sender rrm raerq w = Some (u, w') ->
  log_state w l -> request_ok raerq w ->
  exists l', log_state w' l' /\
    (forall i, i <= raerqm_prev_log_index raerq -> al_get l' i = al_get l i) /\
    (l' = l \/
     rlh_term (ri_log_hdr (w_ri w)) <= raerqm_leader_term raerq /\
     exists ri r, ae_outcome ri raerq l r l').
Proof.
  intros H Hl Hq. unfold raft_server_process_append_entries_request in H. do 2 run_step H.
  destruct (negb _) in H; [run_inv H; by eauto|].
  apply bind_Some in H as (rc & w1 & H1 & H).
  pose proof H1 as Hq1. eapply (keeps_run (same request_view)) in Hq1; [|solve_keeps].
  pose proof H1 as Ht1. eapply (keeps_run (on_ri (same ri_log_hdr))) in Ht1; [|solve_keeps].
  eapply (keeps_run (same log_view)) in H1; [|solve_keeps].
  apply (log_state_view _ _ _ H1) in Hl as Hl1. apply (request_ok_view _ _ _ Hq1) in Hq as Hrq1.
  destruct (_ && _) in H; [run_inv H; by eauto|].
  apply bind_Some in H as (rc2 & w2 & H2 & H).
  pose proof H2 as Hl2. apply term_check_log in Hl2. specialize (Hl2 _ Hl1).
  pose proof H2 as Hq2. eapply (keeps_run (same request_view)) in Hq2; [|solve_keeps].
  assert (Ht : rc2 = 0 -> rlh_term (ri_log_hdr (w_ri w)) <= raerqm_leader_term raerq).
  { intros ->. unfold on_ri, same in Ht1. rewrite <- Ht1.
    unfold raft_server_process_append_entries_term_check_ops in H2. run_step H2. unfold id in H2.
    destruct (Z.ltb_spec (raerqm_leader_term raerq) (rlh_term (ri_log_hdr (w_ri w1)))); [by run_inv H2 | done]. }
  run_step H. apply bind_Some in H as ([[rc3 ig] np] & w3 & H3 & H).
  eapply (keeps_run (same log_view)) in H; [|clear; solve_keeps].
  assert (exists l', log_state w3 l' /\
    (forall i, i <= raerqm_prev_log_index raerq -> al_get l' i = al_get l i) /\
    (l' = l \/ rlh_term (ri_log_hdr (w_ri w)) <= raerqm_leader_term raerq /\
      exists ri r, ae_outcome ri raerq l r l')) as (l' & Hl3 & Hp & Ho).
  { destruct (_ || _) eqn:E in H3; [run_inv H3; by eauto|].
    apply orb_false_iff in E as [E _]. apply negb_false_iff, Z.eqb_eq in E.
    apply (append_entries_store_log _ _ _ _ l) in H3 as (l' & Ho & Hl3 & Hp); [|done|].
    - exists l'. split_and!; [done..|]. right. split; [auto | by eauto].
    - eapply request_ok_view; [exact Hq2 | done]. }
  exists l'. split_and!; [|done..]. by eapply log_state_view.
Qed.
End follower.

(** ** Three requests on a new database: two entries of term 1, and an entry of
    term 2 in place of the second. *)
Definition sim_ae (term prev prev_term : Z) (d : bytes) : raft_append_entries_request_msg :=
  {| raerqm_leader_term := term; raerqm_log_term := term; raerqm_commit_index := -1;
     raerqm_lowest_index := -1; raerqm_chkpt_index := -1; raerqm_prev_log_term := prev_term;
     raerqm_prev_log_index := prev; raerqm_prev_idx_crc := 0; raerqm_this_idx_crc := 0;
     raerqm_size_arr := [Z.of_nat (length d)]; raerqm_entries_sz := Z.of_nat (length d);
     raerqm_num_entries := 1; raerqm_heartbeat_msg := false; raerqm_leader_change_marker := false;
     raerqm_entry_out_of_range := false; raerqm_entries := d |}.
Definition sim_ae_rpc (raerq : raft_append_entries_request_msg) : raft_rpc_msg :=
  {| rrm_type := RAFT_RPC_MSG_TYPE_APPEND_ENTRIES_REQUEST; rrm_version := 0;
     rrm_sender_id := 2; rrm_raft_id := sim_raft; rrm_db_id := null_uuid;
     rrm_payload := rrm_append_entries_request raerq |}.
Definition sim_ae_next (raerq : raft_append_entries_request_msg)
    (w : world (rocks_state memdb) Z) : world (rocks_state memdb) Z :=
  match raft_server_process_append_entries_request 2 (sim_ae_rpc raerq) raerq w with
  | Some (_, w') => w'
  | None => w
  end.
Definition sim_ae1 := sim_ae 1 (-1) 0 [x61; x62].
Definition sim_ae2 := sim_ae 1 0 1 [x63].
Definition sim_ae3 := sim_ae 2 0 1 [x64].
Definition sim_log1 := sim_ae_next sim_ae1 sim_rw_world.
Definition sim_log2 := sim_ae_next sim_ae2 sim_log1.
Definition sim_log3 := sim_ae_next sim_ae3 sim_log2.
Definition newest_of (w : world (rocks_state memdb) Z) : Z * Z :=
  (reh_index (ri_newest_entry_unsync (w_ri w)), reh_term (ri_newest_entry_unsync (w_ri w))).

Lemma sim_log0_state : log_state (LS := rocks_log_store) sim_rw_world empty_alog.
Proof.
  split; [exact sim_rw_nehdr | exact sim_rw_repr | vm_compute; reflexivity | done
         | vm_compute; discriminate].
Qed.

(** Requests like these are well formed in a world whose identifiers are. *)
Lemma sim_ae_ok (term prev prev_term : Z) (d : bytes) (w : world (rocks_state memdb) Z) :
  ids_ok (w_ri w) -> 0 <= env_realtime (w_env w) < 2 ^ 64 -> -1 <= prev < 10 ^ 15 ->
  term < 2 ^ 63 -> Z.of_nat (length d) < 2 ^ 32 ->
  request_ok (LS := rocks_log_store) (sim_ae term prev prev_term d) w.
Proof.
  intros. split; try done; simpl; unfold RAFT_MIN_APPEND_ENTRY_IDX; try lia.
  - apply Forall_singleton. lia.
  - unfold raft_server_wr_entries_get_total_size. simpl. rewrite u32_small; lia.
Qed.
Ltac sim_request := apply sim_ae_ok; [split; eval_bounds | eval_bounds ..].

Lemma sim_ae_next_run (raerq : raft_append_entries_request_msg) (w : world (rocks_state memdb) Z) :
  completes (raft_server_process_append_entries_request 2 (sim_ae_rpc raerq) raerq w) = true ->
  raft_server_process_append_entries_request 2 (sim_ae_rpc raerq) raerq w =
    Some (tt, sim_ae_next raerq w).
Proof.
  unfold sim_ae_next.
  destruct (raft_server_process_append_entries_request _ _ _ _) as [[[] w']|]; [done | done].
Qed.
Lemma sim_log1_run : raft_server_process_append_entries_request 2 (sim_ae_rpc sim_ae1) sim_ae1
  sim_rw_world = Some (tt, sim_log1).
Proof. apply sim_ae_next_run. vm_compute. reflexivity. Qed.
Lemma sim_log2_run : raft_server_process_append_entries_request 2 (sim_ae_rpc sim_ae2) sim_ae2
  sim_log1 = Some (tt, sim_log2).
Proof. apply sim_ae_next_run. vm_compute. reflexivity. Qed.
Lemma sim_log3_run : raft_server_process_append_entries_request 2 (sim_ae_rpc sim_ae3) sim_ae3
  sim_log2 = Some (tt, sim_log3).
Proof. apply sim_ae_next_run. vm_compute. reflexivity. Qed.
Lemma sim_ae1_ok : request_ok (LS := rocks_log_store) sim_ae1 sim_rw_world.
Proof. sim_request. Qed.
Lemma sim_ae2_ok : request_ok (LS := rocks_log_store) sim_ae2 sim_log1.
Proof. sim_request. Qed.
Lemma sim_ae3_ok : request_ok (LS := rocks_log_store) sim_ae3 sim_log2.
Proof. sim_request. Qed.
Lemma sim_newest : (newest_of sim_log1, newest_of sim_log2, newest_of sim_log3) =
  ((0, 1), (1, 1), (1, 2)).
Proof. vm_compute. reflexivity. Qed.

Lemma follower_append_refines_witness :
  exists l1 l2 l3, log_state (LS := rocks_log_store) sim_log1 l1 /\
    log_state (LS := rocks_log_store) sim_log2 l2 /\
    log_state (LS := rocks_log_store) sim_log3 l3 /\
    (newest_of sim_log1, newest_of sim_log2, newest_of sim_log3) = ((0, 1), (1, 1), (1, 2)) /\
    al_get l3 0 = al_get l1 0.
Proof.
  destruct (follower_append_refines (LS := rocks_log_store) 2 _ _ _ _ _ _ sim_log1_run
    sim_log0_state sim_ae1_ok) as (l1 & Hl1 & _).
  destruct (follower_append_refines (LS := rocks_log_store) 2 _ _ _ _ _ _ sim_log2_run
    Hl1 sim_ae2_ok) as (l2 & Hl2 & Hp2 & _).
  destruct (follower_append_refines (LS := rocks_log_store) 2 _ _ _ _ _ _ sim_log3_run
    Hl2 sim_ae3_ok) as (l3 & Hl3 & Hp3 & _).
  exists l1, l2, l3. split_and!; [exact Hl1 | exact Hl2 | exact Hl3 | exact sim_newest |].
  rewrite (Hp3 0), (Hp2 0); [reflexivity | simpl; lia..].
Defined.
