(* ===== verification/RecoveryProps.v ===== *)
(** Correctness of recovery on RocksDB: the scrubbing of a transferred database,
    the recovery marker, checkpoints and closing. *)
From Stdlib Require Import Strings.String.
From stdpp Require Import base tactics list gmap.
From Stdlib Require Import ZArith Lia Strings.Byte.
From S2P Require Import Prelude RaftTypes World Quorum Net WriteSupp Entry Log Election Append Leader ClientReq Apply Server Steps PosixBackend Sim LogProps RocksKeys RocksBackend RocksRecovery RocksBulk LogStore PosixProps RocksProps RocksSim StoreProps.
Local Open Scope Z_scope.
Local Open Scope raft_scope.

(** ** The recovery marker *)
Section marker.
Context `{NC : NiovaCore} {D : Type} `{RD : RocksDB D} `{NU : NiovaUtil} {NUK : NiovaUtilOk}
  `{RE : RecoveryEnv D}.
Implicit Types w : rworld D.

(** The name of the directory rsbr_bulk_recovery_stage_remote_db() creates. *)
Definition marker_name (db peer : uuid) : bytes :=
  RECOVERY_MARKER_NAME ++ str "." ++ CHKPT_RESTORE_PATH_FMT (uuid_unparse db) (uuid_unparse peer).

Lemma parse_non_hex c l : isxdigit c = false -> uuid_parse (c :: l) = None.
Proof.
  intros Hc. destruct (uuid_parse (c :: l)) as [u|] eqn:E; [|done].
  apply uuid_parse_head in E. congruence.
Qed.

(** The database's uuid is looked for one byte too early, at the '.'. *)
Lemma marker_db_field db peer :
  uuid_parse (sub_bytes RECOVERY_MARKER_NAME_LEN (UUID_STR_LEN - 1) (marker_name db peer)) = None.
Proof.
  unfold sub_bytes, marker_name. change (Z.to_nat RECOVERY_MARKER_NAME_LEN) with 22%nat.
  change 22%nat with (length RECOVERY_MARKER_NAME). rewrite drop_app_length.
  change (Z.to_nat (UUID_STR_LEN - 1)) with 36%nat. simpl. by apply parse_non_hex.
Qed.

(** Scanning a directory depends on the file system only. *)
Lemma scandirat_state p filt w w' r :
  scandirat p filt w = Some (r, w) -> rw_st w' = rw_st w -> scandirat p filt w' = Some (r, w').
Proof.
  unfold scandirat, bind, sget, gets, ret. intros H ->.
  destruct (negb (fs_scandir_rc p =? 0)); [by injection H as <-|].
  destruct (negb (is_dir _)); by injection H as <-.
Qed.

Lemma scandirat_result p filt w r :
  option_map fst (scandirat p filt w) = Some r -> scandirat p filt w = Some (r, w).
Proof.
  unfold scandirat, bind, sget, gets, ret. destruct (negb (fs_scandir_rc p =? 0)); [by intros [= <-]|].
  destruct (negb (is_dir _)); by intros [= <-].
Qed.

(** C25. An interrupted recovery is not resumed: when the scan of the log directory
    finds exactly the marker directory that the recovery itself has made, the uuids
    are read at the wrong offsets, the scan returns -EINVAL instead of noting the
    incomplete recovery, and start-up fails with that code. *)
Theorem recovery_marker_rejected now db peer n st1 fd w :
  ri_backend_arg (rw_st w) = Some st1 -> rir_log_fd st1 = fd -> 0 <= fd ->
  scandirat (ri_log (rw_ri w)) rsbr_scandir_recovery_marker_cb w =
    Some ((1, [(marker_name db peer, n)]), w) ->
  exists w', rsbr_setup_detect_recovery now w = Some (- EINVAL, w') /\
    ri_incomplete_recovery (rw_ri w') = false /\ rw_st w' = rw_st w.
Proof.
  intros Harg Hfd Hpos Hscan.
  set (w1 := w <| rw_ri ::= fun ri => ri <| ri_incomplete_recovery := false |> |>).
  exists w1. split; [|done].
  assert (Hs : rsbr_recovery_marker_scan now w = Some (- EINVAL, w1)).
  { unfold rsbr_recovery_marker_scan. erewrite bind_eq by reflexivity.
    unfold id, log_fd_of. rewrite Harg. cbn [option_map]. rewrite Hfd.
    replace (fd <? 0) with false by lia. do 2 erewrite bind_eq by reflexivity.
    change (ri_log (id (rw_ri w1))) with (ri_log (rw_ri w)).
    erewrite bind_eq by (eapply (scandirat_state _ _ w w1); [exact Hscan | reflexivity]).
    cbn [fst snd]. change (1 <? 0) with false. cbv iota.
    unfold raft_server_init_recovery_handle_from_marker. rewrite marker_db_field.
    destruct (uuid_parse _); reflexivity. }
  unfold rsbr_setup_detect_recovery. erewrite bind_eq by exact Hs. reflexivity.
Qed.
End marker.

(** ** Scrubbing a transferred database *)
(** An entry as its own: the header names this peer. *)
Definition scrubbed (self : uuid) (re : raft_entry) : raft_entry :=
  {| re_header := (re_header re) <| reh_self_uuid := self |>; re_data := re_data re |}.
Definition al_update (l : alog) (i : Z) (re : raft_entry) : alog :=
  {| al_lo := al_lo l; al_entries := <[Z.to_nat (i - al_lo l) := re]> (al_entries l) |}.

Lemma al_next_update l i re : al_next (al_update l i re) = al_next l.
Proof. unfold al_next, al_update. simpl. by rewrite length_insert. Qed.
Lemma al_get_update l i re j :
  al_lo l <= i < al_next l ->
  al_get (al_update l i re) j = if j =? i then Some re else al_get l j.
Proof.
  unfold al_get, al_update, al_next, znth. simpl. intros Hi. case_decide.
  - destruct (Z.eqb_spec j i) as [->|].
    + apply list_lookup_insert_eq. lia.
    + apply list_lookup_insert_ne. lia.
  - destruct (Z.eqb_spec j i); [lia | done].
Qed.

Lemma scrubbed_wf self h : 0 <= self < 2 ^ 128 -> reh_wf h -> reh_wf (h <| reh_self_uuid := self |>).
Proof. intros Hs []. by split. Qed.
(** The checksum does not cover the name of the peer. *)
Lemma scrubbed_crc `{NC : NiovaCore} self re :
  raft_server_entry_check_crc (scrubbed self re) = raft_server_entry_check_crc re.
Proof. reflexivity. Qed.

(** Overwriting a header with one of the same entry. *)
Lemma db_log_put_header f l i re h :
  db_log f l -> al_get l i = Some re -> reh_wf h -> reh_index h = i ->
  reh_data_size h = reh_data_size (re_header re) ->
  db_log (wb_run [rocksdb_writebatch_put (RAFT_ENTRY_HEADER_KEY_PRINTF i) (reh_bytes h)] f)
    (al_update l i {| re_header := h; re_data := re_data re |}).
Proof.
  intros Hl Hi Hh Hidx Hsz. pose proof (al_get_Some _ _ _ Hi) as Hr.
  assert (Hok : forall j re', al_get l j = Some re' -> key_idx_ok j).
  { intros j re' Hj. eapply dl_idx_ok; [exact Hl | by eapply al_get_Some]. }
  pose proof (Hok _ _ Hi) as Hki. destruct Hl as [Hlo Hhi Hh0 Hv0 Ho Hw].
  split; cbn [wb_run foldl wb_apply]; rewrite ?al_next_update; try done.
  - intros j re'. rewrite al_get_update by done. destruct (Z.eqb_spec j i) as [->|Hne].
    + intros [= <-]. by rewrite bool_decide_true.
    + intros Hj. rewrite bool_decide_false; [by apply Hh0|].
      intros E%hkey_inj; eauto.
  - intros j re'. rewrite al_get_update by done. destruct (Z.eqb_spec j i) as [->|Hne].
    + intros [= <-]. rewrite bool_decide_false.
      * rewrite (Hv0 _ _ Hi). unfold entry_val. simpl. by rewrite Hsz.
      * intros E. symmetry in E. by apply hkey_ekey in E.
    + intros Hj. rewrite bool_decide_false; [by apply Hv0|].
      intros E. symmetry in E. apply hkey_ekey in E; eauto.
  - intros x Hx. case_bool_decide as E; [|by apply Ho]. exists i. split; [done | by left].
  - intros j re'. rewrite al_get_update by done. destruct (Z.eqb_spec j i) as [->|Hne];
      [|apply Hw]. intros [= <-]. simpl. destruct (Hw _ _ Hi) as (_ & _ & ? & ?).
    rewrite Hsz. done.
Qed.

Section scrub.
Context `{NC : NiovaCore} {D : Type} `{RD : RocksDB D} {ROK : RocksDBOk D} `{NU : NiovaUtil}
  `{RE : RecoveryEnv D}.
Implicit Types w : rworld D.

Lemma put_header_repr ri st st' l i re h :
  rsbr_entry_header_write_recovery_scrub ri h st = Some st' -> rocks_repr ri st l ->
  al_get l i = Some re -> reh_wf h -> reh_index h = i ->
  reh_data_size h = reh_data_size (re_header re) ->
  rocks_repr ri st' (al_update l i {| re_header := h; re_data := re_data re |}).
Proof.
  unfold rsbr_entry_header_write_recovery_scrub. intros H (d & Hd & Hl & Hm) Hi Hh Hidx Hsz.
  destruct (raft_instance_is_recovering ri); [|done].
  destruct (rs_write_run _ _ _ _ _ _ H Hd) as (d' & Hd' & Hw). exists d'. split; [done|].
  pose proof (fun k => rocksdb_write_get _ _ _ _ k Hw) as Hg. rewrite Hidx in Hg. split.
  - eapply db_log_ext; [intros x; apply Hg|]. by apply db_log_put_header.
  - eapply db_meta_ext; [|exact Hm]. intros k H1 H2. rewrite Hg. cbn [wb_run foldl wb_apply].
    case_bool_decide as Hk; [subst k; right; right; apply prefix_of_app | by left].
Qed.

(** One header. *)
Lemma scrub_entry_header_run w r w' l i re :
  scrub_entry_header i w = Some (r, w') ->
  rocks_repr (rw_ri w) (rw_st w) l -> al_get l i = Some re ->
  reh_magic (re_header re) = RAFT_ENTRY_MAGIC -> 0 <= ri_csn_this_peer (rw_ri w) < 2 ^ 128 ->
  r = (0, false) /\ rw_ri w' = rw_ri w /\
  rocks_repr (rw_ri w) (rw_st w') (al_update l i (scrubbed (ri_csn_this_peer (rw_ri w)) re)).
Proof.
  intros H Hr Hre Hmagic Hself. pose proof (header_read_repr _ _ _ _ _ Hr Hre) as Hread.
  pose proof Hr as (d & _ & Hl & _). destruct (dl_wf _ _ Hl _ _ Hre) as (Hwf & Hidx & _).
  unfold scrub_entry_header in H.
  assert (Hs : sread (fun ri st => rsbr_entry_header_read ri i st) w
            = Some ((0, re_header re), w)) by (unfold sread; by rewrite Hread).
  erewrite bind_eq in H by exact Hs. cbv beta iota in H.
  rewrite Hmagic, Hidx, !Z.eqb_refl in H. cbn [negb orb Z.eqb] in H.
  apply bind_Some in H as (? & w2 & H1 & H2). injection H2 as <- <-. unfold sstep in H1.
  destruct (rsbr_entry_header_write_recovery_scrub _ _ _) as [st2|] eqn:Hw; [|done].
  injection H1 as _ <-. split_and!; [done..|].
  exact (put_header_repr _ _ _ l i re _ Hw Hr Hre (scrubbed_wf _ _ Hself Hwf) Hidx eq_refl).
Qed.

(** The loop from index [a] on. *)
Lemma scrub_loop_repr n a w rc w' l :
  scrub_entry_headers_loop (zrange a n) w = Some (rc, w') ->
  rocks_repr (rw_ri w) (rw_st w) l -> al_lo l <= a -> n <= al_next l ->
  0 <= ri_csn_this_peer (rw_ri w) < 2 ^ 128 ->
  (forall i re, al_get l i = Some re -> reh_magic (re_header re) = RAFT_ENTRY_MAGIC) ->
  rc = 0 /\ rw_ri w' = rw_ri w /\
  exists l', rocks_repr (rw_ri w) (rw_st w') l' /\ al_lo l' = al_lo l /\
    al_next l' = al_next l /\
    forall j, al_get l' j = if (a <=? j) && (j <? n)
                            then option_map (scrubbed (ri_csn_this_peer (rw_ri w))) (al_get l j)
                            else al_get l j.
Proof.
  remember (Z.to_nat (n - a)) as k eqn:Hk. revert a w l Hk.
  induction k as [|k IH]; intros a w l Hk H Hr Ha Hn Hself Hmagic.
  { rewrite zrange_nil in H by lia. injection H as <- <-. split_and!; try done.
    exists l. split_and!; try done. intros j. by replace (_ && _) with false by lia. }
  rewrite zrange_cons in H by lia. simpl in H.
  assert (is_Some (al_get l a)) as [re Hre] by (apply al_get_is_Some; lia).
  apply bind_Some in H as (r & w1 & H1 & H).
  apply (scrub_entry_header_run _ _ _ l a re) in H1 as (-> & Hri & Hr2); eauto.
  cbn [snd] in H. set (l2 := al_update l a _) in Hr2.
  assert (Hg : forall j, al_get l2 j = if j =? a
    then Some (scrubbed (ri_csn_this_peer (rw_ri w)) re) else al_get l j).
  { intros j. apply al_get_update. by eapply al_get_Some. }
  assert (Hnx2 : al_next l2 = al_next l) by apply al_next_update.
  rewrite <- Hri in Hr2, Hself.
  edestruct (IH (a + 1) w1 l2 ltac:(lia) H Hr2) as (-> & Hri' & l' & Hr' & Hlo & Hnx & Hg').
  { change (al_lo l2) with (al_lo l). lia. }
  { lia. }
  { done. }
  { intros j re'. rewrite Hg. destruct (j =? a); [|apply Hmagic]. intros [= <-].
    exact (Hmagic a re Hre). }
  rewrite Hri in *. split_and!; try done. exists l'. split_and!; try done; [by rewrite Hnx|].
  intros j. rewrite Hg', Hg. destruct (Z.eqb_spec j a) as [->|].
  { rewrite Hre. replace (a + 1 <=? a) with false by lia. cbn [andb]. by replace (_ && _) with true by lia. }
  destruct (Z.leb_spec (a + 1) j), (Z.leb_spec a j); try lia; done.
Qed.

(** C24. Scrubbing a transferred database completes and makes its entries this
    peer's own: every header of the log then names this peer and nothing else of
    any entry changes; scrubbing again changes nothing, so a scrub that was
    interrupted at any point can be repeated from the start; entries that passed
    the checksum still do. *)
Theorem scrub_makes_entries_own w rc w' l :
  rsbr_bulk_recovery_db_scrub_entry_headers w = Some (rc, w') ->
  rocks_repr (rw_ri w) (rw_st w) l ->
  ri_lowest_idx (rw_ri w) = al_lo l -> ri_entries_detected_at_startup (rw_ri w) = al_next l ->
  0 <= ri_csn_this_peer (rw_ri w) < 2 ^ 128 ->
  (forall i re, al_get l i = Some re -> reh_magic (re_header re) = RAFT_ENTRY_MAGIC) ->
  let self := ri_csn_this_peer (rw_ri w) in
  rc = 0 /\ rw_ri w' = rw_ri w /\
  exists l', rocks_repr (rw_ri w) (rw_st w') l' /\ al_lo l' = al_lo l /\
    al_next l' = al_next l /\
    (forall j, al_get l' j = option_map (scrubbed self) (al_get l j)) /\
    (forall j, option_map (scrubbed self) (al_get l' j) = al_get l' j) /\
    (forall j re', al_get l' j = Some re' -> exists re, al_get l j = Some re /\
       raft_server_entry_check_crc re' = raft_server_entry_check_crc re /\
       reh_self_uuid (re_header re') = self /\ re_data re' = re_data re).
Proof.
  intros H Hr Hlow Hend Hself Hmagic self. unfold rsbr_bulk_recovery_db_scrub_entry_headers in H.
  erewrite bind_eq in H by reflexivity. unfold id in H. do 3 run_step H. rewrite Hlow, Hend in H.
  destruct (scrub_loop_repr _ _ _ _ _ _ H Hr ltac:(lia) ltac:(lia) Hself Hmagic)
    as (-> & Hri & l' & Hr' & Hlo & Hnx & Hg).
  assert (Hg' : forall j, al_get l' j = option_map (scrubbed self) (al_get l j)).
  { intros j. rewrite Hg. destruct ((al_lo l <=? j) && (j <? al_next l)) eqn:E; [done|].
    destruct (al_get l j) eqn:Hj; [|done]. apply al_get_Some in Hj. lia. }
  split; [done|]. split; [done|]. exists l'. do 4 (split; [done|]). split.
  - intros j. rewrite Hg'. by destruct (al_get l j).
  - intros j re'. rewrite Hg'. destruct (al_get l j) as [re|]; [|done]. intros [= <-].
    exists re. split_and!; try done.
Qed.
End scrub.

(** ** Runs *)
(** A log directory that holds an interrupted recovery: the staged database of
    peer 2, of uuid 55. *)
Definition sim_marker_st : rocks_state memdb :=
  {| ri_backend_arg := Some {| rir_log_fd := 3; rir_db := None; rir_options := None;
       rir_writeoptions_sync := true; rir_writeoptions_async := true; rir_readoptions := true;
       rir_writebatch := true; rir_cf_table := None |};
     rs_fs := {[ sim_log_dir := FsDir;
                 path_join sim_log_dir (marker_name 55 2) := FsDb ∅ ]};
     rs_db_path := []; rs_open_fds := 1 |}.
Definition sim_marker_world : rworld memdb :=
  RWorld (zero_raft_instance <| ri_log := sim_log_dir |>) sim_marker_st.
Lemma recovery_marker_rejected_witness :
  exists w', rsbr_setup_detect_recovery 0 sim_marker_world = Some (- EINVAL, w') /\
    ri_incomplete_recovery (rw_ri w') = false /\ rw_st w' = sim_marker_st.
Proof.
  assert (H : scandirat sim_log_dir rsbr_scandir_recovery_marker_cb sim_marker_world =
    Some ((1, [(marker_name 55 2, FsDb ∅)]), sim_marker_world)).
  { apply scandirat_result. vm_compute. reflexivity. }
  exact (recovery_marker_rejected 0 55 2 (FsDb ∅) _ 3 sim_marker_world eq_refl eq_refl
           ltac:(done) H).
Defined.

(** Server 3 scrubs the two entries server 1 has written. *)
Definition sim_scrub_world : rworld memdb :=
  RWorld (sim_new_db.1 <| ri_proc_state := RAFT_PROC_STATE_RECOVERING |>
            <| ri_lowest_idx := 0 |> <| ri_entries_detected_at_startup := 2 |>
            <| ri_csn_this_peer := 3 |>)
    sim_two_entries.
Lemma sim_scrub_repr : rocks_repr (rw_ri sim_scrub_world) (rw_st sim_scrub_world) sim_two_log.
Proof.
  apply (rocks_repr_proc sim_new_db.1); [vm_compute; discriminate.. | exact sim_two_repr].
Qed.
Lemma sim_two_magic i re :
  al_get sim_two_log i = Some re -> reh_magic (re_header re) = RAFT_ENTRY_MAGIC.
Proof.
  intros H. pose proof (al_get_Some _ _ _ H) as Hi. change (0 <= i < 2) in Hi.
  assert (i = 0 \/ i = 1) as [->| ->] by lia; injection H as <-; vm_compute; reflexivity.
Qed.
Lemma scrub_makes_entries_own_witness :
  exists w' l', rsbr_bulk_recovery_db_scrub_entry_headers sim_scrub_world = Some (0, w') /\
    rocks_repr (rw_ri sim_scrub_world) (rw_st w') l' /\
    (forall j, al_get l' j = option_map (scrubbed 3) (al_get sim_two_log j)).
Proof.
  destruct (result_code (rsbr_bulk_recovery_db_scrub_entry_headers sim_scrub_world) 0) as [w' E].
  { vm_compute. reflexivity. }
  destruct (scrub_makes_entries_own sim_scrub_world 0 w' sim_two_log E sim_scrub_repr
    ltac:(vm_compute; reflexivity) ltac:(vm_compute; reflexivity) ltac:(eval_bounds)
    sim_two_magic) as (_ & _ & l' & Hr & _ & _ & Hg & _).
  exists w', l'. split; [exact E|]. split; [exact Hr | exact Hg].
Defined.




(** ** Closing and checkpoints *)
Section closing.
Context `{NC : NiovaCore} {D : Type} `{RD : RocksDB D} `{NU : NiovaUtil} `{RE : RecoveryEnv D}.

(** C39. Closing the backend never fails on an open one, drops the handle and leaves
    the database's content in its directory; but the descriptor of the log
    directory is only closed when it is negative, so every open and close (as in
    each attempt of a bulk recovery) leaks one. *)
Theorem destroy_leaks_descriptor (w w' : rworld D) rir rc :
  ri_backend_arg (rw_st w) = Some rir -> 0 <= rir_log_fd rir ->
  rsbr_destroy w = Some (rc, w') ->
  rc = 0 /\ ri_backend_arg (rw_st w') = None /\
  rs_open_fds (rw_st w') = rs_open_fds (rw_st w) /\
  rs_fs (rw_st w') =
    match rir_db rir with
    | Some d => <[norm_path (rs_db_path (rw_st w)) := FsDb d]> (rs_fs (rw_st w))
    | None => rs_fs (rw_st w)
    end.
Proof.
  intros Ha Hfd H. unfold rsbr_destroy in H. erewrite bind_eq in H by reflexivity.
  unfold id in H. rewrite Ha in H. apply bind_Some in H as (rir' & w1 & H1 & H).
  unfold sread in H1. destruct (rsbr_ri_to_rirdb _ _) as [r|] eqn:Hr; [|done].
  injection H1 as <- <-. unfold rsbr_ri_to_rirdb in Hr. rewrite Ha in Hr. simpl in Hr.
  destruct (_ && _) in Hr; [done|]. injection Hr as <-.
  replace (rir_log_fd rir <? 0) with false in H by lia.
  erewrite bind_eq in H by reflexivity.
  destruct (rir_db rir); do 2 (erewrite bind_eq in H by reflexivity); injection H as <- <-; done.
Qed.

Lemma checkpoint_path_error ri st rir rc p :
  rsbr_ri_to_rirdb ri st = Some rir ->
  rsbr_checkpoint_path_build (ri_log ri) (ri_csn_this_peer ri) (ri_db_uuid ri)
    (raft_server_instance_chkpt_compact_max_idx ri) true true PATH_MAX = (rc, p) ->
  0 <= raft_server_instance_chkpt_compact_max_idx ri ->
  raft_server_instance_chkpt_compact_max_idx ri <> ri_checkpoint_last_idx ri -> rc < 0 ->
  rsbr_checkpoint (RWorld ri st) = Some (- rc, RWorld ri st).
Proof.
  intros Hr Hp Hidx Hlast Hrc. unfold rsbr_checkpoint.
  erewrite bind_eq by (unfold sread; cbn [rw_ri rw_st]; by rewrite Hr).
  erewrite bind_eq by reflexivity. unfold id. cbn [rw_ri].
  replace (_ <? 0) with false by lia. replace (_ =? ri_checkpoint_last_idx ri) with false by lia.
  rewrite Hp. by replace (rc =? 0) with false by lia.
Qed.

(** C40. A checkpoint whose path cannot be built is taken for one that was made:
    rsbr_checkpoint() returns the error code negated, a positive number, and the
    checkpoint thread records it as the index of the last checkpoint although
    nothing was written. *)
Theorem checkpoint_error_taken_as_index {A} (w w' : world (rocks_state D) A) rir rc p :
  raft_server_take_chkpt w = Some (tt, w') ->
  rsbr_ri_to_rirdb (w_ri w) (w_be w) = Some rir ->
  0 <= raft_server_instance_chkpt_compact_max_idx (w_ri w) ->
  raft_server_instance_chkpt_compact_max_idx (w_ri w) <> ri_checkpoint_last_idx (w_ri w) ->
  rsbr_checkpoint_path_build (ri_log (w_ri w)) (ri_csn_this_peer (w_ri w)) (ri_db_uuid (w_ri w))
    (raft_server_instance_chkpt_compact_max_idx (w_ri w)) true true PATH_MAX = (rc, p) ->
  rc < 0 ->
  ri_checkpoint_last_idx (w_ri w') = - rc /\ w_be w' = w_be w.
Proof.
  intros H Ha Hidx Hlast Hp Hrc.
  pose proof (checkpoint_path_error _ _ _ _ _ Ha Hp Hidx Hlast Hrc) as Hcp.
  unfold raft_server_take_chkpt in H. erewrite bind_eq in H by reflexivity. unfold id in H.
  replace (_ <? 0) with false in H by lia. do 2 erewrite bind_eq in H by reflexivity.
  rewrite Hcp in H. cbn [mbind option_bind fst snd rw_st] in H.
  do 2 erewrite bind_eq in H by reflexivity. cbn [fst snd] in H.
  replace (0 <=? - rc) with true in H by lia. replace (- rc <=? 0) with false in H by lia.
  cbn [when] in H. apply bind_Some in H as (? & w1 & H1 & H). injection H as <-.
  unfold raft_server_set_checkpoint_last_idx in H1. erewrite bind_eq in H1 by reflexivity.
  apply bind_Some in H1 as (? & w2 & H1 & H2). run_inv H1. run_inv H2. done.
Qed.
End closing.

Lemma destroy_leaks_descriptor_witness :
  exists w', rsbr_destroy (RWorld sim_new_db.1 sim_rir_st) = Some (0, w') /\
    ri_backend_arg (rw_st w') = None /\ rs_open_fds (rw_st w') = 1.
Proof.
  destruct (result_code (rsbr_destroy (RWorld sim_new_db.1 sim_rir_st)) 0) as [w' E].
  { vm_compute. reflexivity. }
  destruct (destroy_leaks_descriptor (RWorld sim_new_db.1 sim_rir_st) w' sim_rir 0 eq_refl
    ltac:(done) E) as (_ & H1 & H2 & _).
  exists w'. split; [exact E|]. split; [exact H1 | exact H2].
Defined.

(** A log directory whose name leaves no room for the checkpoint's. *)
Definition sim_long_world : world (rocks_state memdb) Z :=
  World (zero_raft_instance <| ri_log := replicate 4050 x61 |> <| ri_csn_this_peer := 1 |>
           <| ri_db_uuid := 5 |> <| ri_checkpoint_last_idx := -1 |>
           <| ri_last_applied ::= fun la => la <| rla_synced_idx := 4 |> |>)
    sim_rir_st 0 (sim_env no_faults 1000) 0 [].
Lemma checkpoint_error_taken_as_index_witness :
  exists w', raft_server_take_chkpt sim_long_world = Some (tt, w') /\
    ri_checkpoint_last_idx (w_ri w') = 36 /\ w_be w' = sim_rir_st.
Proof.
  destruct (raft_server_take_chkpt sim_long_world) as [[[] w']|] eqn:E.
  2:{ exfalso. apply (f_equal completes) in E. vm_compute in E. discriminate E. }
  exists w'. split; [reflexivity|].
  destruct (rsbr_checkpoint_path_build (ri_log (w_ri sim_long_world))
    (ri_csn_this_peer (w_ri sim_long_world)) (ri_db_uuid (w_ri sim_long_world))
    (raft_server_instance_chkpt_compact_max_idx (w_ri sim_long_world)) true true PATH_MAX)
    as [rc p] eqn:Ep.
  assert (Hrc : rc = - ENAMETOOLONG).
  { apply (f_equal fst) in Ep. simpl in Ep. rewrite <- Ep. vm_compute. reflexivity. }
  rewrite Hrc in Ep.
  exact (checkpoint_error_taken_as_index sim_long_world w' sim_rir _ p E eq_refl ltac:(done)
           ltac:(done) Ep ltac:(done)).
Defined.
