(* ===== verification/RcTypes.v ===== *)
(** Data of the client library ([src/raft_client.c], [src/include/raft_client.h]):
    user identifiers, request handles, the client instance, and the interfaces
    to the code outside the repository it is built on: the reference-counted
    tree of [niova/ref_tree_proto.h] and the iovec helpers of [niova/io.h]. *)
From stdpp Require Import base tactics list gmap countable.
From Stdlib Require Import ZArith Lia Strings.Byte.
From S2P Require Import Prelude RaftTypes World Entry.
Local Open Scope Z_scope.
Local Open Scope raft_scope.

(** ** Constants *)
Definition RAFT_CLIENT_MAX_INSTANCES : Z := 8.
Definition RAFT_CLIENT_RPC_SENDER_MAX : Z := 8.
Definition RAFT_CLIENT_EVP_IDX : Z := 0.
Definition raftClientSubAppMax : Z := 4096.
Definition raftClientNpingsUntilViable : Z := 4.
Definition raftClientTimerFDExpireMS : Z := 10.
Definition raftClientRequestRatePerSec : Z := 10000.
Definition RAFT_CLIENT_RATE_QUANTUM_MSEC : Z := 2.
Definition RAFT_CLIENT_STALE_SERVER_TIME_MS : Z := 10 * 10.
Definition raftClientStaleServerTimeMS : Z := RAFT_CLIENT_STALE_SERVER_TIME_MS * 10.
Definition raftClientIdlePingServerTimeMS : Z := RAFT_CLIENT_STALE_SERVER_TIME_MS.
Definition raftClientRetryTimeoutMS : Z := 10 * 1000.
Definition raftClientOpHistorySize : Z := 64.
Definition RAFT_CLIENT_REQUEST_HANDLE_MAX_IOVS : Z := 8.
Definition RAFT_CLIENT_REQUEST_TIMEOUT_SECS : Z := 60.
Definition RAFT_NET_CLIENT_USER_ID_V0_NUINT64 : Z := 6.
Definition RAFT_NET_TAG_NONE : Z := 0.

(** [enum raft_client_request_opts], a set of bits. *)
Definition RCRT_READ : Z := 0.
Definition RCRT_WRITE : Z := 1.
Definition RCRT_NON_BLOCKING : Z := 2.
Definition rcrt_has (rcrt opt : Z) : bool := negb (Z.land rcrt opt =? 0).

(** ** User identifiers ([struct raft_net_client_user_id]) *)
Record raft_net_client_user_id := {
  rncui_v0_uint64 : list Z;
  rncui_version : Z;
}.

#[export] Instance rncui_eq : EqDecision raft_net_client_user_id.
Proof. solve_decision. Defined.
#[export] Instance rncui_countable : Countable raft_net_client_user_id.
Proof.
  refine (inj_countable' (fun u => (rncui_v0_uint64 u, rncui_version u))
            (fun p => {| rncui_v0_uint64 := p.1; rncui_version := p.2 |}) _).
  by intros [].
Defined.

(** The comparison of two keys, from the first word on. *)
Fixpoint rncui_key_cmp (a b : list Z) : Z :=
  match a, b with
  | x :: a', y :: b' =>
      if negb (x =? y) then (if x <? y then -1 else 1) else rncui_key_cmp a' b'
  | _, _ => 0
  end.

(** [None]: an assertion fails. *)
Definition raft_net_client_user_id_cmp (a b : raft_net_client_user_id) : option Z :=
  if (rncui_version a =? 0) && (rncui_version b =? 0)
  then Some (rncui_key_cmp (rncui_v0_uint64 a) (rncui_v0_uint64 b))
  else None.

Definition raft_net_client_user_id_2_uuid (rncui : option raft_net_client_user_id)
    (version index : Z) : Z * option (list Z) :=
  match rncui with
  | None => (- EINVAL, None)
  | Some u =>
      if version =? 0
      then if index >? 3 then (- EBADSLT, None) else (0, Some (take 2 (rncui_v0_uint64 u)))
      else (- ERANGE, None)
  end.

(** ** Buffers ([struct iovec]); an address is a number, NULL is 0. *)
Record iovec := { iov_base : Z; iov_len : Z }.
#[export] Instance iovec_eq : EqDecision iovec.
Proof. solve_decision. Defined.

(** [niova_io_iovs_total_size_get], [niova_io_copy_to_iovs] (its return value)
    and [niova_malloc_can_fail]. *)
Class NiovaIo := {
  niova_io_iovs_total_size_get : list iovec -> Z;
  niova_io_copy_to_iovs : bytes -> Z -> list iovec -> Z;
  niova_malloc_can_fail : Z -> Z;
}.

(** The copy fills the buffers as far as they and the source go. *)
Class NiovaIoOk (IO : NiovaIo) : Prop := {
  copy_to_iovs_min src n iovs :
    0 <= n -> niova_io_copy_to_iovs src n iovs = Z.min n (niova_io_iovs_total_size_get iovs);
  iovs_total_size_nonneg iovs : 0 <= niova_io_iovs_total_size_get iovs;
}.

(** The application: [raft_client_data_2_obj_id_t], which finds the user
    identifier in the data of a reply. *)
Class RaftClientApp := {
  rci_obj_id_cb : bytes -> Z -> Z * raft_net_client_user_id;
}.

(** ** Request handles ([struct raft_client_request_handle])

    An asynchronous callback is named by a number, like its argument.  The
    completion notifier is the flag of the thread that waits for the request.
    The address of the replying server, kept for reports only, is left out. *)
Record raft_client_request_handle := {
  rcrh_ready : bool;
  rcrh_completing : bool;
  rcrh_initializing : bool;
  rcrh_blocking : bool;
  rcrh_sendq : bool;
  rcrh_send_failed : bool;
  rcrh_cancel : bool;
  rcrh_cb_exec : bool;
  rcrh_op_wr : bool;
  rcrh_history_cache : bool;
  rcrh_pending_op_cache : bool;
  rcrh_alloc_get_buffer_for_user : bool;
  rcrh_leader_not_viable_delay : bool;
  rcrh_error : Z;
  rcrh_submitted : timespec;
  rcrh_last_send : timespec;
  rcrh_completion_latency_ms : Z;
  rcrh_timeout : timespec;
  rcrh_num_sends : Z;
  rcrh_reply_used_size : Z;
  rcrh_reply_size : Z;
  rcrh_send_niovs : Z;
  rcrh_recv_niovs : Z;
  rcrh_iovs : list iovec;
  rcrh_completion_notifier : option Z;
  rcrh_async_cb : option Z;
  rcrh_arg : Z;
  rcrh_rpc_request : raft_client_rpc_msg;
}.
#[export] Instance eta_raft_client_request_handle : Eta raft_client_request_handle := fun r =>
  {| rcrh_ready := rcrh_ready r; rcrh_completing := rcrh_completing r;
     rcrh_initializing := rcrh_initializing r; rcrh_blocking := rcrh_blocking r;
     rcrh_sendq := rcrh_sendq r; rcrh_send_failed := rcrh_send_failed r;
     rcrh_cancel := rcrh_cancel r; rcrh_cb_exec := rcrh_cb_exec r;
     rcrh_op_wr := rcrh_op_wr r; rcrh_history_cache := rcrh_history_cache r;
     rcrh_pending_op_cache := rcrh_pending_op_cache r;
     rcrh_alloc_get_buffer_for_user := rcrh_alloc_get_buffer_for_user r;
     rcrh_leader_not_viable_delay := rcrh_leader_not_viable_delay r;
     rcrh_error := rcrh_error r; rcrh_submitted := rcrh_submitted r;
     rcrh_last_send := rcrh_last_send r;
     rcrh_completion_latency_ms := rcrh_completion_latency_ms r;
     rcrh_timeout := rcrh_timeout r; rcrh_num_sends := rcrh_num_sends r;
     rcrh_reply_used_size := rcrh_reply_used_size r;
     rcrh_reply_size := rcrh_reply_size r; rcrh_send_niovs := rcrh_send_niovs r;
     rcrh_recv_niovs := rcrh_recv_niovs r; rcrh_iovs := rcrh_iovs r;
     rcrh_completion_notifier := rcrh_completion_notifier r;
     rcrh_async_cb := rcrh_async_cb r; rcrh_arg := rcrh_arg r;
     rcrh_rpc_request := rcrh_rpc_request r |}.
Definition zero_rcrh : raft_client_request_handle :=
  {| rcrh_ready := false; rcrh_completing := false; rcrh_initializing := false;
     rcrh_blocking := false; rcrh_sendq := false; rcrh_send_failed := false;
     rcrh_cancel := false; rcrh_cb_exec := false; rcrh_op_wr := false;
     rcrh_history_cache := false; rcrh_pending_op_cache := false;
     rcrh_alloc_get_buffer_for_user := false; rcrh_leader_not_viable_delay := false;
     rcrh_error := 0; rcrh_submitted := 0; rcrh_last_send := 0;
     rcrh_completion_latency_ms := 0; rcrh_timeout := 0; rcrh_num_sends := 0;
     rcrh_reply_used_size := 0; rcrh_reply_size := 0; rcrh_send_niovs := 0;
     rcrh_recv_niovs := 0; rcrh_iovs := replicate 8 {| iov_base := 0; iov_len := 0 |};
     rcrh_completion_notifier := None; rcrh_async_cb := None; rcrh_arg := 0;
     rcrh_rpc_request := zero_rcrm |}.

(** [struct raft_client_sub_app].  Its reference count belongs to the tree, its
    list entry to the send queue; there is one instance, its [rcsa_rci]. *)
Record raft_client_sub_app := {
  rcsa_rncui : raft_net_client_user_id;
  rcsa_rh : raft_client_request_handle;
}.
#[export] Instance eta_raft_client_sub_app : Eta raft_client_sub_app := fun r =>
  {| rcsa_rncui := rcsa_rncui r; rcsa_rh := rcsa_rh r |}.
Definition zero_sub_app (u : raft_net_client_user_id) : raft_client_sub_app :=
  {| rcsa_rncui := u; rcsa_rh := zero_rcrh |}.
Definition raft_client_sub_app_2_msg_id (sa : raft_client_sub_app) : Z :=
  rcrm_msg_id (rcrh_rpc_request (rcsa_rh sa)).

Inductive raft_client_recent_op_types :=
| RAFT_CLIENT_RECENT_OP_TYPE_READ
| RAFT_CLIENT_RECENT_OP_TYPE_WRITE
| RAFT_CLIENT_RECENT_OP_TYPE_PENDING.
#[export] Instance recent_op_types_eq : EqDecision raft_client_recent_op_types.
Proof. solve_decision. Defined.

Record raft_client_sub_app_req_history := {
  rcsarh_size : Z;
  rcsarh_cnt : Z;
  rcsarh_sa : list raft_client_sub_app;
}.
#[export] Instance eta_raft_client_sub_app_req_history : Eta raft_client_sub_app_req_history := fun r =>
  {| rcsarh_size := rcsarh_size r; rcsarh_cnt := rcsarh_cnt r;
     rcsarh_sa := rcsarh_sa r |}.
Definition zero_history : raft_client_sub_app_req_history :=
  {| rcsarh_size := 0; rcsarh_cnt := 0; rcsarh_sa := [] |}.

(** ** The reference-counted tree

    [rt_elem k t] is the element with key [k] and its reference count.  The
    element is named by its key while it is in the tree; [rt_store] writes to it
    through a pointer.  [RT_GET_ADD] gets what the constructor returns for the
    key, in case it is called. *)
Inductive rt_added := RT_NEW | RT_EXISTED | RT_NOMEM.

Class RefTree (K V T : Type) := {
  rt_empty : T;
  rt_elem : K -> T -> option (V * Z);
  RT_FOREACH_LOCKED : T -> list K;
  RT_GET_ADD : K -> option V -> T -> rt_added * T;
  RT_LOOKUP : K -> T -> bool * T;
  REF_TREE_REF_GET_ELEM_LOCKED : K -> T -> T;
  RT_PUT : K -> T -> option V * T;  (* the element handed to the destructor *)
  rt_store : K -> V -> T -> T;
}.

(** The behaviour the client relies on.  An operation on one key leaves the
    others alone; [rt_upd f k t t'] says what it does at its own. *)
Definition rt_upd {K V T} `{RefTree K V T} (k : K)
    (f : option (V * Z) -> option (V * Z)) (t t' : T) : Prop :=
  rt_elem k t' = f (rt_elem k t) /\ forall k', k' <> k -> rt_elem k' t' = rt_elem k' t.
Definition ref_get {V} : option (V * Z) -> option (V * Z) := fmap (fun p => (p.1, p.2 + 1)).
Definition ref_put {V} (o : option (V * Z)) : option (V * Z) :=
  match o with
  | Some (v, n) => if n =? 1 then None else Some (v, n - 1)
  | None => None
  end.

Class RefTreeOk {K V T} (RT : RefTree K V T) : Prop := {
  rt_empty_elem (k : K) : rt_elem k rt_empty = None;
  rt_foreach_nodup (t : T) : NoDup (RT_FOREACH_LOCKED t);
  rt_foreach_elem (k : K) (t : T) : k ∈ RT_FOREACH_LOCKED t <-> is_Some (rt_elem k t);
  rt_get_add_ok (k : K) (c : option V) (t : T) :
    match rt_elem k t, c with
    | Some _, _ => (RT_GET_ADD k c t).1 = RT_EXISTED /\ rt_upd k ref_get t (RT_GET_ADD k c t).2
    | None, None => RT_GET_ADD k c t = (RT_NOMEM, t)
    | None, Some v => (RT_GET_ADD k c t).1 = RT_NEW /\
                      rt_upd k (fun _ => Some (v, 1)) t (RT_GET_ADD k c t).2
    end;
  rt_lookup_ok (k : K) (t : T) :
    match rt_elem k t with
    | Some _ => (RT_LOOKUP k t).1 = true /\ rt_upd k ref_get t (RT_LOOKUP k t).2
    | None => RT_LOOKUP k t = (false, t)
    end;
  rt_ref_get_ok (k : K) (t : T) : is_Some (rt_elem k t) -> rt_upd k ref_get t (REF_TREE_REF_GET_ELEM_LOCKED k t);
  rt_put_ok (k : K) (t : T) (v : V) n :
    rt_elem k t = Some (v, n) ->
    (RT_PUT k t).1 = (if n =? 1 then Some v else None) /\ rt_upd k ref_put t (RT_PUT k t).2;
  rt_store_ok (k : K) (v : V) (t : T) :
    is_Some (rt_elem k t) -> rt_upd k (fmap (fun p => (v, p.2))) t (rt_store k v t);
}.

(** ** The client instance ([struct raft_client_instance]) *)
Record raft_client_instance (T : Type) := {
  rci_sub_apps : T;
  rci_sendq : list raft_net_client_user_id;
  rci_last_request_sent : timespec;
  rci_last_request_ackd : timespec;
  rci_last_msg_recvd : timespec;
  rci_sub_app_cnt : Z;
  rci_msg_id_counter : Z;
  rci_msg_id_prefix : Z;
  rci_leader_csn : option uuid;
  rci_leader_redirect : bool;
  rci_requests_throttled : bool;
  rci_leader_alive_cnt : Z;
  rci_recent_ops : raft_client_recent_op_types -> raft_client_sub_app_req_history;
}.
Arguments rci_sub_apps {T}.
Arguments rci_sendq {T}.
Arguments rci_last_request_sent {T}.
Arguments rci_last_request_ackd {T}.
Arguments rci_last_msg_recvd {T}.
Arguments rci_sub_app_cnt {T}.
Arguments rci_msg_id_counter {T}.
Arguments rci_msg_id_prefix {T}.
Arguments rci_leader_csn {T}.
Arguments rci_leader_redirect {T}.
Arguments rci_requests_throttled {T}.
Arguments rci_leader_alive_cnt {T}.
Arguments rci_recent_ops {T}.
#[export] Instance eta_raft_client_instance T : Eta (raft_client_instance T) := fun r =>
  {| rci_sub_apps := rci_sub_apps r; rci_sendq := rci_sendq r;
     rci_last_request_sent := rci_last_request_sent r;
     rci_last_request_ackd := rci_last_request_ackd r;
     rci_last_msg_recvd := rci_last_msg_recvd r; rci_sub_app_cnt := rci_sub_app_cnt r;
     rci_msg_id_counter := rci_msg_id_counter r;
     rci_msg_id_prefix := rci_msg_id_prefix r; rci_leader_csn := rci_leader_csn r;
     rci_leader_redirect := rci_leader_redirect r;
     rci_requests_throttled := rci_requests_throttled r;
     rci_leader_alive_cnt := rci_leader_alive_cnt r;
     rci_recent_ops := rci_recent_ops r |}.

(** What the application sees of the client: the end of a request (the callback
    with its argument, the size or error, and the second receive buffer, absent
    when it lies beyond the array; the error that wakes the blocked thread), and
    the data copied to its buffers. *)
Inductive client_effect :=
| Completed (k : raft_net_client_user_id) (cb : option (Z * Z * Z * option Z)) (wake : option Z)
| Copied (k : raft_net_client_user_id) (data : bytes) (to : list iovec).

(** The client instance, the static variables of [raft_client_rpc_sender], the
    table [raftClientInstances] (the addresses it holds, 0 for NULL) and the
    effects so far.  The instance itself has address [rci_self]. *)
Record client_ctx (T : Type) := {
  cl_rci : raft_client_instance T;
  cl_interval_start : timespec;
  cl_interval_rpc_cnt : Z;
  cl_instances : list Z;
  cl_effects : list client_effect;
}.
Arguments cl_rci {T}.
Arguments cl_interval_start {T}.
Arguments cl_interval_rpc_cnt {T}.
Arguments cl_instances {T}.
Arguments cl_effects {T}.
#[export] Instance eta_client_ctx T : Eta (client_ctx T) := fun r =>
  {| cl_rci := cl_rci r; cl_interval_start := cl_interval_start r;
     cl_interval_rpc_cnt := cl_interval_rpc_cnt r; cl_instances := cl_instances r;
     cl_effects := cl_effects r |}.

(** ** The tree over a finite map, used for concrete runs. *)
Section gmap_tree.
Context {K V : Type} `{Countable K}.

Definition gmap_ref_tree : RefTree K V (gmap K (V * Z)) := {|
  rt_empty := ∅;
  rt_elem := fun k t => t !! k;
  RT_FOREACH_LOCKED := fun t => (map_to_list t).*1;
  RT_GET_ADD := fun k c t =>
    match t !! k, c with
    | Some (v, n), _ => (RT_EXISTED, <[k := (v, n + 1)]> t)
    | None, None => (RT_NOMEM, t)
    | None, Some v => (RT_NEW, <[k := (v, 1)]> t)
    end;
  RT_LOOKUP := fun k t =>
    match t !! k with
    | Some (v, n) => (true, <[k := (v, n + 1)]> t)
    | None => (false, t)
    end;
  REF_TREE_REF_GET_ELEM_LOCKED := fun k t =>
    match t !! k with Some (v, n) => <[k := (v, n + 1)]> t | None => t end;
  RT_PUT := fun k t =>
    match t !! k with
    | Some (v, n) => if n =? 1 then (Some v, delete k t) else (None, <[k := (v, n - 1)]> t)
    | None => (None, t)
    end;
  rt_store := fun k v t =>
    match t !! k with Some (_, n) => <[k := (v, n)]> t | None => t end;
|}.

#[export] Instance gmap_ref_tree_ok : RefTreeOk gmap_ref_tree.
Proof.
  split; simpl; unfold rt_upd, ref_get, ref_put; simpl.
  - intros k. apply lookup_empty.
  - intros t. apply NoDup_fst_map_to_list.
  - intros k t. rewrite list_elem_of_fmap. split.
    + intros ([k' v] & -> & Hk%elem_of_map_to_list). eauto.
    + intros [v Hv]. exists (k, v). by rewrite elem_of_map_to_list.
  - intros k c t. destruct (t !! k) as [[v n]|] eqn:E; [|destruct c as [v|]; [|done]];
      (split; [done|]; split; [simpl; by rewrite lookup_insert_eq, ?E|]);
      intros k' Hk; simpl; by rewrite lookup_insert_ne by done.
  - intros k t. destruct (t !! k) as [[v n]|] eqn:E; [|done].
    split; [done|]; split; [simpl; by rewrite lookup_insert_eq, ?E|];
      intros k' Hk; simpl; by rewrite lookup_insert_ne by done.
  - intros k t [[v n] E]. rewrite E.
    split; [by rewrite lookup_insert_eq|];
      intros k' Hk; simpl; by rewrite lookup_insert_ne by done.
  - intros k t v n E. rewrite E. destruct (n =? 1) eqn:En; simpl.
    + split; [done|]; split; [by rewrite lookup_delete_eq|];
        intros k' Hk; by rewrite lookup_delete_ne by done.
    + split; [done|]; split; [by rewrite lookup_insert_eq|];
        intros k' Hk; simpl; by rewrite lookup_insert_ne by done.
  - intros k v t [[v0 n] E]. rewrite E.
    split; [by rewrite lookup_insert_eq|];
      intros k' Hk; simpl; by rewrite lookup_insert_ne by done.
Qed.
End gmap_tree.
