(* ===== verification/RaftClient.v ===== *)
(** The client library ([src/raft_client.c]): the life of a request from its
    submission to the callback of the application, the send queue and its rate
    limit, retries and expiry, and what the client knows of the leader.

    A function runs under the instance's lock or in a thread that owns the
    request, so each handler is one step; a submission is two, since the request
    is in the tree from the moment it is added and initialised after that. *)
From stdpp Require Import base tactics list gmap.
From Stdlib Require Import ZArith Lia Strings.Byte.
From S2P Require Import Prelude RaftTypes World Net Entry RcTypes.
Local Open Scope Z_scope.
Local Open Scope raft_scope.

Section client.
Context `{NC : NiovaCore} {IO : NiovaIo} {APP : RaftClientApp} {B T : Type}
  {RT : RefTree raft_net_client_user_id raft_client_sub_app T}.
Local Abbreviation user_id := raft_net_client_user_id.
Local Abbreviation ctx := (client_ctx T).
Local Abbreviation M := (M (world B ctx)).

(** The address of the instance. *)
Variable rci_self : Z.

(** ** State access *)
Definition cl_get {X} (f : ctx -> X) : M X := gets (fun w => f (w_app w)).
Definition cl_upd (f : ctx -> ctx) : M unit := modify (fun w => w <| w_app ::= f |>).
Definition rci_get {X} (f : raft_client_instance T -> X) : M X :=
  cl_get (fun c => f (cl_rci c)).
Definition rci_upd (f : raft_client_instance T -> raft_client_instance T) : M unit :=
  cl_upd (fun c => c <| cl_rci ::= f |>).
Definition effect (e : client_effect) : M unit :=
  cl_upd (fun c => c <| cl_effects ::= fun l => l ++ [e] |>).

(** [*sa]: using a request that is no longer in the tree has no meaning. *)
Definition sa_get (k : user_id) : M raft_client_sub_app :=
  let! t := rci_get rci_sub_apps in
  lift_option (fst <$> rt_elem k t).
Definition rh_get {X} (k : user_id) (f : raft_client_request_handle -> X) : M X :=
  let! sa := sa_get k in
  ret (f (rcsa_rh sa)).
Definition rh_upd (k : user_id)
    (f : raft_client_request_handle -> raft_client_request_handle) : M unit :=
  let! sa := sa_get k in
  rci_upd (fun r => r <| rci_sub_apps ::= rt_store k (sa <| rcsa_rh ::= f |>) |>).

(** ** The tree of requests *)
Definition raft_client_sub_app_total_dec : M unit :=
  rci_upd (fun r => r <| rci_sub_app_cnt ::= fun c => s32 (c - 1) |>) ;;;
  let! total := rci_get rci_sub_app_cnt in
  assert_ (0 <=? total).

Definition raft_client_sub_app_total_inc : M unit :=
  rci_upd (fun r => r <| rci_sub_app_cnt ::= fun c => s32 (c + 1) |>) ;;;
  let! total := rci_get rci_sub_app_cnt in
  assert_ (0 <=? total).

Definition raft_client_sub_app_may_add_new : M bool :=
  let! total := rci_get rci_sub_app_cnt in
  assert_ (0 <=? total) ;;;
  ret (if raftClientSubAppMax <=? total then false else true).

(** The object the constructor makes, when the allocation succeeds; it also
    counts the object, see [raft_client_sub_app_add]. *)
Definition raft_client_sub_app_construct (e : env) (k : user_id) :
  option raft_client_sub_app :=
  if env_alloc_rc e =? 0
  then Some ((zero_sub_app k) <| rcsa_rh ::= fun rh => rh <| rcrh_initializing := true |> |>)
  else None.

Definition raft_client_sub_app_destruct (destroy : raft_client_sub_app) : M unit :=
  let rcrh := rcsa_rh destroy in
  assert_ (negb (rcrh_cb_exec rcrh)) ;;;
  let err := - Z.abs (rcrh_error rcrh) in
  let cb :=
    match rcrh_async_cb rcrh with
    | Some f =>
        let ret_err := if negb (rcrh_error rcrh =? 0) then err
                       else s64 (rcrh_reply_used_size rcrh) in
        Some (f, rcrh_arg rcrh, ret_err,
              iov_base <$> znth (rcrh_iovs rcrh) (rcrh_send_niovs rcrh + 1))
    | None => None
    end in
  assert_ (negb (rcrh_blocking rcrh)
           || (bool_decide (rcrh_completion_notifier rcrh = Some 1) && negb (err =? 1))) ;;;
  effect (Completed (rcsa_rncui destroy) cb
            (if rcrh_blocking rcrh then Some err else None)) ;;;
  raft_client_sub_app_total_dec.

Definition raft_client_sub_app_put (k : user_id) : M unit :=
  let! t := rci_get rci_sub_apps in
  let r := RT_PUT k t in
  rci_upd (fun rci => rci <| rci_sub_apps := r.2 |>) ;;;
  match r.1 with
  | Some sa => raft_client_sub_app_destruct sa
  | None => ret tt
  end.

Definition raft_client_op_history_reset_cnt (type : raft_client_recent_op_types) : M unit :=
  rci_upd (fun r => r <| rci_recent_ops ::= fun f t =>
    if bool_decide (t = type) then (f t) <| rcsarh_cnt := 0 |> else f t |>).

Definition raft_client_op_history_add_item (type : raft_client_recent_op_types)
    (k : user_id) : M unit :=
  let! item := sa_get k in
  assert_ (negb (rcrh_history_cache (rcsa_rh item))) ;;;
  let! rh := rci_get (fun r => rci_recent_ops r type) in
  fatal_if (rcsarh_size rh =? 0) ;;;
  let idx := u64 (rcsarh_cnt rh) mod rcsarh_size rh in
  let copy := item <| rcsa_rh ::= fun h =>
    h <| rcrh_history_cache := true |>
      <| rcrh_pending_op_cache ::= fun p =>
           if bool_decide (type = RAFT_CLIENT_RECENT_OP_TYPE_PENDING) then true else p |> |> in
  rci_upd (fun r => r <| rci_recent_ops ::= fun f t =>
    if bool_decide (t = type)
    then (f t) <| rcsarh_cnt ::= fun c => s64 (c + 1) |>
               <| rcsarh_sa ::= fun l => zupd l idx copy |>
    else f t |>).

Definition s16 (z : Z) : Z := (z + 2 ^ 15) mod 2 ^ 16 - 2 ^ 15.

Definition raft_client_sub_app_done (k : user_id) (error : Z) : M unit :=
  let! rcrh := rh_get k id in
  assert_ (negb (rcrh_cb_exec rcrh) && negb (rcrh_ready rcrh)) ;;;
  rh_upd k (fun h => h <| rcrh_error := s16 error |>) ;;;
  (if negb (rcrh_cancel rcrh)
   then
     assert_ (rcrh_completing rcrh) ;;;
     rh_upd k (fun h => h <| rcrh_completing := false |> <| rcrh_ready := true |>)
   else assert_ (negb (rcrh_completing rcrh))) ;;;
  raft_client_op_history_add_item
    (if rcrh_op_wr rcrh then RAFT_CLIENT_RECENT_OP_TYPE_WRITE
     else RAFT_CLIENT_RECENT_OP_TYPE_READ) k ;;;
  raft_client_sub_app_put k.

(** Whether the request was found; a reference is taken on it then. *)
Definition raft_client_sub_app_lookup (k : user_id) : M bool :=
  let! t := rci_get rci_sub_apps in
  let r := RT_LOOKUP k t in
  rci_upd (fun rci => rci <| rci_sub_apps := r.2 |>) ;;;
  ret r.1.

(** Whether a new request was added. *)
Definition raft_client_sub_app_add (k : user_id) : M bool :=
  let! t := rci_get rci_sub_apps in
  let! sa := env_get (fun e => raft_client_sub_app_construct e k) in
  let r := RT_GET_ADD k sa t in
  rci_upd (fun rci => rci <| rci_sub_apps := r.2 |>) ;;;
  match r.1 with
  | RT_NOMEM => ret false
  | RT_EXISTED => raft_client_sub_app_put k ;;; ret false
  | RT_NEW => raft_client_sub_app_total_inc ;;; ret true
  end.

(** ** The leader *)
Definition raft_client_timerfd_settime (msecs : Z) : M unit := emit (OutTimer msecs false).

Definition raft_client_server_target_needs_ping (server_uuid : uuid) : M bool :=
  let! idx := raft_peer_2_idx server_uuid in
  let! r := raft_net_comm_recency idx RAFT_COMM_RECENCY_RECV in
  ret (if negb (r.1 =? 0) || (r.2 >? raftClientIdlePingServerTimeMS) then true else false).

Definition raft_client_server_target_is_stale (server_uuid : uuid) : M bool :=
  let! idx := raft_peer_2_idx server_uuid in
  let! r := raft_net_comm_recency idx RAFT_COMM_RECENCY_UNACKED_SEND in
  ret (if negb (r.1 =? 0) || (r.2 >? raftClientStaleServerTimeMS) then true else false).

Definition raft_client_leader_is_viable : M bool :=
  let! rci := rci_get id in
  let! ri_leader := ri_get ri_csn_leader in
  match rci_leader_csn rci with
  | Some csn =>
      if (rci_leader_alive_cnt rci >? raftClientNpingsUntilViable)
         && bool_decide (Some csn = ri_leader)
      then
        let! stale := raft_client_server_target_is_stale csn in
        ret (negb stale)
      else ret false
  | None => ret false
  end.

(** The counter is converted to 64 bits with its sign. *)
Definition raft_client_rpc_msg_assign_id : M Z :=
  let! prefix := rci_get rci_msg_id_prefix in
  rci_upd (fun r => r <| rci_msg_id_counter ::= fun c => s32 (c + 1) |>) ;;;
  let! counter := rci_get rci_msg_id_counter in
  ret (Z.lor (u64 (Z.shiftl prefix 32)) (u64 counter)).

(** The return code and the message (the one given, on an error). *)
Definition raft_client_rpc_msg_init (rcrm : raft_client_rpc_msg)
    (msg_type : raft_client_rpc_msg_type) (data_size : Z) (dest_csn : option uuid) (tag : Z) :
  M (Z * raft_client_rpc_msg) :=
  let! ri := ri_get id in
  match dest_csn with
  | None => ret (- EINVAL, rcrm)
  | Some dest =>
      if negb (bool_decide (msg_type = RAFT_CLIENT_RPC_MSG_TYPE_PING))
         && negb (bool_decide (msg_type = RAFT_CLIENT_RPC_MSG_TYPE_WRITE))
         && negb (bool_decide (msg_type = RAFT_CLIENT_RPC_MSG_TYPE_READ))
      then ret (- EOPNOTSUPP, rcrm)
      else if (bool_decide (msg_type = RAFT_CLIENT_RPC_MSG_TYPE_READ)
               || bool_decide (msg_type = RAFT_CLIENT_RPC_MSG_TYPE_WRITE))
              && ((data_size =? 0)
                  || negb (raft_client_rpc_msg_size_is_valid (ri_store_type ri) data_size))
      then ret (- EMSGSIZE, rcrm)
      else
        let! msg_id := raft_client_rpc_msg_assign_id in
        ret (0, zero_rcrm <| rcrm_type := msg_type |>
                  <| rcrm_data_size := u32 data_size |>
                  <| rcrm_user_tag := tag |>
                  <| rcrm_raft_id := ri_csn_raft ri |>
                  <| rcrm_dest_id := dest |>
                  <| rcrm_sender_id := ri_csn_this_peer ri |>
                  <| rcrm_msg_id := msg_id |>)
  end.

Definition raft_client_rpc_ping_init : M (Z * raft_client_rpc_msg) :=
  let! leader := ri_get ri_csn_leader in
  raft_client_rpc_msg_init zero_rcrm RAFT_CLIENT_RPC_MSG_TYPE_PING 0 leader RAFT_NET_TAG_NONE.

Definition raft_net_send_client_msg (rcrm : raft_client_rpc_msg) : M Z :=
  let! leader := ri_get ri_csn_leader in
  match leader with
  | None => ret (- EINVAL)
  | Some csn =>
      raft_net_send_msg csn (u64 (sizeof_raft_client_rpc_msg + rcrm_data_size rcrm))
        (OutClientMsg csn rcrm) RAFT_UDP_LISTEN_CLIENT
  end.

Definition raft_net_send_client_msgv (rcrm : raft_client_rpc_msg) (iov : list iovec)
    (niovs : Z) : M Z :=
  let! leader := ri_get ri_csn_leader in
  match leader with
  | None => ret (- EINVAL)
  | Some csn =>
      let size := niova_io_iovs_total_size_get (take (Z.to_nat niovs) iov) in
      if (niovs >? 255) || negb (size =? rcrm_data_size rcrm) then ret (- EMSGSIZE)
      else raft_net_send_msg csn (u64 (sizeof_raft_client_rpc_msg + size))
             (OutClientMsg csn rcrm) RAFT_UDP_LISTEN_CLIENT
  end.

Definition raft_client_ping_raft_service : M unit :=
  let! leader := ri_get ri_csn_leader in
  match leader with
  | None => ret tt
  | Some _ =>
      let! r := raft_client_rpc_ping_init in
      fatal_if (negb (r.1 =? 0)) ;;;
      raft_net_send_client_msg r.2 ;;;
      ret tt
  end.

Definition raft_client_set_ping_target : M unit :=
  let! leader := ri_get ri_csn_leader in
  let! redirect := rci_get rci_leader_redirect in
  if bool_decide (is_Some leader) && redirect
  then rci_upd (fun r => r <| rci_leader_redirect := false |>)
  else
    let! guess := match leader with
                  | None => ret true
                  | Some csn => raft_client_server_target_is_stale csn
                  end in
    when guess
      (let! tgt := raft_net_get_most_recently_responsive_server in
       let! ri := ri_get id in
       assert_ (tgt <? num_members ri) ;;;
       let! csn := lift_option (znth (ri_csn_raft_peers ri) tgt) in
       ri_upd (fun ri => ri <| ri_csn_leader := Some csn |>)).

(** The instance a callback of the raft instance runs on is still in the table. *)
Definition raft_client_instance_lookup (instance : Z) : M (option Z) :=
  if instance =? 0 then ret None
  else
    let! table := cl_get cl_instances in
    ret (if bool_decide (instance ∈ table) then Some instance else None).

Definition raft_client_raft_instance_to_client_instance : M unit :=
  let! found := raft_client_instance_lookup rci_self in
  assert_ (bool_decide (found = Some rci_self)).

(** ** The send queue *)
Definition raft_client_request_send_queue_add_locked (k : user_id) : M unit :=
  let! rh := rh_get k id in
  assert_ (negb (rcrh_sendq rh) && negb (rcrh_initializing rh)) ;;;
  rh_upd k (fun h => h <| rcrh_sendq := true |>) ;;;
  rci_upd (fun r => r <| rci_sub_apps ::= REF_TREE_REF_GET_ELEM_LOCKED k |>) ;;;
  rci_upd (fun r => r <| rci_sendq ::= fun q => q ++ [k] |>).

(** STAILQ_REMOVE takes the element out, wherever it is. *)
Fixpoint stailq_remove (k : user_id) (q : list user_id) : list user_id :=
  match q with
  | [] => []
  | x :: q' => if bool_decide (x = k) then q' else x :: stailq_remove k q'
  end.

Definition raft_client_request_send_queue_remove_prep_locked (k : user_id) : M Z :=
  let! rh := rh_get k id in
  assert_ (rcrh_sendq rh) ;;;
  rci_upd (fun r => r <| rci_sendq ::= stailq_remove k |>) ;;;
  rh_upd k (fun h => h <| rcrh_sendq := false |>) ;;;
  ret (if rcrh_cancel rh || rcrh_ready rh || rcrh_completing rh then - ESTALE else 0).

Definition raft_client_request_send_queue_remove_done (k : user_id) : M unit :=
  let! sendq := rh_get k rcrh_sendq in
  assert_ (negb sendq) ;;;
  raft_client_sub_app_put k.

Definition raft_client_sub_app_cancel_pending_req (k : user_id) (error : Z) : M Z :=
  let! rcrh := rh_get k id in
  if negb (rcrh_completing rcrh) && negb (rcrh_ready rcrh)
  then
    rh_upd k (fun h => h <| rcrh_cancel := true |>) ;;;
    raft_client_sub_app_done k error ;;;
    ret (- ECANCELED)
  else ret (if rcrh_cancel rcrh then - EALREADY else 0).

(** ** The timer *)
Definition request_queued_ms (now : timespec) (rh : raft_client_request_handle) : Z :=
  Z.max 0 (s64 (timespec_2_msec now - timespec_2_msec (rcrh_submitted rh))).

(** A request that is not skipped: it is set aside when it is expired, and queued
    again when the leader is viable and it was held back, never sent or sent long
    ago.  [acc] is the expired requests so far and the number queued. *)
Definition pending_request_take (expired leader_viable : bool) (queued_ms : Z)
    (rh : raft_client_request_handle) (acc : list user_id * Z) (k : user_id) :
  M (list user_id * Z) :=
  if expired
  then
    rci_upd (fun r => r <| rci_sub_apps ::= REF_TREE_REF_GET_ELEM_LOCKED k |>) ;;;
    ret (k :: acc.1, acc.2)
  else if leader_viable
  then
    when (rcrh_leader_not_viable_delay rh)
      (rh_upd k (fun h => h <| rcrh_leader_not_viable_delay := false |>)) ;;;
    if rcrh_leader_not_viable_delay rh || (rcrh_num_sends rh =? 0)
       || (queued_ms >? raftClientRetryTimeoutMS)
    then raft_client_request_send_queue_add_locked k ;;; ret (acc.1, acc.2 + 1)
    else ret acc
  else ret acc.

Definition check_pending_request (now : timespec) (leader_viable : bool)
    (acc : list user_id * Z) (k : user_id) : M (list user_id * Z) :=
  let! rh := rh_get k id in
  if rcrh_cancel rh || rcrh_sendq rh || rcrh_initializing rh then ret acc
  else
    let queued_ms := request_queued_ms now rh in
    let! expired := if queued_ms >? timespec_2_msec (rcrh_timeout rh) then ret true
                    else FAULT_INJECT async_raft_client_request_expire in
    let! acc' := pending_request_take expired leader_viable queued_ms rh acc k in
    raft_client_op_history_add_item RAFT_CLIENT_RECENT_OP_TYPE_PENDING k ;;;
    ret acc'.

Fixpoint check_pending_loop (now : timespec) (leader_viable : bool)
    (acc : list user_id * Z) (ks : list user_id) : M (list user_id * Z) :=
  match ks with
  | [] => ret acc
  | k :: ks' =>
      let! acc' := check_pending_request now leader_viable acc k in
      check_pending_loop now leader_viable acc' ks'
  end.

Definition raft_client_check_pending_requests : M unit :=
  let! now := env_get env_realtime in
  let! leader_viable := raft_client_leader_is_viable in
  raft_client_op_history_reset_cnt RAFT_CLIENT_RECENT_OP_TYPE_PENDING ;;;
  let! t := rci_get rci_sub_apps in
  let! acc := check_pending_loop now leader_viable ([], 0) (RT_FOREACH_LOCKED t) in
  when (negb (acc.2 =? 0)) (RAFT_NET_EVP_NOTIFY_NO_FAIL RAFT_EVP_CLIENT) ;;;
  for_each acc.1 (fun k =>
    raft_client_sub_app_cancel_pending_req k (- ETIMEDOUT) ;;;
    raft_client_sub_app_put k).

(** The counters of the ping backoff are only reported. *)
Definition raft_client_timerfd_cb : M unit :=
  raft_client_raft_instance_to_client_instance ;;;
  let! viable := raft_client_leader_is_viable in
  (if viable
   then
     let! leader := ri_get ri_csn_leader in
     let! csn := lift_option leader in
     let! needs_ping := raft_client_server_target_needs_ping csn in
     when needs_ping raft_client_ping_raft_service
   else
     raft_client_set_ping_target ;;;
     raft_client_ping_raft_service) ;;;
  raft_client_check_pending_requests ;;;
  raft_client_timerfd_settime raftClientTimerFDExpireMS.

(** [seed] is random_create_seed_from_uuid_and_tid(). *)
Definition raft_client_msg_internals_init (seed : Z) : M unit :=
  rci_upd (fun r => r <| rci_msg_id_prefix := u32 seed |> <| rci_msg_id_counter := 0 |>).

Definition raft_client_instance_reset_leader_info (nullify_leader_csn : bool) : M unit :=
  rci_upd (fun r => r <| rci_leader_csn ::= fun c => if nullify_leader_csn then None else c |>
                      <| rci_leader_alive_cnt := 0 |>).

Definition raft_client_instance_progress_leader_info (sender_csn : uuid) : M unit :=
  rci_upd (fun r =>
    if bool_decide (is_Some (rci_leader_csn r))
       && negb (bool_decide (rci_leader_csn r = Some sender_csn))
    then r
    else r <| rci_leader_alive_cnt ::= fun c => u64 (c + 1) |>
           <| rci_leader_csn := Some sender_csn |>).

Definition raft_client_process_ping_reply (rcrm : raft_client_rpc_msg) (sender_csn : uuid) :
  M unit :=
  let! leader_csn := rci_get rci_leader_csn in
  when (negb (bool_decide (leader_csn = Some sender_csn)))
    (raft_client_instance_reset_leader_info true) ;;;
  let e := rcrm_sys_error rcrm in
  if e =? 0 then raft_client_instance_progress_leader_info sender_csn
  else if (e =? - EINPROGRESS) || (e =? - EAGAIN) || (e =? - EBUSY)
  then raft_client_instance_reset_leader_info false
  else when ((e =? - ENOENT) || (e =? - ENOSYS)) (raft_client_instance_reset_leader_info true).

Definition raft_client_update_leader_from_redirect (rcrm : raft_client_rpc_msg) : M unit :=
  raft_client_instance_reset_leader_info true ;;;
  let! rc := raft_net_apply_leader_redirect (rcrm_dest_id rcrm) raftClientStaleServerTimeMS in
  when (rc =? 0)
    (let! leader := ri_get ri_csn_leader in
     rci_upd (fun r => r <| rci_leader_redirect := true |> <| rci_leader_csn := leader |>)).

(** ** Submission *)
Record submit_args := {
  sub_src_iovs : list iovec;
  sub_dest_iovs : list iovec;
  sub_allocate_get_buffer_for_user : bool;
  sub_timeout : timespec;
  sub_rcrt : Z;
  sub_user_cb : option Z;
  sub_user_arg : Z;
  sub_tag : Z;
}.

(** The iovecs of the caller in front of what the array held. *)
Definition rcrh_iovs_fill (src dest old : list iovec) : list iovec :=
  src ++ dest ++ drop (length src + length dest) old.

Definition raft_client_request_handle_init (k : user_id) (args : submit_args)
    (now : timespec) : M Z :=
  let nsrc := Z.of_nat (length (sub_src_iovs args)) in
  let ndest := Z.of_nat (length (sub_dest_iovs args)) in
  let! rcrh := rh_get k id in
  assert_ (rcrh_initializing rcrh) ;;;
  assert_ (nsrc + ndest <=? RAFT_CLIENT_REQUEST_HANDLE_MAX_IOVS) ;;;
  let! leader := ri_get ri_csn_leader in
  match leader with
  | None => ret (- ENOTCONN)
  | Some csn =>
      let! r := raft_client_rpc_msg_init (rcrh_rpc_request rcrh)
                  (if rcrt_has (sub_rcrt args) RCRT_WRITE
                   then RAFT_CLIENT_RPC_MSG_TYPE_WRITE else RAFT_CLIENT_RPC_MSG_TYPE_READ)
                  (niova_io_iovs_total_size_get (sub_src_iovs args)) (Some csn)
                  (sub_tag args) in
      if negb (r.1 =? 0) then ret r.1
      else
        rh_upd k (fun h =>
          h <| rcrh_rpc_request := r.2 |>
            <| rcrh_arg := sub_user_arg args |>
            <| rcrh_async_cb := sub_user_cb args |>
            <| rcrh_submitted := now |>
            <| rcrh_initializing := true |>
            <| rcrh_send_niovs := u8 nsrc |>
            <| rcrh_recv_niovs := u8 ndest |>
            <| rcrh_alloc_get_buffer_for_user := sub_allocate_get_buffer_for_user args |>
            <| rcrh_blocking := negb (rcrt_has (sub_rcrt args) RCRT_NON_BLOCKING) |>
            <| rcrh_op_wr := rcrt_has (sub_rcrt args) RCRT_WRITE |>
            <| rcrh_iovs ::= rcrh_iovs_fill (sub_src_iovs args) (sub_dest_iovs args) |>
            <| rcrh_timeout ::= fun t =>
                 if negb (sub_timeout args =? 0) then sub_timeout args else t |>) ;;;
        ret 0
  end.

(** What the caller gets: a return code, or its thread waits until the
    completion wakes it ([raft_client_sub_app_wait]) and returns the error then. *)
Inductive submit_result := SubmitReturns (rc : Z) | SubmitWaits.

Definition raft_client_request_submit_enqueue (k : user_id) : M submit_result :=
  let! queue := raft_client_leader_is_viable in
  let! block := rh_get k rcrh_blocking in
  rh_upd k (fun h => h <| rcrh_completion_notifier := if block then Some 1 else None |>) ;;;
  let! initializing := rh_get k rcrh_initializing in
  assert_ initializing ;;;
  rh_upd k (fun h => h <| rcrh_initializing := false |>) ;;;
  (if queue
   then raft_client_request_send_queue_add_locked k
   else rh_upd k (fun h => h <| rcrh_leader_not_viable_delay := true |>)) ;;;
  when queue (RAFT_NET_EVP_NOTIFY_NO_FAIL RAFT_EVP_CLIENT) ;;;
  ret (if block then SubmitWaits else SubmitReturns 0).

(** The checks, and the request put into the tree: an error, or the key. *)
Definition raft_client_request_submit_add (client_instance : Z) (rncui : option user_id)
    (args : submit_args) : M (Z + user_id) :=
  let block := negb (rcrt_has (sub_rcrt args) RCRT_NON_BLOCKING) in
  let nsrc := Z.of_nat (length (sub_src_iovs args)) in
  let ndest := Z.of_nat (length (sub_dest_iovs args)) in
  match rncui with
  | None => ret (inl (- EINVAL))
  | Some k =>
      if (client_instance =? 0) || (negb block && bool_decide (sub_user_cb args = None))
      then ret (inl (- EINVAL))
      else if nsrc + ndest >? RAFT_CLIENT_REQUEST_HANDLE_MAX_IOVS then ret (inl (- EFBIG))
      else
        let! rci := raft_client_instance_lookup client_instance in
        let! ri := ri_get id in
        if bool_decide (rci = None) then ret (inl (- ENODEV))
        else if negb (raft_client_rpc_msg_size_is_valid (ri_store_type ri)
                        (niova_io_iovs_total_size_get (sub_src_iovs args)))
                || negb (raft_client_rpc_msg_size_is_valid (ri_store_type ri)
                           (niova_io_iovs_total_size_get (sub_dest_iovs args)))
        then ret (inl (- E2BIG))
        else if bool_decide (ri_csn_leader ri = None) then ret (inl (- ENOTCONN))
        else
          let! may_add := raft_client_sub_app_may_add_new in
          if negb may_add then ret (inl (- ENOSPC))
          else
            let! added := raft_client_sub_app_add k in
            if negb added then ret (inl (- EALREADY)) else ret (inr k)
  end.

(** The rest of raft_client_request_submit, on the request added. *)
Definition raft_client_request_submit_start (k : user_id) (args : submit_args) :
  M submit_result :=
  let! now := env_get env_realtime in
  let! rc := raft_client_request_handle_init k args now in
  if negb (rc =? 0)
  then raft_client_sub_app_put k ;;; ret (SubmitReturns rc)
  else raft_client_request_submit_enqueue k.

Definition raft_client_request_submit (client_instance : Z) (rncui : option user_id)
    (args : submit_args) : M submit_result :=
  let! r := raft_client_request_submit_add client_instance rncui args in
  match r with
  | inl rc => ret (SubmitReturns rc)
  | inr k => raft_client_request_submit_start k args
  end.

(** [reply_buf]: whether the buffer pointer is not NULL; it is not used. *)
Definition raft_client_request_cancel (client_instance : Z) (rncui : option user_id)
    (reply_buf : bool) : M Z :=
  match rncui with
  | None => ret (- EINVAL)
  | Some k =>
      if (client_instance =? 0) || negb reply_buf then ret (- EINVAL)
      else
        let! rci := raft_client_instance_lookup client_instance in
        if bool_decide (rci = None) then ret (- ENODEV)
        else
          let! found := raft_client_sub_app_lookup k in
          if negb found then ret (- ENOENT)
          else
            let! initializing := rh_get k rcrh_initializing in
            if negb initializing then ret (- EINPROGRESS)
            else
              raft_client_sub_app_cancel_pending_req k (- ECANCELED) ;;;
              raft_client_sub_app_put k ;;;
              ret 0
  end.

(** ** Replies *)
Definition iovs_from (h : raft_client_request_handle) : list iovec :=
  take (Z.to_nat (rcrh_recv_niovs h)) (drop (Z.to_nat (rcrh_send_niovs h)) (rcrh_iovs h)).

(** A buffer for the part of the reply that the first receive buffer cannot hold,
    when the user asked for it: it becomes the second receive buffer. *)
Definition reply_alloc (k : user_id) (rcrh : raft_client_request_handle)
    (reply_size_error : Z) : M Z :=
  if negb (rcrh_alloc_get_buffer_for_user rcrh) then ret reply_size_error
  else
    let! iov0 := lift_option (znth (rcrh_iovs rcrh) (rcrh_send_niovs rcrh)) in
    if negb (rcrh_reply_size rcrh >? iov_len iov0) then ret reply_size_error
    else
      let user_alloc_sz := rcrh_reply_size rcrh - iov_len iov0 in
      let base := niova_malloc_can_fail user_alloc_sz in
      let error := if negb (base =? 0) then 0 else - ENOMEM in
      lift_option (znth (rcrh_iovs rcrh) (rcrh_send_niovs rcrh + 1)) ;;;
      rh_upd k (fun h => h <| rcrh_iovs ::= fun l =>
        zupd l (rcrh_send_niovs rcrh + 1)
          {| iov_base := base; iov_len := if negb (error =? 0) then 0 else user_alloc_sz |} |>) ;;;
      ret error.

(** The part under the lock for a request that is neither ready, completing nor
    canceled. *)
Definition reply_prepare (k : user_id) (rcrm : raft_client_rpc_msg) : M Z :=
  rh_upd k (fun h => h <| rcrh_reply_size := rcrm_data_size rcrm |>) ;;;
  let! rcrh := rh_get k id in
  let reply_size_error :=
    if rcrh_reply_size rcrh >? niova_io_iovs_total_size_get (iovs_from rcrh)
    then - E2BIG else 0 in
  let! error := reply_alloc k rcrh reply_size_error in
  rh_upd k (fun h => h <| rcrh_completing := true |>) ;;;
  ret error.

Definition reply_copy (k : user_id) (rcrm : raft_client_rpc_msg) : M unit :=
  let! rcrh := rh_get k id in
  when (negb (rcrh_recv_niovs rcrh =? 0))
    (let iovs := iovs_from rcrh in
     let rrc := niova_io_copy_to_iovs (rcrm_data rcrm) (rcrm_data_size rcrm) iovs in
     assert_ (0 <=? rrc) ;;;
     assert_ (rrc =? Z.min (rcrm_data_size rcrm) (niova_io_iovs_total_size_get iovs)) ;;;
     effect (Copied k (take (Z.to_nat rrc) (rcrm_data rcrm)) iovs) ;;;
     rh_upd k (fun h => h <| rcrh_reply_used_size := rrc |>)).

(** raft_client_incorporate_ack_measurement() only feeds a histogram. *)
Definition reply_finish (k : user_id) (rcrm : raft_client_rpc_msg)
    (reply_size_error : Z) : M unit :=
  let! last_msg := rci_get rci_last_msg_recvd in
  rh_upd k (fun h => h <| rcrh_completion_latency_ms :=
    u64 (timespec_2_msec last_msg - timespec_2_msec (rcrh_submitted h)) |>) ;;;
  raft_client_sub_app_done k
    (if negb (reply_size_error =? 0) then reply_size_error else rcrm_app_error rcrm).

Definition reply_complete (k : user_id) (rcrm : raft_client_rpc_msg) : M unit :=
  let! reply_size_error := reply_prepare k rcrm in
  when (reply_size_error =? 0) (reply_copy k rcrm) ;;;
  reply_finish k rcrm reply_size_error.

(** What raft_client_reply_try_complete() does with the request it has found. *)
Definition reply_to_sub_app (rcrm : raft_client_rpc_msg) (k : user_id) : M unit :=
  let! sa := sa_get k in
  let rcrh := rcsa_rh sa in
  if rcrh_initializing rcrh || negb (rcrm_msg_id rcrm =? raft_client_sub_app_2_msg_id sa)
  then raft_client_sub_app_put k
  else if rcrh_ready rcrh then raft_client_sub_app_put k
  else
    fatal_if (rcrh_completing rcrh) ;;;
    (if rcrh_cancel rcrh then ret tt else reply_complete k rcrm) ;;;
    raft_client_sub_app_put k.

Definition raft_client_reply_try_complete (rcrm : raft_client_rpc_msg) : M unit :=
  let '(rc, k) := rci_obj_id_cb (rcrm_data rcrm) (rcrm_data_size rcrm) in
  if negb (rc =? 0) then ret tt
  else
    let! found := raft_client_sub_app_lookup k in
    if negb found then ret tt else reply_to_sub_app rcrm k.

Definition raft_client_recv_handler_process_reply (rcrm : raft_client_rpc_msg)
    (sender_csn : uuid) : M unit :=
  let! bypass := FAULT_INJECT raft_client_recv_handler_process_reply_bypass in
  if bypass then ret tt
  else
    let! leader := ri_get ri_csn_leader in
    if negb (bool_decide (leader = Some sender_csn)) then ret tt
    else if negb (rcrm_sys_error rcrm =? 0) then ret tt
    else
      let! now := env_get env_realtime in
      rci_upd (fun r => r <| rci_last_request_ackd := now |>) ;;;
      raft_client_reply_try_complete rcrm.

(** [rcrm] is the receive buffer as a message: its data are all the bytes of the
    buffer that follow the header, received now or left from earlier messages.
    [addr_ok]: the sender's address is the configured one. *)
Definition raft_client_recv_handler (rcrm : raft_client_rpc_msg) (recv_bytes : Z)
    (addr_ok : bool) : M unit :=
  let! ri := ri_get id in
  if bool_decide (ri_csn_leader ri = None) || (recv_bytes =? 0) then ret tt
  else
    let! bypass := FAULT_INJECT raft_client_recv_handler_bypass in
    if bypass then ret tt
    else if (recv_bytes <? sizeof_raft_client_rpc_msg)
            || (recv_bytes >? raft_net_max_rpc_size (ri_store_type ri)) then ret tt
    else
      raft_client_raft_instance_to_client_instance ;;;
      let! sender := raft_net_verify_sender_server_msg (rcrm_sender_id rcrm)
                       (rcrm_raft_id rcrm) addr_ok in
      match sender with
      | None => ret tt
      | Some sender_csn =>
          raft_net_update_last_comm_time (rcrm_sender_id rcrm) false ;;;
          let! r := raft_net_comm_get_last_recv (rcrm_sender_id rcrm) in
          fatal_if (negb (r.1 =? 0)) ;;;
          rci_upd (fun rci => rci <| rci_last_msg_recvd := r.2 |>) ;;;
          match rcrm_type rcrm with
          | RAFT_CLIENT_RPC_MSG_TYPE_PING_REPLY => raft_client_process_ping_reply rcrm sender_csn
          | RAFT_CLIENT_RPC_MSG_TYPE_REDIRECT => raft_client_update_leader_from_redirect rcrm
          | RAFT_CLIENT_RPC_MSG_TYPE_REPLY =>
              if rcrm_sys_error rcrm =? 0
              then raft_client_recv_handler_process_reply rcrm sender_csn
              else ret tt
          | _ => ret tt
          end
      end.

(** ** Sending *)
Definition raft_client_rpc_launch (k : user_id) : M Z :=
  let! rh := rh_get k id in
  assert_ (negb (rcrh_sendq rh)) ;;;
  let! rc := raft_net_send_client_msgv (rcrh_rpc_request rh) (rcrh_iovs rh)
               (rcrh_send_niovs rh) in
  when (rc =? 0)
    (let! now := env_get env_realtime in
     rci_upd (fun r => r <| rci_last_request_sent := now |>) ;;;
     rh_upd k (fun h => h <| rcrh_last_send := now |>
                          <| rcrh_num_sends ::= fun n => u64 (n + 1) |>)) ;;;
  ret rc.

Definition raft_client_rpc_sendq_dequeue_head_and_send : M Z :=
  let! sendq := rci_get rci_sendq in
  match sendq with
  | [] => ret (- ENOENT)
  | k :: _ =>
      let! stale_rc := raft_client_request_send_queue_remove_prep_locked k in
      if negb (stale_rc =? 0)
      then raft_client_request_send_queue_remove_done k ;;; ret stale_rc
      else
        let! rc := raft_client_rpc_launch k in
        (if negb (rc =? 0) && negb (rc =? - EAGAIN)
         then
           rh_upd k (fun h => h <| rcrh_cancel := true |> <| rcrh_send_failed := true |>) ;;;
           raft_client_sub_app_done k rc
         else raft_client_request_send_queue_remove_done k) ;;;
        ret rc
  end.

(** while (remaining_sends): every call that does not end the loop takes a
    request from the queue, so the length of the queue plus one is enough fuel. *)
Fixpoint rpc_sender_loop (fuel : nat) (remaining_sends : Z) : M unit :=
  match fuel with
  | O => fatal
  | S fuel' =>
      if remaining_sends =? 0 then ret tt
      else
        let! rc := raft_client_rpc_sendq_dequeue_head_and_send in
        if rc =? 0
        then
          cl_upd (fun c => c <| cl_interval_rpc_cnt ::= fun n => u64 (n + 1) |>) ;;;
          rpc_sender_loop fuel' (remaining_sends - 1)
        else if rc =? - ENOENT then ret tt
        else rpc_sender_loop fuel' remaining_sends
  end.

Definition rate_per_quantum : Z :=
  raftClientRequestRatePerSec / (1000 / RAFT_CLIENT_RATE_QUANTUM_MSEC).

Definition raft_client_rpc_sender : M unit :=
  let! now := env_get env_unstable in
  let! start := cl_get cl_interval_start in
  when (u64 (timespec_2_msec now - timespec_2_msec start) >? RAFT_CLIENT_RATE_QUANTUM_MSEC)
    (cl_upd (fun c => c <| cl_interval_start := now |> <| cl_interval_rpc_cnt := 0 |>)) ;;;
  let! cnt := cl_get cl_interval_rpc_cnt in
  let remaining_rpcs_this_interval := s64 (rate_per_quantum - cnt) in
  if remaining_rpcs_this_interval <=? 0
  then rci_upd (fun r => r <| rci_requests_throttled := true |>)
  else
    let remaining_sends := Z.min RAFT_CLIENT_RPC_SENDER_MAX remaining_rpcs_this_interval in
    let! q := rci_get rci_sendq in
    rpc_sender_loop (S (length q)) remaining_sends ;;;
    let! q := rci_get rci_sendq in
    when (negb (bool_decide (q = [])))
      (rci_upd (fun r => r <| rci_requests_throttled := true |>) ;;;
       emit (OutEvp RAFT_EVP_CLIENT)).

Definition raft_client_evp_cb : M unit :=
  let! evp := raft_net_evp_get RAFT_EVP_CLIENT in
  raft_client_raft_instance_to_client_instance ;;;
  assert_ (bool_decide (is_Some evp)) ;;;
  raft_client_rpc_sender.

(** One iteration of the loop of raft_client_thread(); [events] is what the
    epoll manager runs, [wait_rc] its result.  [true]: the loop goes on. *)
Definition raft_client_thread_iteration (events : M unit) (wait_rc : Z) : M bool :=
  let! requests_throttled := rci_get rci_requests_throttled in
  rci_upd (fun r => r <| rci_requests_throttled := false |>) ;;;
  raft_client_timerfd_settime (if requests_throttled then RAFT_CLIENT_RATE_QUANTUM_MSEC / 2
                               else raftClientTimerFDExpireMS) ;;;
  events ;;;
  if (wait_rc <? 0) && negb (wait_rc =? - EINTR) then ret false
  else
    when requests_throttled
      (let! evp := raft_net_evp_get RAFT_EVP_CLIENT in
       assert_ (bool_decide (is_Some evp)) ;;;
       raft_client_rpc_sender) ;;;
    ret true.

(** ** Instances *)

Definition op_history_destroy
    (ops : raft_client_recent_op_types -> raft_client_sub_app_req_history) :
  raft_client_recent_op_types -> raft_client_sub_app_req_history :=
  fun i => (ops i) <| rcsarh_size := 0 |> <| rcsarh_sa := [] |>.

Definition raft_client_op_history_destroy (rci : raft_client_instance T) :
  raft_client_instance T := rci <| rci_recent_ops ::= op_history_destroy |>.

(** [alloc i]: whether the array for the type [i] can be allocated. *)
Fixpoint op_history_create_loop (alloc : raft_client_recent_op_types -> bool)
    (types : list raft_client_recent_op_types)
    (ops : raft_client_recent_op_types -> raft_client_sub_app_req_history) :
  Z * (raft_client_recent_op_types -> raft_client_sub_app_req_history) :=
  match types with
  | [] => (0, ops)
  | i :: types' =>
      if negb (rcsarh_size (ops i) =? 0) || negb (bool_decide (length (rcsarh_sa (ops i)) = 0%nat))
      then (- EALREADY, ops)
      else if alloc i
      then op_history_create_loop alloc types' (fun t =>
             if bool_decide (t = i)
             then {| rcsarh_size := raftClientOpHistorySize; rcsarh_cnt := 0;
                     rcsarh_sa := replicate (Z.to_nat raftClientOpHistorySize)
                       (zero_sub_app {| rncui_v0_uint64 := replicate 6 0; rncui_version := 0 |}) |}
             else ops t)
      else (- ENOMEM, op_history_destroy ops)
  end.

Definition raft_client_op_history_create (alloc : raft_client_recent_op_types -> bool)
    (rci : raft_client_instance T) : Z * raft_client_instance T :=
  let '(rc, ops) := op_history_create_loop alloc
                      [RAFT_CLIENT_RECENT_OP_TYPE_READ; RAFT_CLIENT_RECENT_OP_TYPE_WRITE;
                       RAFT_CLIENT_RECENT_OP_TYPE_PENDING] (rci_recent_ops rci) in
  (rc, rci <| rci_recent_ops := ops |>).

(** A cleared instance. *)
Definition zero_rci : raft_client_instance T := {|
  rci_sub_apps := rt_empty; rci_sendq := []; rci_last_request_sent := 0;
  rci_last_request_ackd := 0; rci_last_msg_recvd := 0; rci_sub_app_cnt := 0;
  rci_msg_id_counter := 0; rci_msg_id_prefix := 0; rci_leader_csn := None;
  rci_leader_redirect := false; rci_requests_throttled := false;
  rci_leader_alive_cnt := 0; rci_recent_ops := fun _ => zero_history |}.

(** The first free slot takes [rci_self], when it can be allocated.  The result
    is the instance, and the slots. *)
Fixpoint instance_slot_free (table : list Z) (i : Z) : option Z :=
  match table with
  | [] => None
  | x :: table' => if x =? 0 then Some i else instance_slot_free table' (i + 1)
  end.

Definition raft_client_instance_assign (calloc_ok : bool)
    (alloc : raft_client_recent_op_types -> bool) : M bool :=
  let! table := cl_get cl_instances in
  match instance_slot_free table 0 with
  | None => ret false
  | Some i =>
      if negb calloc_ok then ret false
      else
        let '(rc, rci) := raft_client_op_history_create alloc zero_rci in
        if negb (rc =? 0) then ret false
        else
          cl_upd (fun c => c <| cl_instances ::= fun l => zupd l i rci_self |>
                             <| cl_rci := rci |>) ;;;
          ret true
  end.

(** The first slot that holds the instance is cleared. *)
Fixpoint instance_slot_clear (table : list Z) : option (list Z) :=
  match table with
  | [] => None
  | x :: table' =>
      if x =? rci_self then Some (0 :: table')
      else cons x <$> instance_slot_clear table'
  end.

Definition raft_client_instance_release : M Z :=
  let! table := cl_get cl_instances in
  match instance_slot_clear table with
  | None => ret (- ENOENT)
  | Some table' =>
      cl_upd (fun c => c <| cl_instances := table' |>
                         <| cl_rci ::= raft_client_op_history_destroy |>) ;;;
      ret 0
  end.

(** [halt_rc] is the result of thread_halt_and_destroy(). *)
Definition raft_client_destroy (client_instance halt_rc : Z) : M Z :=
  if client_instance =? 0 then ret (- EINVAL)
  else
    let! rci := raft_client_instance_lookup client_instance in
    if bool_decide (rci = None) then ret (- ENODEV)
    else if negb (halt_rc =? 0) then ret halt_rc
    else raft_client_instance_release.

Definition raft_client_instance_init : M unit :=
  rci_upd (fun r => r <| rci_sub_apps := rt_empty |> <| rci_sendq := [] |>).

(** The results of the calls outside the library: ctl_svc_scan(), the
    allocations, raft_net_get_instance(), whether its [ri_client_arg] is free,
    thread_halt_and_destroy() and thread_create_watched(). *)
Record client_init_env := {
  cie_scan_rc : Z;
  cie_calloc_ok : bool;
  cie_alloc_ok : raft_client_recent_op_types -> bool;
  cie_has_ri : bool;
  cie_client_arg_free : bool;
  cie_halt_rc : Z;
  cie_thread_rc : Z;
}.

(** The return code and the instance. *)
Definition raft_client_init (raft_uuid_str raft_client_uuid_str : option bytes)
    (server_store_type : raft_instance_store_type) (ie : client_init_env) : M (Z * Z) :=
  match raft_uuid_str, raft_client_uuid_str with
  | Some raft_str, Some client_str =>
      if negb (cie_scan_rc ie =? 0) then ret (cie_scan_rc ie, 0)
      else
        let! rci := raft_client_instance_assign (cie_calloc_ok ie) (cie_alloc_ok ie) in
        if negb rci then ret (- ENOSPC, 0)
        else if negb (cie_has_ri ie)
        then raft_client_destroy rci_self (cie_halt_rc ie) ;;; ret (- ENOENT, 0)
        else
          ri_upd (fun ri => ri <| ri_raft_uuid_str := raft_str |>
                               <| ri_this_peer_uuid_str := client_str |>
                               <| ri_store_type := server_store_type |>) ;;;
          assert_ (cie_client_arg_free ie) ;;;
          raft_client_instance_init ;;;
          fatal_if (negb (cie_thread_rc ie =? 0)) ;;;
          ret (0, rci_self)
  | _, _ => ret (- EINVAL, 0)
  end.

(** What raft_client_thread() does before its loop. *)
Definition raft_client_thread_start (startup_rc setup_rc epoll_rc seed : Z) : M unit :=
  fatal_if (negb (startup_rc =? 0)) ;;;
  let! rc := raft_net_evp_add setup_rc epoll_rc RAFT_EVP_CLIENT in
  fatal_if (negb (rc =? RAFT_CLIENT_EVP_IDX)) ;;;
  raft_client_msg_internals_init seed.

(** The leader's uuid and the number of its replies, and whether it is viable. *)
Definition raft_client_get_leader_info (client_instance : Z) :
  M (Z * option (uuid * Z * bool)) :=
  let! rci := raft_client_instance_lookup client_instance in
  if bool_decide (rci = None) then ret (- EINVAL, None)
  else
    let! leader := ri_get ri_csn_leader in
    match leader with
    | None => ret (- ENOENT, None)
    | Some csn =>
        let! cnt := rci_get rci_leader_alive_cnt in
        let! viable := raft_client_leader_is_viable in
        ret (0, Some (csn, cnt, viable))
    end.

Definition raft_client_get_leader_uuid (client_instance : Z) : M (option uuid) :=
  let! rci := raft_client_instance_lookup client_instance in
  if bool_decide (rci = None) then ret None else ri_get ri_csn_leader.

(** The default timeout: it can be set and read, and is used by nothing else. *)
Definition raft_client_set_default_request_timeout (timeout cur : Z) : Z :=
  if negb (timeout =? 0) then timeout else cur.
End client.
