(* ===== verification/RcSpec.v ===== *)
(** Reasoning about the client library: what the functions of [RaftClient] do
    to one request.  [moved] is the change of one entry of the request table and
    its effects; the rules below derive it for a function from its body, showing
    at the same time that no assertion fails and no freed request is used. *)
From stdpp Require Import base tactics list gmap.
From Stdlib Require Import ZArith Lia Strings.Byte.
From S2P Require Import Prelude RaftTypes World Net Entry RcTypes RaftClient.
Local Open Scope Z_scope.
Local Open Scope raft_scope.

Section spec.
Context `{NC : NiovaCore} {OKC : NiovaCoreOk NC} {IO : NiovaIo} {OKIO : NiovaIoOk IO}
  {APP : RaftClientApp} {B T : Type}
  {RT : RefTree raft_net_client_user_id raft_client_sub_app T} {OKT : RefTreeOk RT}.
Local Abbreviation user_id := raft_net_client_user_id.
Local Abbreviation W := (world B (client_ctx T)).
Local Abbreviation M := (M W).
Local Abbreviation entry := (option (raft_client_sub_app * Z)).

(** ** The request table of a state *)
Definition rci_of (w : W) : raft_client_instance T := cl_rci (w_app w).
Definition el (w : W) (k : user_id) : entry := rt_elem k (rci_sub_apps (rci_of w)).
Definition sendq_of (w : W) : list user_id := rci_sendq (rci_of w).
Definition cnt_of (w : W) : Z := rci_sub_app_cnt (rci_of w).
Definition effects_of (w : W) : list client_effect := cl_effects (w_app w).

Definition present (o : entry) : Z := match o with Some _ => 1 | None => 0 end.

(** The raft instance of a client: it is configured, and the leader it knows is
    a member. *)
Record ri_ok (ri : raft_instance) : Prop := {
  ri_ok_members : 0 < num_members ri <= CTL_SVC_MAX_RAFT_PEERS;
  ri_ok_send : length (ri_last_send ri) = length (ri_csn_raft_peers ri);
  ri_ok_recv : length (ri_last_recv ri) = length (ri_csn_raft_peers ri);
  ri_ok_client : ri_state ri = RAFT_STATE_CLIENT;
  ri_ok_evp : RAFT_EVP_CLIENT ∈ ri_evps ri;
  ri_ok_leader u : ri_csn_leader ri = Some u -> u ∈ ri_csn_raft_peers ri;
}.

(** What a handler does beside its change of the request table. *)
Record calm (w w' : W) : Prop := {
  calm_ri : ri_ok (w_ri w) -> ri_ok (w_ri w');
  calm_real : env_realtime (w_env w') = env_realtime (w_env w);
  calm_unstable : env_unstable (w_env w') = env_unstable (w_env w);
  calm_table : cl_instances (w_app w') = cl_instances (w_app w);
  calm_ops t : rcsarh_size (rci_recent_ops (rci_of w') t) = rcsarh_size (rci_recent_ops (rci_of w) t);
}.
#[export] Instance calm_preorder : PreOrder calm.
Proof.
  split.
  - intros w. by split.
  - intros w1 w2 w3 [] []. split; try congruence; auto.
Qed.

(** Entry [k] becomes [o], the send queue [q], and [l] is appended to the effects. *)
Record moved (k : user_id) (o : entry) (q : list user_id) (l : list client_effect)
    (w w' : W) : Prop := {
  mv_calm : calm w w';
  mv_el : el w' k = o;
  mv_other k' : k' <> k -> el w' k' = el w k';
  mv_sendq : sendq_of w' = q;
  mv_cnt : cnt_of w' = cnt_of w + present o - present (el w k);
  mv_effects : effects_of w' = effects_of w ++ l;
}.

Lemma moved_refl k w : moved k (el w k) (sendq_of w) [] w w.
Proof. split; try done; [lia | by rewrite app_nil_r]. Qed.

Lemma moved_trans k o1 q1 l1 o2 q2 l2 w w1 w2 :
  moved k o1 q1 l1 w w1 -> moved k o2 q2 l2 w1 w2 -> moved k o2 q2 (l1 ++ l2) w w2.
Proof.
  intros H1 H2. split.
  - transitivity w1; [apply H1 | apply H2].
  - apply H2.
  - intros k' Hk. rewrite (mv_other _ _ _ _ _ _ H2), (mv_other _ _ _ _ _ _ H1) by done. done.
  - apply H2.
  - rewrite (mv_cnt _ _ _ _ _ _ H2), (mv_cnt _ _ _ _ _ _ H1), (mv_el _ _ _ _ _ _ H1). lia.
  - by rewrite (mv_effects _ _ _ _ _ _ H2), (mv_effects _ _ _ _ _ _ H1), app_assoc.
Qed.

(** ** Runs that succeed *)
Definition moves {X} (m : M X) (k : user_id) (w : W) (a : X) (o : entry)
    (q : list user_id) (l : list client_effect) : Prop :=
  exists w', m w = Some (a, w') /\ moved k o q l w w'.

Lemma moves_ret {X} k w (a : X) : moves (ret a) k w a (el w k) (sendq_of w) [].
Proof. exists w. split; [done | apply moved_refl]. Qed.

Lemma moves_bind {X Y} (m : M X) (f : X -> M Y) k w a b o q l o' q' l' :
  moves m k w a o q l ->
  (forall w1, moved k o q l w w1 -> moves (f a) k w1 b o' q' l') ->
  moves (bind m f) k w b o' q' (l ++ l').
Proof.
  intros (w1 & Hm & H1) Hf. destruct (Hf w1 H1) as (w2 & Hf2 & H2).
  exists w2. split; [by rewrite (bind_eq _ _ _ _ _ Hm) | by eapply moved_trans].
Qed.

(** The same, when the state reached is known. *)
Lemma moves_cut_effects {X Y} (m : M X) (f : X -> M Y) k w a w1 b o q l o' q' l' :
  m w = Some (a, w1) -> moved k o q l w w1 -> moves (f a) k w1 b o' q' l' ->
  moves (bind m f) k w b o' q' (l ++ l').
Proof.
  intros Hm H1 (w2 & Hf & H2). exists w2. split; [by rewrite (bind_eq _ _ _ _ _ Hm)|].
  by eapply moved_trans.
Qed.
Lemma moves_cut {X Y} (m : M X) (f : X -> M Y) k w a w1 b o q o' q' l' :
  m w = Some (a, w1) -> moved k o q [] w w1 -> moves (f a) k w1 b o' q' l' ->
  moves (bind m f) k w b o' q' l'.
Proof. intros Hm H1 Hf. change l' with ([] ++ l'). by eapply moves_cut_effects. Qed.

(** ** The primitive operations *)
Lemma moves_eq {X} (m m' : M X) k w a o q l :
  m w = m' w -> moves m' k w a o q l -> moves m k w a o q l.
Proof. intros He (w' & H & Hm). exists w'. by rewrite He. Qed.

Lemma moves_bind_eq {X Y} (m : M X) (f : X -> M Y) k w x w0 a o q l :
  m w = Some (x, w0) -> w0 = w -> moves (f x) k w a o q l -> moves (bind m f) k w a o q l.
Proof. intros Hm -> Hf. eapply moves_eq; [|done]. by apply bind_eq. Qed.

Lemma sa_get_eq k w v n : el w k = Some (v, n) -> sa_get k w = Some (v, w).
Proof.
  intros He. unfold sa_get, rci_get, cl_get. erewrite bind_eq by reflexivity.
  fold (rci_of w). unfold el in He. by rewrite He.
Qed.
Lemma rh_get_eq {X} k (f : raft_client_request_handle -> X) w v n :
  el w k = Some (v, n) -> rh_get k f w = Some (f (rcsa_rh v), w).
Proof. intros He. unfold rh_get. by rewrite (bind_eq _ _ _ _ _ (sa_get_eq _ _ _ _ He)). Qed.

(** A change of the tree and the queue alone. *)
Lemma moves_table k w o q t :
  rt_elem k t = o -> (forall k', k' <> k -> rt_elem k' t = el w k') ->
  present o = present (el w k) ->
  moved k o q [] w (w <| w_app ::= fun c => c <| cl_rci ::= fun r =>
    r <| rci_sub_apps := t |> <| rci_sendq := q |> |> |>).
Proof.
  intros Ho Hk Hp. split; try done.
  - unfold cnt_of, rci_of. simpl. lia.
  - unfold effects_of. simpl. by rewrite app_nil_r.
Qed.

Lemma rh_upd_moves k f w v n :
  el w k = Some (v, n) ->
  moves (rh_upd k f) k w tt (Some (v <| rcsa_rh ::= f |>, n)) (sendq_of w) [].
Proof.
  intros He. eexists. split.
  { unfold rh_upd. rewrite (bind_eq _ _ _ _ _ (sa_get_eq _ _ _ _ He)). reflexivity. }
  destruct (rt_store_ok k (v <| rcsa_rh ::= f |>) (rci_sub_apps (rci_of w))) as [Hk Ho].
  { fold (el w k). rewrite He. by eexists. }
  refine (moves_table k w _ (sendq_of w) _ _ Ho _).
  - rewrite Hk. fold (el w k). by rewrite He.
  - by rewrite He.
Qed.

Lemma ref_get_moves k w v n :
  el w k = Some (v, n) ->
  moves (rci_upd (fun r => r <| rci_sub_apps ::= REF_TREE_REF_GET_ELEM_LOCKED k |>)) k w tt
    (Some (v, n + 1)) (sendq_of w) [].
Proof.
  intros He. eexists. split; [reflexivity|].
  destruct (rt_ref_get_ok k (rci_sub_apps (rci_of w))) as [Hk Ho].
  { fold (el w k). rewrite He. by eexists. }
  refine (moves_table k w _ (sendq_of w) _ _ Ho _).
  - rewrite Hk. fold (el w k). by rewrite He.
  - by rewrite He.
Qed.

Lemma sendq_upd_moves k f w :
  moves (rci_upd (fun r => r <| rci_sendq ::= f |>)) k w tt (el w k) (f (sendq_of w)) [].
Proof.
  eexists. split; [reflexivity|].
  by refine (moves_table k w _ _ (rci_sub_apps (rci_of w)) eq_refl _ _).
Qed.

Lemma lookup_moves k w v n :
  el w k = Some (v, n) ->
  moves (raft_client_sub_app_lookup k) k w true (Some (v, n + 1)) (sendq_of w) [].
Proof.
  intros He. pose proof (rt_lookup_ok k (rci_sub_apps (rci_of w))) as Hl.
  fold (el w k) in Hl. rewrite He in Hl. destruct Hl as (Hf & Hk & Ho).
  eexists. split.
  { unfold raft_client_sub_app_lookup, rci_get, cl_get. erewrite bind_eq by reflexivity.
    erewrite bind_eq by reflexivity. fold (rci_of w). rewrite Hf. reflexivity. }
  refine (moves_table k w _ (sendq_of w) _ _ Ho _).
  - rewrite Hk. fold (el w k). by rewrite He.
  - by rewrite He.
Qed.

(** ** The end of a request *)

(** The effect of the destructor. *)
Definition completion (sa : raft_client_sub_app) : client_effect :=
  let h := rcsa_rh sa in
  let err := - Z.abs (rcrh_error h) in
  Completed (rcsa_rncui sa)
    (match rcrh_async_cb h with
     | Some f => Some (f, rcrh_arg h,
                       if negb (rcrh_error h =? 0) then err else s64 (rcrh_reply_used_size h),
                       iov_base <$> znth (rcrh_iovs h) (rcrh_send_niovs h + 1))
     | None => None
     end)
    (if rcrh_blocking h then Some err else None).

(** What every request in the tree satisfies at all times. *)
Record sa_base (k : user_id) (sa : raft_client_sub_app) : Prop := {
  sb_key : rcsa_rncui sa = k;
  sb_cb_exec : rcrh_cb_exec (rcsa_rh sa) = false;
  sb_history : rcrh_history_cache (rcsa_rh sa) = false;
  sb_notifier : rcrh_blocking (rcsa_rh sa) = true ->
    rcrh_completion_notifier (rcsa_rh sa) = Some 1;
}.

Definition cnt_ok (w : W) : Prop := 1 <= cnt_of w < 2 ^ 31.

Lemma s32_small z : - 2 ^ 31 <= z < 2 ^ 31 -> s32 z = z.
Proof. intros. unfold s32. rewrite Z.mod_small; lia. Qed.

Definition put_effects (sa : raft_client_sub_app) (n : Z) : list client_effect :=
  if n =? 1 then [completion sa] else [].

Lemma put_moves k w v n :
  el w k = Some (v, n) -> sa_base k v -> cnt_ok w ->
  moves (raft_client_sub_app_put k) k w tt (ref_put (Some (v, n))) (sendq_of w) (put_effects v n).
Proof.
  intros He [Hkey Hcb _ Hnot] Hcnt. unfold cnt_ok in Hcnt.
  destruct (rt_put_ok k (rci_sub_apps (rci_of w)) v n He) as (Hf & Hk & Ho).
  fold (el w k) in Hk. rewrite He in Hk. simpl in Hk.
  unfold moves, raft_client_sub_app_put, rci_get, cl_get. fold (rci_of w).
  rewrite (bind_eq _ _ _ _ w eq_refl). erewrite bind_eq by reflexivity. fold (rci_of w).
  rewrite Hf. unfold put_effects. simpl. destruct (n =? 1).
  - unfold raft_client_sub_app_destruct. rewrite Hcb.
    erewrite bind_eq by reflexivity.
    replace (negb (rcrh_blocking (rcsa_rh v)) || _) with true.
    2: { destruct (rcrh_blocking (rcsa_rh v)) eqn:Eb; [|done]. rewrite Hnot by done.
         rewrite bool_decide_eq_true_2 by done. simpl.
         by destruct (Z.eqb_spec (- Z.abs (rcrh_error (rcsa_rh v))) 1); [lia|]. }
    erewrite bind_eq by reflexivity. erewrite bind_eq by reflexivity.
    unfold raft_client_sub_app_total_dec. erewrite bind_eq by reflexivity.
    unfold rci_get, cl_get. erewrite bind_eq by reflexivity.
    simpl. fold (rci_of w). fold (cnt_of w). rewrite s32_small by lia.
    replace (0 <=? cnt_of w - 1) with true by lia.
    eexists. split; [reflexivity|].
    split; try done.
    + rewrite He. unfold cnt_of at 1, rci_of. simpl. lia.
  - eexists. split; [reflexivity|].
    refine (moves_table k w _ (sendq_of w) _ Hk Ho _). by rewrite He.
Qed.

Definition ops_ok (w : W) : Prop := forall t, rcsarh_size (rci_recent_ops (rci_of w) t) <> 0.

Lemma calm_ops_ok w w' : calm w w' -> ops_ok w -> ops_ok w'.
Proof. intros Hc Ho t. rewrite (calm_ops _ _ Hc). apply Ho. Qed.

Lemma moved_ops_ok k o q l w w' : moved k o q l w w' -> ops_ok w -> ops_ok w'.
Proof. intros H. apply calm_ops_ok, H. Qed.
Lemma moved_cnt_ok k o q l w w' :
  moved k o q l w w' -> present o = present (el w k) -> cnt_ok w -> cnt_ok w'.
Proof. intros H Hp. unfold cnt_ok. rewrite (mv_cnt _ _ _ _ _ _ H). lia. Qed.

(** An update of fields that the request table does not have. *)
Lemma moved_other k f w :
  (forall r, rci_sub_apps (f r) = rci_sub_apps r) -> (forall r, rci_sendq (f r) = rci_sendq r) ->
  (forall r, rci_sub_app_cnt (f r) = rci_sub_app_cnt r) ->
  (forall r t, rcsarh_size (rci_recent_ops (f r) t) = rcsarh_size (rci_recent_ops r t)) ->
  moved k (el w k) (sendq_of w) [] w (w <| w_app ::= fun c => c <| cl_rci ::= f |> |>).
Proof.
  intros H1 H2 H3 H4. split; unfold el, sendq_of, cnt_of, effects_of, rci_of; simpl; try done.
  - split; unfold rci_of; simpl; auto.
  - by rewrite H1.
  - intros. by rewrite H1.
  - rewrite H3. lia.
  - by rewrite app_nil_r.
Qed.

Lemma add_item_moves ty k w v n :
  el w k = Some (v, n) -> rcrh_history_cache (rcsa_rh v) = false -> ops_ok w ->
  moves (raft_client_op_history_add_item ty k) k w tt (Some (v, n)) (sendq_of w) [].
Proof.
  intros He Hh Hops. unfold raft_client_op_history_add_item.
  eapply moves_bind_eq; [by apply (sa_get_eq _ _ _ _ He) | done|]. rewrite Hh.
  eapply moves_bind_eq; [reflexivity..|]. eapply moves_bind_eq; [reflexivity..|].
  fold (rci_of w). destruct (Z.eqb_spec (rcsarh_size (rci_recent_ops (rci_of w) ty)) 0) as [E|_].
  { by destruct (Hops ty). }
  eapply moves_bind_eq; [reflexivity..|].
  rewrite <- He. eexists. split; [reflexivity|]. apply moved_other; try done.
  intros r t. simpl. by case_bool_decide.
Qed.

Definition sa_finish (error : Z) (sa : raft_client_sub_app) : raft_client_sub_app :=
  if rcrh_cancel (rcsa_rh sa)
  then sa <| rcsa_rh ::= fun h => h <| rcrh_error := s16 error |> |>
  else sa <| rcsa_rh ::= fun h => h <| rcrh_error := s16 error |>
                                  <| rcrh_completing := false |> <| rcrh_ready := true |> |>.

Lemma sa_base_rh k v f :
  sa_base k v -> (forall h, rcrh_cb_exec (f h) = rcrh_cb_exec h) ->
  (forall h, rcrh_history_cache (f h) = rcrh_history_cache h) ->
  (forall h, rcrh_blocking (f h) = rcrh_blocking h) ->
  (forall h, rcrh_completion_notifier (f h) = rcrh_completion_notifier h) ->
  sa_base k (v <| rcsa_rh ::= f |>).
Proof.
  intros [] H1 H2 H3 H4. split; simpl; rewrite ?H1, ?H2, ?H3, ?H4; done.
Qed.
Lemma sa_base_finish k v error : sa_base k v -> sa_base k (sa_finish error v).
Proof. intros H. unfold sa_finish. destruct (rcrh_cancel _); by apply sa_base_rh. Qed.

(** Sequencing, when the first action has no effect to report. *)
Lemma moves_step {X Y} (m : M X) (f : X -> M Y) k w a b o q o' q' l' :
  moves m k w a o q [] ->
  (forall w1, moved k o q [] w w1 -> el w1 k = o -> sendq_of w1 = q ->
     moves (f a) k w1 b o' q' l') ->
  moves (bind m f) k w b o' q' l'.
Proof.
  intros Hm Hf. change l' with ([] ++ l'). eapply moves_bind; [done|].
  intros w1 H1. apply Hf; [done | apply H1 | apply H1].
Qed.
Lemma moves_conv {X} (m : M X) k w a o q l o' q' l' :
  moves m k w a o q l -> o = o' -> q = q' -> l = l' -> moves m k w a o' q' l'.
Proof. by intros ? -> -> ->. Qed.

Record done_pre (k : user_id) (w : W) (v : raft_client_sub_app) : Prop := {
  dp_base : sa_base k v;
  dp_cnt : cnt_ok w;
  dp_ops : ops_ok w;
}.
Lemma done_pre_moved k o q w w1 v v' :
  done_pre k w v -> moved k o q [] w w1 -> present o = present (el w k) -> sa_base k v' ->
  done_pre k w1 v'.
Proof.
  intros [_ Hc Ho] Hm Hp Hb. split; [done | by eapply moved_cnt_ok | by eapply moved_ops_ok].
Qed.

Lemma done_moves k error w v n :
  el w k = Some (v, n) -> done_pre k w v ->
  rcrh_ready (rcsa_rh v) = false ->
  rcrh_completing (rcsa_rh v) = negb (rcrh_cancel (rcsa_rh v)) ->
  moves (raft_client_sub_app_done k error) k w tt
    (ref_put (Some (sa_finish error v, n))) (sendq_of w) (put_effects (sa_finish error v) n).
Proof.
  intros He Hpre Hr Hc. pose proof (dp_base _ _ _ Hpre) as Hb.
  unfold raft_client_sub_app_done.
  eapply moves_bind_eq; [by apply (rh_get_eq _ _ _ _ _ He) | done|].
  unfold id. rewrite (sb_cb_exec _ _ Hb), Hr. simpl.
  eapply moves_bind_eq; [reflexivity..|].
  eapply moves_step; [by apply (rh_upd_moves _ _ _ _ _ He)|]. intros w1 H1 He1 Hq1.
  set (v1 := v <| rcsa_rh ::= _ |>) in *.
  assert (sa_base k v1) as Hb1 by by apply sa_base_rh.
  assert (done_pre k w1 v1) as Hpre1 by (eapply done_pre_moved; [done..| by rewrite He | done]).
  eapply (moves_step _ _ _ _ tt _ (Some (sa_finish error v, n)) (sendq_of w)).
  { unfold sa_finish. destruct (rcrh_cancel (rcsa_rh v)); rewrite Hc; simpl.
    - eapply moves_conv; [apply moves_ret | done..].
    - eapply moves_bind_eq; [reflexivity..|].
      eapply moves_conv; [by apply (rh_upd_moves _ _ _ _ _ He1) | done..]. }
  intros w2 H2 He2 Hq2.
  assert (done_pre k w2 (sa_finish error v)) as Hpre2.
  { eapply done_pre_moved; [apply Hpre1 | done | by rewrite He1 | by apply sa_base_finish]. }
  eapply moves_step.
  { apply (add_item_moves _ _ _ _ _ He2); [apply Hpre2 | apply Hpre2]. }
  intros w3 H3 He3 Hq3.
  eapply moves_conv; [apply (put_moves _ _ _ _ He3) | done | congruence | done].
  - apply Hpre2.
  - eapply moved_cnt_ok; [done | by rewrite He2 | apply Hpre2].
Qed.

Definition sa_cancel (error : Z) (sa : raft_client_sub_app) : raft_client_sub_app :=
  sa_finish error (sa <| rcsa_rh ::= fun h => h <| rcrh_cancel := true |> |>).

Lemma cancel_moves k error w v n :
  el w k = Some (v, n) -> done_pre k w v ->
  rcrh_ready (rcsa_rh v) = false -> rcrh_completing (rcsa_rh v) = false ->
  moves (raft_client_sub_app_cancel_pending_req k error) k w (- ECANCELED)
    (ref_put (Some (sa_cancel error v, n))) (sendq_of w) (put_effects (sa_cancel error v) n).
Proof.
  intros He Hpre Hr Hc. unfold raft_client_sub_app_cancel_pending_req.
  eapply moves_bind_eq; [by apply (rh_get_eq _ _ _ _ _ He) | done|].
  unfold id. rewrite Hr, Hc. simpl.
  eapply moves_step; [by apply (rh_upd_moves _ _ _ _ _ He)|]. intros w1 H1 He1 Hq1.
  rewrite <- (app_nil_r (put_effects _ n)).
  eapply moves_bind.
  - eapply moves_conv; [apply (done_moves _ error _ _ _ He1) | done | done | done].
    + eapply done_pre_moved; [apply Hpre | done | by rewrite He | ].
      apply sa_base_rh; try done. apply Hpre.
    + done.
    + simpl. by rewrite Hc.
  - intros w2 H2. eapply moves_conv; [apply moves_ret | apply H2 | | done].
    rewrite (mv_sendq _ _ _ _ _ _ H2). done.
Qed.

(** ** The send queue *)
Definition set_sendq (b : bool) (sa : raft_client_sub_app) : raft_client_sub_app :=
  sa <| rcsa_rh ::= fun h => h <| rcrh_sendq := b |> |>.

Lemma sendq_add_moves k w v n :
  el w k = Some (v, n) -> rcrh_sendq (rcsa_rh v) = false ->
  rcrh_initializing (rcsa_rh v) = false ->
  moves (raft_client_request_send_queue_add_locked k) k w tt
    (Some (set_sendq true v, n + 1)) (sendq_of w ++ [k]) [].
Proof.
  intros He Hq Hi. unfold raft_client_request_send_queue_add_locked.
  eapply moves_bind_eq; [by apply (rh_get_eq _ _ _ _ _ He) | done|].
  unfold id. rewrite Hq, Hi. eapply moves_bind_eq; [reflexivity..|].
  eapply moves_step; [by apply (rh_upd_moves _ _ _ _ _ He)|]. intros w1 H1 He1 Hq1.
  eapply moves_step; [by apply (ref_get_moves _ _ _ _ He1)|]. intros w2 H2 He2 Hq2.
  eapply moves_conv; [apply sendq_upd_moves | done | by rewrite Hq2, Hq1 | done].
Qed.

Lemma sendq_prep_moves k w v n :
  el w k = Some (v, n) -> rcrh_sendq (rcsa_rh v) = true ->
  moves (raft_client_request_send_queue_remove_prep_locked k) k w
    (if rcrh_cancel (rcsa_rh v) || rcrh_ready (rcsa_rh v) || rcrh_completing (rcsa_rh v)
     then - ESTALE else 0)
    (Some (set_sendq false v, n)) (stailq_remove k (sendq_of w)) [].
Proof.
  intros He Hq. unfold raft_client_request_send_queue_remove_prep_locked.
  eapply moves_bind_eq; [by apply (rh_get_eq _ _ _ _ _ He) | done|].
  unfold id. rewrite Hq. eapply moves_bind_eq; [reflexivity..|].
  eapply moves_step; [by apply sendq_upd_moves|]. intros w1 H1 He1 Hq1.
  rewrite He in He1.
  eapply moves_step; [by apply (rh_upd_moves _ _ _ _ _ He1)|]. intros w2 H2 He2 Hq2.
  eapply moves_conv; [apply moves_ret | done | congruence | done].
Qed.

Lemma sendq_done_moves k w v n :
  el w k = Some (v, n) -> rcrh_sendq (rcsa_rh v) = false -> sa_base k v -> cnt_ok w ->
  moves (raft_client_request_send_queue_remove_done k) k w tt
    (ref_put (Some (v, n))) (sendq_of w) (put_effects v n).
Proof.
  intros He Hq Hb Hc. unfold raft_client_request_send_queue_remove_done.
  eapply moves_bind_eq; [by apply (rh_get_eq _ _ _ _ _ He) | done|].
  rewrite Hq. eapply moves_bind_eq; [reflexivity..|]. by apply put_moves.
Qed.
End spec.
