(* ===== verification/RcNetSpec.v ===== *)
(** The parts of the client library that talk to the servers and choose the
    leader: they run to the end on a configured instance, keep it configured and
    leave the request table alone. *)
From stdpp Require Import base tactics list gmap.
From Stdlib Require Import ZArith Lia Strings.Byte.
From S2P Require Import Prelude RaftTypes World Net Entry RcTypes RaftClient RcSpec.
Local Open Scope Z_scope.
Local Open Scope raft_scope.

Section net_spec.
Context `{NC : NiovaCore} {OKC : NiovaCoreOk NC} {IO : NiovaIo} {OKIO : NiovaIoOk IO}
  {APP : RaftClientApp} {B T : Type}
  {RT : RefTree raft_net_client_user_id raft_client_sub_app T} {OKT : RefTreeOk RT}.
Local Abbreviation user_id := raft_net_client_user_id.
Local Abbreviation W := (world B (client_ctx T)).
Local Abbreviation M := (M W).

(** The request table is untouched. *)
Record silent (w w' : W) : Prop := {
  si_calm : calm w w';
  si_tree : rci_sub_apps (rci_of w') = rci_sub_apps (rci_of w);
  si_sendq : sendq_of w' = sendq_of w;
  si_cnt : cnt_of w' = cnt_of w;
  si_effects : effects_of w' = effects_of w;
}.
#[export] Instance silent_preorder : PreOrder silent.
Proof.
  split.
  - intros w. by split.
  - intros w1 w2 w3 [] []. split; [by etransitivity | congruence..].
Qed.
Lemma silent_el w w' k : silent w w' -> el w' k = el w k.
Proof. intros H. unfold el. by rewrite (si_tree _ _ H). Qed.
Lemma silent_moved k w w' : silent w w' -> moved k (el w k) (sendq_of w) [] w w'.
Proof.
  intros H. split; try apply H.
  - by apply silent_el.
  - intros. by apply silent_el.
  - rewrite (si_cnt _ _ H). lia.
  - by rewrite (si_effects _ _ H), app_nil_r.
Qed.

Definition quiet {X} (m : M X) (w : W) (P : X -> Prop) : Prop :=
  exists a w', m w = Some (a, w') /\ silent w w' /\ P a.

Lemma quiet_ret {X} (a : X) w (P : X -> Prop) : P a -> quiet (ret a) w P.
Proof. intros H. by exists a, w. Qed.
Lemma quiet_bind {X Y} (m : M X) (f : X -> M Y) w P Q :
  quiet m w P -> (forall a w1, silent w w1 -> P a -> quiet (f a) w1 Q) -> quiet (bind m f) w Q.
Proof.
  intros (a & w1 & Hm & H1 & Ha) Hf. destruct (Hf a w1 H1 Ha) as (b & w2 & Hf2 & H2 & Hb).
  exists b, w2. split; [by rewrite (bind_eq _ _ _ _ _ Hm)|]. split; [by transitivity w1 | done].
Qed.
Lemma quiet_moves {X Y} (m : M X) (f : X -> M Y) k w (P : X -> Prop) b o q l :
  quiet m w P ->
  (forall a w1, silent w w1 -> P a -> moves (f a) k w1 b o q l) ->
  moves (bind m f) k w b o q l.
Proof.
  intros (a & w1 & Hm & H1 & Ha) Hf. destruct (Hf a w1 H1 Ha) as (w2 & Hf2 & H2).
  exists w2. split; [by rewrite (bind_eq _ _ _ _ _ Hm)|].
  change l with ([] ++ l). eapply moved_trans; [by apply silent_moved | done].
Qed.

(** An update of the raft instance that keeps it configured. *)
Lemma quiet_ri_upd f w :
  (ri_ok (w_ri w) -> ri_ok (f (w_ri w))) -> quiet (ri_upd f) w (fun _ => True).
Proof.
  intros Hf. eexists tt, _. split; [reflexivity|]. split; [|done].
  by split; try done; split.
Qed.
Lemma quiet_emit o w : quiet (emit o : M unit) w (fun _ => True).
Proof. eexists tt, _. split; [reflexivity|]. split; [|done]. by split; try done; split. Qed.

(** ** Reads *)
Lemma peer_2_idx_eq u (w : W) :
  ri_ok (w_ri w) -> raft_peer_2_idx u w = Some (peer_idx_of (w_ri w) u, w).
Proof.
  intros Hri. unfold raft_peer_2_idx, ri_get. erewrite bind_eq by reflexivity.
  replace (num_members (w_ri w) <=? CTL_SVC_MAX_RAFT_PEERS) with true; [reflexivity|].
  destruct (ri_ok_members _ Hri). symmetry. by apply Z.leb_le.
Qed.

Lemma peer_idx_nonneg ri u : ri_ok ri -> 0 <= peer_idx_of ri u.
Proof.
  intros Hri. destruct (peer_idx_of_spec ri u) as [(_ & _ & ?)|(_ & -> & ?)]; [|done|].
  - apply Hri.
  - pose proof (ri_ok_members _ Hri). lia.
Qed.

Lemma member_time (l : list timespec) ri i :
  length l = length (ri_csn_raft_peers ri) -> 0 <= i < num_members ri -> is_Some (znth l i).
Proof. intros Hl Hi. apply znth_is_Some. unfold num_members in Hi. lia. Qed.

Lemma recency_eq idx ty (w : W) :
  ri_ok (w_ri w) -> 0 <= idx ->
  exists rc ms, raft_net_comm_recency idx ty w = Some ((rc, ms), w) /\
    (idx < num_members (w_ri w) -> rc = 0 \/ rc = - EALREADY).
Proof.
  intros Hri Hidx. unfold raft_net_comm_recency, ri_get. erewrite bind_eq by reflexivity.
  unfold id. destruct (Z.leb_spec (num_members (w_ri w)) idx).
  { eexists _, _. split; [reflexivity | lia]. }
  destruct (member_time (ri_last_send (w_ri w)) (w_ri w) idx) as [ts Hts]; [apply Hri | lia|].
  destruct (member_time (ri_last_recv (w_ri w)) (w_ri w) idx) as [tr Htr]; [apply Hri | lia|].
  rewrite Hts, Htr. erewrite bind_eq by reflexivity. erewrite bind_eq by reflexivity.
  destruct (timespec_2_msec ts =? 0).
  - eexists _, _. split; [reflexivity | auto].
  - erewrite bind_eq by reflexivity. eexists _, _. split; [reflexivity | auto].
Qed.

Lemma stale_eq u (w : W) : ri_ok (w_ri w) ->
  exists b, raft_client_server_target_is_stale u w = Some (b, w).
Proof.
  intros Hri. unfold raft_client_server_target_is_stale.
  rewrite (bind_eq _ _ _ _ _ (peer_2_idx_eq u w Hri)).
  destruct (recency_eq (peer_idx_of (w_ri w) u) RAFT_COMM_RECENCY_UNACKED_SEND w Hri)
    as (rc & ms & He & _); [by apply peer_idx_nonneg|].
  rewrite (bind_eq _ _ _ _ _ He). eexists. reflexivity.
Qed.
Lemma needs_ping_eq u (w : W) : ri_ok (w_ri w) ->
  exists b, raft_client_server_target_needs_ping u w = Some (b, w).
Proof.
  intros Hri. unfold raft_client_server_target_needs_ping.
  rewrite (bind_eq _ _ _ _ _ (peer_2_idx_eq u w Hri)).
  destruct (recency_eq (peer_idx_of (w_ri w) u) RAFT_COMM_RECENCY_RECV w Hri)
    as (rc & ms & He & _); [by apply peer_idx_nonneg|].
  rewrite (bind_eq _ _ _ _ _ He). eexists. reflexivity.
Qed.

Lemma viable_eq (w : W) : ri_ok (w_ri w) ->
  exists b, raft_client_leader_is_viable w = Some (b, w) /\
    (b = true -> is_Some (ri_csn_leader (w_ri w))).
Proof.
  intros Hri. unfold raft_client_leader_is_viable, rci_get, cl_get, ri_get.
  erewrite bind_eq by reflexivity. erewrite bind_eq by reflexivity. unfold id.
  destruct (rci_leader_csn (cl_rci (w_app w))) as [csn|]; [|by eexists].
  destruct ((_ >? _) && bool_decide _) eqn:E; [|by eexists].
  apply andb_true_iff in E as [_ E%bool_decide_eq_true].
  destruct (stale_eq csn w Hri) as [b Hb]. rewrite (bind_eq _ _ _ _ _ Hb).
  eexists. split; [reflexivity|]. rewrite <- E. eauto.
Qed.

(** ** Sending *)
Lemma ri_ok_times (f : raft_instance -> raft_instance) ri :
  ri_ok ri -> ri_csn_raft_peers (f ri) = ri_csn_raft_peers ri ->
  length (ri_last_send (f ri)) = length (ri_last_send ri) ->
  length (ri_last_recv (f ri)) = length (ri_last_recv ri) ->
  ri_state (f ri) = ri_state ri -> ri_evps (f ri) = ri_evps ri ->
  ri_csn_leader (f ri) = ri_csn_leader ri -> ri_ok (f ri).
Proof.
  intros [] Hp Hs Hr Hst Hev Hl. split; unfold num_members in *; try congruence.
  intros u. rewrite Hl, Hp. auto.
Qed.

Lemma comm_time_quiet u b (w : W) :
  ri_ok (w_ri w) -> quiet (raft_net_update_last_comm_time u b) w (fun _ => True).
Proof.
  intros Hri. unfold raft_net_update_last_comm_time.
  destruct (uuid_is_null u); [by apply quiet_ret|].
  unfold quiet. rewrite (bind_eq _ _ _ _ _ (peer_2_idx_eq u w Hri)).
  unfold ri_get. erewrite bind_eq by reflexivity.
  destruct (_ <=? _); [by apply quiet_ret|].
  unfold env_get. erewrite bind_eq by reflexivity.
  destruct b; apply quiet_ri_upd; intros _; apply ri_ok_times; try done; apply length_zupd.
Qed.

Lemma send_tcp_quiet csn size (w : W) :
  ri_ok (w_ri w) -> quiet (raft_net_send_tcp csn size) w (fun _ => True).
Proof.
  intros Hri. eapply quiet_bind; [by apply comm_time_quiet|].
  intros [] w1 H1 _. eexists _, w1. split; [reflexivity | done].
Qed.

Lemma when_quiet b m (w : W) : quiet m w (fun _ => True) -> quiet (when b m : M unit) w (fun _ => True).
Proof. intros H. destruct b; [done | by apply quiet_ret]. Qed.

Lemma silent_ri_ok w w' : silent w w' -> ri_ok (w_ri w) -> ri_ok (w_ri w').
Proof. intros H. apply H. Qed.

(** A client sends over TCP. *)
Lemma send_msg_quiet csn size o sock (w : W) :
  ri_ok (w_ri w) -> quiet (raft_net_send_msg csn size o sock) w (fun _ => True).
Proof.
  intros Hri. unfold raft_net_send_msg, quiet, ri_get. erewrite bind_eq by reflexivity.
  unfold id. destruct (size >? _); [by apply quiet_ret|].
  unfold env_get. erewrite bind_eq by reflexivity.
  eapply (quiet_bind _ _ _ (fun _ => True)).
  - destruct (negb _); [by apply quiet_ret|].
    replace (raft_instance_is_client (w_ri w)) with true.
    2: { unfold raft_instance_is_client. rewrite (ri_ok_client _ Hri). done. }
    eapply quiet_bind; [by apply send_tcp_quiet|]. intros rc w1 H1 _.
    eapply quiet_bind; [apply when_quiet, quiet_emit|].
    intros [] w2 H2 _. by apply quiet_ret.
  - intros rc w1 H1 _. destruct (negb _); [by apply quiet_ret|].
    eapply quiet_bind; [apply comm_time_quiet; by eapply silent_ri_ok|].
    intros [] w2 H2 _. by apply quiet_ret.
Qed.

Lemma send_client_msgv_quiet rcrm iov n (w : W) :
  ri_ok (w_ri w) -> quiet (raft_net_send_client_msgv rcrm iov n) w (fun _ => True).
Proof.
  intros Hri. unfold raft_net_send_client_msgv, quiet, ri_get. erewrite bind_eq by reflexivity.
  destruct (ri_csn_leader (w_ri w)); [|by apply quiet_ret].
  destruct (_ || _); [by apply quiet_ret | by apply send_msg_quiet].
Qed.

Lemma evp_slot_client ri : ri_ok ri -> is_Some (evp_slot (ri_evps ri) RAFT_EVP_CLIENT 0).
Proof.
  intros Hri. pose proof (ri_ok_evp _ Hri) as Hin. revert Hin. generalize 0.
  induction (ri_evps ri) as [|t l IH]; intros i Hin; [by apply elem_of_nil in Hin|].
  simpl. case_bool_decide; [by eexists|]. apply IH.
  apply elem_of_cons in Hin as [<-|]; [by destruct H | done].
Qed.

Lemma notify_quiet (w : W) :
  ri_ok (w_ri w) -> quiet (RAFT_NET_EVP_NOTIFY_NO_FAIL RAFT_EVP_CLIENT : M unit) w (fun _ => True).
Proof.
  intros Hri. unfold RAFT_NET_EVP_NOTIFY_NO_FAIL, raft_net_evp_notify.
  eapply (quiet_bind _ _ _ (fun rc => rc = 0)); [|intros rc w1 H1 ->; by apply quiet_ret].
  unfold quiet, ri_get. erewrite bind_eq by reflexivity.
  replace (raft_net_evp_type_valid (w_ri w) RAFT_EVP_CLIENT) with true.
  2: { unfold raft_net_evp_type_valid, raft_instance_is_client.
       by rewrite (ri_ok_client _ Hri). }
  unfold raft_net_evp_get, ri_get. cbv beta iota delta [negb].
  rewrite (bind_eq (gets _) _ w _ w eq_refl).
  destruct (evp_slot_client (w_ri w) Hri) as [i ->].
  eapply quiet_bind; [apply quiet_emit|]. intros [] w1 H1 _. by apply quiet_ret.
Qed.

(** ** Pings and redirects *)
Lemma assign_id_quiet (w : W) :
  quiet (raft_client_rpc_msg_assign_id : M Z) w (fun _ => True).
Proof.
  unfold raft_client_rpc_msg_assign_id, rci_get, cl_get. eexists _, _. split; [reflexivity|].
  split; [|done]. by split; try done; split.
Qed.

Lemma msg_init_quiet rcrm ty size dest tag (w : W) :
  quiet (raft_client_rpc_msg_init rcrm ty size dest tag) w
    (fun r => is_Some dest -> ty = RAFT_CLIENT_RPC_MSG_TYPE_PING -> r.1 = 0).
Proof.
  unfold raft_client_rpc_msg_init, quiet, ri_get. erewrite bind_eq by reflexivity.
  destruct dest as [d|]; [|apply quiet_ret; by intros []].
  lazymatch goal with |- context [if ?b then ret (- EOPNOTSUPP, _) else _] => destruct b eqn:E1 end.
  { apply quiet_ret. intros _ ->. done. }
  lazymatch goal with |- context [if ?b then ret (- EMSGSIZE, _) else _] => destruct b eqn:E2 end.
  { apply quiet_ret. intros _ ->. done. }
  eapply quiet_bind; [apply assign_id_quiet|]. intros i w1 H1 _. by apply quiet_ret.
Qed.

Lemma ping_quiet (w : W) :
  ri_ok (w_ri w) -> quiet (raft_client_ping_raft_service : M unit) w (fun _ => True).
Proof.
  intros Hri. unfold raft_client_ping_raft_service, quiet, ri_get.
  erewrite bind_eq by reflexivity.
  destruct (ri_csn_leader (w_ri w)) as [csn|] eqn:El; [|by apply quiet_ret].
  eapply (quiet_bind _ _ _ (fun r => r.1 = 0)).
  { unfold raft_client_rpc_ping_init, quiet, ri_get. erewrite bind_eq by reflexivity.
    rewrite El. destruct (msg_init_quiet zero_rcrm RAFT_CLIENT_RPC_MSG_TYPE_PING 0 (Some csn)
      RAFT_NET_TAG_NONE w) as (a & w1 & Hm & H1 & Ha).
    exists a, w1. split; [done|]. split; [done|]. apply Ha; [by eexists | done]. }
  intros [rc rcrm] w2 H2 Hrc. simpl in Hrc. subst rc. simpl.
  assert (ri_ok (w_ri w2)) as Hri2 by by eapply silent_ri_ok.
  eapply (quiet_bind _ _ _ (fun _ => True)); [by apply quiet_ret|]. intros [] w1 H1 _.
  assert (ri_ok (w_ri w1)) as Hri1 by by eapply silent_ri_ok.
  eapply (quiet_bind _ _ _ (fun _ => True)); [|intros rc w3 H3 _; by apply quiet_ret].
  unfold raft_net_send_client_msg, quiet, ri_get. erewrite bind_eq by reflexivity.
  destruct (ri_csn_leader (w_ri w1)); [by apply send_msg_quiet | by apply quiet_ret].
Qed.

(** The search stays among the members. *)
Lemma responsive_eq start n idxs best (w : W) :
  ri_ok (w_ri w) -> n = num_members (w_ri w) -> 0 <= best.1 < n ->
  exists best', responsive_loop start n best idxs w = Some (best', w) /\ 0 <= best'.1 < n.
Proof.
  intros Hri Hn. revert best. induction idxs as [|i idxs IH]; intros best Hb.
  { by exists best. }
  simpl. unfold responsive_step.
  assert (0 <= (i + start) mod n < n) as Hi by (apply Z.mod_pos_bound; lia).
  destruct (recency_eq ((i + start) mod n) RAFT_COMM_RECENCY_RECV w Hri) as (rc & ms & He & Hrc);
    [lia|].
  assert (exists b', (let! r := raft_net_comm_recency ((i + start) mod n) RAFT_COMM_RECENCY_RECV in
     let '(rc, since) := r in
     if rc =? - EALREADY then ret best
     else fatal_if (negb (rc =? 0)) ;;;
       if since <? best.2 then ret ((i + start) mod n, since) else ret best) w = Some (b', w)
     /\ 0 <= b'.1 < n) as (b' & Hb' & Hr').
  { rewrite (bind_eq _ _ _ _ _ He).
    destruct Hrc as [-> | ->]; [lia | simpl | simpl; by eexists].
    erewrite bind_eq by reflexivity. destruct (_ <? _); by eexists. }
  rewrite (bind_eq _ _ _ _ _ Hb'). by apply IH.
Qed.

Lemma most_responsive_eq (w : W) :
  ri_ok (w_ri w) ->
  exists tgt, raft_net_get_most_recently_responsive_server w = Some (tgt, w) /\
    0 <= tgt < num_members (w_ri w).
Proof.
  intros Hri. destruct (ri_ok_members _ Hri) as [Hn _].
  unfold raft_net_get_most_recently_responsive_server, ri_get, env_get.
  erewrite bind_eq by reflexivity. erewrite bind_eq by reflexivity.
  destruct (Z.eqb_spec (num_members (w_ri w)) 0); [lia|].
  erewrite bind_eq by reflexivity.
  destruct (responsive_eq (env_random (w_env w) mod num_members (w_ri w)) (num_members (w_ri w))
    (zrange 0 (num_members (w_ri w))) (env_random (w_env w) mod num_members (w_ri w), 0) w)
    as (b & Hb & Hr); [done | done | apply Z.mod_pos_bound; lia|].
  rewrite (bind_eq _ _ _ _ _ Hb). by eexists.
Qed.

Lemma ri_ok_set_leader ri u : ri_ok ri -> u ∈ ri_csn_raft_peers ri ->
  ri_ok (ri <| ri_csn_leader := Some u |>).
Proof. intros [] Hu. split; try done. intros v [= <-]. done. Qed.

Lemma rci_upd_quiet f (w : W) :
  (forall r, rci_sub_apps (f r) = rci_sub_apps r) -> (forall r, rci_sendq (f r) = rci_sendq r) ->
  (forall r, rci_sub_app_cnt (f r) = rci_sub_app_cnt r) ->
  (forall r, rci_recent_ops (f r) = rci_recent_ops r) ->
  quiet (rci_upd f : M unit) w (fun _ => True).
Proof.
  intros H1 H2 H3 H4. eexists tt, _. split; [reflexivity|]. split; [|done].
  split; unfold sendq_of, cnt_of, effects_of, rci_of; simpl; auto.
  split; unfold rci_of; simpl; auto. intros t. by rewrite H4.
Qed.

Lemma znth_elem {X} (l : list X) i x : znth l i = Some x -> x ∈ l.
Proof. unfold znth. case_decide; [|done]. by intros ?%list_elem_of_lookup_2. Qed.

Lemma set_ping_target_quiet (w : W) :
  ri_ok (w_ri w) -> quiet (raft_client_set_ping_target : M unit) w (fun _ => True).
Proof.
  intros Hri. unfold raft_client_set_ping_target, quiet, ri_get, rci_get, cl_get.
  erewrite bind_eq by reflexivity. erewrite bind_eq by reflexivity.
  destruct (_ && _); [by apply rci_upd_quiet|].
  assert (exists g, match ri_csn_leader (w_ri w) with
                    | Some csn => raft_client_server_target_is_stale csn
                    | None => ret true end w = Some (g, w)) as [g Hg].
  { destruct (ri_csn_leader (w_ri w)); [by apply stale_eq | by eexists]. }
  rewrite (bind_eq _ _ _ _ _ Hg). destruct g; [|by apply quiet_ret].
  destruct (most_responsive_eq w Hri) as (tgt & Ht & Hr). simpl when.
  rewrite (bind_eq _ _ _ _ _ Ht). erewrite bind_eq by reflexivity. unfold id.
  replace (tgt <? num_members (w_ri w)) with true by lia.
  erewrite bind_eq by reflexivity.
  destruct (proj2 (znth_is_Some (ri_csn_raft_peers (w_ri w)) tgt)) as [csn Hc];
    [unfold num_members in Hr; lia|].
  rewrite Hc. erewrite bind_eq by reflexivity.
  apply quiet_ri_upd. intros _. apply ri_ok_set_leader; [done | by eapply znth_elem].
Qed.

Lemma redirect_quiet u stale (w : W) :
  ri_ok (w_ri w) -> quiet (raft_net_apply_leader_redirect u stale) w (fun _ => True).
Proof.
  intros Hri. unfold raft_net_apply_leader_redirect.
  destruct (uuid_is_null u); [by apply quiet_ret|].
  unfold quiet. rewrite (bind_eq _ _ _ _ _ (peer_2_idx_eq u w Hri)).
  destruct (ri_ok_members _ Hri) as [_ Hmax].
  destruct (peer_idx_of_spec (w_ri w) u Hmax) as [(Hlt & Hz & H0)|(Hni & -> & _)].
  2: { rewrite Z.eqb_refl. by apply quiet_ret. }
  pose proof max_raft_peers_any as Hany.
  destruct (Z.eqb_spec (peer_idx_of (w_ri w) u) RAFT_PEER_ANY); [lia|].
  replace (peer_idx_of (w_ri w) u <? CTL_SVC_MAX_RAFT_PEERS) with true by lia.
  erewrite bind_eq by reflexivity. unfold ri_get. erewrite bind_eq by reflexivity.
  rewrite Hz. eapply quiet_bind.
  { apply quiet_ri_upd. intros _. apply ri_ok_set_leader; [done | by eapply znth_elem]. }
  intros [] w1 H1 _. pose proof (silent_ri_ok _ _ H1 Hri) as Hri1.
  eapply (quiet_bind _ _ _ (fun _ => True)).
  { unfold raft_net_server_target_check_by_idx.
    destruct (recency_eq (peer_idx_of (w_ri w) u) RAFT_COMM_RECENCY_UNACKED_SEND w1 Hri1 H0)
      as (rc & ms & He & _).
    unfold quiet. rewrite (bind_eq _ _ _ _ _ He). destruct (rc =? 0); by apply quiet_ret. }
  intros rc w2 H2 _. eapply quiet_bind; [|intros [] w3 H3 _; by apply quiet_ret].
  apply when_quiet, quiet_ri_upd. intros Hri2. apply ri_ok_times; try done. apply length_zupd.
Qed.

Lemma verify_sender_eq u raft ok (w : W) :
  ri_ok (w_ri w) ->
  exists o, raft_net_verify_sender_server_msg u raft ok w = Some (o, w) /\
    (is_Some o -> uuid_is_null u = false /\ peer_idx_of (w_ri w) u < num_members (w_ri w)
      /\ o = Some u /\ raft = ri_csn_raft (w_ri w) /\ ok = true).
Proof.
  intros Hri. unfold raft_net_verify_sender_server_msg.
  destruct (uuid_is_null u); [exists None; split; [done|]; by intros []|].
  rewrite (bind_eq _ _ _ _ _ (peer_2_idx_eq u w Hri)).
  unfold ri_get. erewrite bind_eq by reflexivity. unfold id.
  destruct (Z.leb_spec (num_members (w_ri w)) (peer_idx_of (w_ri w) u));
    [exists None; split; [done|]; by intros []|].
  destruct (Z.eqb_spec (ri_csn_raft (w_ri w)) raft) as [Hraft|];
    [|exists None; split; [done|]; by intros []]. simpl.
  destruct (peer_idx_of_spec (w_ri w) u) as [(_ & Hc & _)|(_ & ? & ?)]; [apply Hri | | lia].
  rewrite Hc. erewrite bind_eq by reflexivity.
  destruct ok; [|exists None; split; [done|]; by intros []]. simpl.
  unfold env_get. erewrite bind_eq by reflexivity.
  destruct (env_can_recv _ _); eexists; (split; [reflexivity|]); [done | by intros []].
Qed.

Lemma get_last_recv_eq u (w : W) :
  ri_ok (w_ri w) -> uuid_is_null u = false -> peer_idx_of (w_ri w) u < num_members (w_ri w) ->
  exists ts, raft_net_comm_get_last_recv u w = Some ((0, ts), w).
Proof.
  intros Hri Hu Hlt. unfold raft_net_comm_get_last_recv. rewrite Hu.
  rewrite (bind_eq _ _ _ _ _ (peer_2_idx_eq u w Hri)).
  unfold ri_get. erewrite bind_eq by reflexivity.
  replace (num_members (w_ri w) <=? peer_idx_of (w_ri w) u) with false by lia.
  erewrite bind_eq by reflexivity.
  destruct (member_time (ri_last_recv (w_ri w)) (w_ri w) (peer_idx_of (w_ri w) u)) as [ts Ht].
  { apply Hri. } { pose proof (peer_idx_nonneg (w_ri w) u Hri). lia. }
  rewrite Ht. erewrite bind_eq by reflexivity. by eexists.
Qed.
End net_spec.
