(* ===== verification/RcLife.v ===== *)
(** The life of a client request as a state machine, the invariant of the client
    library, and the lemmas on both by which [RcInv], [RcTimer], [RcReplyInv] and
    [RcSubmit] prove that every function of [RaftClient] moves the requests along
    that machine, never aborts and keeps the invariant. *)
From stdpp Require Import base tactics list gmap.
From Stdlib Require Import ZArith Lia Strings.Byte.
From S2P Require Import Prelude RaftTypes World Net Entry RcTypes RaftClient RcSpec RcNetSpec.
Local Open Scope Z_scope.
Local Open Scope raft_scope.

(** ** The machine

    A live request is queued for transmission or not, and finished or not (it
    has its result and waits for its last reference).  [extra] counts the
    references that nobody will put. *)
Inductive request_state :=
| Absent
| Starting
| Live (queued finished : bool) (extra : Z).

(** A step, whether it accepts a request and whether it tells the application of
    the end of one. *)
Inductive life_step : request_state -> nat -> nat -> request_state -> Prop :=
| life_add : life_step Absent 1 0 Starting
| life_refuse : life_step Starting 0 1 Absent
| life_start q : life_step Starting 0 0 (Live q false 0)
| life_queue f e : life_step (Live false f e) 0 0 (Live true f e)
| life_send e : life_step (Live true false e) 0 0 (Live false false e)
| life_send_fails e : life_step (Live true false e) 0 0 (Live false true (e + 1))
| life_finish : life_step (Live false false 0) 0 1 Absent
| life_finish_queued e : life_step (Live true false e) 0 0 (Live true true e)
| life_finish_held e : 0 < e -> life_step (Live false false e) 0 0 (Live false true e)
| life_unqueue : life_step (Live true true 0) 0 1 Absent
| life_unqueue_held e : 0 < e -> life_step (Live true true e) 0 0 (Live false true e)
| life_cancel q f e : 0 <= e -> life_step (Live q f e) 0 0 (Live q f (e + 1)).

(** A sequence of steps, with the numbers of accepted and of ended requests. *)
Inductive life : request_state -> nat -> nat -> request_state -> Prop :=
| life_refl a : life a 0 0 a
| life_trans a i n b j m c :
    life_step a i n b -> life b j m c -> life a (i + j) (n + m) c.

Lemma life_one a i n b : life_step a i n b -> life a i n b.
Proof.
  intros H. rewrite <- (Nat.add_0_r n), <- (Nat.add_0_r i).
  eapply life_trans; [done | constructor].
Qed.
Lemma life_one_eq a i n b a' n' b' :
  life_step a i n b -> a' = a -> n' = n -> b' = b -> life a' i n' b'.
Proof. intros H -> -> ->. by apply life_one. Qed.
Ltac life_by H := eapply life_one_eq; [exact H | f_equal; lia | done | f_equal; lia].
Lemma life_app a i n b j m c : life a i n b -> life b j m c -> life a (i + j) (n + m) c.
Proof.
  induction 1 as [|a i n b i' n' c' Hs _ IH]; intros Hc; [done|].
  rewrite <- !Nat.add_assoc. eapply life_trans; eauto.
Qed.

(** A leaked request stays: no step leads out of the states with extra references. *)
Lemma life_leaked q f e i n b :
  life (Live q f e) i n b -> 0 < e ->
  (i = 0 /\ n = 0)%nat /\ exists q' f' e', b = Live q' f' e' /\ e <= e'.
Proof.
  remember (Live q f e) as a eqn:E. intros H. revert q f e E.
  induction H as [a|a i n b j m c Hs _ IH]; intros q f e -> He.
  { split; [done|]. by exists q, f, e. }
  inversion Hs; subst; try lia;
    (edestruct IH as ((-> & ->) & q' & f' & e' & -> & Hle); [reflexivity | lia |];
     (split; [done|]); exists q', f', e'; (split; [done | lia])).
Qed.

(** Every accepted request is either still there or has been ended, once. *)
Definition alive (a : request_state) : nat := match a with Absent => 0 | _ => 1 end.

Lemma life_conserves a i n b : life a i n b -> (alive a + i = alive b + n)%nat.
Proof.
  induction 1 as [|a i n b j m c Hs _ IH]; [lia|].
  inversion Hs; subst; simpl in *; lia.
Qed.

(** A count of occurrences. *)
Definition occ {X} `{EqDecision X} (x : X) (l : list X) : nat := length (filter (fun y => y = x) l).
Lemma occ_app {X} `{EqDecision X} (x : X) l1 l2 : occ x (l1 ++ l2) = (occ x l1 + occ x l2)%nat.
Proof. unfold occ. by rewrite filter_app, length_app. Qed.
Lemma occ_cons_eq {X} `{EqDecision X} (x : X) l : occ x (x :: l) = S (occ x l).
Proof. unfold occ. by rewrite filter_cons_True. Qed.
Lemma occ_cons_ne {X} `{EqDecision X} (x y : X) l : y <> x -> occ x (y :: l) = occ x l.
Proof. intros. unfold occ. by rewrite filter_cons_False. Qed.

Lemma occ_none {X} `{EqDecision X} (x : X) l : x ∉ l -> occ x l = 0%nat.
Proof.
  induction l as [|y l IH]; [done|]. intros [Hy Hl]%not_elem_of_cons.
  rewrite occ_cons_ne by done. by apply IH.
Qed.

Definition effect_key (e : client_effect) : raft_net_client_user_id :=
  match e with Completed k _ _ | Copied k _ _ => k end.
Definition is_end (k : raft_net_client_user_id) (e : client_effect) : bool :=
  match e with Completed k' _ _ => bool_decide (k' = k) | Copied _ _ _ => false end.
(** How often the end of request [k] is reported. *)
Definition ends (k : raft_net_client_user_id) (l : list client_effect) : nat :=
  length (filter (fun e => is_end k e) l).
Lemma ends_app k l1 l2 : ends k (l1 ++ l2) = (ends k l1 + ends k l2)%nat.
Proof. unfold ends. by rewrite filter_app, length_app. Qed.
Lemma ends_other k l : Forall (fun e => effect_key e <> k) l -> ends k l = 0%nat.
Proof.
  induction 1 as [|e l He _ IH]; [done|]. unfold ends in *.
  rewrite filter_cons_False; [done|]. destruct e; simpl in *; [|tauto].
  by intros ?%bool_decide_unpack.
Qed.

(** Lists without duplicates that differ in [k] at most. *)
Lemma length_differ {X} `{EqDecision X} (k : X) (l l' : list X) :
  NoDup l -> NoDup l' -> (forall x, x <> k -> x ∈ l <-> x ∈ l') ->
  Z.of_nat (length l') - (if bool_decide (k ∈ l') then 1 else 0)
  = Z.of_nat (length l) - (if bool_decide (k ∈ l) then 1 else 0).
Proof.
  intros Hl Hl' Hx.
  assert (forall m : list X, NoDup m -> Z.of_nat (length m) - (if bool_decide (k ∈ m) then 1 else 0)
          = Z.of_nat (length (filter (fun x => x <> k) m))) as Hm.
  { intros m. induction 1 as [|x m Hni _ IH]; [done|].
    rewrite filter_cons. destruct (decide (x = k)) as [->|Hne].
    - rewrite decide_False by auto. rewrite bool_decide_eq_true_2 by apply list_elem_of_here.
      rewrite bool_decide_eq_false_2 in IH by done. simpl. lia.
    - rewrite decide_True by done. simpl length.
      rewrite (bool_decide_ext (k ∈ x :: m) (k ∈ m)); [lia|].
      rewrite elem_of_cons. split; [by intros [->|] | by right]. }
  rewrite !Hm by done. f_equal. apply Permutation_length, NoDup_Permutation.
  - by apply NoDup_filter.
  - by apply NoDup_filter.
  - intros x. rewrite !list_elem_of_filter. specialize (Hx x). tauto.
Qed.

Section life_of_requests.
Context `{NC : NiovaCore} {OKC : NiovaCoreOk NC} {IO : NiovaIo} {OKIO : NiovaIoOk IO}
  {APP : RaftClientApp} {B T : Type}
  {RT : RefTree raft_net_client_user_id raft_client_sub_app T} {OKT : RefTreeOk RT}.
Variable rci_self : Z.
Local Abbreviation user_id := raft_net_client_user_id.
Local Abbreviation W := (world B (client_ctx T)).
Local Abbreviation M := (M W).
Local Abbreviation entry := (option (raft_client_sub_app * Z)).

(** ** From the entries to the states of the machine *)
Definition sa_finished (v : raft_client_sub_app) : bool :=
  rcrh_cancel (rcsa_rh v) || rcrh_ready (rcsa_rh v).
Definition b2z (b : bool) : Z := if b then 1 else 0.

(** The references of the constructor and of the send queue. *)
Definition sa_refs (v : raft_client_sub_app) : Z :=
  b2z (negb (sa_finished v)) + b2z (rcrh_sendq (rcsa_rh v)).

(** [held]: the references the running handler will put. *)
Definition request_of (held : nat) (o : entry) : request_state :=
  match o with
  | None => Absent
  | Some (v, n) =>
      if rcrh_initializing (rcsa_rh v) then Starting
      else Live (rcrh_sendq (rcsa_rh v)) (sa_finished v) (n - sa_refs v - Z.of_nat held)
  end.

(** ** The invariant *)
Definition fresh_sa (k : user_id) : raft_client_sub_app :=
  (zero_sub_app k) <| rcsa_rh ::= fun h => h <| rcrh_initializing := true |> |>.

Record iovs_ok (h : raft_client_request_handle) : Prop := {
  io_len : length (rcrh_iovs h) = 8%nat;
  io_send : 0 <= rcrh_send_niovs h;
  io_recv : 0 <= rcrh_recv_niovs h;
  io_alloc : rcrh_alloc_get_buffer_for_user h = true -> rcrh_send_niovs h <= 6;
}.

Record sa_inv (k : user_id) (held : nat) (v : raft_client_sub_app) (n : Z) : Prop := {
  av_base : sa_base k v;
  av_completing : rcrh_completing (rcsa_rh v) = false;
  av_excl : rcrh_cancel (rcsa_rh v) && rcrh_ready (rcsa_rh v) = false;
  av_iovs : iovs_ok (rcsa_rh v);
  av_refs : sa_refs v + Z.of_nat held <= n;
  av_pos : Z.of_nat held + 1 <= n;
}.

Definition entry_ok (starting : bool) (k : user_id) (held : nat) (o : entry) : Prop :=
  match o with
  | None => starting = false
  | Some (v, n) =>
      if rcrh_initializing (rcsa_rh v)
      then starting = true /\ v = fresh_sa k /\ n = 1 /\ held = 0%nat
      else starting = false /\ sa_inv k held v n
  end.

Definition entry_queued (o : entry) : bool :=
  match o with Some (v, _) => rcrh_sendq (rcsa_rh v) | None => false end.

(** [starting]: the requests added by a submission that has not gone on yet. *)
Record client_inv (starting held : list user_id) (w : W) : Prop := {
  ci_ri : ri_ok (w_ri w);
  ci_self : rci_self <> 0 /\ rci_self ∈ cl_instances (w_app w);
  ci_ops : ops_ok w;
  ci_cnt : cnt_of w = Z.of_nat (length (RT_FOREACH_LOCKED (rci_sub_apps (rci_of w))));
  ci_max : cnt_of w <= raftClientSubAppMax;
  ci_nodup : NoDup (sendq_of w);
  ci_queue k : k ∈ sendq_of w <-> entry_queued (el w k) = true;
  ci_entry k : entry_ok (bool_decide (k ∈ starting)) k (occ k held) (el w k);
}.

Lemma ci_cnt_ok st held w k v n :
  client_inv st held w -> el w k = Some (v, n) -> cnt_ok w.
Proof.
  intros Hci He. unfold cnt_ok. pose proof (ci_max _ _ _ Hci) as Hm.
  unfold raftClientSubAppMax in Hm. split; [|lia]. rewrite (ci_cnt _ _ _ Hci).
  assert (k ∈ RT_FOREACH_LOCKED (rci_sub_apps (rci_of w))) as Hk.
  { apply rt_foreach_elem. fold (el w k). rewrite He. by eexists. }
  destruct (RT_FOREACH_LOCKED _); [by apply elem_of_nil in Hk | simpl; lia].
Qed.

(** The invariant after a move of one entry. *)
Lemma moved_inv st held st' held' w w' k o q l :
  client_inv st held w -> moved k o q l w w' ->
  entry_ok (bool_decide (k ∈ st')) k (occ k held') o ->
  (forall k', k' <> k -> k' ∈ st' <-> k' ∈ st) ->
  (forall k', k' <> k -> occ k' held' = occ k' held) ->
  NoDup q -> (forall k', k' <> k -> k' ∈ q <-> k' ∈ sendq_of w) ->
  (k ∈ q <-> entry_queued o = true) ->
  (present (el w k) = 0 -> present o = 1 -> cnt_of w < raftClientSubAppMax) ->
  client_inv st' held' w'.
Proof.
  intros Hci Hm Ho Hst Hheld Hnd Hq Hqk Hmax.
  pose proof (rt_foreach_nodup (rci_sub_apps (rci_of w))) as Hn1.
  pose proof (rt_foreach_nodup (rci_sub_apps (rci_of w'))) as Hn2.
  assert (forall w0 : W, (if bool_decide (k ∈ RT_FOREACH_LOCKED (rci_sub_apps (rci_of w0))) then 1 else 0)
    = present (el w0 k)) as Hp.
  { intros w0. pose proof (rt_foreach_elem k (rci_sub_apps (rci_of w0))) as Hi.
    fold (el w0 k) in Hi. destruct (el w0 k) as [p|]; simpl.
    - rewrite bool_decide_eq_true_2; [done | by apply Hi; eexists].
    - rewrite bool_decide_eq_false_2; [done | by intros [? ?]%Hi]. }
  assert (cnt_of w' = Z.of_nat (length (RT_FOREACH_LOCKED (rci_sub_apps (rci_of w'))))) as Hcnt.
  { pose proof (length_differ k _ _ Hn1 Hn2) as Hl. rewrite !Hp in Hl.
    rewrite (mv_cnt _ _ _ _ _ _ Hm), (ci_cnt _ _ _ Hci).
    rewrite (mv_el _ _ _ _ _ _ Hm) in Hl.
    lapply Hl; [lia|].
    intros x Hx. etransitivity; [apply rt_foreach_elem|].
    etransitivity; [|symmetry; apply rt_foreach_elem]. fold (el w x) (el w' x).
    by rewrite (mv_other _ _ _ _ _ _ Hm). }
  split.
  - apply Hm, Hci.
  - rewrite (calm_table _ _ (mv_calm _ _ _ _ _ _ Hm)). apply Hci.
  - eapply moved_ops_ok; [done | apply Hci].
  - done.
  - rewrite (mv_cnt _ _ _ _ _ _ Hm). pose proof (ci_max _ _ _ Hci).
    destruct (el w k) as [p1|], o as [p2|]; simpl in *; lia.
  - by rewrite (mv_sendq _ _ _ _ _ _ Hm).
  - intros x. rewrite (mv_sendq _ _ _ _ _ _ Hm). destruct (decide (x = k)) as [->|Hx].
    + by rewrite (mv_el _ _ _ _ _ _ Hm).
    + rewrite (mv_other _ _ _ _ _ _ Hm), Hq by done. apply Hci.
  - intros x. destruct (decide (x = k)) as [->|Hx].
    + by rewrite (mv_el _ _ _ _ _ _ Hm).
    + rewrite (mv_other _ _ _ _ _ _ Hm), Hheld by done.
      rewrite (bool_decide_ext _ _ (Hst x Hx)). apply Hci.
Qed.

(** ** What a handler does to all requests *)
Definition evolves (added held held' : list user_id) (w w' : W) : Prop :=
  exists l, effects_of w' = effects_of w ++ l /\
    forall k, life (request_of (occ k held) (el w k)) (occ k added) (ends k l)
                   (request_of (occ k held') (el w' k)).

Lemma evolves_refl held w : evolves [] held held w w.
Proof. exists []. split; [by rewrite app_nil_r | intros k; constructor]. Qed.
Lemma evolves_trans a1 a2 h1 h2 h3 w1 w2 w3 :
  evolves a1 h1 h2 w1 w2 -> evolves a2 h2 h3 w2 w3 -> evolves (a1 ++ a2) h1 h3 w1 w3.
Proof.
  intros (l1 & E1 & H1) (l2 & E2 & H2). exists (l1 ++ l2).
  split; [by rewrite E2, E1, app_assoc|].
  intros k. rewrite occ_app, ends_app. by eapply life_app.
Qed.

Lemma moved_evolves added held held' w w' k o q l :
  moved k o q l w w' -> Forall (fun e => effect_key e = k) l ->
  (forall k', k' <> k -> occ k' held' = occ k' held) ->
  (forall k', k' <> k -> occ k' added = 0%nat) ->
  life (request_of (occ k held) (el w k)) (occ k added) (ends k l) (request_of (occ k held') o) ->
  evolves added held held' w w'.
Proof.
  intros Hm Hl Hheld Hadd Hlife. exists l. split; [apply Hm|]. intros x.
  destruct (decide (x = k)) as [->|Hx].
  - by rewrite (mv_el _ _ _ _ _ _ Hm).
  - rewrite (mv_other _ _ _ _ _ _ Hm), Hheld, Hadd by done.
    rewrite (ends_other x l); [constructor|].
    eapply Forall_impl; [apply Hl|]. simpl. congruence.
Qed.

(** A handler runs to its end, keeps the invariant and moves every request along
    the machine. *)
Definition serves {X} (added st held st' held' : list user_id) (m : M X) (w : W)
    (Q : X -> W -> Prop) : Prop :=
  exists a w', m w = Some (a, w') /\ client_inv st' held' w' /\
    evolves added held held' w w' /\ calm w w' /\ Q a w'.

Lemma serves_ret {X} st held (a : X) w (Q : X -> W -> Prop) :
  client_inv st held w -> Q a w -> serves [] st held st held (ret a) w Q.
Proof.
  intros Hci HQ. exists a, w. split; [done|]. split; [done|].
  split; [apply evolves_refl|]. by split.
Qed.
Lemma serves_bind {X Y} a1 a2 st h st1 h1 st2 h2 (m : M X) (f : X -> M Y) w P Q :
  serves a1 st h st1 h1 m w P ->
  (forall a w1, client_inv st1 h1 w1 -> calm w w1 -> P a w1 ->
     serves a2 st1 h1 st2 h2 (f a) w1 Q) ->
  serves (a1 ++ a2) st h st2 h2 (bind m f) w Q.
Proof.
  intros (a & w1 & Hm & Hi1 & He1 & Hc1 & HP) Hf.
  destruct (Hf a w1 Hi1 Hc1 HP) as (b & w2 & Hf2 & Hi2 & He2 & Hc2 & HQ).
  exists b, w2. split; [by rewrite (bind_eq _ _ _ _ _ Hm)|]. split; [done|].
  split; [by eapply evolves_trans|]. split; [by transitivity w1 | done].
Qed.
Lemma serves_weaken {X} a st h st' h' (m : M X) w (P Q : X -> W -> Prop) :
  serves a st h st' h' m w P -> (forall x w', P x w' -> Q x w') -> serves a st h st' h' m w Q.
Proof. intros (x & w' & ? & ? & ? & ? & ?) HPQ. exists x, w'. eauto 10. Qed.

(** A read that cannot fail, and an action that leaves the table alone. *)
Lemma serves_read {X Y} a st h st' h' (m : M X) (f : X -> M Y) w x Q :
  m w = Some (x, w) -> serves a st h st' h' (f x) w Q -> serves a st h st' h' (bind m f) w Q.
Proof. intros Hm (y & w' & Hf & H). exists y, w'. by rewrite (bind_eq _ _ _ _ _ Hm). Qed.

Lemma silent_inv st held w w' : client_inv st held w -> silent w w' -> client_inv st held w'.
Proof.
  intros Hci Hs. split.
  - apply Hs, Hci.
  - rewrite (calm_table _ _ (si_calm _ _ Hs)). apply Hci.
  - eapply calm_ops_ok; [apply Hs | apply Hci].
  - rewrite (si_cnt _ _ Hs), (si_tree _ _ Hs). apply Hci.
  - rewrite (si_cnt _ _ Hs). apply Hci.
  - rewrite (si_sendq _ _ Hs). apply Hci.
  - intros k. rewrite (si_sendq _ _ Hs), (silent_el _ _ _ Hs). apply Hci.
  - intros k. rewrite (silent_el _ _ _ Hs). apply Hci.
Qed.
Lemma silent_evolves held w w' : silent w w' -> evolves [] held held w w'.
Proof.
  intros Hs. exists []. split; [by rewrite app_nil_r, (si_effects _ _ Hs)|].
  intros k. rewrite (silent_el _ _ _ Hs). constructor.
Qed.
Lemma serves_quiet {X} st held (m : M X) w (P : X -> Prop) :
  client_inv st held w -> quiet m w P -> serves [] st held st held m w (fun a w' => P a /\ silent w w').
Proof.
  intros Hci (a & w' & Hm & Hs & HP). exists a, w'. split; [done|].
  split; [by eapply silent_inv|]. split; [by apply silent_evolves|]. split; [apply Hs | done].
Qed.

(** A handler that moves one request. *)
Lemma moves_serves {X} added st held st' held' (m : M X) w k a o q l :
  client_inv st held w -> moves m k w a o q l ->
  entry_ok (bool_decide (k ∈ st')) k (occ k held') o ->
  (forall k', k' <> k -> k' ∈ st' <-> k' ∈ st) ->
  (forall k', k' <> k -> occ k' held' = occ k' held) ->
  (forall k', k' <> k -> occ k' added = 0%nat) ->
  NoDup q -> (forall k', k' <> k -> k' ∈ q <-> k' ∈ sendq_of w) ->
  (k ∈ q <-> entry_queued o = true) ->
  (present (el w k) = 0 -> present o = 1 -> cnt_of w < raftClientSubAppMax) ->
  Forall (fun e => effect_key e = k) l ->
  life (request_of (occ k held) (el w k)) (occ k added) (ends k l) (request_of (occ k held') o) ->
  serves added st held st' held' m w (fun b w' => b = a /\ moved k o q l w w').
Proof.
  intros Hci (w' & Hm & Hmv) Ho Hst Hheld Hadd Hnd Hq Hqk Hmax Hl Hlife.
  exists a, w'. split; [done|]. split; [by eapply moved_inv|].
  split; [by eapply moved_evolves|]. split; [apply Hmv | done].
Qed.
End life_of_requests.
