(* ===== verification/RcInv.v ===== *)
(** The handlers of the client library keep the invariant, do not abort and move the
    requests along the machine of [RcLife]: canceling, sending and the event pipe.
    The timer is in [RcTimer], replies are in [RcReplyInv]. *)
From stdpp Require Import base tactics list gmap.
From Stdlib Require Import ZArith Lia Strings.Byte.
From S2P Require Import Prelude RaftTypes World Net Entry RcTypes RaftClient RcSpec RcNetSpec RcLife.
Local Open Scope Z_scope.
Local Open Scope raft_scope.

Section handlers.
Context `{NC : NiovaCore} {OKC : NiovaCoreOk NC} {IO : NiovaIo} {OKIO : NiovaIoOk IO}
  {APP : RaftClientApp} {B T : Type}
  {RT : RefTree raft_net_client_user_id raft_client_sub_app T} {OKT : RefTreeOk RT}.
Context {rci_self : Z}.
Local Abbreviation user_id := raft_net_client_user_id.
Local Abbreviation W := (world B (client_ctx T)).
Local Abbreviation M := (M W).
Local Abbreviation client_inv := (client_inv rci_self).
Local Abbreviation serves := (serves rci_self).

(** An entry of a live request. *)
Lemma ci_live st held (w : W) k v n :
  client_inv st held w -> el w k = Some (v, n) -> k ∉ st ->
  rcrh_initializing (rcsa_rh v) = false /\ sa_inv k (occ k held) v n.
Proof.
  intros Hci He Hk. pose proof (ci_entry _ _ _ _ Hci k) as Ho. rewrite He in Ho. simpl in Ho.
  rewrite bool_decide_eq_false_2 in Ho by done.
  destruct (rcrh_initializing _); [by destruct Ho | by destruct Ho].
Qed.
Lemma ci_live' st held (w : W) k v n :
  client_inv st held w -> el w k = Some (v, n) -> rcrh_initializing (rcsa_rh v) = false ->
  (k ∉ st) /\ sa_inv k (occ k held) v n.
Proof.
  intros Hci He Hi. pose proof (ci_entry _ _ _ _ Hci k) as Ho. rewrite He in Ho. simpl in Ho.
  rewrite Hi in Ho. destruct Ho as [Hk Ho]. split; [by apply bool_decide_eq_false in Hk | done].
Qed.
Lemma ci_starting st held (w : W) k :
  client_inv st held w -> k ∈ st -> el w k = Some (fresh_sa k, 1) /\ occ k held = 0%nat.
Proof.
  intros Hci Hk. pose proof (ci_entry _ _ _ _ Hci k) as Ho.
  rewrite bool_decide_eq_true_2 in Ho by done. unfold entry_ok in Ho.
  destruct (el w k) as [[v n]|]; [|done].
  destruct (rcrh_initializing _); [by destruct Ho as (_ & -> & -> & ?) | by destruct Ho].
Qed.

Lemma sa_inv_done_pre st held (w : W) k v n :
  client_inv st held w -> el w k = Some (v, n) -> sa_base k v -> done_pre k w v.
Proof.
  intros Hci He Hb. split; [done | by eapply ci_cnt_ok | apply Hci].
Qed.

(** An entry changed to a live one. *)
Lemma entry_ok_live (st : list user_id) k held v n :
  k ∉ st -> rcrh_initializing (rcsa_rh v) = false -> sa_inv k held v n ->
  entry_ok (bool_decide (k ∈ st)) k held (Some (v, n)).
Proof. intros Hk Hi Hv. simpl. rewrite Hi. by rewrite bool_decide_eq_false_2. Qed.
Lemma entry_ok_gone (st : list user_id) k held : k ∉ st -> entry_ok (bool_decide (k ∈ st)) k held None.
Proof. intros Hk. simpl. by rewrite bool_decide_eq_false_2. Qed.

(** Moves of one live request that leave the set of starting ones alone, and, for
    [moves_serves_same], the send queue as well. *)
Lemma moves_serves_live {X} st held held' (m : M X) w k a v n o q l :
  client_inv st held w -> el w k = Some (v, n) -> k ∉ st ->
  moves m k w a o q l ->
  entry_ok (bool_decide (k ∈ st)) k (occ k held') o ->
  (forall k', k' <> k -> occ k' held' = occ k' held) ->
  NoDup q -> (forall k', k' <> k -> k' ∈ q <-> k' ∈ sendq_of w) ->
  (k ∈ q <-> entry_queued o = true) ->
  Forall (fun e => effect_key e = k) l ->
  life (request_of (occ k held) (Some (v, n))) 0 (ends k l) (request_of (occ k held') o) ->
  serves [] st held st held' m w (fun b w' => b = a /\ moved k o q l w w').
Proof.
  intros Hci He Hk Hm Ho Hheld Hnd Hq Hqk Hl Hlife.
  eapply moves_serves; [done..| | |]; try done.
  - rewrite He. simpl. lia.
  - by rewrite He.
Qed.

Lemma put_effects_key k v n : sa_base k v -> Forall (fun e => effect_key e = k) (put_effects v n).
Proof.
  intros Hb. unfold put_effects. destruct (n =? 1); [|constructor].
  constructor; [apply Hb | constructor].
Qed.
Lemma ends_put_effects k v n : sa_base k v -> ends k (put_effects v n) = if n =? 1 then 1%nat else 0%nat.
Proof.
  intros Hb. unfold put_effects. destruct (n =? 1); [|done].
  unfold ends. rewrite filter_cons_True; [done|]. simpl. rewrite (sb_key _ _ Hb).
  by apply bool_decide_pack.
Qed.

Lemma lookup_absent k (w : W) :
  el w k = None -> raft_client_sub_app_lookup k w = Some (false, w).
Proof.
  intros He. unfold raft_client_sub_app_lookup, rci_get, cl_get.
  pose proof (rt_lookup_ok k (rci_sub_apps (rci_of w))) as Hl. fold (el w k) in Hl.
  rewrite He in Hl. erewrite bind_eq by reflexivity. fold (rci_of w). rewrite Hl.
  by destruct w as [? ? [[] ? ? ? ?] ? ? ?].
Qed.

(** ** Canceling through the interface of the application *)
Lemma request_cancel_serves st inst rncui buf (w : W) :
  client_inv st [] w -> (forall k, rncui = Some k -> k ∉ st) ->
  serves [] st [] st [] (raft_client_request_cancel inst rncui buf) w (fun _ _ => True).
Proof.
  intros Hci Hst. unfold raft_client_request_cancel.
  destruct rncui as [k|]; [|by apply serves_ret]. specialize (Hst k eq_refl).
  destruct (_ || _); [by apply serves_ret|].
  assert (exists r, raft_client_instance_lookup inst w = Some (r, w)) as [r Hr].
  { unfold raft_client_instance_lookup. destruct (inst =? 0); by eexists. }
  eapply serves_read; [done|]. case_bool_decide; [by apply serves_ret|].
  destruct (el w k) as [[v n]|] eqn:He.
  - destruct (ci_live _ _ _ _ _ _ Hci He Hst) as [Hi Hv].
    pose proof (av_refs _ _ _ _ Hv) as Hrefs. pose proof (av_pos _ _ _ _ Hv) as Hpos.
    simpl in Hrefs, Hpos.
    eapply serves_weaken.
    { eapply (moves_serves_live _ _ [] _ _ k (- EINPROGRESS) v n (Some (v, n + 1)) (sendq_of w) []);
        try done.
      - eapply moves_step; [by apply (lookup_moves _ _ _ _ He)|]. intros w1 H1 He1 Hq1. simpl.
        eapply moves_bind_eq; [by apply (rh_get_eq _ _ _ _ _ He1) | done|]. rewrite Hi. simpl.
        eapply moves_conv; [apply moves_ret | done..].
      - apply entry_ok_live; [done..|]. destruct Hv. split; simpl in *; try done; lia.
      - apply Hci.
      - rewrite (ci_queue _ _ _ _ Hci k), He. done.
      - simpl. rewrite Hi. change (occ k []) with 0%nat in *. life_by (life_cancel (rcrh_sendq (rcsa_rh v)) (sa_finished v) (n - sa_refs v) ltac:(lia)). }
    done.
  - eapply serves_read; [by apply lookup_absent | by apply serves_ret].
Qed.

(** ** Sending *)
Definition sa_sent (now : timespec) (v : raft_client_sub_app) : raft_client_sub_app :=
  v <| rcsa_rh ::= fun h => h <| rcrh_last_send := now |>
                              <| rcrh_num_sends ::= fun n => u64 (n + 1) |> |>.

Lemma launch_moves k (w : W) v n :
  ri_ok (w_ri w) -> el w k = Some (v, n) -> rcrh_sendq (rcsa_rh v) = false ->
  exists rc, moves (raft_client_rpc_launch k) k w rc
    (Some (if rc =? 0 then sa_sent (env_realtime (w_env w)) v else v, n)) (sendq_of w) [].
Proof.
  intros Hri He Hq. unfold raft_client_rpc_launch.
  destruct (send_client_msgv_quiet (rcrh_rpc_request (rcsa_rh v)) (rcrh_iovs (rcsa_rh v))
    (rcrh_send_niovs (rcsa_rh v)) w Hri) as (rc & w1 & Hs & H1 & _).
  exists rc. eapply moves_bind_eq; [by apply (rh_get_eq _ _ _ _ _ He) | done|].
  unfold id. rewrite Hq. eapply moves_bind_eq; [reflexivity..|].
  eapply (quiet_moves _ _ _ _ (fun x => x = rc)); [by exists rc, w1|].
  intros x w2 H2 ->. assert (el w2 k = Some (v, n)) as He2 by by rewrite (silent_el _ _ _ H2).
  rewrite <- (si_sendq _ _ H2).
  eapply moves_step; [|intros w3 H3 He3 Hq3; eapply moves_conv; [apply moves_ret | apply He3 | apply Hq3 | done]].
  destruct (rc =? 0); simpl; [|rewrite <- He2; apply moves_ret].
  eapply moves_bind_eq; [reflexivity..|].
  eapply quiet_moves; [by apply rci_upd_quiet|]. intros [] w3 H3 _.
  eapply moves_conv; [apply (rh_upd_moves _ _ _ v n) | | |done].
  - by rewrite (silent_el _ _ _ H3).
  - rewrite (calm_real _ _ (si_calm _ _ H2)). done.
  - apply (si_sendq _ _ H3).
Qed.

(** The three ways in which the head of the queue leaves it. *)
Definition sa_send_failed (rc : Z) (v : raft_client_sub_app) : raft_client_sub_app :=
  sa_finish rc (v <| rcsa_rh ::= fun h =>
    h <| rcrh_cancel := true |> <| rcrh_send_failed := true |> |>).

Lemma sendq_done_ret_moves {X} k (w : W) v n (a : X) :
  done_pre k w v -> el w k = Some (v, n) -> rcrh_sendq (rcsa_rh v) = false ->
  moves (raft_client_request_send_queue_remove_done k ;;; ret a) k w a
    (ref_put (Some (v, n))) (sendq_of w) (put_effects v n).
Proof.
  intros Hpre He Hq. rewrite <- (app_nil_r (put_effects v n)). eapply moves_bind.
  - by apply sendq_done_moves; [..|apply Hpre|apply Hpre].
  - intros w2 H2. eapply moves_conv; [apply moves_ret | apply H2 | apply H2 | done].
Qed.

Lemma send_failed_moves {X} k rc (w : W) v n (a : X) :
  done_pre k w v -> el w k = Some (v, n) ->
  rcrh_ready (rcsa_rh v) = false -> rcrh_completing (rcsa_rh v) = false ->
  moves ((rh_upd k (fun h => h <| rcrh_cancel := true |> <| rcrh_send_failed := true |>) ;;;
          raft_client_sub_app_done k rc) ;;; ret a) k w a
    (ref_put (Some (sa_send_failed rc v, n))) (sendq_of w) (put_effects (sa_send_failed rc v) n).
Proof.
  intros Hpre He Hr Hc. rewrite <- (app_nil_r (put_effects _ n)). eapply moves_bind.
  - eapply moves_step; [by apply (rh_upd_moves _ _ _ _ _ He)|]. intros w1 H1 He1 Hq1.
    eapply moves_conv; [apply done_moves; [done | | done | simpl; by rewrite Hc] | done | apply Hq1 | done].
    eapply done_pre_moved; [done..| by rewrite He |].
    apply sa_base_rh; try done. apply Hpre.
  - intros w2 H2. eapply moves_conv; [apply moves_ret | apply H2 | apply H2 | done].
Qed.

(** What becomes of the head [v] of the queue, [rc] being the result. *)
Definition dequeue_result (now : timespec) (rc : Z) (v : raft_client_sub_app) : raft_client_sub_app :=
  let v0 := set_sendq false v in
  if sa_finished v then v0
  else if rc =? 0 then sa_sent now v0
  else if rc =? - EAGAIN then v0
  else sa_send_failed rc v0.

Lemma dequeue_base now rc v k : sa_base k v -> sa_base k (dequeue_result now rc v).
Proof.
  intros Hb. unfold dequeue_result. assert (sa_base k (set_sendq false v)) as Hb0 by by apply sa_base_rh.
  destruct (sa_finished v); [done|]. destruct (rc =? 0); [by apply sa_base_rh|].
  destruct (rc =? - EAGAIN); [done|]. apply sa_base_finish. by apply sa_base_rh.
Qed.

(** After the launch: the references of the queue, or of the constructor, is put. *)
Lemma launched_moves k rc now (w : W) v n :
  done_pre k w (set_sendq false v) -> sa_finished v = false -> rcrh_completing (rcsa_rh v) = false ->
  el w k = Some (if rc =? 0 then sa_sent now (set_sendq false v) else set_sendq false v, n) ->
  moves (if negb (rc =? 0) && negb (rc =? - EAGAIN)
         then (rh_upd k (fun h => h <| rcrh_cancel := true |> <| rcrh_send_failed := true |>) ;;;
               raft_client_sub_app_done k rc) ;;; ret rc
         else raft_client_request_send_queue_remove_done k ;;; ret rc) k w rc
    (ref_put (Some (dequeue_result now rc v, n))) (sendq_of w) (put_effects (dequeue_result now rc v) n).
Proof.
  intros Hpre Hf Hc He. unfold dequeue_result. rewrite Hf.
  assert (rcrh_ready (rcsa_rh v) = false) as Hr by (unfold sa_finished in Hf; by apply orb_false_iff in Hf as [_ ->]).
  destruct (rc =? 0); simpl; [|destruct (rc =? - EAGAIN); simpl].
  - apply sendq_done_ret_moves; [|done..]. destruct Hpre as [Hb ? ?]. split; [|done..]. by apply sa_base_rh.
  - by apply sendq_done_ret_moves.
  - by apply send_failed_moves.
Qed.

Lemma dequeue_moves k q (w : W) v n :
  ri_ok (w_ri w) -> done_pre k w v -> el w k = Some (v, n) -> sendq_of w = k :: q ->
  rcrh_sendq (rcsa_rh v) = true -> rcrh_completing (rcsa_rh v) = false ->
  exists rc, let v' := dequeue_result (env_realtime (w_env w)) rc v in
    moves raft_client_rpc_sendq_dequeue_head_and_send k w rc
      (ref_put (Some (v', n))) q (put_effects v' n).
Proof.
  intros Hri Hpre He Hqs Hq Hc. unfold raft_client_rpc_sendq_dequeue_head_and_send.
  set (v0 := set_sendq false v).
  assert (sa_base k v0) as Hb0 by (apply sa_base_rh; try done; apply Hpre).
  destruct (sendq_prep_moves k w v n He Hq) as (w1 & Hp & H1).
  rewrite Hqs in H1. simpl in H1. rewrite bool_decide_eq_true_2 in H1 by done. fold v0 in H1.
  rewrite Hc, orb_false_r in Hp. fold (sa_finished v) in Hp.
  pose proof (mv_el _ _ _ _ _ _ H1) as He1. pose proof (mv_sendq _ _ _ _ _ _ H1) as Hq1.
  assert (done_pre k w1 v0) as Hpre1 by (eapply done_pre_moved; [done..| by rewrite He | done]).
  unfold rci_get, cl_get. destruct (sa_finished v) eqn:Hf.
  - exists (- ESTALE). unfold dequeue_result. rewrite Hf.
    eapply moves_bind_eq; [reflexivity..|]. fold (rci_of w). fold (sendq_of w). rewrite Hqs.
    eapply moves_cut; [done..|]. simpl. rewrite <- Hq1. by apply sendq_done_ret_moves.
  - destruct (launch_moves k w1 v0 n) as (rc & w2 & Hl & H2); [by apply H1, Hri | done | done|].
    rewrite (calm_real _ _ (mv_calm _ _ _ _ _ _ H1)) in H2.
    pose proof (mv_el _ _ _ _ _ _ H2) as He2. pose proof (mv_sendq _ _ _ _ _ _ H2) as Hq2.
    exists rc. eapply moves_bind_eq; [reflexivity..|]. fold (rci_of w). fold (sendq_of w). rewrite Hqs.
    eapply moves_cut; [done..|]. simpl. eapply moves_cut; [done..|].
    assert (done_pre k w2 v0) as Hpre2 by (eapply done_pre_moved; [apply Hpre1 | done | by rewrite He1 | done]).
    pose proof (launched_moves k rc _ w2 v n Hpre2 Hf Hc He2) as Hm.
    rewrite Hq2, Hq1 in Hm. by destruct (_ && _).
Qed.

(** A change of a live entry that keeps what does not matter for its life. *)
Lemma sa_inv_change k held held' v n f n' :
  sa_inv k held v n -> sa_base k (v <| rcsa_rh ::= f |>) ->
  rcrh_completing (f (rcsa_rh v)) = false ->
  rcrh_cancel (f (rcsa_rh v)) && rcrh_ready (f (rcsa_rh v)) = false ->
  iovs_ok (f (rcsa_rh v)) ->
  sa_refs (v <| rcsa_rh ::= f |>) + Z.of_nat held' <= n' -> Z.of_nat held' + 1 <= n' ->
  sa_inv k held' (v <| rcsa_rh ::= f |>) n'.
Proof. intros Hv Hb Hc Hx Hio Hr Hp. by split. Qed.

Lemma iovs_ok_same h h' :
  iovs_ok h -> rcrh_iovs h' = rcrh_iovs h -> rcrh_send_niovs h' = rcrh_send_niovs h ->
  rcrh_recv_niovs h' = rcrh_recv_niovs h ->
  rcrh_alloc_get_buffer_for_user h' = rcrh_alloc_get_buffer_for_user h -> iovs_ok h'.
Proof. intros [] H1 H2 H3 H4. split; rewrite ?H1, ?H2, ?H3, ?H4; done. Qed.

Lemma queue_head st held (w : W) k q :
  client_inv st held w -> sendq_of w = k :: q ->
  exists v n, el w k = Some (v, n) /\ rcrh_sendq (rcsa_rh v) = true /\
    rcrh_initializing (rcsa_rh v) = false /\ (k ∉ st) /\ sa_inv k (occ k held) v n /\
    (k ∉ q) /\ NoDup q.
Proof.
  intros Hci Hq. assert (k ∈ sendq_of w) as Hk by (rewrite Hq; apply list_elem_of_here).
  apply (ci_queue _ _ _ _ Hci) in Hk. destruct (el w k) as [[v n]|] eqn:He; [|done].
  simpl in Hk. pose proof (ci_nodup _ _ _ _ Hci) as Hnd. rewrite Hq in Hnd.
  apply NoDup_cons in Hnd as [Hnk Hnd].
  assert (rcrh_initializing (rcsa_rh v) = false) as Hi.
  { pose proof (ci_entry _ _ _ _ Hci k) as Ho. rewrite He in Ho. simpl in Ho.
    destruct (rcrh_initializing _); [|done]. destruct Ho as (_ & -> & _). done. }
  destruct (ci_live' _ _ _ _ _ _ Hci He Hi) as [Hst Hv]. exists v, n. done.
Qed.

Lemma dequeued_change k now rc v n :
  sa_inv k 0 v n -> rcrh_initializing (rcsa_rh v) = false ->
  exists f, dequeue_result now rc v = v <| rcsa_rh ::= f |> /\ rcrh_sendq (f (rcsa_rh v)) = false /\
    rcrh_initializing (f (rcsa_rh v)) = false /\ rcrh_completing (f (rcsa_rh v)) = false /\
    rcrh_cancel (f (rcsa_rh v)) && rcrh_ready (f (rcsa_rh v)) = false /\ iovs_ok (f (rcsa_rh v)) /\
    (sa_finished (v <| rcsa_rh ::= f |>) = sa_finished v \/
     sa_finished v = false /\ sa_finished (v <| rcsa_rh ::= f |>) = true).
Proof.
  intros Hv Hi.
  pose proof (av_completing _ _ _ _ Hv) as Hc. pose proof (av_excl _ _ _ _ Hv) as Hx.
  assert (forall h', rcrh_iovs h' = rcrh_iovs (rcsa_rh v) -> rcrh_send_niovs h' = rcrh_send_niovs (rcsa_rh v) ->
    rcrh_recv_niovs h' = rcrh_recv_niovs (rcsa_rh v) ->
    rcrh_alloc_get_buffer_for_user h' = rcrh_alloc_get_buffer_for_user (rcsa_rh v) -> iovs_ok h') as Hsame
    by (intros; eapply iovs_ok_same; [apply Hv | done..]).
  unfold dequeue_result.
  destruct (sa_finished v) eqn:Hfin; [|destruct (rc =? 0); [|destruct (rc =? - EAGAIN)]];
    (eexists (fun _ => _); split; [reflexivity|]; simpl; split_and!; try done; try by apply Hsame);
    try by left.
  - unfold sa_finished in Hfin. apply orb_false_iff in Hfin as [_ ->]. done.
  - by right.
Qed.

(** The entry after the head of the queue was handled, and its step. *)
Lemma dequeued_entry k now rc v n :
  sa_inv k 0 v n -> rcrh_sendq (rcsa_rh v) = true -> rcrh_initializing (rcsa_rh v) = false ->
  let v' := dequeue_result now rc v in
  let o := ref_put (Some (v', n)) in
  (forall st : list user_id, k ∉ st -> entry_ok (bool_decide (k ∈ st)) k 0 o) /\
  entry_queued o = false /\
  life (request_of 0 (Some (v, n))) 0 (ends k (put_effects v' n)) (request_of 0 o).
Proof.
  intros Hv Hq Hi. cbv zeta. assert (sa_base k (dequeue_result now rc v)) as Hb' by (apply dequeue_base, Hv).
  rewrite ends_put_effects by done.
  pose proof (av_refs _ _ _ _ Hv) as Hr. pose proof (av_pos _ _ _ _ Hv) as Hp.
  unfold sa_refs in Hr. rewrite Hq in Hr.
  destruct (dequeued_change k now rc v n Hv Hi) as (f & Ev & Hf1 & Hf2 & Hf3 & Hf4 & Hf5 & Hf6).
  rewrite Ev in Hb' |- *. clear Ev. unfold ref_put. simpl in Hf6. destruct (Z.eqb_spec n 1) as [->|Hn].
  - split; [intros; by apply entry_ok_gone|]. split; [done|]. simpl. rewrite Hi, Hq.
    unfold sa_refs. rewrite Hq. destruct (sa_finished v); simpl in *; [|lia].
    apply life_one, life_unqueue.
  - split.
    { intros st Hst. apply entry_ok_live; [done..|]. eapply sa_inv_change; [done..| |].
      - unfold sa_refs. simpl. rewrite Hf1.
        destruct Hf6 as [->|[Hfv ->]]; [|simpl; lia].
        destruct (sa_finished v); simpl in *; lia.
      - lia. }
    split; [done|]. simpl. rewrite Hf2, Hi, Hq, Hf1. unfold sa_refs. simpl. rewrite Hq, Hf1.
    destruct Hf6 as [->|[Hfv ->]].
    + destruct (sa_finished v); simpl in *.
      * life_by (life_unqueue_held (n - 1) ltac:(lia)).
      * life_by (life_send (n - 2)).
    + rewrite Hfv. simpl. life_by (life_send_fails (n - 2)).
Qed.

Lemma dequeue_serves st (w : W) :
  client_inv st [] w ->
  serves [] st [] st [] raft_client_rpc_sendq_dequeue_head_and_send w
    (fun rc w' => match sendq_of w with
                  | [] => rc = - ENOENT
                  | k :: q => sendq_of w' = q /\ forall v n, el w k = Some (v, n) ->
                      el w' k = ref_put (Some (dequeue_result (env_realtime (w_env w)) rc v, n))
                  end).
Proof.
  intros Hci. destruct (sendq_of w) as [|k q] eqn:Hq.
  - unfold raft_client_rpc_sendq_dequeue_head_and_send. eapply serves_read; [reflexivity|].
    fold (rci_of w). fold (sendq_of w). rewrite Hq. by apply serves_ret.
  - destruct (queue_head _ _ _ _ _ Hci Hq) as (v & n & He & Hs & Hi & Hst & Hv & Hkq & Hnd).
    destruct (dequeue_moves k q w v n) as (rc & Hm); try done.
    { apply Hci. }
    { eapply sa_inv_done_pre; [done..|]. apply Hv. }
    { apply Hv. }
    destruct (dequeued_entry k (env_realtime (w_env w)) rc v n Hv Hs Hi) as (Hok & Hoq & Hlife).
    eapply serves_weaken.
    { eapply moves_serves_live; [done..| | | | | | |].
      - by apply Hok.
      - done.
      - done.
      - intros k' Hk'. rewrite Hq, elem_of_cons. split; [by right | by intros [?|?]].
      - rewrite Hoq. by split.
      - apply put_effects_key, dequeue_base, Hv.
      - done. }
    intros x w' [-> Hmv]. split; [apply Hmv|]. intros v2 n2 E. rewrite He in E. injection E as <- <-. apply Hmv.
Qed.

Lemma cl_upd_quiet f (w : W) :
  (forall c, cl_rci (f c) = cl_rci c) -> (forall c, cl_instances (f c) = cl_instances c) ->
  (forall c, cl_effects (f c) = cl_effects c) -> quiet (cl_upd f : M unit) w (fun _ => True).
Proof.
  intros H1 H2 H3. eexists tt, _. split; [reflexivity|]. split; [|done].
  split; unfold sendq_of, cnt_of, effects_of, rci_of; simpl; rewrite ?H1, ?H3; auto.
  split; unfold rci_of; simpl; rewrite ?H1, ?H2; auto.
Qed.

(** Sequencing handlers that complete no submission. *)
Lemma serves_step {X Y} st h h1 h2 (m : M X) (f : X -> M Y) w P Q :
  serves [] st h st h1 m w P ->
  (forall a w1, client_inv st h1 w1 -> calm w w1 -> P a w1 -> serves [] st h1 st h2 (f a) w1 Q) ->
  serves [] st h st h2 (bind m f) w Q.
Proof. intros Hm Hf. change (@nil user_id) with ([] ++ [] : list user_id) at 1. by eapply serves_bind. Qed.
Lemma serves_quietly {X Y} st h h2 (m : M X) (f : X -> M Y) w P Q :
  client_inv st h w -> quiet m w P ->
  (forall a w1, client_inv st h w1 -> silent w w1 -> P a -> serves [] st h st h2 (f a) w1 Q) ->
  serves [] st h st h2 (bind m f) w Q.
Proof.
  intros Hci Hm Hf. eapply serves_step; [by apply serves_quiet|].
  intros a w1 Hci1 _ [Ha Hs]. by apply Hf.
Qed.
Lemma serves_silent {X} st h (m : M X) w P :
  client_inv st h w -> quiet m w P -> serves [] st h st h m w (fun _ _ => True).
Proof. intros Hci Hm. eapply serves_weaken; [by apply serves_quiet | done]. Qed.

(** The queue is as much fuel as the loop needs, and one more for its end. *)
Lemma sender_loop_serves st fuel n (w : W) :
  client_inv st [] w -> (length (sendq_of w) < fuel)%nat ->
  serves [] st [] st [] (rpc_sender_loop fuel n) w (fun _ _ => True).
Proof.
  revert n w. induction fuel as [|fuel IH]; intros n w Hci Hf; [lia|]. simpl.
  destruct (n =? 0); [by apply serves_ret|].
  eapply serves_step; [by apply dequeue_serves|]. intros rc w1 Hci1 _ Hrc.
  destruct (sendq_of w) as [|k q].
  { subst rc. simpl. by apply serves_ret. }
  simpl in Hf. destruct (rc =? 0).
  - eapply serves_quietly; [done | by apply cl_upd_quiet|]. intros [] w2 Hci2 Hs2 _.
    apply IH; [done|]. rewrite (si_sendq _ _ Hs2), (proj1 Hrc). lia.
  - destruct (rc =? - ENOENT); [by apply serves_ret|]. apply IH; [done|]. rewrite (proj1 Hrc). lia.
Qed.

Lemma rpc_sender_serves st (w : W) :
  client_inv st [] w -> serves [] st [] st [] raft_client_rpc_sender w (fun _ _ => True).
Proof.
  intros Hci. unfold raft_client_rpc_sender, env_get, cl_get, rci_get.
  eapply serves_read; [reflexivity|]. eapply serves_read; [reflexivity|].
  eapply serves_quietly; [done | apply when_quiet; by apply cl_upd_quiet|]. intros [] w1 Hci1 _ _.
  eapply serves_read; [reflexivity|].
  destruct (_ <=? 0); [eapply serves_silent; [done | by apply rci_upd_quiet]|].
  eapply serves_read; [reflexivity|]. fold (rci_of w1). fold (sendq_of w1).
  eapply serves_step; [apply sender_loop_serves; [done | lia]|]. intros [] w2 Hci2 _ _.
  eapply serves_read; [reflexivity|]. eapply serves_silent; [done|]. apply when_quiet.
  eapply quiet_bind; [by apply rci_upd_quiet|]. intros [] w3 _ _. apply quiet_emit.
Qed.

Lemma instance_eq st held (w : W) :
  client_inv st held w -> raft_client_raft_instance_to_client_instance rci_self w = Some (tt, w).
Proof.
  intros Hci. destruct (ci_self _ _ _ _ Hci) as [H0 Hin].
  unfold raft_client_raft_instance_to_client_instance, raft_client_instance_lookup, cl_get.
  replace (rci_self =? 0) with false by lia.
  erewrite bind_eq; [|erewrite bind_eq by reflexivity; reflexivity].
  rewrite (bool_decide_eq_true_2 (rci_self ∈ _)) by done.
  by rewrite bool_decide_eq_true_2.
Qed.

Lemma evp_get_eq (w : W) : ri_ok (w_ri w) ->
  exists i, raft_net_evp_get RAFT_EVP_CLIENT w = Some (Some i, w).
Proof.
  intros Hri. unfold raft_net_evp_get, ri_get, gets.
  assert (is_Some (evp_slot (ri_evps (w_ri w)) RAFT_EVP_CLIENT 0)) as [i ->] by by apply evp_slot_client.
  by eexists.
Qed.

Lemma evp_cb_serves st (w : W) :
  client_inv st [] w -> serves [] st [] st [] (raft_client_evp_cb rci_self) w (fun _ _ => True).
Proof.
  intros Hci. unfold raft_client_evp_cb.
  destruct (evp_get_eq w) as [i Hi]; [apply Hci|].
  eapply serves_read; [done|]. eapply serves_read; [by eapply instance_eq|].
  rewrite bool_decide_eq_true_2 by by eexists. eapply serves_read; [reflexivity|].
  by apply rpc_sender_serves.
Qed.
End handlers.
