(* ===== verification/RcTimer.v ===== *)
(** The timer of the client library: the walk over the requests, their retries and
    their expiry, with the invariant and the machine of [RcLife]. *)
From stdpp Require Import base tactics list gmap.
From Stdlib Require Import ZArith Lia Strings.Byte.
From S2P Require Import Prelude RaftTypes World Net Entry RcTypes RaftClient RcSpec RcNetSpec RcLife RcInv.
Local Open Scope Z_scope.
Local Open Scope raft_scope.

Section handlers.
Context `{NC : NiovaCore} {OKC : NiovaCoreOk NC} {IO : NiovaIo} {OKIO : NiovaIoOk IO}
  {APP : RaftClientApp} {B T : Type}
  {RT : RefTree raft_net_client_user_id raft_client_sub_app T} {OKT : RefTreeOk RT}.
Context {rci_self : Z}.
Local Abbreviation user_id := raft_net_client_user_id.
Local Abbreviation W := (world B (client_ctx T)).
Local Abbreviation M := (M W).
Local Abbreviation client_inv := (client_inv rci_self).
Local Abbreviation serves := (serves rci_self).

(** ** The timer *)
Lemma fault_quiet p (w : W) : quiet (FAULT_INJECT p : M bool) w (fun _ => True).
Proof.
  unfold FAULT_INJECT, quiet, env_get. erewrite bind_eq by reflexivity.
  destruct (env_fault (w_env w) p); [by apply quiet_ret|].
  eexists _, _. split; [reflexivity|]. split; [|done]. by split; try done; split.
Qed.

(** The walk collects a request as expired. *)
Definition skipped (v : raft_client_sub_app) : bool :=
  rcrh_cancel (rcsa_rh v) || rcrh_sendq (rcsa_rh v) || rcrh_initializing (rcsa_rh v).
Definition overdue (now : timespec) (v : raft_client_sub_app) : bool :=
  negb (skipped v) && (request_queued_ms now (rcsa_rh v) >? timespec_2_msec (rcrh_timeout (rcsa_rh v))).

Definition no_delay (v : raft_client_sub_app) : raft_client_sub_app :=
  v <| rcsa_rh ::= fun h => h <| rcrh_leader_not_viable_delay := false |> |>.

(** One request of the walk that is not skipped is collected, queued again, or
    left alone. *)
Lemma take_moves expired viable ms (acc : list user_id * Z) k (w : W) v n :
  el w k = Some (v, n) -> skipped v = false ->
  exists acc' o q, moves (pending_request_take expired viable ms (rcsa_rh v) acc k) k w acc' o q [] /\
    if expired then acc'.1 = k :: acc.1 /\ o = Some (v, n + 1) /\ q = sendq_of w
    else acc'.1 = acc.1 /\ exists v1, (v1 = v \/ v1 = no_delay v) /\
       ((o = Some (v1, n) /\ q = sendq_of w) \/
        (o = Some (set_sendq true v1, n + 1) /\ q = sendq_of w ++ [k])).
Proof.
  intros He Hs. unfold skipped in Hs. apply orb_false_iff in Hs as [Hs Hi].
  apply orb_false_iff in Hs as [_ Hq]. unfold pending_request_take.
  destruct expired; [|destruct viable].
  - eexists (k :: acc.1, acc.2), _, _. split; [|done].
    eapply moves_step; [by apply ref_get_moves|]. intros w1 H1 He1 Hq1.
    eapply moves_conv; [apply moves_ret | done | done | done].
  - set (v1 := if rcrh_leader_not_viable_delay (rcsa_rh v) then no_delay v else v).
    assert (v1 = v \/ v1 = no_delay v) as Hv1 by (unfold v1; destruct (rcrh_leader_not_viable_delay _); auto).
    assert (moves (when (rcrh_leader_not_viable_delay (rcsa_rh v))
      (rh_upd k (fun h => h <| rcrh_leader_not_viable_delay := false |>))) k w tt (Some (v1, n)) (sendq_of w) [])
      as Hd.
    { unfold v1. destruct (rcrh_leader_not_viable_delay _); [by apply rh_upd_moves|].
      rewrite <- He. apply moves_ret. }
    destruct (_ || _ || _).
    + eexists (acc.1, acc.2 + 1), _, _. split; [|split; [done|]; exists v1; split; [done|]; by right].
      eapply moves_step; [apply Hd|]. intros w1 H1 He1 Hq1.
      eapply moves_step.
      { apply sendq_add_moves; [done | |]; unfold v1; by destruct (rcrh_leader_not_viable_delay _). }
      intros w2 H2 He2 Hq2. eapply moves_conv; [apply moves_ret | done | by rewrite Hq2, Hq1 | done].
    + eexists acc, _, _. split; [|split; [done|]; exists v1; split; [done|]; by left].
      eapply moves_step; [apply Hd|]. intros w1 H1 He1 Hq1.
      eapply moves_conv; [apply moves_ret | done | done | done].
  - exists acc, (Some (v, n)), (sendq_of w). split; [rewrite <- He; apply moves_ret|].
    split; [done|]. exists v. auto.
Qed.

Lemma check_request_moves now viable (acc : list user_id * Z) k (w : W) v n :
  el w k = Some (v, n) -> skipped v = false -> sa_base k v -> ops_ok w ->
  exists (expired : bool) acc' o q,
    moves (check_pending_request now viable acc k) k w acc' o q [] /\
    (overdue now v = true -> expired = true) /\
    if expired then acc'.1 = k :: acc.1 /\ o = Some (v, n + 1) /\ q = sendq_of w
    else acc'.1 = acc.1 /\ exists v1, (v1 = v \/ v1 = no_delay v) /\
       ((o = Some (v1, n) /\ q = sendq_of w) \/
        (o = Some (set_sendq true v1, n + 1) /\ q = sendq_of w ++ [k])).
Proof.
  intros He Hs Hb Hops. unfold check_pending_request.
  assert (exists b w1, (if request_queued_ms now (rcsa_rh v) >? timespec_2_msec (rcrh_timeout (rcsa_rh v))
      then ret true else FAULT_INJECT async_raft_client_request_expire) w = Some (b, w1)
    /\ silent w w1 /\ (overdue now v = true -> b = true)) as (b & w1 & Hf & H1 & Hov).
  { unfold overdue. rewrite Hs. destruct (_ >? _); [by exists true, w|].
    destruct (fault_quiet async_raft_client_request_expire w) as (b & w1 & ? & ? & _).
    by exists b, w1. }
  pose proof (silent_el _ _ k H1) as He1. rewrite He in He1.
  destruct (take_moves b viable (request_queued_ms now (rcsa_rh v)) acc k w1 v n He1 Hs)
    as (acc' & o & q & Hm & Hcase). rewrite (si_sendq _ _ H1) in Hcase.
  exists b, acc', o, q. split; [|done].
  assert (exists v' n', o = Some (v', n') /\ sa_base k v') as (v' & n' & -> & Hb').
  { destruct b; [destruct Hcase as (_ & -> & _); eauto|].
    destruct Hcase as (_ & v1 & Hv1 & [[-> _]|[-> _]]); eexists _, _; (split; [done|]).
    - destruct Hv1 as [->| ->]; [done | by apply sa_base_rh].
    - apply sa_base_rh; try done. destruct Hv1 as [->| ->]; [done | by apply sa_base_rh]. }
  eapply moves_bind_eq; [by apply (rh_get_eq _ _ _ _ _ He) | done|]. unfold id.
  unfold skipped in Hs. rewrite Hs. eapply moves_cut; [done | by apply silent_moved|].
  eapply moves_step; [done|]. intros w2 H2 He2 Hq2. eapply moves_step.
  { apply (add_item_moves _ _ _ _ _ He2); [apply Hb'|]. eapply moved_ops_ok; [done|].
    eapply calm_ops_ok; [apply H1 | done]. }
  intros w3 H3 He3 Hq3. eapply moves_conv; [apply moves_ret | done | congruence | done].
Qed.

Lemma b2z_refs v : sa_refs (set_sendq true v) =
  sa_refs v + b2z true - b2z (rcrh_sendq (rcsa_rh v)).
Proof. unfold sa_refs, sa_finished. simpl. lia. Qed.

Lemma request_of_same v v1 held n : v1 = v \/ v1 = no_delay v ->
  request_of held (Some (v1, n)) = request_of held (Some (v, n)).
Proof. by intros [->| ->]. Qed.

Lemma sa_inv_no_delay k held v n n' h' :
  sa_inv k held v n -> sa_refs v + Z.of_nat h' <= n' -> Z.of_nat h' + 1 <= n' ->
  sa_inv k h' (no_delay v) n'.
Proof.
  intros Hv Hr Hp. eapply sa_inv_change; try apply Hv; try done.
  - apply sa_base_rh; try done. apply Hv.
  - eapply iovs_ok_same; [apply Hv | done..].
Qed.
Lemma sa_inv_count k held v n h' n' :
  sa_inv k held v n -> sa_refs v + Z.of_nat h' <= n' -> Z.of_nat h' + 1 <= n' -> sa_inv k h' v n'.
Proof. intros [] ? ?. by split. Qed.
Lemma sa_inv_queued k held v n :
  sa_inv k held v n -> rcrh_sendq (rcsa_rh v) = false -> sa_inv k held (set_sendq true v) (n + 1).
Proof.
  intros Hv Hq. eapply sa_inv_change; try apply Hv.
  - apply sa_base_rh; try done. apply Hv.
  - eapply iovs_ok_same; [apply Hv | done..].
  - pose proof (av_refs _ _ _ _ Hv). fold (set_sendq true v). rewrite b2z_refs, Hq. simpl. lia.
  - pose proof (av_pos _ _ _ _ Hv). lia.
Qed.

(** The change of one entry by the walk. *)
Definition walked (expired : bool) (k : user_id) (acc acc' : list user_id * Z) (w w' : W)
    (v : raft_client_sub_app) (n : Z) : Prop :=
  (forall k', k' <> k -> el w' k' = el w k') /\
  if expired then acc'.1 = k :: acc.1 /\ el w' k = Some (v, n + 1) else acc'.1 = acc.1.

(** A request that is collected gets the reference of the walk. *)
Lemma collected_serves {X} st held (m : M X) (w : W) k v n acc' :
  client_inv st held w -> el w k = Some (v, n) -> k ∉ held ->
  rcrh_initializing (rcsa_rh v) = false -> rcrh_sendq (rcsa_rh v) = false ->
  moves m k w acc' (Some (v, n + 1)) (sendq_of w) [] ->
  serves [] st held st (k :: held) m w
    (fun x w' => x = acc' /\ moved k (Some (v, n + 1)) (sendq_of w) [] w w').
Proof.
  intros Hci He Hk Hi Hq Hm. destruct (ci_live' _ _ _ _ _ _ Hci He Hi) as [Hst Hv].
  pose proof (occ_none k held Hk) as Hocc. pose proof (av_refs _ _ _ _ Hv) as Hr.
  pose proof (av_pos _ _ _ _ Hv) as Hp.
  assert (k ∉ sendq_of w) as Hnq by (rewrite (ci_queue _ _ _ _ Hci k), He; simpl; congruence).
  eapply moves_serves_live; [done..| | | | | | |].
  - rewrite occ_cons_eq. apply entry_ok_live; [done..|]. eapply sa_inv_count; [done|lia|lia].
  - intros k' Hk'. by rewrite occ_cons_ne.
  - apply Hci.
  - done.
  - simpl. rewrite Hq. by split.
  - constructor.
  - simpl. rewrite Hi, occ_cons_eq.
    replace (n + 1 - _ - _) with (n - sa_refs v - Z.of_nat (occ k held)) by lia.
    constructor.
Qed.

(** A request that stays, as [v1], and may be queued again. *)
Lemma retried_serves {X} st held (m : M X) (w : W) k v v1 n acc' o q :
  client_inv st held w -> el w k = Some (v, n) -> k ∉ held -> skipped v = false ->
  v1 = v \/ v1 = no_delay v -> moves m k w acc' o q [] ->
  (o = Some (v1, n) /\ q = sendq_of w) \/
    (o = Some (set_sendq true v1, n + 1) /\ q = sendq_of w ++ [k]) ->
  serves [] st held st held m w (fun x w' => x = acc' /\ moved k o q [] w w').
Proof.
  intros Hci He Hk Hs Hv1 Hm Hcase. unfold skipped in Hs.
  apply orb_false_iff in Hs as [Hs Hi]. apply orb_false_iff in Hs as [Hc Hq].
  destruct (ci_live' _ _ _ _ _ _ Hci He Hi) as [Hst Hv].
  pose proof (occ_none k held Hk) as Hocc. rewrite Hocc in *.
  pose proof (av_refs _ _ _ _ Hv) as Hr. pose proof (av_pos _ _ _ _ Hv) as Hp.
  assert (k ∉ sendq_of w) as Hnq by (rewrite (ci_queue _ _ _ _ Hci k), He; simpl; congruence).
  assert (rcrh_initializing (rcsa_rh v1) = false /\ rcrh_sendq (rcsa_rh v1) = false
    /\ sa_refs v1 = sa_refs v /\ sa_finished v1 = sa_finished v) as (Hi1 & Hq1 & Hr1 & Hf1)
    by (by destruct Hv1 as [->| ->]).
  assert (sa_inv k 0 v1 n) as Hinv1.
  { destruct Hv1 as [->| ->]; [done|]. eapply sa_inv_no_delay; [done | lia | lia]. }
  destruct Hcase as [[-> ->]|[-> ->]].
  - eapply moves_serves_live; [done..| | | | | | |]; rewrite ?Hocc.
    + by apply entry_ok_live.
    + done.
    + apply Hci.
    + done.
    + simpl. rewrite Hq1. by split.
    + constructor.
    + rewrite (request_of_same v v1) by done. constructor.
  - eapply moves_serves_live; [done..| | | | | | |]; rewrite ?Hocc.
    + apply entry_ok_live; [done..|]. by apply sa_inv_queued.
    + done.
    + apply NoDup_app. split; [apply Hci|]. split; [|apply NoDup_singleton].
      intros x Hx ->%list_elem_of_singleton. done.
    + intros k' Hk'. rewrite elem_of_app, list_elem_of_singleton. tauto.
    + rewrite elem_of_app, list_elem_of_singleton. simpl. tauto.
    + constructor.
    + simpl. rewrite Hi, Hi1, Hq, b2z_refs, Hq1, Hr1. unfold sa_finished at 2. simpl.
      fold (sa_finished v1). rewrite Hf1. life_by (life_queue (sa_finished v) (n - sa_refs v)).
Qed.

Lemma check_request_serves now viable st (acc : list user_id * Z) k (w : W) v n :
  client_inv st acc.1 w -> el w k = Some (v, n) -> skipped v = false -> k ∉ acc.1 ->
  exists (expired : bool),
    (overdue now v = true -> expired = true) /\
    serves [] st acc.1 st (if expired then k :: acc.1 else acc.1)
      (check_pending_request now viable acc k) w
      (fun acc' w' => walked expired k acc acc' w w' v n).
Proof.
  intros Hci He Hs Hk. pose proof Hs as Hs0. unfold skipped in Hs0.
  apply orb_false_iff in Hs0 as [Hs0 Hi]. apply orb_false_iff in Hs0 as [_ Hq].
  destruct (ci_live' _ _ _ _ _ _ Hci He Hi) as [_ Hv].
  destruct (check_request_moves now viable acc k w v n He Hs) as (b & acc' & o & q & Hm & Hov & Hcase);
    [apply Hv | apply Hci |].
  exists b. split; [done|]. destruct b.
  - destruct Hcase as (Hacc & -> & ->).
    eapply serves_weaken; [by apply collected_serves|].
    intros x w' [-> Hmv]. split; [apply Hmv|]. split; [done | apply Hmv].
  - destruct Hcase as (Hacc & v1 & Hv1 & Hcase).
    eapply serves_weaken; [by eapply retried_serves|].
    intros x w' [-> Hmv]. split; [apply Hmv | done].
Qed.

(** Chaining a run that is known. *)
Lemma serves_after {X Y} st h h1 h2 (m : M X) (f : X -> M Y) w P Q a w1 :
  m w = Some (a, w1) -> evolves [] h h1 w w1 -> calm w w1 ->
  serves [] st h1 st h2 (f a) w1 P -> (forall y w2, P y w2 -> Q y w2) ->
  serves [] st h st h2 (bind m f) w Q.
Proof.
  intros Hm He Hc (b & w2 & Hf & Hi & He2 & Hc2 & HP) HPQ.
  exists b, w2. split; [by rewrite (bind_eq _ _ _ _ _ Hm)|]. split; [done|].
  split; [by eapply (evolves_trans [] [])|]. split; [by transitivity w1 | auto].
Qed.

Record collected (now : timespec) (ks held held' : list user_id) (w w' : W) : Prop := {
  co_other k : k ∉ ks -> el w' k = el w k;
  co_from k : k ∈ held' -> k ∈ held \/ (k ∈ ks /\ exists v n,
    el w k = Some (v, n) /\ skipped v = false /\ el w' k = Some (v, n + 1));
  co_overdue k v n : k ∈ ks -> el w k = Some (v, n) -> overdue now v = true -> k ∈ held';
  co_mono : held ⊆ held';
  co_nodup : NoDup held -> NoDup held';
}.

Lemma overdue_not_skipped now v : overdue now v = true -> skipped v = false.
Proof. unfold overdue. by destruct (skipped v). Qed.

Lemma check_loop_serves now viable st ks (acc : list user_id * Z) (w : W) :
  client_inv st acc.1 w -> NoDup ks -> (forall k, k ∈ ks -> is_Some (el w k)) ->
  (forall k, k ∈ ks -> k ∉ acc.1) ->
  exists held', serves [] st acc.1 st held' (check_pending_loop now viable acc ks) w
    (fun acc' w' => acc'.1 = held' /\ collected now ks acc.1 held' w w').
Proof.
  intros Hci Hnd. revert acc w Hci. induction Hnd as [|k ks Hk Hnd IH]; intros acc w Hci Hin Hdis.
  { exists acc.1. apply serves_ret; [done|]. split; [done|].
    split; try done; [intros k ?; by left | by intros ? ? ? ?%elem_of_nil]. }
  destruct (Hin k) as [[v n] He]; [apply list_elem_of_here|].
  assert (exists (b : bool), (overdue now v = true -> b = true) /\ (b = true -> skipped v = false) /\
    serves [] st acc.1 st (if b then k :: acc.1 else acc.1) (check_pending_request now viable acc k) w
      (fun acc' w' => walked b k acc acc' w w' v n)) as (b & Hov & Hbs & (acc1 & w1 & Hrun & Hci1 & Hev & Hcalm & Hoth & Hb)).
  { destruct (skipped v) eqn:Hs.
    - exists false. split; [by intros ?%overdue_not_skipped; congruence|]. split; [done|].
      exists acc, w. split.
      { unfold check_pending_request. rewrite (bind_eq _ _ _ _ _ (rh_get_eq _ _ _ _ _ He)).
        unfold id. unfold skipped in Hs. by rewrite Hs. }
      split; [done|]. split; [apply evolves_refl|]. done.
    - destruct (check_request_serves now viable st acc k w v n) as (b & Hb & Hserv); try done.
      { apply Hdis, list_elem_of_here. }
      by exists b. }
  assert (acc1.1 = if b then k :: acc.1 else acc.1) as Eacc by (destruct b; [apply Hb | done]).
  rewrite <- Eacc in *.
  destruct (IH acc1 w1) as (held' & Hserv); [done | | |].
  { intros k' Hk'. rewrite Hoth by congruence. apply Hin. by right. }
  { intros k' Hk'. assert (k' <> k) by congruence.
    assert (k' ∉ acc.1) by (apply Hdis; by right). rewrite Eacc. destruct b; [|done].
    by rewrite not_elem_of_cons. }
  exists held'. simpl. eapply serves_after; [done..|].
  intros acc' w2 [Hacc' Hco]. split; [done|]. split.
  - intros x [Hx1 Hx2]%not_elem_of_cons. rewrite (co_other _ _ _ _ _ _ Hco), Hoth by done. done.
  - intros x [Hx|(Hx & v' & n' & Hx1 & Hx2 & Hx3)]%(co_from _ _ _ _ _ _ Hco).
    + rewrite Eacc in Hx. destruct b; [|by left].
      apply elem_of_cons in Hx as [->|]; [|by left]. right. split; [apply list_elem_of_here|].
      exists v, n. split; [done|]. split; [auto|].
      rewrite (co_other _ _ _ _ _ _ Hco) by done. apply Hb.
    + right. split; [by right|]. exists v', n'. rewrite <- Hoth by congruence. done.
  - intros x v' n' [->|Hx]%elem_of_cons Hx1 Hx2.
    + rewrite He in Hx1. injection Hx1 as <- <-. apply (co_mono _ _ _ _ _ _ Hco).
      rewrite Eacc, Hov by done. apply list_elem_of_here.
    + apply (co_overdue _ _ _ _ _ _ Hco x v' n'); [done | by rewrite Hoth by congruence | done].
  - etransitivity; [|apply Hco]. rewrite Eacc. destruct b; [|done]. intros y Hy. by right.
  - intros Hnd'. apply Hco. rewrite Eacc. destruct b; [|done].
    constructor; [apply Hdis, list_elem_of_here | done].
Qed.

(** Canceling an expired request and putting the reference the walk took. *)
Lemma expire_moves error k (w : W) v n :
  el w k = Some (v, n) -> done_pre k w v -> rcrh_completing (rcsa_rh v) = false ->
  rcrh_cancel (rcsa_rh v) = false -> 2 <= n ->
  moves (raft_client_sub_app_cancel_pending_req k error ;;; raft_client_sub_app_put k) k w tt
    (if rcrh_ready (rcsa_rh v) then Some (v, n - 1)
     else ref_put (Some (sa_cancel error v, n - 1))) (sendq_of w)
    (if rcrh_ready (rcsa_rh v) then [] else put_effects (sa_cancel error v) (n - 1)).
Proof.
  intros He Hpre Hc Hcan Hn. destruct (rcrh_ready (rcsa_rh v)) eqn:Hr.
  - eapply moves_bind_eq; [| done |].
    { unfold raft_client_sub_app_cancel_pending_req.
      rewrite (bind_eq _ _ _ _ _ (rh_get_eq _ _ _ _ _ He)). unfold id. rewrite Hr, Hcan.
      rewrite andb_false_r. reflexivity. }
    eapply moves_conv; [apply (put_moves _ _ _ _ He); apply Hpre | | done |]; simpl;
      unfold put_effects; by replace (n =? 1) with false by lia.
  - eapply moves_step.
    { eapply moves_conv; [by apply (cancel_moves _ error _ _ _ He) | done | done |].
      unfold put_effects. by replace (n =? 1) with false by lia. }
    intros w1 H1 He1 Hq1. simpl in He1. replace (n =? 1) with false in He1 by lia.
    eapply moves_conv; [apply (put_moves _ _ _ _ He1) | done | done | done].
    + apply sa_base_finish, sa_base_rh; try done. apply Hpre.
    + eapply moved_cnt_ok; [done | | apply Hpre]. simpl. rewrite He.
      by replace (n =? 1) with false by lia.
Qed.

Lemma sa_cancel_inv error k v n held n' h' :
  sa_inv k held v n -> b2z (rcrh_sendq (rcsa_rh v)) + Z.of_nat h' <= n' -> Z.of_nat h' + 1 <= n' ->
  rcrh_ready (rcsa_rh v) = false -> sa_inv k h' (sa_cancel error v) n'.
Proof.
  intros Hv Hn Hp Hr. split; [|unfold sa_cancel, sa_finish; simpl..|done].
  - apply sa_base_finish, sa_base_rh; try done. apply Hv.
  - apply Hv.
  - by rewrite Hr.
  - eapply iovs_ok_same; [apply Hv | done..].
  - unfold sa_refs, sa_finished. simpl. lia.
Qed.

Lemma expire_serves error st held k (w : W) v n :
  client_inv st (k :: held) w -> el w k = Some (v, n) -> skipped v = false -> k ∉ held ->
  serves [] st (k :: held) st held
    (raft_client_sub_app_cancel_pending_req k error ;;; raft_client_sub_app_put k) w
    (fun _ w' => (forall k', k' <> k -> el w' k' = el w k') /\
       (rcrh_ready (rcsa_rh v) = false -> n = 2 ->
        el w' k = None /\ effects_of w' = effects_of w ++ [completion (sa_cancel error v)])
       /\ exists l, effects_of w' = effects_of w ++ l).
Proof.
  intros Hci He Hs Hk. unfold skipped in Hs. apply orb_false_iff in Hs as [Hs Hi].
  apply orb_false_iff in Hs as [Hc Hq].
  destruct (ci_live' _ _ _ _ _ _ Hci He Hi) as [Hst Hv].
  pose proof (av_refs _ _ _ _ Hv) as Hr. pose proof (av_pos _ _ _ _ Hv) as Hp.
  rewrite occ_cons_eq, occ_none in Hr, Hp, Hv by done.
  assert (sa_base k (sa_cancel error v)) as Hb'.
  { apply sa_base_finish, sa_base_rh; try done. apply Hv. }
  pose proof (expire_moves error k w v n He) as Hm.
  assert (k ∉ sendq_of w) as Hnq by (rewrite (ci_queue _ _ _ _ Hci k), He; simpl; congruence).
  eapply serves_weaken.
  { eapply moves_serves_live; [done | done | done | | | | | | | |].
    - apply Hm; [|apply Hv | done | lia]. eapply sa_inv_done_pre; [done..|]. apply Hv.
    - destruct (rcrh_ready (rcsa_rh v)) eqn:Hrdy; rewrite (occ_none k held) by done.
      + apply entry_ok_live; [done..|]. eapply sa_inv_count; [done | lia | lia].
      + simpl. destruct (n - 1 =? 1) eqn:E; [by apply entry_ok_gone|].
        apply entry_ok_live; [done..|]. eapply sa_cancel_inv; [done | rewrite Hq; simpl; lia | lia | done].
    - intros k' Hk'. by rewrite occ_cons_ne.
    - apply Hci.
    - done.
    - destruct (rcrh_ready _); simpl; [by rewrite Hq|]. destruct (n - 1 =? 1); simpl; [done|].
      unfold sa_cancel, sa_finish. simpl. by rewrite Hq.
    - destruct (rcrh_ready _); [constructor | by apply put_effects_key].
    - rewrite occ_cons_eq, (occ_none k held) by done. simpl. rewrite Hi, Hq.
      unfold sa_finished at 1. rewrite Hc. simpl.
      assert (sa_refs v = b2z (negb (rcrh_ready (rcsa_rh v)))) as Hsr
        by (unfold sa_refs, sa_finished; rewrite Hc, Hq; simpl; lia).
      destruct (rcrh_ready (rcsa_rh v)) eqn:Hrdy.
      + simpl. rewrite Hi, Hq. unfold sa_finished. rewrite Hc, Hrdy. simpl.
        rewrite Hsr. simpl. replace (n - 1 - 0 - Z.of_nat 0) with (n - 0 - Z.of_nat 1) by lia. apply life_refl.
      + rewrite ends_put_effects by done. rewrite Hsr. simpl. simpl in Hr. rewrite Hsr in Hr. simpl in Hr.
        destruct (Z.eqb_spec (n - 1) 1).
        * life_by life_finish.
        * unfold sa_cancel, sa_finish. simpl. rewrite Hi, Hq. unfold sa_finished, sa_refs. simpl.
          unfold sa_finished. simpl. life_by (life_finish_held (n - 1 - 1) ltac:(lia)). }
  intros [] w' [_ Hmv]. split; [apply Hmv|]. split; [|eexists; apply Hmv].
  intros Hrdy ->. rewrite (mv_el _ _ _ _ _ _ Hmv), (mv_effects _ _ _ _ _ _ Hmv), Hrdy. done.
Qed.

Definition expirable (w : W) (k : user_id) : Prop :=
  exists v n, el w k = Some (v, n) /\ skipped v = false.

Definition timed_out (w : W) (k : user_id) (w' : W) : Prop :=
  forall v, el w k = Some (v, 2) -> rcrh_ready (rcsa_rh v) = false ->
  el w' k = None /\ completion (sa_cancel (- ETIMEDOUT) v) ∈ effects_of w'.

Lemma expire_loop_serves st held (w : W) :
  client_inv st held w -> NoDup held -> (forall k, k ∈ held -> expirable w k) ->
  serves [] st held st [] (for_each held (fun k =>
      raft_client_sub_app_cancel_pending_req k (- ETIMEDOUT) ;;; raft_client_sub_app_put k)) w
    (fun _ w' => (forall k, k ∉ held -> el w' k = el w k) /\
       (exists l, effects_of w' = effects_of w ++ l) /\
       forall k, k ∈ held -> timed_out w k w').
Proof.
  intros Hci Hnd. revert w Hci. induction Hnd as [|k held Hk Hnd IH]; intros w Hci Hex.
  { apply serves_ret; [done|]. split; [done|]. split; [exists []; by rewrite app_nil_r|].
    by intros k ?%elem_of_nil. }
  destruct (Hex k) as (v & n & He & Hs); [apply list_elem_of_here|]. simpl.
  eapply serves_step; [by eapply expire_serves|].
  intros [] w1 Hci1 _ (Hoth & Hend & l1 & Hl1). eapply serves_weaken.
  { apply IH; [done|]. intros k' Hk'. unfold expirable. rewrite Hoth by congruence.
    apply Hex. by right. }
  intros [] w2 (Hoth2 & [l2 Hl2] & Hto). split; [|split].
  - intros x [Hx1 Hx2]%not_elem_of_cons. rewrite Hoth2, Hoth by done. done.
  - exists (l1 ++ l2). by rewrite Hl2, Hl1, app_assoc.
  - intros x [->|Hx]%elem_of_cons v' He' Hr'.
    + rewrite He in He'. injection He' as <- ->. destruct (Hend Hr' eq_refl) as [Hn Heff].
      split; [by rewrite Hoth2|]. rewrite Hl2, Heff, !elem_of_app, list_elem_of_singleton. auto.
    + apply Hto; [done | | done]. rewrite Hoth by congruence. done.
Qed.

Lemma history_reset_quiet ty (w : W) :
  quiet (raft_client_op_history_reset_cnt ty : M unit) w (fun _ => True).
Proof.
  eexists tt, _. split; [reflexivity|]. split; [|done]. split; try done. split; try done.
  intros t. unfold rci_of. simpl. by case_bool_decide.
Qed.

(** After the walk every overdue request that nobody else holds has timed out. *)
Lemma check_pending_serves st (w : W) :
  client_inv st [] w ->
  serves [] st [] st [] raft_client_check_pending_requests w
    (fun _ w' => forall k v, el w k = Some (v, 1) -> overdue (env_realtime (w_env w)) v = true ->
       rcrh_ready (rcsa_rh v) = false ->
       el w' k = None /\ completion (sa_cancel (- ETIMEDOUT) v) ∈ effects_of w').
Proof.
  intros Hci. unfold raft_client_check_pending_requests, env_get.
  eapply serves_read; [reflexivity|].
  destruct (viable_eq w) as (b & Hb & _); [apply Hci|]. eapply serves_read; [done|].
  eapply serves_quietly; [done | apply history_reset_quiet|]. intros [] w1 Hci1 Hs1 _.
  unfold rci_get, cl_get. eapply serves_read; [reflexivity|]. fold (rci_of w1).
  destruct (check_loop_serves (env_realtime (w_env w)) b st
    (RT_FOREACH_LOCKED (rci_sub_apps (rci_of w1))) ([], 0) w1) as (held & Hserv);
    [done | apply rt_foreach_nodup | by intros k ?%rt_foreach_elem | by intros k _ ?%elem_of_nil |].
  eapply serves_step; [apply Hserv|]. intros acc w2 Hci2 _ [Hacc Hco].
  eapply serves_quietly; [done | apply when_quiet, notify_quiet, Hci2|].
  intros [] w3 Hci3 Hs3 _. rewrite Hacc.
  eapply serves_weaken.
  { apply expire_loop_serves; [done | apply Hco; constructor|].
    intros k Hk. apply (co_from _ _ _ _ _ _ Hco) in Hk as [?%elem_of_nil|(_ & v & n & _ & Hs & He)]; [done|].
    exists v, (n + 1). by rewrite (silent_el _ _ _ Hs3). }
  intros [] w4 (_ & _ & Hto) k v He Hov Hr. rewrite <- (silent_el _ _ k Hs1) in He.
  assert (k ∈ held) as Hk.
  { apply (co_overdue _ _ _ _ _ _ Hco k v 1); [|done|done].
    apply rt_foreach_elem. fold (el w1 k). rewrite He. by eexists. }
  apply (Hto k Hk); [|done].
  apply (co_from _ _ _ _ _ _ Hco) in Hk as [?%elem_of_nil|(_ & v' & n' & He' & _ & He2)]; [done|].
  rewrite He in He'. injection He' as <- <-. by rewrite (silent_el _ _ _ Hs3).
Qed.

Lemma timerfd_cb_serves st (w : W) :
  client_inv st [] w ->
  serves [] st [] st [] (raft_client_timerfd_cb rci_self) w
    (fun _ w' => forall k v, el w k = Some (v, 1) -> overdue (env_realtime (w_env w)) v = true ->
       rcrh_ready (rcsa_rh v) = false ->
       el w' k = None /\ completion (sa_cancel (- ETIMEDOUT) v) ∈ effects_of w').
Proof.
  intros Hci. unfold raft_client_timerfd_cb. eapply serves_read; [by eapply instance_eq|].
  destruct (viable_eq w) as (b & Hb & Hl); [apply Hci|]. eapply serves_read; [done|].
  eapply (serves_quietly _ _ _ _ _ _ (fun _ => True)); [done | |].
  - destruct b.
    + destruct (Hl eq_refl) as [csn Hcsn]. unfold quiet, ri_get. erewrite bind_eq by reflexivity.
      rewrite Hcsn. erewrite bind_eq by reflexivity.
      destruct (needs_ping_eq csn w) as [p Hp]; [apply Hci|]. rewrite (bind_eq _ _ _ _ _ Hp).
      apply when_quiet, ping_quiet, Hci.
    + eapply quiet_bind; [apply set_ping_target_quiet, Hci|]. intros [] w1 H1 _.
      apply ping_quiet. eapply silent_ri_ok; [done | apply Hci].
  - intros [] w1 Hci1 Hs1 _. eapply serves_step; [by apply check_pending_serves|].
    intros [] w2 Hci2 _ Hto. eapply serves_weaken.
    { eapply serves_quiet; [done | apply quiet_emit]. }
    intros [] w3 [_ Hs3] k v He Hov Hr.
    rewrite (silent_el _ _ _ Hs3), (si_effects _ _ Hs3). apply Hto; [|by rewrite (calm_real _ _ (si_calm _ _ Hs1))|done].
    by rewrite (silent_el _ _ _ Hs1).
Qed.
End handlers.
