(* ===== verification/RcReplyInv.v ===== *)
(** The receive handler of the client library, with the invariant and the machine of
    [RcLife]: a request only changes through a reply that matches it. *)
From stdpp Require Import base tactics list gmap.
From Stdlib Require Import ZArith Lia Strings.Byte.
From S2P Require Import Prelude RaftTypes World Net Entry RcTypes RaftClient RcSpec RcNetSpec RcLife RcInv RcTimer.
Local Open Scope Z_scope.
Local Open Scope raft_scope.

Section handlers.
Context `{NC : NiovaCore} {OKC : NiovaCoreOk NC} {IO : NiovaIo} {OKIO : NiovaIoOk IO}
  {APP : RaftClientApp} {B T : Type}
  {RT : RefTree raft_net_client_user_id raft_client_sub_app T} {OKT : RefTreeOk RT}.
Context {rci_self : Z}.
Local Abbreviation user_id := raft_net_client_user_id.
Local Abbreviation W := (world B (client_ctx T)).
Local Abbreviation M := (M W).
Local Abbreviation client_inv := (client_inv rci_self).
Local Abbreviation serves := (serves rci_self).

(** ** Replies *)

(** What the handling of a reply does not touch before the request is done. *)
Record reply_kept (h h' : raft_client_request_handle) : Prop := {
  rk_init : rcrh_initializing h' = rcrh_initializing h;
  rk_ready : rcrh_ready h' = rcrh_ready h;
  rk_cancel : rcrh_cancel h' = rcrh_cancel h;
  rk_sendq : rcrh_sendq h' = rcrh_sendq h;
  rk_cb_exec : rcrh_cb_exec h' = rcrh_cb_exec h;
  rk_history : rcrh_history_cache h' = rcrh_history_cache h;
  rk_blocking : rcrh_blocking h' = rcrh_blocking h;
  rk_notifier : rcrh_completion_notifier h' = rcrh_completion_notifier h;
  rk_cb : rcrh_async_cb h' = rcrh_async_cb h;
  rk_arg : rcrh_arg h' = rcrh_arg h;
  rk_iovs : length (rcrh_iovs h') = length (rcrh_iovs h);
  rk_send : rcrh_send_niovs h' = rcrh_send_niovs h;
  rk_recv : rcrh_recv_niovs h' = rcrh_recv_niovs h;
  rk_alloc : rcrh_alloc_get_buffer_for_user h' = rcrh_alloc_get_buffer_for_user h;
}.
#[local] Instance reply_kept_preorder : PreOrder reply_kept.
Proof.
  split.
  - intros h. by split.
  - intros h1 h2 h3 [] []. split; congruence.
Qed.

Lemma reply_kept_base k v h' :
  sa_base k v -> reply_kept (rcsa_rh v) h' -> sa_base k (v <| rcsa_rh ::= fun _ => h' |>).
Proof.
  intros Hb Hk. split; simpl.
  - apply Hb.
  - rewrite (rk_cb_exec _ _ Hk). apply Hb.
  - rewrite (rk_history _ _ Hk). apply Hb.
  - rewrite (rk_blocking _ _ Hk), (rk_notifier _ _ Hk). apply Hb.
Qed.
Lemma reply_kept_iovs h h' : iovs_ok h -> reply_kept h h' -> iovs_ok h'.
Proof.
  intros Hio Hk. split.
  - rewrite (rk_iovs _ _ Hk). apply Hio.
  - rewrite (rk_send _ _ Hk). apply Hio.
  - rewrite (rk_recv _ _ Hk). apply Hio.
  - rewrite (rk_alloc _ _ Hk), (rk_send _ _ Hk). apply Hio.
Qed.

Lemma rh_upd_moves' k f (w : W) v n :
  el w k = Some (v, n) ->
  moves (rh_upd k f) k w tt (Some (v <| rcsa_rh ::= fun _ => f (rcsa_rh v) |>, n)) (sendq_of w) [].
Proof. intros He. by eapply moves_conv; [apply rh_upd_moves | | |]. Qed.

Lemma iov_in_array h i : iovs_ok h -> 0 <= i < 8 -> is_Some (znth (rcrh_iovs h) i).
Proof. intros Hio Hi. apply znth_is_Some. rewrite (io_len _ Hio). lia. Qed.

Lemma reply_alloc_moves error k (w : W) v n :
  el w k = Some (v, n) -> iovs_ok (rcsa_rh v) ->
  exists err h', moves (reply_alloc k (rcsa_rh v) error) k w err
      (Some (v <| rcsa_rh ::= fun _ => h' |>, n)) (sendq_of w) [] /\
    reply_kept (rcsa_rh v) h' /\ rcrh_completing h' = rcrh_completing (rcsa_rh v).
Proof.
  intros He Hio. pose proof (io_send _ Hio) as H0. pose proof (io_alloc _ Hio) as Ha.
  assert (forall e : Z, moves (ret e) k w e (Some (v <| rcsa_rh ::= fun _ => rcsa_rh v |>, n)) (sendq_of w) [])
    as Hsame.
  { intros e. eapply moves_conv; [apply moves_ret | | done..]. rewrite He. by destruct v. }
  unfold reply_alloc. destruct (rcrh_alloc_get_buffer_for_user (rcsa_rh v)) eqn:Eal; simpl.
  2: { eexists _, _. split; [apply Hsame|]. split; [reflexivity | done]. }
  specialize (Ha eq_refl).
  destruct (iov_in_array _ (rcrh_send_niovs (rcsa_rh v)) Hio) as [iov0 Hiov0]; [lia|].
  destruct (iov_in_array _ (rcrh_send_niovs (rcsa_rh v) + 1) Hio) as [iov1 Hiov1]; [lia|].
  rewrite Hiov0, Hiov1. destruct (rcrh_reply_size (rcsa_rh v) >? iov_len iov0) eqn:Esz.
  2: { eexists _, _. split.
       - eapply moves_bind_eq; [reflexivity..|]. rewrite Esz. apply Hsame.
       - split; [reflexivity | done]. }
  do 2 eexists. split.
  - eapply moves_bind_eq; [reflexivity..|]. rewrite Esz. simpl negb. cbv iota.
    eapply moves_bind_eq; [reflexivity..|].
    eapply moves_step; [by apply rh_upd_moves'|]. intros w1 H1 He1 Hq1.
    eapply moves_conv; [apply moves_ret | apply He1 | done..].
  - split; [|done]. split; try done. simpl. apply length_zupd.
Qed.

Lemma reply_prepare_moves rcrm k (w : W) v n :
  el w k = Some (v, n) -> iovs_ok (rcsa_rh v) ->
  exists err h', moves (reply_prepare k rcrm) k w err
      (Some (v <| rcsa_rh ::= fun _ => h' |>, n)) (sendq_of w) [] /\
    reply_kept (rcsa_rh v) h' /\ rcrh_completing h' = true.
Proof.
  intros He Hio. unfold reply_prepare.
  destruct (rh_upd_moves' k (fun h => h <| rcrh_reply_size := rcrm_data_size rcrm |>) w v n He)
    as (w1 & Hr1 & H1).
  set (h1 := (rcsa_rh v) <| rcrh_reply_size := rcrm_data_size rcrm |>) in *.
  pose proof (mv_el _ _ _ _ _ _ H1) as He1. pose proof (mv_sendq _ _ _ _ _ _ H1) as Hq1.
  assert (reply_kept (rcsa_rh v) h1) as Hk1 by by split.
  set (e0 := if rcrh_reply_size h1 >? niova_io_iovs_total_size_get (iovs_from h1) then - E2BIG else 0).
  destruct (reply_alloc_moves e0 k w1 _ n He1) as (err & h2 & (w2 & Hr2 & H2) & Hk2 & Hc2).
  { by eapply reply_kept_iovs. }
  exists err, (h2 <| rcrh_completing := true |>). split; [|split; [|done]].
  - eapply moves_cut; [done..|].
    eapply moves_bind_eq; [by apply (rh_get_eq _ _ _ _ _ He1) | done|].
    eapply moves_cut; [done..|].
    eapply moves_step; [apply rh_upd_moves', (mv_el _ _ _ _ _ _ H2)|]. intros w3 H3 He3 Hq3.
    eapply moves_conv; [apply moves_ret | done | | done].
    by rewrite Hq3, (mv_sendq _ _ _ _ _ _ H2).
  - transitivity h1; [done|]. transitivity h2; [done|]. by split.
Qed.

Lemma effect_moves k e (w : W) :
  moves (effect e : M unit) k w tt (el w k) (sendq_of w) [e].
Proof.
  eexists. split; [reflexivity|]. split; try done.
  unfold cnt_of, rci_of. simpl. lia.
Qed.

Lemma reply_copy_moves rcrm k (w : W) v n :
  el w k = Some (v, n) -> 0 <= rcrm_data_size rcrm ->
  exists h' l, moves (reply_copy k rcrm) k w tt
      (Some (v <| rcsa_rh ::= fun _ => h' |>, n)) (sendq_of w) l /\
    reply_kept (rcsa_rh v) h' /\ rcrh_completing h' = rcrh_completing (rcsa_rh v) /\
    Forall (fun e => exists data to, e = Copied k data to) l.
Proof.
  intros He Hsz. unfold reply_copy.
  destruct (rcrh_recv_niovs (rcsa_rh v) =? 0) eqn:Er.
  { exists (rcsa_rh v), []. split; [|split; [reflexivity | done]].
    eapply moves_bind_eq; [by apply (rh_get_eq _ _ _ _ _ He) | done|]. unfold id. rewrite Er. simpl.
    eapply moves_conv; [apply moves_ret | | done..]. rewrite He. by destruct v. }
  set (iovs := iovs_from (rcsa_rh v)). set (total := niova_io_iovs_total_size_get iovs).
  assert (niova_io_copy_to_iovs (rcrm_data rcrm) (rcrm_data_size rcrm) iovs
    = Z.min (rcrm_data_size rcrm) total) as Hcopy by by apply copy_to_iovs_min.
  assert (0 <= total) as Ht by apply iovs_total_size_nonneg.
  do 2 eexists. split; [|split; [|split]].
  - eapply moves_bind_eq; [by apply (rh_get_eq _ _ _ _ _ He) | done|]. unfold id. rewrite Er. simpl.
    fold iovs total. rewrite Hcopy.
    replace (0 <=? Z.min (rcrm_data_size rcrm) total) with true by lia.
    eapply moves_bind_eq; [reflexivity..|]. rewrite Z.eqb_refl.
    eapply moves_bind_eq; [reflexivity..|].
    eapply (moves_bind _ _ _ _ _ _ _ _ [_] _ _ []); [apply effect_moves|]. intros w1 H1.
    eapply moves_conv; [apply rh_upd_moves' | done | apply H1 | done].
    rewrite <- He. apply H1.
  - by split.
  - done.
  - constructor; [by eexists _, _ | constructor].
Qed.

(** The part of raft_client_reply_try_complete() that completes a request. *)
Record replied (k : user_id) (v v' : raft_client_sub_app) : Prop := {
  rd_base : sa_base k v';
  rd_init : rcrh_initializing (rcsa_rh v') = rcrh_initializing (rcsa_rh v);
  rd_ready : rcrh_ready (rcsa_rh v') = true;
  rd_cancel : rcrh_cancel (rcsa_rh v') = false;
  rd_completing : rcrh_completing (rcsa_rh v') = false;
  rd_sendq : rcrh_sendq (rcsa_rh v') = rcrh_sendq (rcsa_rh v);
  rd_iovs : iovs_ok (rcsa_rh v');
}.

Lemma reply_finish_moves rcrm err k (w : W) v n :
  el w k = Some (v, n) -> done_pre k w v -> rcrh_ready (rcsa_rh v) = false ->
  rcrh_cancel (rcsa_rh v) = false -> rcrh_completing (rcsa_rh v) = true ->
  iovs_ok (rcsa_rh v) -> n <> 1 ->
  exists v', moves (reply_finish k rcrm err) k w tt (Some (v', n - 1)) (sendq_of w) [] /\
    replied k v v'.
Proof.
  intros He Hpre Hr Hc Hcomp Hio Hn. unfold reply_finish, rci_get, cl_get.
  set (e := if negb (err =? 0) then err else rcrm_app_error rcrm).
  set (f := fun h => h <| rcrh_completion_latency_ms :=
    u64 (timespec_2_msec (rci_last_msg_recvd (rci_of w)) - timespec_2_msec (rcrh_submitted h)) |>).
  assert (sa_base k (v <| rcsa_rh ::= f |>)) as Hb1 by (apply sa_base_rh; try done; apply Hpre).
  exists (sa_finish e (v <| rcsa_rh ::= f |>)). split.
  - eapply moves_bind_eq; [reflexivity..|].
    eapply moves_step; [by apply (rh_upd_moves k f)|]. intros w1 H1 He1 Hq1.
    eapply moves_conv; [apply (done_moves _ e _ _ _ He1) | | done |].
    + eapply done_pre_moved; [done..| by rewrite He | done].
    + done.
    + simpl. by rewrite Hc, Hcomp.
    + simpl. by replace (n =? 1) with false by lia.
    + unfold put_effects. by replace (n =? 1) with false by lia.
  - split; [by apply sa_base_finish|..]; unfold sa_finish; simpl; rewrite Hc; try done.
    eapply iovs_ok_same; done.
Qed.

Lemma reply_complete_moves rcrm k (w : W) v n :
  el w k = Some (v, n) -> done_pre k w v -> rcrh_ready (rcsa_rh v) = false ->
  rcrh_cancel (rcsa_rh v) = false -> iovs_ok (rcsa_rh v) -> n <> 1 -> 0 <= rcrm_data_size rcrm ->
  exists v' l, moves (reply_complete k rcrm) k w tt (Some (v', n - 1)) (sendq_of w) l /\
    replied k v v' /\ Forall (fun e => exists data to, e = Copied k data to) l.
Proof.
  intros He Hpre Hr Hc Hio Hn Hsz. unfold reply_complete.
  destruct (reply_prepare_moves rcrm k w v n He Hio) as (err & h1 & (w1 & Hr1 & H1) & Hk1 & Hc1).
  set (v1 := v <| rcsa_rh ::= fun _ => h1 |>) in *.
  pose proof (mv_el _ _ _ _ _ _ H1) as He1. pose proof (mv_sendq _ _ _ _ _ _ H1) as Hq1.
  assert (exists h2 l, moves (when (err =? 0) (reply_copy k rcrm)) k w1 tt
      (Some (v1 <| rcsa_rh ::= fun _ => h2 |>, n)) (sendq_of w1) l /\
    reply_kept h1 h2 /\ rcrh_completing h2 = true /\
    Forall (fun e => exists data to, e = Copied k data to) l) as (h2 & l & Hm2 & Hk2 & Hc2 & Hl).
  { destruct (err =? 0).
    - destruct (reply_copy_moves rcrm k w1 v1 n He1 Hsz) as (h2 & l & ? & ? & Hc2 & ?).
      exists h2, l. split_and!; try done. by rewrite Hc2.
    - exists h1, []. split_and!; try done. simpl. eapply moves_conv; [apply moves_ret | apply He1 | done..]. }
  assert (reply_kept (rcsa_rh v) h2) as Hk by by transitivity h1.
  destruct Hm2 as (w2 & Hr2 & H2).
  pose proof (mv_el _ _ _ _ _ _ H2) as He2. pose proof (mv_sendq _ _ _ _ _ _ H2) as Hq2.
  destruct (reply_finish_moves rcrm err k w2 _ n He2) as (v' & Hm3 & Hrd); simpl.
  - split.
    + apply (reply_kept_base k v); [apply Hpre | done].
    + eapply moved_cnt_ok; [done | by rewrite He1 |].
      eapply moved_cnt_ok; [done | by rewrite He | apply Hpre].
    + eapply moved_ops_ok; [done|]. eapply moved_ops_ok; [done | apply Hpre].
  - by rewrite (rk_ready _ _ Hk).
  - by rewrite (rk_cancel _ _ Hk).
  - done.
  - by eapply reply_kept_iovs.
  - done.
  - exists v', l. split; [|split; [|done]].
    + eapply moves_cut; [done..|]. rewrite <- (app_nil_r l).
      eapply moves_cut_effects; [done..|]. eapply moves_conv; [done | done | congruence | done].
    + destruct Hrd as [? Hi ? ? ? Hs ?]. split; try done; simpl in *.
      * by rewrite Hi, (rk_init _ _ Hk).
      * by rewrite Hs, (rk_sendq _ _ Hk).
Qed.

(** The entry after a reply: the references of the constructor and of the look-up
    are put. *)
Lemma replied_entry k v n v' :
  sa_inv k 0 v n -> rcrh_initializing (rcsa_rh v) = false -> sa_finished v = false ->
  replied k v v' ->
  let o := ref_put (Some (v', n)) in
  (forall st : list user_id, k ∉ st -> entry_ok (bool_decide (k ∈ st)) k 0 o) /\
  (entry_queued o = true <-> rcrh_sendq (rcsa_rh v) = true) /\
  life (request_of 0 (Some (v, n))) 0 (ends k (put_effects v' n)) (request_of 0 o).
Proof.
  intros Hv Hi Hf [Hb Hi' Hr Hc Hcomp Hq Hio] o. rewrite Hi in Hi'.
  assert (sa_finished v' = true) as Hf' by (unfold sa_finished; by rewrite Hc, Hr).
  pose proof (av_refs _ _ _ _ Hv) as Hrefs. pose proof (av_pos _ _ _ _ Hv) as Hp.
  assert (sa_refs v' = b2z (rcrh_sendq (rcsa_rh v)) /\ sa_refs v = 1 + b2z (rcrh_sendq (rcsa_rh v)))
    as [Hr1 Hr2] by (unfold sa_refs; rewrite Hf, Hf', Hq; simpl; lia).
  rewrite Hr2 in Hrefs. rewrite ends_put_effects by done. unfold o, ref_put.
  destruct (Z.eqb_spec n 1) as [->|Hn].
  - destruct (rcrh_sendq (rcsa_rh v)) eqn:Eq; simpl in Hrefs; [lia|].
    split; [intros; by apply entry_ok_gone|]. split; [done|].
    simpl. rewrite Hi, Eq, Hf, Hr2. simpl. life_by life_finish.
  - split; [|split].
    + intros st Hst. apply entry_ok_live; [done..|]. split; try done.
      * by rewrite Hc.
      * rewrite Hr1. lia.
      * lia.
    + simpl. by rewrite Hq.
    + simpl. rewrite Hi, Hi', Hf, Hf', Hq, Hr1, Hr2.
      destruct (rcrh_sendq (rcsa_rh v)) eqn:Eq; simpl in *.
      * life_by (life_finish_queued (n - 2)).
      * life_by (life_finish_held (n - 1) ltac:(lia)).
Qed.

Lemma ends_copied k l l' :
  Forall (fun e => exists data to, e = Copied k data to) l -> ends k (l ++ l') = ends k l'.
Proof.
  intros Hl. rewrite ends_app. replace (ends k l) with 0%nat; [done|].
  induction Hl as [|e l (data & to & ->) _ IH]; [done|]. unfold ends in *.
  by rewrite filter_cons_False by (by intros []).
Qed.

(** Looking a request up and putting it back. *)
Lemma lookup_put_moves k (w : W) v n :
  el w k = Some (v, n) -> sa_base k v -> cnt_ok w -> 1 <= n ->
  forall w1, moved k (Some (v, n + 1)) (sendq_of w) [] w w1 ->
  moves (raft_client_sub_app_put k) k w1 tt (Some (v, n)) (sendq_of w) [].
Proof.
  intros He Hb Hc Hn w1 H1. eapply moves_conv; [apply (put_moves _ _ v (n + 1)) | | |].
  - apply H1.
  - done.
  - eapply moved_cnt_ok; [done | by rewrite He | done].
  - simpl. replace (n + 1 =? 1) with false by lia. by replace (n + 1 - 1) with n by lia.
  - apply H1.
  - unfold put_effects. by replace (n + 1 =? 1) with false by lia.
Qed.

(** A handler that leaves every entry as it was. *)
Lemma unmoved_serves {X} st held (m : M X) (w : W) k a :
  client_inv st held w -> moves m k w a (el w k) (sendq_of w) [] ->
  serves [] st held st held m w (fun b w' => b = a /\ moved k (el w k) (sendq_of w) [] w w').
Proof.
  intros Hci Hm. eapply moves_serves; [done..| | | | | | | | | |]; try done.
  - apply Hci.
  - apply Hci.
  - apply Hci.
  - lia.
  - apply life_refl.
Qed.

(** A request only changes through a reply that names it and carries its msg id. *)
Definition reply_matches (rcrm : raft_client_rpc_msg) (w : W) (k : user_id) : Prop :=
  rci_obj_id_cb (rcrm_data rcrm) (rcrm_data_size rcrm) = (0, k) /\
  exists v n, el w k = Some (v, n) /\ rcrh_initializing (rcsa_rh v) = false /\
    sa_finished v = false /\ rcrm_msg_id rcrm = raft_client_sub_app_2_msg_id v.

Definition changes_only (P : user_id -> Prop) (w w' : W) : Prop :=
  forall k, el w' k = el w k \/ P k.

Definition reply_accepted (rcrm : raft_client_rpc_msg) (v : raft_client_sub_app) : bool :=
  negb (rcrh_initializing (rcsa_rh v)) && (rcrm_msg_id rcrm =? raft_client_sub_app_2_msg_id v)
  && negb (sa_finished v).

Lemma reply_ignored_moves rcrm k (w : W) v n :
  el w k = Some (v, n + 1) -> sa_base k v -> cnt_ok w -> 1 <= n ->
  rcrh_completing (rcsa_rh v) = false -> reply_accepted rcrm v = false ->
  moves (reply_to_sub_app rcrm k) k w tt (Some (v, n)) (sendq_of w) [].
Proof.
  intros He Hb Hc Hn Hcomp Hacc. unfold reply_to_sub_app.
  eapply moves_bind_eq; [by apply (sa_get_eq _ _ _ _ He) | done|]. cbv zeta.
  assert (moves (raft_client_sub_app_put k) k w tt (Some (v, n)) (sendq_of w) []) as Hput.
  { eapply moves_conv; [apply (put_moves _ _ _ _ He); done | | done |]; simpl; unfold put_effects;
      replace (n + 1 =? 1) with false by lia; [|done]. by replace (n + 1 - 1) with n by lia. }
  unfold reply_accepted, sa_finished in Hacc.
  destruct (rcrh_initializing _); [done|]. destruct (_ =? _); [|done]. simpl in *.
  destruct (rcrh_ready _) eqn:Er; [done|]. rewrite Hcomp.
  eapply moves_bind_eq; [reflexivity..|].
  destruct (rcrh_cancel _); [|done]. by eapply moves_bind_eq; [reflexivity..|].
Qed.

Lemma reply_accepted_moves rcrm k (w : W) v n :
  el w k = Some (v, n + 1) -> done_pre k w v -> 1 <= n -> iovs_ok (rcsa_rh v) ->
  rcrh_completing (rcsa_rh v) = false -> reply_accepted rcrm v = true -> 0 <= rcrm_data_size rcrm ->
  exists v' l, moves (reply_to_sub_app rcrm k) k w tt (ref_put (Some (v', n))) (sendq_of w)
      (l ++ put_effects v' n) /\
    replied k v v' /\ Forall (fun e => exists data to, e = Copied k data to) l.
Proof.
  intros He Hpre Hn Hio Hcomp Hacc Hsz. unfold reply_accepted in Hacc.
  apply andb_true_iff in Hacc as [Hacc Hf]. apply andb_true_iff in Hacc as [Hi Hid].
  apply negb_true_iff in Hi, Hf. pose proof Hf as Hf'. unfold sa_finished in Hf'.
  apply orb_false_iff in Hf' as [Hcan Hr].
  destruct (reply_complete_moves rcrm k w v (n + 1) He Hpre) as (v' & l & (w1 & Hr1 & H1) & Hrd & Hl);
    try done; [lia|].
  replace (n + 1 - 1) with n in H1 by lia.
  exists v', l. split; [|done]. unfold reply_to_sub_app.
  eapply moves_bind_eq; [by apply (sa_get_eq _ _ _ _ He) | done|]. cbv zeta.
  rewrite Hi, Hid, Hr, Hcomp, Hcan. simpl.
  eapply moves_bind_eq; [reflexivity..|].
  eapply moves_cut_effects; [done..|].
  eapply moves_conv; [apply (put_moves _ _ v' n) | done | apply H1 | done].
  - apply H1.
  - apply Hrd.
  - eapply moved_cnt_ok; [done | by rewrite He | apply Hpre].
Qed.

Lemma try_complete_serves st rcrm (w : W) :
  client_inv st [] w -> 0 <= rcrm_data_size rcrm ->
  serves [] st [] st [] (raft_client_reply_try_complete rcrm) w
    (fun _ w' => changes_only (reply_matches rcrm w) w w').
Proof.
  intros Hci Hsz. unfold raft_client_reply_try_complete.
  destruct (rci_obj_id_cb (rcrm_data rcrm) (rcrm_data_size rcrm)) as [rc k] eqn:Eid.
  destruct (Z.eqb_spec rc 0) as [->|]; simpl; [|apply serves_ret; [done | by left]].
  destruct (el w k) as [[v n]|] eqn:He.
  2: { eapply serves_read; [by apply lookup_absent|]. apply serves_ret; [done | by left]. }
  pose proof (ci_entry _ _ _ _ Hci k) as Ho. rewrite He in Ho. simpl in Ho.
  pose proof (ci_cnt_ok _ _ _ _ _ _ _ Hci He) as Hcnt.
  destruct (lookup_moves k w v n He) as (w1 & Hl & H1).
  pose proof (mv_el _ _ _ _ _ _ H1) as He1. pose proof (mv_sendq _ _ _ _ _ _ H1) as Hq1.
  assert (cnt_ok w1) as Hcnt1 by (eapply moved_cnt_ok; [done | by rewrite He | done]).
  destruct (reply_accepted rcrm v) eqn:Hacc.
  - pose proof Hacc as Hacc'. unfold reply_accepted in Hacc'.
    apply andb_true_iff in Hacc' as [Hacc' Hf]. apply andb_true_iff in Hacc' as [Hi Hid].
    apply negb_true_iff in Hi, Hf. rewrite Hi in Ho. destruct Ho as [Hst%bool_decide_eq_false Hv].
    pose proof (av_pos _ _ _ _ Hv) as Hp. change (occ k []) with 0%nat in *.
    destruct (reply_accepted_moves rcrm k w1 v n He1) as (v' & l & Hm & Hrd & Hcop); try done; try apply Hv.
    { split; [apply Hv | done |]. eapply moved_ops_ok; [done | apply Hci]. }
    destruct (replied_entry k v n v' Hv Hi Hf Hrd) as (Hok & Hqd & Hlife).
    eapply serves_weaken.
    { eapply moves_serves_live; [done..| | | | | | | |].
      - eapply moves_cut; [done..|]. eapply moves_conv; [done | done | apply Hq1 | done].
      - by apply Hok.
      - done.
      - apply Hci.
      - done.
      - rewrite Hqd, (ci_queue _ _ _ _ Hci k), He. done.
      - apply Forall_app. split; [|apply put_effects_key, Hrd].
        eapply Forall_impl; [done|]. by intros e (data & to & ->).
      - by rewrite ends_copied. }
    intros [] w' [_ Hmv] k'. destruct (decide (k' = k)) as [->|Hk']; [|left; by apply Hmv].
    right. split; [done|]. exists v, n. split_and!; try done. by apply Z.eqb_eq.
  - eapply serves_weaken.
    { eapply unmoved_serves; [done|]. rewrite He. eapply moves_cut; [done..|]. rewrite <- Hq1.
      apply (reply_ignored_moves _ _ _ v n); try done.
      - destruct (rcrh_initializing _); [by destruct Ho as (_ & -> & _) | apply Ho].
      - destruct (rcrh_initializing _); [destruct Ho as (_ & _ & -> & _); lia|].
        destruct Ho as [_ Hv]. pose proof (av_pos _ _ _ _ Hv). lia.
      - destruct (rcrh_initializing _); [by destruct Ho as (_ & -> & _) | apply Ho]. }
    intros [] w' [_ Hmv] k'. left. destruct (decide (k' = k)) as [->|Hk']; [|by apply Hmv].
    by rewrite (mv_el _ _ _ _ _ _ Hmv).
Qed.

Lemma changes_silent P (w w1 w' : W) :
  silent w w1 -> changes_only P w1 w' -> changes_only P w w'.
Proof. intros Hs Hc k. rewrite <- (silent_el _ _ k Hs). apply Hc. Qed.
Lemma silent_changes P (w w' : W) : silent w w' -> changes_only P w w'.
Proof. intros Hs k. left. by apply silent_el. Qed.
Lemma reply_matches_silent rcrm (w w1 : W) k :
  silent w w1 -> reply_matches rcrm w1 k -> reply_matches rcrm w k.
Proof. intros Hs [Hid Hm]. split; [done|]. by rewrite <- (silent_el _ _ k Hs). Qed.
Lemma changes_weaken (P Q : user_id -> Prop) (w w' : W) :
  (forall k, P k -> Q k) -> changes_only P w w' -> changes_only Q w w'.
Proof. intros HPQ H k. destruct (H k); auto. Qed.

(** The reply a request may be changed by: from the leader, without error. *)
Definition leader_reply (rcrm : raft_client_rpc_msg) (w : W) (k : user_id) : Prop :=
  rcrm_type rcrm = RAFT_CLIENT_RPC_MSG_TYPE_REPLY /\ rcrm_sys_error rcrm = 0 /\
  ri_csn_leader (w_ri w) = Some (rcrm_sender_id rcrm) /\ rcrm_raft_id rcrm = ri_csn_raft (w_ri w) /\
  reply_matches rcrm w k.

Lemma fault_eq p (w : W) :
  exists b w1, (FAULT_INJECT p : M bool) w = Some (b, w1) /\ silent w w1 /\ w_ri w1 = w_ri w.
Proof.
  unfold FAULT_INJECT, env_get. erewrite bind_eq by reflexivity.
  destruct (env_fault (w_env w) p); [by exists false, w|].
  eexists _, _. split; [reflexivity|]. split; [|done]. by split; try done; split.
Qed.

Lemma serves_run {X Y} st h h2 (m : M X) (f : X -> M Y) (w : W) a w1 P :
  m w = Some (a, w1) -> silent w w1 -> serves [] st h st h2 (f a) w1 P ->
  serves [] st h st h2 (bind m f) w P.
Proof.
  intros Hm Hs Hf. eapply serves_after; [done | by apply silent_evolves | apply Hs | done | done].
Qed.

Lemma comm_time_config u b (w w' : W) a :
  raft_net_update_last_comm_time u b w = Some (a, w') ->
  ri_csn_raft_peers (w_ri w') = ri_csn_raft_peers (w_ri w) /\
  ri_csn_leader (w_ri w') = ri_csn_leader (w_ri w).
Proof.
  intros Hrun. split.
  - eapply (keeps_run (on_ri (same ri_csn_raft_peers))); [|done]. solve_keeps.
  - eapply (keeps_run (on_ri (same ri_csn_leader))); [|done]. solve_keeps.
Qed.

Lemma reset_leader_quiet b (w : W) :
  quiet (raft_client_instance_reset_leader_info b : M unit) w (fun _ => True).
Proof. by apply rci_upd_quiet. Qed.

Lemma ping_reply_quiet rcrm csn (w : W) :
  quiet (raft_client_process_ping_reply rcrm csn : M unit) w (fun _ => True).
Proof.
  unfold raft_client_process_ping_reply, quiet, rci_get, cl_get. erewrite bind_eq by reflexivity.
  eapply quiet_bind; [apply when_quiet, reset_leader_quiet|]. intros [] w1 _ _.
  destruct (_ =? 0).
  { apply rci_upd_quiet; intros r; by destruct (_ && _). }
  destruct (_ || _ || _); [apply reset_leader_quiet | apply when_quiet, reset_leader_quiet].
Qed.

Lemma update_leader_quiet rcrm (w : W) : ri_ok (w_ri w) ->
  quiet (raft_client_update_leader_from_redirect rcrm : M unit) w (fun _ => True).
Proof.
  intros Hri. unfold raft_client_update_leader_from_redirect.
  eapply quiet_bind; [apply reset_leader_quiet|]. intros [] w1 H1 _.
  eapply quiet_bind; [apply redirect_quiet; by eapply silent_ri_ok|]. intros rc w2 H2 _.
  apply when_quiet. unfold quiet, ri_get. erewrite bind_eq by reflexivity. by apply rci_upd_quiet.
Qed.

Lemma process_reply_serves st rcrm csn (w : W) :
  client_inv st [] w -> 0 <= rcrm_data_size rcrm ->
  serves [] st [] st [] (raft_client_recv_handler_process_reply rcrm csn) w
    (fun _ w' => changes_only (fun k => ri_csn_leader (w_ri w) = Some csn /\ reply_matches rcrm w k) w w').
Proof.
  intros Hci Hsz. unfold raft_client_recv_handler_process_reply.
  destruct (fault_eq raft_client_recv_handler_process_reply_bypass w) as (b & w1 & Hf & Hs1 & Hri).
  pose proof (silent_inv _ _ _ _ _ Hci Hs1) as Hci1.
  eapply serves_run; [done..|].
  destruct b; [apply serves_ret; [done | by apply silent_changes]|].
  unfold ri_get, env_get. eapply serves_read; [reflexivity|]. rewrite Hri.
  case_bool_decide as Hl; [|apply serves_ret; [done | by apply silent_changes]]. simpl.
  destruct (negb _); [apply serves_ret; [done | by apply silent_changes]|].
  eapply serves_read; [reflexivity|].
  eapply serves_quietly; [done | by apply rci_upd_quiet|]. intros [] w2 Hci2 Hs2 _.
  assert (silent w w2) as Hs by by transitivity w1.
  eapply serves_weaken; [by apply try_complete_serves|].
  intros [] w3 Hch. eapply changes_silent; [done|]. eapply changes_weaken; [|done].
  intros k Hk. split; [done | by eapply reply_matches_silent].
Qed.

Lemma recv_handler_serves st rcrm bytes ok (w : W) :
  client_inv st [] w -> 0 <= rcrm_data_size rcrm ->
  serves [] st [] st [] (raft_client_recv_handler rci_self rcrm bytes ok) w
    (fun _ w' => changes_only (fun k => ok = true /\ leader_reply rcrm w k) w w').
Proof.
  intros Hci Hsz. unfold raft_client_recv_handler, ri_get. eapply serves_read; [reflexivity|].
  unfold id. assert (forall w' : W, silent w w' -> changes_only (fun k => ok = true /\ leader_reply rcrm w k) w w') as Hq
    by (intros; by apply silent_changes).
  destruct (_ || _) eqn:E0; [by apply serves_ret; [|apply Hq]|].
  apply orb_false_iff in E0 as [Hl%bool_decide_eq_false _].
  destruct (fault_eq raft_client_recv_handler_bypass w) as (b & w1 & Hf & Hs1 & Hri1).
  pose proof (silent_inv _ _ _ _ _ Hci Hs1) as Hci1.
  eapply serves_run; [done..|]. destruct b; [by apply serves_ret; [|apply Hq]|].
  destruct (_ || _); [by apply serves_ret; [|apply Hq]|].
  eapply serves_read; [by eapply instance_eq|].
  destruct (verify_sender_eq (rcrm_sender_id rcrm) (rcrm_raft_id rcrm) ok w1) as (o & Ho & Hsome);
    [apply Hci1|].
  eapply serves_read; [done|]. destruct o as [csn|]; [|by apply serves_ret; [|apply Hq]].
  destruct Hsome as (Hnull & Hidx & [= ->] & Hraft & ->); [by eexists|].
  destruct (comm_time_quiet (rcrm_sender_id rcrm) false w1) as ([] & w2 & Hm2 & Hs2 & _); [apply Hci1|].
  destruct (comm_time_config _ _ _ _ _ Hm2) as [Hpe Hle].
  pose proof (silent_inv _ _ _ _ _ Hci1 Hs2) as Hci2.
  eapply serves_run; [done..|].
  destruct (get_last_recv_eq (rcrm_sender_id rcrm) w2) as [ts Hts]; [apply Hci2 | done | |].
  { unfold peer_idx_of, num_members in *. by rewrite Hpe. }
  eapply serves_read; [done|]. simpl. eapply serves_read; [reflexivity|].
  destruct (rci_upd_quiet (fun rci => rci <| rci_last_msg_recvd := ts |>) w2) as ([] & w3 & Hm3 & Hs3 & _);
    try done.
  assert (w_ri w3 = w_ri w2) as Hri3 by by injection Hm3 as <-.
  pose proof (silent_inv _ _ _ _ _ Hci2 Hs3) as Hci3. eapply serves_run; [done..|].
  assert (silent w w3) as Hs by (transitivity w1; [done|]; by transitivity w2).
  destruct (rcrm_type rcrm) eqn:Ety; try (by apply serves_ret; [|apply Hq]).
  - destruct (Z.eqb_spec (rcrm_sys_error rcrm) 0) as [Ee|]; [|by apply serves_ret; [|apply Hq]].
    eapply serves_weaken; [by apply process_reply_serves|].
    intros [] w4 Hch. eapply changes_silent; [done|]. eapply changes_weaken; [|done].
    intros k [Hlead Hk]. split; [done|]. split_and!; try done.
    + by rewrite <- Hlead, Hri3, Hle, Hri1.
    + by rewrite Hraft, Hri1.
    + by eapply reply_matches_silent.
  - eapply serves_weaken; [eapply serves_quiet; [done | by apply update_leader_quiet; apply Hci3]|].
    intros [] w4 [_ Hs4]. apply Hq. by transitivity w3.
  - eapply serves_weaken; [eapply serves_quiet; [done | by apply ping_reply_quiet]|].
    intros [] w4 [_ Hs4]. apply Hq. by transitivity w3.
Qed.
End handlers.
