(* ===== verification/RcSubmit.v ===== *)
(** The submission of a request, in its two steps: the request is put into the
    tree, and the handle is initialised and the request queued or held back. *)
From stdpp Require Import base tactics list gmap.
From Stdlib Require Import ZArith Lia Strings.Byte.
From S2P Require Import Prelude RaftTypes World Net Entry RcTypes RaftClient RcSpec RcNetSpec RcLife RcInv RcTimer RcReplyInv.
Local Open Scope Z_scope.
Local Open Scope raft_scope.

Section submission.
Context `{NC : NiovaCore} {OKC : NiovaCoreOk NC} {IO : NiovaIo} {OKIO : NiovaIoOk IO}
  {APP : RaftClientApp} {B T : Type}
  {RT : RefTree raft_net_client_user_id raft_client_sub_app T} {OKT : RefTreeOk RT}.
Variable rci_self : Z.
Local Abbreviation user_id := raft_net_client_user_id.
Local Abbreviation W := (world B (client_ctx T)).
Local Abbreviation M := (M W).
Local Abbreviation client_inv := (client_inv rci_self).
Local Abbreviation serves := (serves rci_self).

(** What a caller must respect: a request with an allocated reply buffer has room
    for its two iovecs behind those it sends.  The number of iovecs is checked. *)
Definition args_ok (args : submit_args) : Prop :=
  Z.of_nat (length (sub_src_iovs args)) + Z.of_nat (length (sub_dest_iovs args))
    <= RAFT_CLIENT_REQUEST_HANDLE_MAX_IOVS /\
  (sub_allocate_get_buffer_for_user args = true -> (length (sub_src_iovs args) <= 6)%nat).

Definition submit_blocks (args : submit_args) : bool :=
  negb (rcrt_has (sub_rcrt args) RCRT_NON_BLOCKING).

(** The handle of a request that has its arguments. *)
Record has_args (k : user_id) (args : submit_args) (v : raft_client_sub_app) : Prop := {
  ha_key : rcsa_rncui v = k;
  ha_cb_exec : rcrh_cb_exec (rcsa_rh v) = false;
  ha_history : rcrh_history_cache (rcsa_rh v) = false;
  ha_completing : rcrh_completing (rcsa_rh v) = false;
  ha_finished : sa_finished v = false;
  ha_iovs : iovs_ok (rcsa_rh v);
  ha_cb : rcrh_async_cb (rcsa_rh v) = sub_user_cb args;
  ha_arg : rcrh_arg (rcsa_rh v) = sub_user_arg args;
  ha_blocking : rcrh_blocking (rcsa_rh v) = submit_blocks args;
  ha_timeout : rcrh_timeout (rcsa_rh v) = sub_timeout args;
}.

Lemma handle_init_moves k args now (w : W) :
  el w k = Some (fresh_sa k, 1) -> args_ok args ->
  exists rc v, moves (raft_client_request_handle_init k args now) k w rc (Some (v, 1)) (sendq_of w) [] /\
    if rc =? 0
    then has_args k args v /\ rcrh_initializing (rcsa_rh v) = true /\ rcrh_sendq (rcsa_rh v) = false
         /\ is_Some (ri_csn_leader (w_ri w))
    else v = fresh_sa k.
Proof.
  intros He [Hlen Halloc]. unfold raft_client_request_handle_init.
  assert (forall rc, rc <> 0 ->
    moves (ret rc : M Z) k w rc (Some (fresh_sa k, 1)) (sendq_of w) []) as Hret
    by (intros rc _; rewrite <- He; apply moves_ret).
  destruct (ri_csn_leader (w_ri w)) as [csn|] eqn:El.
  2: { exists (- ENOTCONN), (fresh_sa k). split; [|done].
       eapply moves_bind_eq; [by apply (rh_get_eq _ _ _ _ _ He) | done|].
       eapply moves_bind_eq; [reflexivity..|].
       replace (_ <=? _) with true by lia. eapply moves_bind_eq; [reflexivity..|].
       eapply moves_bind_eq; [reflexivity..|]. rewrite El. by apply Hret. }
  destruct (msg_init_quiet zero_rcrm
     (if rcrt_has (sub_rcrt args) RCRT_WRITE
      then RAFT_CLIENT_RPC_MSG_TYPE_WRITE else RAFT_CLIENT_RPC_MSG_TYPE_READ)
     (niova_io_iovs_total_size_get (sub_src_iovs args)) (Some csn) (sub_tag args) w)
    as (r & w1 & Hr & H1 & _).
  pose proof (silent_el _ _ k H1) as He1. rewrite He in He1.
  exists r.1. eexists (if r.1 =? 0 then _ else fresh_sa k). split.
  - eapply moves_bind_eq; [by apply (rh_get_eq _ _ _ _ _ He) | done|].
    eapply moves_bind_eq; [reflexivity..|].
    replace (_ <=? _) with true by lia. eapply moves_bind_eq; [reflexivity..|].
    eapply moves_bind_eq; [reflexivity..|]. rewrite El.
    eapply moves_cut; [done | by apply silent_moved|].
    destruct (Z.eqb_spec r.1 0) as [E|E]; simpl.
    + eapply moves_step; [by apply (rh_upd_moves _ _ _ _ _ He1)|]. intros w2 H2 He2 Hq2.
      rewrite E. eapply moves_conv; [apply moves_ret | done | | done].
      by rewrite Hq2, (si_sendq _ _ H1).
    + rewrite <- He1, <- (si_sendq _ _ H1). apply moves_ret.
  - destruct (r.1 =? 0); [|done]. split_and!; try done.
    assert (0 <= Z.of_nat (length (sub_src_iovs args)) < 2 ^ 8 /\
            0 <= Z.of_nat (length (sub_dest_iovs args)) < 2 ^ 8) as [H8 H8']
      by (unfold RAFT_CLIENT_REQUEST_HANDLE_MAX_IOVS in *; lia).
    split; try done; simpl.
    + split; simpl; rewrite ?u8_small by lia; try lia.
      * unfold rcrh_iovs_fill, RAFT_CLIENT_REQUEST_HANDLE_MAX_IOVS in *.
        rewrite !length_app, length_drop. simpl length. lia.
      * intros Ha%Halloc. lia.
    + destruct (Z.eqb_spec (sub_timeout args) 0) as [->|]; done.
Qed.

(** The request goes into the queue when the leader answers, and is held back
    otherwise. *)
Lemma enqueue_moves k args (w : W) v :
  ri_ok (w_ri w) -> el w k = Some (v, 1) -> has_args k args v ->
  rcrh_initializing (rcsa_rh v) = true -> rcrh_sendq (rcsa_rh v) = false ->
  exists v' queued, moves (raft_client_request_submit_enqueue k) k w
      (if submit_blocks args then SubmitWaits else SubmitReturns 0)
      (Some (v', 1 + b2z queued)) (if queued then sendq_of w ++ [k] else sendq_of w) [] /\
    has_args k args v' /\ sa_inv k 0 v' (1 + b2z queued) /\
    rcrh_initializing (rcsa_rh v') = false /\ rcrh_sendq (rcsa_rh v') = queued.
Proof.
  intros Hri He Ha Hi Hq. unfold raft_client_request_submit_enqueue.
  destruct (viable_eq w Hri) as (queued & Hv & _).
  set (v1 := v <| rcsa_rh ::= fun h => h <| rcrh_completion_notifier :=
                  if submit_blocks args then Some 1 else None |> |>).
  set (v2 := v1 <| rcsa_rh ::= fun h => h <| rcrh_initializing := false |> |>).
  set (v3 := if queued then set_sendq true v2
             else v2 <| rcsa_rh ::= fun h => h <| rcrh_leader_not_viable_delay := true |> |>).
  exists v3, queued. destruct Ha as [? ? ? Hcomp Hfin [] ? ? Hbl ?]. split; [|split; [|split; [|split]]].
  - eapply moves_bind_eq; [done..|].
    eapply moves_bind_eq; [by apply (rh_get_eq _ _ _ _ _ He) | done|]. rewrite Hbl.
    eapply moves_step; [by apply (rh_upd_moves _ _ _ _ _ He)|]. intros w1 H1 He1 Hq1.
    eapply moves_bind_eq; [by apply (rh_get_eq _ _ _ _ _ He1) | done|]. simpl. rewrite Hi.
    eapply moves_bind_eq; [reflexivity..|].
    eapply moves_step; [by apply (rh_upd_moves _ _ _ _ _ He1)|]. intros w2 H2 He2 Hq2.
    eapply (moves_step _ _ _ _ tt _ (Some (v3, 1 + b2z queued))
              (if queued then sendq_of w ++ [k] else sendq_of w)).
    { unfold v3. destruct queued; rewrite <- Hq1, <- Hq2.
      - by apply sendq_add_moves.
      - by apply rh_upd_moves. }
    intros w3 H3 He3 Hq3.
    eapply (quiet_moves _ _ _ _ (fun _ => True)).
    { apply when_quiet, notify_quiet. apply H3, H2, H1, Hri. }
    intros [] w4 H4 _. eapply moves_conv; [apply moves_ret | | | done].
    + by rewrite (silent_el _ _ k H4).
    + by rewrite (si_sendq _ _ H4).
  - unfold v3. by destruct queued.
  - split.
    + unfold v3. destruct queued; split; try done; simpl; rewrite Hbl; by intros ->.
    + unfold v3. by destruct queued.
    + unfold sa_finished in Hfin. apply orb_false_iff in Hfin as [Hf _].
      unfold v3. destruct queued; simpl; by rewrite Hf.
    + unfold v3. by destruct queued.
    + assert (sa_refs v3 = 1 + b2z queued) as ->; [|lia].
      unfold sa_refs. replace (sa_finished v3) with (sa_finished v) by by unfold v3; destruct queued.
      rewrite Hfin. unfold v3. destruct queued; simpl; by rewrite ?Hq.
    + destruct queued; simpl; lia.
  - unfold v3. by destruct queued.
  - unfold v3. by destruct queued.
Qed.

(** ** The second step of a submission *)
Lemma elem_of_removed (k x : user_id) (st : list user_id) : x <> k -> x ∈ filter (fun y => y <> k) st <-> x ∈ st.
Proof. intros Hx. rewrite list_elem_of_filter. tauto. Qed.

Definition submitted (k : user_id) (args : submit_args) (r : submit_result) (w w' : W) : Prop :=
  (exists rc, rc <> 0 /\ r = SubmitReturns rc /\ el w' k = None /\
     effects_of w' = effects_of w ++ [completion (fresh_sa k)]) \/
  (r = (if submit_blocks args then SubmitWaits else SubmitReturns 0) /\
     effects_of w' = effects_of w /\
     exists v n, el w' k = Some (v, n) /\ has_args k args v /\
       rcrh_initializing (rcsa_rh v) = false /\ n = sa_refs v).

Lemma submit_start_moves k args (w : W) :
  ri_ok (w_ri w) -> el w k = Some (fresh_sa k, 1) -> cnt_ok w -> args_ok args ->
  exists r o q l, moves (raft_client_request_submit_start k args) k w r o q l /\
    ((exists rc, rc <> 0 /\ r = SubmitReturns rc /\ o = None /\ q = sendq_of w /\
        l = [completion (fresh_sa k)]) \/
     (exists v queued, r = (if submit_blocks args then SubmitWaits else SubmitReturns 0) /\
        o = Some (v, 1 + b2z queued) /\ q = (if queued then sendq_of w ++ [k] else sendq_of w) /\
        l = [] /\ has_args k args v /\ sa_inv k 0 v (1 + b2z queued) /\
        rcrh_initializing (rcsa_rh v) = false /\ rcrh_sendq (rcsa_rh v) = queued)).
Proof.
  intros Hri He Hc Hargs. unfold raft_client_request_submit_start.
  destruct (handle_init_moves k args (env_realtime (w_env w)) w He Hargs)
    as (rc & v & (w1 & Hr1 & H1) & Hcase).
  pose proof (mv_el _ _ _ _ _ _ H1) as He1. pose proof (mv_sendq _ _ _ _ _ _ H1) as Hq1.
  destruct (Z.eqb_spec rc 0) as [->|Hrc].
  - destruct Hcase as (Ha & Hi & Hq & _).
    destruct (enqueue_moves k args w1 v) as (v' & queued & Hm & Hprops); try done; [by apply H1|].
    rewrite Hq1 in Hm.
    eexists _, _, _, []. split; [|right; exists v', queued; split_and!; try done; apply Hprops].
    eapply moves_bind_eq; [reflexivity..|]. by eapply moves_cut.
  - subst v. exists (SubmitReturns rc), None, (sendq_of w), [completion (fresh_sa k)].
    split; [|left; by exists rc].
    eapply moves_bind_eq; [reflexivity..|]. eapply moves_cut; [done..|].
    replace (negb (rc =? 0)) with true by lia. rewrite <- (app_nil_r [completion (fresh_sa k)]).
    eapply moves_bind.
    + eapply (moves_conv _ _ _ _ _ _ _ None (sendq_of w) [completion (fresh_sa k)]);
        [apply (put_moves _ _ _ _ He1) | done..].
      * by split.
      * eapply moved_cnt_ok; [done | by rewrite He | done].
    + intros w2 H2. eapply moves_conv; [apply moves_ret | apply H2 | apply H2 | done].
Qed.

Lemma submit_start_serves st k args (w : W) :
  client_inv st [] w -> k ∈ st -> args_ok args ->
  serves [] st [] (filter (fun y => y <> k) st) [] (raft_client_request_submit_start k args) w
    (fun r w' => submitted k args r w w').
Proof.
  intros Hci Hk Hargs. destruct (ci_starting _ _ _ _ Hci Hk) as [He _].
  assert (k ∉ filter (fun y => y <> k) st) as Hk' by (rewrite list_elem_of_filter; tauto).
  assert (k ∉ sendq_of w) as Hnq by (rewrite (ci_queue _ _ _ _ Hci k), He; done).
  destruct (submit_start_moves k args w) as (r & o & q & l & Hm & Hcase); try done.
  { apply Hci. } { by eapply ci_cnt_ok. }
  eapply serves_weaken.
  { eapply moves_serves; [done | exact Hm |..]; try done.
    - destruct Hcase as [(rc & _ & _ & -> & _)|(v & queued & _ & -> & _ & _ & _ & Hv & Hi & _)].
      + by apply entry_ok_gone.
      + by apply entry_ok_live.
    - intros x Hx. by apply elem_of_removed.
    - destruct Hcase as [(rc & _ & _ & _ & -> & _)|(v & queued & _ & _ & -> & _)]; [apply Hci|].
      destruct queued; [|apply Hci]. apply NoDup_app. split; [apply Hci|].
      split; [|apply NoDup_singleton]. intros x Hx ->%list_elem_of_singleton. done.
    - intros x Hx. destruct Hcase as [(rc & _ & _ & _ & -> & _)|(v & queued & _ & _ & -> & _)]; [done|].
      destruct queued; [|done]. rewrite elem_of_app, list_elem_of_singleton. tauto.
    - destruct Hcase as [(rc & _ & _ & -> & -> & _)|(v & queued & _ & -> & -> & _ & _ & _ & _ & Hq)]; [done|].
      simpl. rewrite Hq. destruct queued; [|done].
      rewrite elem_of_app, list_elem_of_singleton. tauto.
    - rewrite He. simpl. lia.
    - destruct Hcase as [(rc & _ & _ & _ & _ & ->)|(v & queued & _ & _ & _ & -> & _)]; [|constructor].
      by repeat constructor.
    - rewrite He. change (occ k []) with 0%nat. simpl.
      destruct Hcase as [(rc & _ & _ & -> & _ & ->)|(v & queued & _ & -> & _ & -> & Ha & _ & Hi & Hq)].
      + change (ends k [completion (fresh_sa k)]) with (length (filter (fun e => is_end k e) [completion (fresh_sa k)])).
        rewrite filter_cons_True by (by apply bool_decide_pack). by eapply life_one_eq; [apply life_refuse|..].
      + simpl. rewrite Hi, Hq. unfold sa_refs. rewrite (ha_finished _ _ _ Ha), Hq. simpl.
        life_by (life_start queued). }
  intros x w' [-> Hmv]. destruct Hcase as [(rc & Hrc & -> & -> & -> & ->)|(v & queued & -> & -> & -> & -> & Ha & _ & Hi & Hq)].
  - left. exists rc. split_and!; try done; apply Hmv.
  - right. split; [done|]. split; [rewrite (mv_effects _ _ _ _ _ _ Hmv); by rewrite app_nil_r|].
    exists v, (1 + b2z queued). split; [apply Hmv|]. split_and!; try done.
    unfold sa_refs. by rewrite (ha_finished _ _ _ Ha), Hq.
Qed.

(** ** The first step of a submission *)
Lemma total_inc_eq (w : W) : 0 <= cnt_of w < 2 ^ 31 - 1 ->
  raft_client_sub_app_total_inc w =
    Some (tt, w <| w_app ::= fun c => c <| cl_rci ::= fun r => r <| rci_sub_app_cnt := cnt_of w + 1 |> |> |>).
Proof.
  intros Hc. unfold raft_client_sub_app_total_inc, rci_get, cl_get.
  erewrite bind_eq by reflexivity. erewrite bind_eq by reflexivity. simpl. fold (rci_of w) (cnt_of w).
  rewrite s32_small by lia. replace (0 <=? cnt_of w + 1) with true by lia.
  by destruct w as [? ? [[] ? ? ? ?] ? ? ?].
Qed.

Lemma add_moves st k (w : W) :
  client_inv st [] w -> cnt_of w < raftClientSubAppMax ->
  exists added o, moves (raft_client_sub_app_add k) k w added o (sendq_of w) [] /\
    if added : bool then el w k = None /\ o = Some (fresh_sa k, 1) else o = el w k.
Proof.
  intros Hci Hmax. unfold raft_client_sub_app_add, rci_get, cl_get, env_get.
  pose proof (rt_get_add_ok k (raft_client_sub_app_construct (w_env w) k) (rci_sub_apps (rci_of w))) as Hadd.
  fold (el w k) in Hadd.
  assert (0 <= cnt_of w) as Hcnt by (rewrite (ci_cnt _ _ _ _ Hci); lia).
  destruct (el w k) as [[v n]|] eqn:He.
  - destruct Hadd as (Hr & Hk & Ho). fold (el w k) in Hk. rewrite He in Hk. simpl in Hk.
    pose proof (ci_entry _ _ _ _ Hci k) as Hent. rewrite He in Hent. simpl in Hent.
    assert (sa_base k v /\ 1 <= n) as [Hb Hn].
    { destruct (rcrh_initializing _); [destruct Hent as (_ & -> & -> & _); by repeat split|].
      destruct Hent as [_ [? ? ? ? ? Hpos]]. split; [done | lia]. }
    exists false, (Some (v, n)). split; [|done].
    eapply moves_bind_eq; [reflexivity..|]. eapply moves_bind_eq; [reflexivity..|].
    fold (rci_of w). rewrite Hr.
    eapply (moves_step _ _ _ _ tt _ (Some (v, n + 1)) (sendq_of w)).
    { eexists. split; [reflexivity|]. refine (moves_table k w _ (sendq_of w) _ Hk Ho _). by rewrite He. }
    intros w1 H1 He1 Hq1. eapply moves_step.
    { apply (lookup_put_moves k w v n He Hb); [by eapply ci_cnt_ok | done | exact H1]. }
    intros w2 H2 He2 Hq2. eapply moves_conv; [apply moves_ret | done | done | done].
  - unfold raft_client_sub_app_construct in *. destruct (env_alloc_rc (w_env w) =? 0) eqn:Ea.
    + destruct Hadd as (Hr & Hk & Ho). exists true, (Some (fresh_sa k, 1)). split; [|done].
      eapply moves_bind_eq; [reflexivity..|]. eapply moves_bind_eq; [reflexivity..|].
      rewrite Ea. fold (rci_of w). rewrite Hr. unfold raftClientSubAppMax in Hmax.
      unfold moves. erewrite bind_eq by reflexivity. erewrite bind_eq.
      2: { apply total_inc_eq. unfold cnt_of, rci_of in *. simpl. lia. }
      eexists. split; [reflexivity|]. split; try done.
      * rewrite He. unfold cnt_of, rci_of. simpl. lia.
      * unfold effects_of. simpl. by rewrite app_nil_r.
    + exists false, None. split; [|done].
      eapply moves_bind_eq; [reflexivity..|]. eapply moves_bind_eq; [reflexivity..|].
      rewrite Ea. fold (rci_of w). rewrite Hadd.
      eapply moves_bind_eq; [reflexivity | by destruct w as [? ? [[] ? ? ? ?] ? ? ?]|].
      rewrite <- He. apply moves_ret.
Qed.

Lemma add_serves st k (w : W) :
  client_inv st [] w -> cnt_of w < raftClientSubAppMax ->
  exists added : bool,
    serves (if added then [k] else []) st [] (if added then k :: st else st) []
      (raft_client_sub_app_add k) w
      (fun r w' => r = added /\ (if added then el w k = None else forall k', el w' k' = el w k') /\
                   effects_of w' = effects_of w).
Proof.
  intros Hci Hmax. destruct (add_moves st k w Hci Hmax) as (added & o & Hm & Ho).
  exists added. destruct added.
  - destruct Ho as [He ->]. eapply serves_weaken.
    { eapply moves_serves; [done..| | | | | | | | | |]; try done.
      - by rewrite bool_decide_eq_true_2 by apply list_elem_of_here.
      - intros k' Hk'. rewrite elem_of_cons. tauto.
      - intros k' Hk'. by rewrite occ_cons_ne.
      - apply Hci.
      - rewrite (ci_queue _ _ _ _ Hci k), He. done.
      - rewrite He, occ_cons_eq. by eapply life_one_eq; [apply life_add|..]. }
    intros x w' [-> Hmv]. split_and!; [done..|]. rewrite (mv_effects _ _ _ _ _ _ Hmv). apply app_nil_r.
  - subst o. eapply serves_weaken; [by eapply unmoved_serves|].
    intros x w' [-> Hmv]. split_and!; [done | |].
    + intros k'. destruct (decide (k' = k)) as [->|]; by apply Hmv.
    + rewrite (mv_effects _ _ _ _ _ _ Hmv). apply app_nil_r.
Qed.

(** A submission is refused with an error and changes nothing, or its request is
    in the tree. *)
Definition add_outcome (rncui : option user_id) (args : submit_args) (st : list user_id) (w : W)
    (added st' : list user_id) (r : Z + user_id) (w' : W) : Prop :=
  effects_of w' = effects_of w /\
  match r with
  | inl rc => rc < 0 /\ added = [] /\ st' = st /\ forall k, el w' k = el w k
  | inr k => rncui = Some k /\ added = [k] /\ st' = k :: st /\ el w k = None /\
             Z.of_nat (length (sub_src_iovs args)) + Z.of_nat (length (sub_dest_iovs args))
               <= RAFT_CLIENT_REQUEST_HANDLE_MAX_IOVS
  end.
Definition add_serves_as (rncui : option user_id) (args : submit_args) (st : list user_id)
    (m : M (Z + user_id)) (w : W) : Prop :=
  exists added st', serves added st [] st' [] m w (add_outcome rncui args st w added st').

Lemma add_as_ret rncui args st rc (w : W) :
  client_inv st [] w -> rc < 0 -> add_serves_as rncui args st (ret (inl rc)) w.
Proof. intros Hci Hrc. exists [], st. by apply serves_ret. Qed.
Lemma add_as_read {X} rncui args st (m : M X) f (w : W) x :
  m w = Some (x, w) -> add_serves_as rncui args st (f x) w ->
  add_serves_as rncui args st (bind m f) w.
Proof. intros Hm (a & st' & Hf). exists a, st'. by eapply serves_read. Qed.

Lemma submit_add_serves st inst rncui args (w : W) :
  client_inv st [] w ->
  add_serves_as rncui args st (raft_client_request_submit_add inst rncui args) w.
Proof.
  intros Hci. unfold raft_client_request_submit_add.
  destruct rncui as [k|]; [|by apply add_as_ret].
  destruct (_ || _); [by apply add_as_ret|].
  destruct (_ >? _) eqn:Elen; [by apply add_as_ret|].
  assert (exists x, raft_client_instance_lookup inst w = Some (x, w)) as [x Hx].
  { unfold raft_client_instance_lookup. destruct (inst =? 0); by eexists. }
  eapply add_as_read; [done|]. eapply add_as_read; [reflexivity|].
  case_bool_decide; [by apply add_as_ret|].
  destruct (_ || _); [by apply add_as_ret|].
  case_bool_decide; [by apply add_as_ret|].
  assert (0 <= cnt_of w) as Hcnt by (rewrite (ci_cnt _ _ _ _ Hci); lia).
  eapply add_as_read.
  { unfold raft_client_sub_app_may_add_new, rci_get, cl_get. erewrite bind_eq by reflexivity.
    fold (rci_of w) (cnt_of w). replace (0 <=? cnt_of w) with true by lia. reflexivity. }
  destruct (raftClientSubAppMax <=? cnt_of w) eqn:Emax; [by apply add_as_ret|]. simpl.
  destruct (add_serves st k w Hci ltac:(lia)) as (added & Hadd).
  exists ((if added then [k] else []) ++ []), (if added then k :: st else st).
  eapply serves_bind; [exact Hadd|]. intros r w1 Hci1 _ (-> & Hel & Heff).
  destruct added; simpl; apply serves_ret; try done; (split; [done|]); split_and!; try done. lia.
Qed.
End submission.
