(* ===== verification/RcNode.v ===== *)
(** The client library as a transition system: the application submits and
    cancels requests, the client thread runs its handlers, and the environment
    (clocks, network, injected faults) changes.  A submission takes two steps, so
    that the client thread runs between the addition of a request and its start. *)
From stdpp Require Import base tactics list gmap relations.
From Stdlib Require Import ZArith Lia Strings.Byte.
From S2P Require Import Prelude RaftTypes World Net Entry RcTypes RaftClient RcSpec RcNetSpec RcLife RcInv RcTimer RcReplyInv RcSubmit.
Local Open Scope Z_scope.
Local Open Scope raft_scope.

Section client_node.
Context `{NC : NiovaCore} {IO : NiovaIo} {APP : RaftClientApp} {B T : Type}
  {RT : RefTree raft_net_client_user_id raft_client_sub_app T}.
Variable rci_self : Z.
Local Abbreviation user_id := raft_net_client_user_id.
Local Abbreviation W := (world B (client_ctx T)).
Local Abbreviation M := (M W).

(** [nd_starting]: the submissions between their two steps; [nd_accepted]: the
    requests put into the tree so far, in order. *)
Record client_node := {
  nd_world : W;
  nd_starting : list (user_id * submit_args);
  nd_accepted : list user_id;
}.
#[export] Instance eta_client_node : Eta client_node := fun n =>
  {| nd_world := nd_world n; nd_starting := nd_starting n; nd_accepted := nd_accepted n |}.

Definition client_node_of (w : W) : client_node :=
  {| nd_world := w; nd_starting := []; nd_accepted := [] |}.

(** The handlers that the client thread's epoll manager runs. *)
Inductive thread_event :=
| TeTimer
| TeEvp
| TeRecv (rcrm : raft_client_rpc_msg) (recv_bytes : Z) (from_ok : bool).
Definition run_thread_event (e : thread_event) : M unit :=
  match e with
  | TeTimer => raft_client_timerfd_cb rci_self
  | TeEvp => raft_client_evp_cb rci_self
  | TeRecv rcrm recv_bytes from_ok => raft_client_recv_handler rci_self rcrm recv_bytes from_ok
  end.

Inductive client_event :=
| CeAdd (inst : Z) (rncui : option user_id) (args : submit_args)
| CeStart (k : user_id)
| CeCancel (inst : Z) (rncui : option user_id) (reply_buf : bool)
| CeHandler (e : thread_event)
| CeThread (es : list thread_event) (wait_rc : Z)
| CeEnv (e : env).

Definition starting_keys (n : client_node) : list user_id := (nd_starting n).*1.

(** An action on the world that completes no step of a submission. *)
Definition node_do {X} (m : M X) (n : client_node) : option client_node :=
  (fun r => n <| nd_world := r.2 |>) <$> m (nd_world n).

(** [None]: an assertion fails, a fatal error, or an access to a freed request. *)
Definition client_run (n : client_node) (ev : client_event) : option client_node :=
  match ev with
  | CeAdd inst rncui args =>
      match raft_client_request_submit_add inst rncui args (nd_world n) with
      | Some (inr k, w) => Some (n <| nd_world := w |> <| nd_starting ::= cons (k, args) |>
                                   <| nd_accepted ::= fun l => l ++ [k] |>)
      | Some (inl _, w) => Some (n <| nd_world := w |>)
      | None => None
      end
  | CeStart k =>
      match list_find (fun p => p.1 = k) (nd_starting n) with
      | Some (_, (_, args)) =>
          match raft_client_request_submit_start k args (nd_world n) with
          | Some (_, w) => Some (n <| nd_world := w |>
                                   <| nd_starting ::= filter (fun p => p.1 <> k) |>)
          | None => None
          end
      | None => Some n
      end
  | CeCancel inst rncui reply_buf => node_do (raft_client_request_cancel inst rncui reply_buf) n
  | CeHandler e => node_do (run_thread_event e) n
  | CeThread es wait_rc =>
      node_do (raft_client_thread_iteration (for_each es run_thread_event) wait_rc) n
  | CeEnv e => Some (n <| nd_world ::= fun w => w <| w_env := e |> |>)
  end.

(** What the callers must respect.  The size in a message is unsigned.  Nobody
    cancels a request whose submission has not gone on yet. *)
Definition thread_event_ok (e : thread_event) : Prop :=
  match e with TeRecv rcrm _ _ => 0 <= rcrm_data_size rcrm | _ => True end.
Definition event_ok (n : client_node) (ev : client_event) : Prop :=
  match ev with
  | CeAdd _ _ args =>
      sub_allocate_get_buffer_for_user args = true -> (length (sub_src_iovs args) <= 6)%nat
  | CeCancel _ (Some k) _ => k ∉ starting_keys n
  | CeHandler e => thread_event_ok e
  | CeThread es _ => Forall thread_event_ok es
  | _ => True
  end.

Definition client_step (n n' : client_node) : Prop :=
  exists ev, event_ok n ev /\ client_run n ev = Some n'.
Definition client_reachable (w : W) (n : client_node) : Prop :=
  rtc client_step (client_node_of w) n.

(** The state of a request in the machine of [RcLife], and the reports of its end. *)
Definition node_request (n : client_node) (k : user_id) : request_state :=
  request_of 0 (el (nd_world n) k).
Definition node_ends (n : client_node) (k : user_id) : nat := ends k (effects_of (nd_world n)).

(** ** Every event keeps the invariant *)
Context {OKC : NiovaCoreOk NC} {OKIO : NiovaIoOk IO} {OKT : RefTreeOk RT}.
Local Abbreviation client_inv := (client_inv rci_self).
Local Abbreviation serves := (serves rci_self).

Record node_wf (n : client_node) : Prop := {
  nw_inv : client_inv (starting_keys n) [] (nd_world n);
  nw_args : Forall (fun p => args_ok p.2) (nd_starting n);
}.

(** A client without requests. *)
Record client_ready (w : W) : Prop := {
  cr_inv : client_inv [] [] w;
  cr_empty k : el w k = None;
  cr_effects : effects_of w = [];
}.

Definition node_evolves (added : list user_id) (n n' : client_node) : Prop :=
  nd_accepted n' = nd_accepted n ++ added /\
  evolves added [] [] (nd_world n) (nd_world n').
Lemma node_evolves_refl n : node_evolves [] n n.
Proof. split; [by rewrite app_nil_r | apply evolves_refl]. Qed.
Lemma node_evolves_trans a1 a2 n1 n2 n3 :
  node_evolves a1 n1 n2 -> node_evolves a2 n2 n3 -> node_evolves (a1 ++ a2) n1 n3.
Proof.
  intros [Ha1 H1] [Ha2 H2]. split; [by rewrite Ha2, Ha1, app_assoc | by eapply evolves_trans].
Qed.

Lemma do_serves {X} (m : M X) n Q :
  node_wf n ->
  serves [] (starting_keys n) [] (starting_keys n) [] m (nd_world n) Q ->
  exists n', node_do m n = Some n' /\ node_wf n' /\ node_evolves [] n n'.
Proof.
  intros [Hi Ha] (a & w' & Hm & Hi' & He & _ & _).
  exists (n <| nd_world := w' |>). unfold node_do. rewrite Hm. split; [done|].
  split; [by split|]. split; [simpl; by rewrite app_nil_r | done].
Qed.

Lemma thread_event_serves st e (w : W) :
  client_inv st [] w -> thread_event_ok e ->
  serves [] st [] st [] (run_thread_event e) w (fun _ _ => True).
Proof.
  intros Hci He. destruct e; simpl.
  - eapply serves_weaken; [by apply timerfd_cb_serves | done].
  - by apply evp_cb_serves.
  - eapply serves_weaken; [by apply recv_handler_serves | done].
Qed.
Lemma thread_events_serve st es (w : W) :
  client_inv st [] w -> Forall thread_event_ok es ->
  serves [] st [] st [] (for_each es run_thread_event) w (fun _ _ => True).
Proof.
  intros Hci Hes. revert w Hci. induction Hes as [|e es He _ IH]; intros w Hci; simpl.
  { by apply serves_ret. }
  eapply serves_step; [by apply thread_event_serves|]. intros [] w1 Hci1 _ _. by apply IH.
Qed.
Lemma iteration_serves st es rc (w : W) :
  client_inv st [] w -> Forall thread_event_ok es ->
  serves [] st [] st [] (raft_client_thread_iteration (for_each es run_thread_event) rc) w
    (fun _ _ => True).
Proof.
  intros Hci Hes. unfold raft_client_thread_iteration, rci_get, cl_get.
  eapply serves_read; [reflexivity|].
  eapply serves_quietly; [done | by apply rci_upd_quiet|]. intros [] w1 Hci1 _ _.
  eapply serves_quietly; [done | apply quiet_emit|]. intros [] w2 Hci2 _ _.
  eapply serves_step; [by apply thread_events_serve|]. intros [] w3 Hci3 _ _.
  destruct (_ && _); [by apply serves_ret|].
  eapply (serves_step _ _ _ _ _ _ _ (fun _ _ => True)).
  - destruct (rci_requests_throttled _); [|by apply serves_ret].
    destruct (evp_get_eq w3) as [i Hi]; [apply Hci3|]. simpl.
    eapply serves_read; [done|]. rewrite bool_decide_eq_true_2 by by eexists.
    eapply serves_read; [reflexivity|]. by apply rpc_sender_serves.
  - intros [] w4 Hci4 _ _. by apply serves_ret.
Qed.

Lemma inv_env st held (w : W) e : client_inv st held w -> client_inv st held (w <| w_env := e |>).
Proof. intros []. by split. Qed.

Lemma filter_keys (k : user_id) (l : list (user_id * submit_args)) :
  (filter (fun p => p.1 <> k) l).*1 = filter (fun x => x <> k) l.*1.
Proof.
  induction l as [|[x a] l IH]; [done|]. rewrite fmap_cons. destruct (decide (x = k)) as [->|Hx].
  - rewrite !filter_cons_False by (simpl; tauto). exact IH.
  - rewrite !filter_cons_True by (simpl; done). rewrite fmap_cons. f_equal. exact IH.
Qed.

Lemma client_run_ok n ev :
  node_wf n -> event_ok n ev ->
  exists n' added, client_run n ev = Some n' /\ node_wf n' /\ node_evolves added n n'.
Proof.
  intros Hn Hev. pose proof (nw_inv _ Hn) as Hi. pose proof (nw_args _ Hn) as Ha.
  destruct ev as [inst rncui args|k|inst rncui buf|e|es rc|e]; simpl in Hev |- *.
  - destruct (submit_add_serves rci_self _ inst rncui args _ Hi)
      as (added & st' & r & w' & Hr & Hi' & He & _ & _ & Hout).
    rewrite Hr. destruct r as [rc|k].
    + destruct Hout as (_ & -> & -> & _). eexists _, []. split; [done|]. split; [by split|].
      split; [simpl; by rewrite app_nil_r | done].
    + destruct Hout as (_ & -> & -> & _ & Hlen). eexists _, [k]. split; [done|].
      split; [split; [done|]|done]. constructor; [by split | done].
  - destruct (list_find _ (nd_starting n)) as [[i [k' args]]|] eqn:Ef.
    2: { exists n, []. split; [done|]. split; [done | apply node_evolves_refl]. }
    apply list_find_Some in Ef as (Hl & E & _). simpl in E. subst k'.
    apply list_elem_of_lookup_2 in Hl.
    destruct (submit_start_serves rci_self (starting_keys n) k args (nd_world n))
      as (r & w' & Hr & Hi' & He & _); [done | | |].
    { unfold starting_keys. apply list_elem_of_fmap. by exists (k, args). }
    { rewrite Forall_forall in Ha. apply (Ha _ Hl). }
    rewrite Hr. eexists _, []. split; [done|]. split; [split|].
    + unfold starting_keys. simpl. by rewrite filter_keys.
    + rewrite Forall_forall in Ha |- *. simpl. intros p [_ Hp]%list_elem_of_filter. by apply Ha.
    + split; [simpl; by rewrite app_nil_r | done].
  - destruct (do_serves (raft_client_request_cancel inst rncui buf) n (fun _ _ => True) Hn) as (n' & H); [|by exists n', []].
    apply request_cancel_serves; [done|]. by intros k ->.
  - destruct (do_serves (run_thread_event e) n (fun _ _ => True) Hn) as (n' & H); [|by exists n', []].
    by apply thread_event_serves.
  - destruct (do_serves (raft_client_thread_iteration (for_each es run_thread_event) rc) n (fun _ _ => True) Hn)
      as (n' & H); [|by exists n', []].
    by apply iteration_serves.
  - eexists _, []. split; [done|]. split; [split; [by apply inv_env | done]|].
    split; [simpl; by rewrite app_nil_r|]. exists []. split; [simpl; by rewrite app_nil_r|].
    intros k. apply life_refl.
Qed.

Lemma ready_wf w : client_ready w -> node_wf (client_node_of w).
Proof. intros [Hi _ _]. by split. Qed.

Lemma client_steps_ok n n' :
  rtc client_step n n' -> node_wf n ->
  node_wf n' /\ exists added, node_evolves added n n'.
Proof.
  induction 1 as [n|n n1 n' (ev & Hev & Hrun) _ IH]; intros Hn.
  { split; [done|]. exists []. apply node_evolves_refl. }
  destruct (client_run_ok n ev Hn Hev) as (n2 & a1 & Hrun' & Hn1 & H1).
  rewrite Hrun in Hrun'. injection Hrun' as <-. destruct (IH Hn1) as (Hn' & a2 & H2).
  split; [done|]. exists (a1 ++ a2). by eapply node_evolves_trans.
Qed.

(** ** Starting the client
    The configuration that raft_net_instance_startup() has read. *)
Record client_config (w : W) : Prop := {
  cc_members : 0 < num_members (w_ri w) <= CTL_SVC_MAX_RAFT_PEERS;
  cc_send : length (ri_last_send (w_ri w)) = length (ri_csn_raft_peers (w_ri w));
  cc_recv : length (ri_last_recv (w_ri w)) = length (ri_csn_raft_peers (w_ri w));
  cc_client : ri_state (w_ri w) = RAFT_STATE_CLIENT;
  cc_leader : ri_csn_leader (w_ri w) = None;
  cc_effects : effects_of w = [];
  cc_self : rci_self <> 0;
}.

(** raft_client_init() and the start of the client thread succeed. *)
Definition client_boots (w0 w : W) : Prop :=
  client_config w0 /\
  exists raft_str client_str store ie rci w1 seed,
    raft_client_init rci_self (Some raft_str) (Some client_str) store ie w0 = Some ((0, rci), w1) /\
    raft_client_thread_start 0 0 0 seed w1 = Some (tt, w).

Lemma slot_free_range table i j :
  instance_slot_free table i = Some j -> i <= j < i + Z.of_nat (length table).
Proof.
  revert i. induction table as [|x table IH]; intros i; [done|]. cbn [instance_slot_free length].
  destruct (x =? 0); [intros [= <-]; lia|]. intros ?%IH. lia.
Qed.
Lemma add_scan_range slots type i idx j :
  evp_add_scan slots type i idx = inr j -> j = idx \/ i <= j < i + Z.of_nat (length slots).
Proof.
  revert i idx. induction slots as [|t slots IH]; intros i idx; simpl; [intros [= ->]; by left|].
  case_bool_decide; [|case_bool_decide; [done|]]; intros [->|?]%IH; lia.
Qed.
Lemma add_scan_error slots type i idx e : evp_add_scan slots type i idx = inl e -> e = - EALREADY.
Proof.
  revert i idx. induction slots as [|t slots IH]; intros i idx; simpl; [done|].
  case_bool_decide; [apply IH|]. case_bool_decide; [congruence | apply IH].
Qed.
Lemma elem_of_zupd {X} (l : list X) i x : 0 <= i < Z.of_nat (length l) -> x ∈ zupd l i x.
Proof.
  intros Hi. assert (znth (zupd l i x) i = Some x) as H by by apply znth_zupd_eq.
  by eapply znth_elem.
Qed.

Lemma evp_add_client (w w' : W) rc :
  raft_net_evp_add 0 0 RAFT_EVP_CLIENT w = Some (rc, w') -> rc = 0 ->
  exists l, RAFT_EVP_CLIENT ∈ l /\ w' = w <| w_ri ::= fun ri => ri <| ri_evps := l |> |>.
Proof.
  unfold raft_net_evp_add, ri_get, id. erewrite bind_eq by reflexivity.
  destruct (negb _); [by intros [= <- <-]|].
  destruct (evp_add_scan _ _ _ _) as [e|j] eqn:Es.
  { intros [= <- <-] ->. by apply add_scan_error in Es. }
  destruct (Z.eqb_spec j (-1)) as [|Hj]; [by intros [= <- <-]|]. simpl.
  intros [= <- <-] _. eexists. split; [|reflexivity]. apply elem_of_zupd.
  apply add_scan_range in Es. lia.
Qed.

Lemma history_created alloc (rci : raft_client_instance T) t :
  raft_client_op_history_create alloc (zero_rci : raft_client_instance T) = (0, rci) ->
  rcsarh_size (rci_recent_ops rci t) <> 0 /\
  rci_sub_apps rci = rt_empty /\ rci_sendq rci = [] /\ rci_sub_app_cnt rci = 0.
Proof.
  unfold raft_client_op_history_create, op_history_create_loop. simpl.
  destruct (alloc RAFT_CLIENT_RECENT_OP_TYPE_READ); simpl; [|by intros [=]].
  destruct (alloc RAFT_CLIENT_RECENT_OP_TYPE_WRITE); simpl; [|by intros [=]].
  destruct (alloc RAFT_CLIENT_RECENT_OP_TYPE_PENDING); simpl; [|by intros [=]].
  intros [= <-]. simpl. split; [by destruct t|]. done.
Qed.

(** What a successful raft_client_init() leaves. *)
Record fresh_instance (r : raft_client_instance T) : Prop := {
  fi_ops t : rcsarh_size (rci_recent_ops r t) <> 0;
  fi_tree : rci_sub_apps r = rt_empty;
  fi_queue : rci_sendq r = [];
  fi_cnt : rci_sub_app_cnt r = 0;
}.
Lemma assign_run calloc alloc (w0 w : W) :
  raft_client_instance_assign rci_self calloc alloc w0 = Some (true, w) ->
  exists r table, w = w0 <| w_app ::= fun c => c <| cl_instances := table |> <| cl_rci := r |> |> /\
    rci_self ∈ table /\ fresh_instance r.
Proof.
  unfold raft_client_instance_assign, cl_get. erewrite bind_eq by reflexivity.
  destruct (instance_slot_free _ 0) as [i|] eqn:Ei; [|by intros [=]].
  destruct calloc; [|by intros [=]]. simpl.
  destruct (raft_client_op_history_create alloc zero_rci) as [rc r] eqn:Er.
  destruct (Z.eqb_spec rc 0) as [->|]; [|by intros [=]].
  intros [= <-]. eexists r, _. split; [reflexivity|].
  split; [apply elem_of_zupd; apply slot_free_range in Ei; lia|].
  split; try (by apply (history_created _ _ RAFT_CLIENT_RECENT_OP_TYPE_READ Er)).
  intros t. by apply (history_created _ _ t Er).
Qed.

Lemma client_init_run raft_str client_str store ie (w0 w : W) rci :
  raft_client_init rci_self (Some raft_str) (Some client_str) store ie w0 = Some ((0, rci), w) ->
  rci = rci_self /\
  exists r table, w = w0 <| w_ri ::= fun ri => ri <| ri_raft_uuid_str := raft_str |>
                              <| ri_this_peer_uuid_str := client_str |> <| ri_store_type := store |> |>
                         <| w_app ::= fun c => c <| cl_instances := table |> <| cl_rci := r |> |> /\
    rci_self ∈ table /\ fresh_instance r.
Proof.
  unfold raft_client_init. destruct (Z.eqb_spec (cie_scan_rc ie) 0) as [|Hs]; simpl; [|by intros [= E]].
  intros ([] & w1 & Ha & Hrun)%bind_Some; [|by injection Hrun].
  apply assign_run in Ha as (r & table & -> & Htable & Hr).
  destruct (cie_has_ri ie); simpl in Hrun; [|by apply bind_Some in Hrun as (? & ? & _ & [=])].
  destruct (cie_client_arg_free ie); [|done]. destruct (cie_thread_rc ie =? 0); [|done].
  injection Hrun as <- <-. split; [done|].
  eexists (r <| rci_sub_apps := rt_empty |> <| rci_sendq := [] |>), table. split; [reflexivity|].
  split; [done|]. destruct Hr. by split.
Qed.

Lemma booted_ready w0 w : client_boots w0 w -> client_ready w.
Proof.
  intros ([] & raft_str & client_str & store & ie & rci & w1 & seed & Hinit & Hstart).
  apply client_init_run in Hinit as (_ & r & table & -> & Htable & [Hops Htree Hqueue Hcnt]).
  unfold raft_client_thread_start in Hstart. apply bind_Some in Hstart as ([] & w2 & [= <-] & Hstart).
  apply bind_Some in Hstart as (rc & w3 & Hevp & Hstart).
  destruct (Z.eqb_spec rc RAFT_CLIENT_EVP_IDX) as [->|]; [|done].
  apply evp_add_client in Hevp as (l & Hl & ->); [|done]. injection Hstart as <-.
  assert (forall k, rt_elem k (rci_sub_apps r) = None) as Hempty by (intros k; rewrite Htree; apply rt_empty_elem).
  split; [split|apply Hempty|done]; unfold cnt_of, sendq_of, rci_of, el; simpl; rewrite ?Hqueue, ?Hcnt; try done.
  - split; simpl; try done. intros u. congruence.
  - destruct (RT_FOREACH_LOCKED (rci_sub_apps r)) as [|k ks] eqn:Ef; [done|].
    assert (k ∈ RT_FOREACH_LOCKED (rci_sub_apps r)) as Hk by (rewrite Ef; apply list_elem_of_here).
    apply rt_foreach_elem in Hk. rewrite Hempty in Hk. by destruct Hk.
  - constructor.
  - intros k. unfold rci_of. simpl. rewrite Hempty. split; [by intros ?%elem_of_nil | done].
  - intros k. unfold rci_of. simpl. by rewrite Hempty.
Qed.

Lemma reachable_ok w n :
  client_ready w -> client_reachable w n ->
  node_wf n /\ forall k, life Absent (occ k (nd_accepted n)) (node_ends n k) (node_request n k).
Proof.
  intros Hw Hn. destruct (client_steps_ok _ _ Hn (ready_wf _ Hw)) as (Hwf & added & Ha & l & Hl & Hlife).
  split; [done|]. intros k. specialize (Hlife k). simpl in Ha, Hl, Hlife.
  rewrite (cr_effects _ Hw) in Hl. rewrite (cr_empty _ Hw) in Hlife.
  unfold node_ends, node_request. rewrite Ha, Hl. done.
Qed.
End client_node.
