(* ===== verification/RcSim.v ===== *)
(** A concrete client the theorems are tried on: a client of a cluster of three
    servers, its requests in a finite map, which is started, finds a leader and
    submits a request. *)
From stdpp Require Import base tactics list gmap relations.
From Stdlib Require Import ZArith Lia Strings.Byte.
From S2P Require Import Prelude RaftTypes World Net Entry Server Sim RcTypes RaftClient RcSpec RcNetSpec RcLife RcInv RcTimer RcReplyInv RcSubmit RcNode.
Local Open Scope Z_scope.
Local Open Scope raft_scope.

#[export] Instance sim_io : NiovaIo := {
  niova_io_iovs_total_size_get := fun l => foldr (fun v s => Z.max 0 (iov_len v) + s) 0 l;
  niova_io_copy_to_iovs := fun _ n l =>
    Z.min n (foldr (fun v s => Z.max 0 (iov_len v) + s) 0 l);
  niova_malloc_can_fail := fun _ => 4096;
}.
#[export] Instance sim_io_ok : NiovaIoOk sim_io.
Proof.
  split; simpl; [done|]. intros l. induction l as [|v l IH]; simpl; lia.
Qed.

Definition sim_user (n : Z) : raft_net_client_user_id :=
  {| rncui_v0_uint64 := [n; 0; 0; 0; 0; 0]; rncui_version := 0 |}.
(** A reply starts with the number of the user. *)
#[export] Instance sim_client_app : RaftClientApp := {
  rci_obj_id_cb := fun data _ =>
    match data with
    | b :: _ => (0, sim_user (Z_of_byte b))
    | [] => (- ENOENT, sim_user 0)
    end;
}.
#[export] Instance sim_ref_tree : RefTree raft_net_client_user_id raft_client_sub_app
  (gmap raft_net_client_user_id (raft_client_sub_app * Z)) := gmap_ref_tree.
#[export] Instance sim_ref_tree_ok : RefTreeOk sim_ref_tree := gmap_ref_tree_ok.

Abbreviation ctree := (gmap raft_net_client_user_id (raft_client_sub_app * Z)).
Abbreviation cworld := (world unit (client_ctx ctree)).
Abbreviation cnode := (@client_node unit ctree).

Definition sim_self : Z := 7.

(** The raft instance with its configuration read, before the client is set up. *)
Definition sim_client_ri : raft_instance :=
  zero_raft_instance <| ri_csn_raft := sim_raft |> <| ri_csn_raft_peers := sim_peers |>
    <| ri_csn_this_peer := 50 |> <| ri_state := RAFT_STATE_CLIENT |>
    <| ri_last_send := replicate 3 0 |> <| ri_last_recv := replicate 3 0 |>
    <| ri_store_type := RAFT_INSTANCE_STORE_ROCKSDB |>.
Definition sim_client_env (msec : Z) : env := sim_env no_faults msec.
Definition sim_client_w0 : cworld :=
  World sim_client_ri tt
    {| cl_rci := zero_rci; cl_interval_start := 0; cl_interval_rpc_cnt := 0;
       cl_instances := replicate 8 0; cl_effects := [] |} (sim_client_env 1000) 0 [].

Definition sim_init_env : client_init_env :=
  {| cie_scan_rc := 0; cie_calloc_ok := true; cie_alloc_ok := fun _ => true;
     cie_has_ri := true; cie_client_arg_free := true; cie_halt_rc := 0; cie_thread_rc := 0 |}.
Definition sim_client_init (w : cworld) : option (Z * Z * cworld) :=
  raft_client_init sim_self (Some []) (Some []) RAFT_INSTANCE_STORE_ROCKSDB sim_init_env w.
Definition sim_client_w1 : cworld :=
  match sim_client_init sim_client_w0 with Some (_, w) => w | None => sim_client_w0 end.
Definition sim_client_w : cworld :=
  match raft_client_thread_start 0 0 0 1 sim_client_w1 with Some (_, w) => w | None => sim_client_w1 end.

Definition sim_client_do (n : cnode) (ev : client_event) : cnode :=
  default n (client_run sim_self n ev).
Definition sim_client_run (n : cnode) (evs : list client_event) : cnode :=
  foldl sim_client_do n evs.
Definition sim_events_ok (n : cnode) (evs : list client_event) : bool :=
  (fix go n evs :=
     match evs with
     | [] => true
     | ev :: evs' =>
         match client_run sim_self n ev with
         | Some n' => go n' evs'
         | None => false
         end
     end) n evs.

(** ** The messages of the leader, server 2 *)
Definition sim_from_leader (ty : raft_client_rpc_msg_type) : raft_client_rpc_msg :=
  zero_rcrm <| rcrm_type := ty |> <| rcrm_raft_id := sim_raft |> <| rcrm_sender_id := 2 |>
            <| rcrm_dest_id := 50 |>.
Definition sim_ping_reply : client_event :=
  CeHandler (TeRecv (sim_from_leader RAFT_CLIENT_RPC_MSG_TYPE_PING_REPLY) 200 true).
Definition sim_reply (msg_id : Z) (data : bytes) : raft_client_rpc_msg :=
  (sim_from_leader RAFT_CLIENT_RPC_MSG_TYPE_REPLY)
    <| rcrm_msg_id := msg_id |> <| rcrm_data := data |>
    <| rcrm_data_size := Z.of_nat (length data) |>.

(** A blocking read of user 5 with a timeout of two seconds. *)
Definition sim_args : submit_args :=
  {| sub_src_iovs := [{| iov_base := 100; iov_len := 10 |}];
     sub_dest_iovs := [{| iov_base := 200; iov_len := 20 |}];
     sub_allocate_get_buffer_for_user := false; sub_timeout := 2 * 10 ^ 9;
     sub_rcrt := RCRT_READ; sub_user_cb := None; sub_user_arg := 0; sub_tag := 0 |}.
Definition sim_find_leader : list client_event :=
  CeHandler TeTimer :: replicate 5 sim_ping_reply.
Definition sim_submit : list client_event :=
  [CeAdd sim_self (Some (sim_user 5)) sim_args; CeStart (sim_user 5)].

Definition sim_started : cnode := client_node_of sim_client_w.
Definition sim_queued : cnode := sim_client_run sim_started (sim_find_leader ++ sim_submit).
