(* ===== verification/RcPace.v ===== *)
(** The pace of the client's sender: how many messages a call sends, against the
    counter of the current interval. *)
From stdpp Require Import base tactics list gmap.
From Stdlib Require Import ZArith Lia Strings.Byte.
From S2P Require Import Prelude RaftTypes World Net Entry RcTypes RaftClient RcLife.
Local Open Scope Z_scope.
Local Open Scope raft_scope.

Definition is_client_msg (o : output) : bool :=
  match o with OutClientMsg _ _ => true | _ => false end.
Definition sent_msgs {B T} (w : world B (client_ctx T)) : Z :=
  Z.of_nat (length (filter (fun o => is_client_msg o) (w_out w))).
Definition sent_rpcs {B T} (w : world B (client_ctx T)) : Z := cl_interval_rpc_cnt (w_app w).
Definition pace {B T} (w : world B (client_ctx T)) : Z * Z := (sent_msgs w, sent_rpcs w).

Section paced.
Context `{NC : NiovaCore} {IO : NiovaIo} {B T : Type}
  {RT : RefTree raft_net_client_user_id raft_client_sub_app T}.
Local Abbreviation W := (world B (client_ctx T)).
Local Abbreviation M := (M W).

Lemma pace_emit o : is_client_msg o = false -> keeps (same pace) (emit o : M unit).
Proof.
  intros Ho. apply keeps_modify. intros w. unfold same, pace, sent_msgs, sent_rpcs. simpl.
  rewrite filter_app. by destruct o; rewrite ?app_nil_r.
Qed.

Lemma pace_done k e : keeps (same pace) (raft_client_sub_app_done k e : M unit).
Proof. solve_keeps. Qed.
Lemma pace_prep k : keeps (same pace) (raft_client_request_send_queue_remove_prep_locked k : M Z).
Proof. solve_keeps. Qed.
Lemma pace_queue_done k : keeps (same pace) (raft_client_request_send_queue_remove_done k : M unit).
Proof. solve_keeps. Qed.
Lemma pace_comm_time u b : keeps (same pace) (raft_net_update_last_comm_time u b : M unit).
Proof. solve_keeps. Qed.
Lemma pace_tcp u z : keeps (same pace) (raft_net_send_tcp u z : M Z).
Proof. solve_keeps. Qed.

(** A call sends one message at most, and none when it reports an error. *)
Definition sends_at_most (n : Z) (w w' : W) : Prop :=
  sent_msgs w <= sent_msgs w' <= sent_msgs w + n /\ sent_rpcs w' = sent_rpcs w.
Lemma paced_none (w w' : W) : same pace w w' -> sends_at_most 0 w w'.
Proof. unfold same, pace, sends_at_most. intros [= -> ->]. lia. Qed.
Lemma sends_trans i j (w1 w2 w3 : W) :
  sends_at_most i w1 w2 -> sends_at_most j w2 w3 -> sends_at_most (i + j) w1 w3.
Proof. unfold sends_at_most. lia. Qed.

Lemma emit_sends o (w : W) :
  sends_at_most 1 w (w <| w_out ::= fun l => l ++ [o] |>).
Proof.
  unfold sends_at_most, sent_msgs, sent_rpcs. simpl. rewrite filter_app, length_app.
  split; [|done]. rewrite filter_cons. case_decide; simpl; lia.
Qed.

(** The transmission itself: the result and whether a message went out. *)
Lemma send_msg_sends u z o sock (w w' : W) rc :
  raft_net_send_msg u z o sock w = Some (rc, w') -> sends_at_most (b2z (rc =? 0)) w w'.
Proof.
  unfold raft_net_send_msg. intros Hrun. run_step Hrun.
  run_if Hrun; [run_inv Hrun; by apply paced_none|].
  run_step Hrun. apply bind_Some in Hrun as (size_rc & w1 & Hsize & Hrun).
  assert (sends_at_most (b2z (size_rc =? z)) w w1) as H1.
  { run_if Hsize; [run_inv Hsize; rewrite Z.eqb_refl; by split; simpl; [lia|]|].
    apply bind_Some in Hsize as (rc1 & w2 & Htx & Hsize).
    assert (same pace w w2) as H2.
    { repeat run_if Htx; first [by eapply (keeps_run _ _ _ _ _ (pace_tcp _ _) Htx) |
        unfold raft_net_send_udp in Htx; run_inv Htx; done]. }
    apply paced_none in H2. run_inv Hsize; rewrite ?Hwhen; simpl; [|done].
    apply (sends_trans 0 1 _ w2); [done | apply emit_sends]. }
  destruct (Z.eqb_spec size_rc z) as [->|Hz]; simpl in Hrun.
  - apply bind_Some in Hrun as ([] & w2 & Htime & Hrun). run_inv Hrun. simpl in *.
    apply (sends_trans 1 0 _ w1); [done|]. apply paced_none. by eapply (keeps_run _ _ _ _ _ (pace_comm_time _ _)).
  - run_inv Hrun. unfold sends_at_most, b2z in *. destruct (_ =? 0); lia.
Qed.

Lemma msgv_sends rcrm iov n (w w' : W) rc :
  raft_net_send_client_msgv rcrm iov n w = Some (rc, w') -> sends_at_most (b2z (rc =? 0)) w w'.
Proof.
  unfold raft_net_send_client_msgv. intros Hrun. run_step Hrun.
  destruct (ri_csn_leader (w_ri w)); [|run_inv Hrun; by apply paced_none].
  cbv zeta in Hrun. run_if Hrun; [run_inv Hrun; by apply paced_none|]. by apply send_msg_sends in Hrun.
Qed.
Lemma pace_rh_get {X} k (f : raft_client_request_handle -> X) : keeps (same pace) (rh_get k f : M X).
Proof. solve_keeps. Qed.
Lemma pace_launched now k : keeps (same pace)
  (rci_upd (fun r => r <| rci_last_request_sent := now |>) ;;;
   rh_upd k (fun h => h <| rcrh_last_send := now |> <| rcrh_num_sends ::= fun n => u64 (n + 1) |>) : M unit).
Proof. solve_keeps. Qed.
Lemma launch_sends k (w w' : W) rc :
  raft_client_rpc_launch k w = Some (rc, w') -> sends_at_most (b2z (rc =? 0)) w w'.
Proof.
  unfold raft_client_rpc_launch.
  intros (h & w1 & H1 & Hrun)%bind_Some. apply (keeps_run _ _ _ _ _ (pace_rh_get _ _)), paced_none in H1.
  apply bind_Some in Hrun as ([] & w2 & H2 & Hrun). run_inv H2.
  apply bind_Some in Hrun as (rc0 & w3 & H3%msgv_sends & Hrun).
  apply bind_Some in Hrun as ([] & w4 & H4 & Hrun). run_inv Hrun.
  rewrite <- (Z.add_0_r (b2z _)), <- (Z.add_0_l (b2z _)). eapply sends_trans; [by eapply sends_trans|].
  destruct (rc =? 0); simpl in H4; [|run_inv H4; by apply paced_none].
  apply bind_Some in H4 as (now & w5 & H5 & H4). run_inv H5.
  apply paced_none. revert H4. eapply keeps_run. apply pace_launched.
Qed.

Lemma dequeue_sends (w w' : W) rc :
  raft_client_rpc_sendq_dequeue_head_and_send w = Some (rc, w') -> sends_at_most (b2z (rc =? 0)) w w'.
Proof.
  unfold raft_client_rpc_sendq_dequeue_head_and_send.
  intros (q & w1 & H1 & Hrun)%bind_Some. unfold rci_get, cl_get in H1. run_inv H1.
  destruct (rci_sendq _) as [|k q]; [run_inv Hrun; by apply paced_none|].
  apply bind_Some in Hrun as (stale & w2 & H2 & Hrun).
  apply (keeps_run _ _ _ _ _ (pace_prep _)), paced_none in H2.
  destruct (Z.eqb_spec stale 0); simpl in Hrun.
  - apply bind_Some in Hrun as (rc0 & w3 & H3%launch_sends & Hrun).
    apply bind_Some in Hrun as ([] & w4 & H4 & Hrun). run_inv Hrun.
    rewrite <- (Z.add_0_r (b2z _)), <- (Z.add_0_l (b2z _)). eapply sends_trans; [by eapply sends_trans|].
    apply paced_none. revert H4. eapply keeps_run. destruct (_ && _); solve_keeps.
  - apply bind_Some in Hrun as ([] & w3 & H3 & Hrun). run_inv Hrun.
    apply (keeps_run _ _ _ _ _ (pace_queue_done _)), paced_none in H3.
    replace (rc =? 0) with false by lia. by eapply (sends_trans 0 0).
Qed.

Lemma sender_loop_sends fuel n (w w' : W) :
  rpc_sender_loop fuel n w = Some (tt, w') -> 0 <= n -> 0 <= sent_rpcs w -> sent_rpcs w + n < 2 ^ 64 ->
  sent_rpcs w <= sent_rpcs w' <= sent_rpcs w + n /\
  sent_msgs w <= sent_msgs w' <= sent_msgs w + (sent_rpcs w' - sent_rpcs w).
Proof.
  revert n w. induction fuel as [|fuel IH]; intros n w Hrun Hn Hc Hmax; [done|]. simpl in Hrun.
  destruct (Z.eqb_spec n 0); [run_inv Hrun; lia|].
  apply bind_Some in Hrun as (rc & w1 & H1%dequeue_sends & Hrun). unfold sends_at_most, b2z in H1.
  destruct (rc =? 0).
  - apply bind_Some in Hrun as ([] & w2 & H2 & Hrun). unfold cl_upd in H2. run_inv H2.
    apply IH in Hrun; unfold sent_rpcs, sent_msgs, u64 in *; simpl in *; rewrite ?Z.mod_small in * by lia; lia.
  - destruct (rc =? - ENOENT); [run_inv Hrun; lia|]. apply IH in Hrun; lia.
Qed.
End paced.
