(* ===== verification/RcReply.v ===== *)
(** What a reply delivers to the request it matches, exactly. *)
From stdpp Require Import base tactics list gmap.
From Stdlib Require Import ZArith Lia Strings.Byte.
From S2P Require Import Prelude RaftTypes World Net Entry RcTypes RaftClient RcSpec RcNetSpec RcLife RcInv RcTimer RcReplyInv.
Local Open Scope Z_scope.
Local Open Scope raft_scope.

Section reply.
Context `{NC : NiovaCore} {OKC : NiovaCoreOk NC} {IO : NiovaIo} {OKIO : NiovaIoOk IO}
  {APP : RaftClientApp} {B T : Type}
  {RT : RefTree raft_net_client_user_id raft_client_sub_app T} {OKT : RefTreeOk RT}.
Local Abbreviation user_id := raft_net_client_user_id.
Local Abbreviation W := (world B (client_ctx T)).
Local Abbreviation M := (M W).

(** The data go to the receive buffers when they fit and there are any. *)
Definition reply_fits (rcrm : raft_client_rpc_msg) (h : raft_client_request_handle) : bool :=
  rcrm_data_size rcrm <=? niova_io_iovs_total_size_get (iovs_from h).
Definition reply_copies (rcrm : raft_client_rpc_msg) (h : raft_client_request_handle) : bool :=
  reply_fits rcrm h && negb (rcrh_recv_niovs h =? 0).
Definition reply_error (rcrm : raft_client_rpc_msg) (h : raft_client_request_handle) : Z :=
  if reply_fits rcrm h then rcrm_app_error rcrm else - E2BIG.
Definition reply_used (rcrm : raft_client_rpc_msg) (h : raft_client_request_handle) : Z :=
  if reply_copies rcrm h then rcrm_data_size rcrm else rcrh_reply_used_size h.

Definition sa_prepared (rcrm : raft_client_rpc_msg) (v : raft_client_sub_app) : raft_client_sub_app :=
  v <| rcsa_rh ::= fun h => h <| rcrh_reply_size := rcrm_data_size rcrm |>
                              <| rcrh_completing := true |> |>.

Lemma prepare_exact rcrm k (w : W) v n :
  el w k = Some (v, n) -> rcrh_alloc_get_buffer_for_user (rcsa_rh v) = false ->
  moves (reply_prepare k rcrm) k w (if reply_fits rcrm (rcsa_rh v) then 0 else - E2BIG)
    (Some (sa_prepared rcrm v, n)) (sendq_of w) [].
Proof.
  intros He Ha. unfold reply_prepare.
  replace (if reply_fits rcrm (rcsa_rh v) then 0 else - E2BIG) with
    (if rcrm_data_size rcrm >? niova_io_iovs_total_size_get (iovs_from (rcsa_rh v)) then - E2BIG else 0).
  2: { unfold reply_fits. rewrite Z.gtb_ltb, Z.ltb_antisym. by destruct (_ <=? _). }
  eapply moves_step; [by apply (rh_upd_moves _ _ _ _ _ He)|]. intros w1 H1 He1 Hq1.
  eapply moves_bind_eq; [by apply (rh_get_eq _ _ _ _ _ He1) | done|]. unfold id. simpl.
  unfold reply_alloc. simpl. rewrite Ha. simpl. eapply moves_bind_eq; [reflexivity..|].
  eapply moves_step; [by apply (rh_upd_moves _ _ _ _ _ He1)|]. intros w2 H2 He2 Hq2.
  eapply moves_conv; [apply moves_ret | apply He2 | congruence | done].
Qed.

Lemma copy_exact rcrm k (w : W) v n :
  el w k = Some (v, n) -> 0 <= rcrm_data_size rcrm -> reply_fits rcrm (rcsa_rh v) = true ->
  moves (reply_copy k rcrm) k w tt
    (Some (v <| rcsa_rh ::= fun h => h <| rcrh_reply_used_size := reply_used rcrm (rcsa_rh v) |> |>, n))
    (sendq_of w)
    (if rcrh_recv_niovs (rcsa_rh v) =? 0 then []
     else [Copied k (take (Z.to_nat (rcrm_data_size rcrm)) (rcrm_data rcrm)) (iovs_from (rcsa_rh v))]).
Proof.
  intros He Hsz Hfit. unfold reply_copy, reply_used, reply_copies. rewrite Hfit. simpl.
  unfold reply_fits in Hfit. apply Z.leb_le in Hfit.
  eapply moves_bind_eq; [by apply (rh_get_eq _ _ _ _ _ He) | done|]. unfold id.
  destruct (rcrh_recv_niovs (rcsa_rh v) =? 0) eqn:Er; simpl.
  { eapply moves_conv; [apply moves_ret | | done..]. rewrite He. by destruct v as [? []]. }
  rewrite copy_to_iovs_min, Z.min_l by done. replace (0 <=? rcrm_data_size rcrm) with true by lia.
  eapply moves_bind_eq; [reflexivity..|]. rewrite Z.eqb_refl. eapply moves_bind_eq; [reflexivity..|].
  eapply (moves_bind _ _ _ _ _ _ _ _ [_] _ _ []); [apply effect_moves|]. intros w1 H1.
  eapply moves_conv; [apply (rh_upd_moves k _ w1 v n) | done | apply H1 | done].
  rewrite <- He. apply H1.
Qed.

Definition sa_replied (rcrm : raft_client_rpc_msg) (latency : Z) (v : raft_client_sub_app) :
  raft_client_sub_app :=
  sa_finish (reply_error rcrm (rcsa_rh v))
    ((sa_prepared rcrm v) <| rcsa_rh ::= fun h =>
       h <| rcrh_reply_used_size := reply_used rcrm (rcsa_rh v) |>
         <| rcrh_completion_latency_ms := latency |> |>).

(** The entry between the copy and the end. *)
Definition sa_copied (rcrm : raft_client_rpc_msg) (v : raft_client_sub_app) : raft_client_sub_app :=
  (sa_prepared rcrm v) <| rcsa_rh ::= fun h => h <| rcrh_reply_used_size := reply_used rcrm (rcsa_rh v) |> |>.
Definition reply_copied (rcrm : raft_client_rpc_msg) (k : user_id) (h : raft_client_request_handle) :
  list client_effect :=
  if reply_copies rcrm h
  then [Copied k (take (Z.to_nat (rcrm_data_size rcrm)) (rcrm_data rcrm)) (iovs_from h)] else [].

Lemma fit_copy_moves rcrm k (w : W) v n :
  el w k = Some (sa_prepared rcrm v, n) -> 0 <= rcrm_data_size rcrm ->
  moves (when ((if reply_fits rcrm (rcsa_rh v) then 0 else - E2BIG) =? 0) (reply_copy k rcrm)) k w tt
    (Some (sa_copied rcrm v, n)) (sendq_of w) (reply_copied rcrm k (rcsa_rh v)).
Proof.
  intros He Hsz. unfold reply_copied, sa_copied, reply_used, reply_copies.
  destruct (reply_fits rcrm (rcsa_rh v)) eqn:Ef; simpl.
  - eapply moves_conv; [by apply (copy_exact rcrm k w (sa_prepared rcrm v) n) | |done|].
    + unfold reply_used, reply_copies.
      change (reply_fits rcrm (rcsa_rh (sa_prepared rcrm v))) with (reply_fits rcrm (rcsa_rh v)).
      by rewrite Ef.
    + simpl. by destruct (_ =? 0).
  - eapply moves_conv; [apply moves_ret | | done..]. rewrite He. by destruct v as [? []].
Qed.

(** The end of the request, whose error is the reply's. *)
Lemma finish_exact rcrm k (w : W) v n :
  el w k = Some (sa_copied rcrm v, n) -> done_pre k w (sa_copied rcrm v) ->
  rcrh_ready (rcsa_rh v) = false -> rcrh_cancel (rcsa_rh v) = false -> n <> 1 ->
  exists latency, moves (reply_finish k rcrm (if reply_fits rcrm (rcsa_rh v) then 0 else - E2BIG)) k w tt
    (Some (sa_replied rcrm latency v, n - 1)) (sendq_of w) [].
Proof.
  intros He Hpre Hr Hc Hn. unfold reply_finish, rci_get, cl_get.
  replace (if negb ((if reply_fits rcrm (rcsa_rh v) then 0 else - E2BIG) =? 0) then _ else _)
    with (reply_error rcrm (rcsa_rh v)) by (unfold reply_error; by destruct (reply_fits _ _)).
  eexists. eapply moves_bind_eq; [reflexivity..|].
  eapply moves_step; [by apply (rh_upd_moves _ _ _ _ _ He)|]. intros w1 H1 He1 Hq1.
  eapply moves_conv; [apply (done_moves _ _ _ _ _ He1) | | done |].
  - eapply done_pre_moved; [done..| by rewrite He |]. apply sa_base_rh; try done. apply Hpre.
  - done.
  - simpl. by rewrite Hc.
  - simpl. replace (n =? 1) with false by lia. reflexivity.
  - unfold put_effects. by replace (n =? 1) with false by lia.
Qed.

(** The whole completion, and the reference of the look-up. *)
Lemma reply_delivers_moves rcrm k (w : W) v :
  el w k = Some (v, 2) -> done_pre k w v -> rcrh_initializing (rcsa_rh v) = false ->
  rcrh_ready (rcsa_rh v) = false -> rcrh_cancel (rcsa_rh v) = false -> rcrh_completing (rcsa_rh v) = false ->
  rcrh_alloc_get_buffer_for_user (rcsa_rh v) = false ->
  0 <= rcrm_data_size rcrm -> rcrm_msg_id rcrm = raft_client_sub_app_2_msg_id v ->
  exists latency, moves (reply_to_sub_app rcrm k) k w tt None (sendq_of w)
    (reply_copied rcrm k (rcsa_rh v) ++ [completion (sa_replied rcrm latency v)]).
Proof.
  intros He Hpre Hi Hr Hc Hcomp Ha Hsz Hid.
  destruct (prepare_exact rcrm k w v 2 He Ha) as (w1 & Hm1 & H1).
  pose proof (mv_el _ _ _ _ _ _ H1) as He1. pose proof (mv_sendq _ _ _ _ _ _ H1) as Hq1.
  destruct (fit_copy_moves rcrm k w1 v 2 He1 Hsz) as (w2 & Hm2 & H2).
  pose proof (mv_el _ _ _ _ _ _ H2) as He2. pose proof (mv_sendq _ _ _ _ _ _ H2) as Hq2.
  assert (done_pre k w2 (sa_copied rcrm v)) as Hpre2.
  { split; [apply sa_base_rh; try done; apply sa_base_rh; try done; apply Hpre | |].
    - eapply moved_cnt_ok; [done | by rewrite He1 |]. eapply moved_cnt_ok; [done | by rewrite He | apply Hpre].
    - eapply moved_ops_ok; [done|]. eapply moved_ops_ok; [done | apply Hpre]. }
  destruct (finish_exact rcrm k w2 v 2 He2 Hpre2 Hr Hc ltac:(lia)) as (latency & w3 & Hm3 & H3).
  pose proof (mv_el _ _ _ _ _ _ H3) as He3.
  exists latency. unfold reply_to_sub_app.
  eapply moves_bind_eq; [by apply (sa_get_eq _ _ _ _ He) | done|]. cbv zeta.
  rewrite Hi, Hid, Z.eqb_refl, Hr, Hcomp, Hc. simpl. eapply moves_bind_eq; [reflexivity..|].
  pose proof (moved_trans _ _ _ _ _ _ _ _ _ _ H1 (moved_trans _ _ _ _ _ _ _ _ _ _ H2 H3)) as H123.
  rewrite app_nil_r in H123. simpl in H123. rewrite Hq2, Hq1 in H123.
  eapply moves_cut_effects; [|exact H123|].
  { unfold reply_complete. by rewrite (bind_eq _ _ _ _ _ Hm1), (bind_eq _ _ _ _ _ Hm2). }
  eapply moves_conv; [apply (put_moves _ _ (sa_replied rcrm latency v) 1) | done | apply H123 | done].
  - done.
  - apply sa_base_finish, sa_base_rh; try done. apply sa_base_rh; try done. apply Hpre.
  - eapply moved_cnt_ok; [done | by rewrite He | apply Hpre].
Qed.

Definition reply_result (rcrm : raft_client_rpc_msg) (h : raft_client_request_handle) : Z :=
  - Z.abs (s16 (reply_error rcrm h)).

Lemma replied_completion rcrm latency k v :
  rcsa_rncui v = k -> rcrh_cancel (rcsa_rh v) = false ->
  completion (sa_replied rcrm latency v) =
  let h := rcsa_rh v in
  Completed k
    (match rcrh_async_cb h with
     | Some f => Some (f, rcrh_arg h,
                       if reply_result rcrm h =? 0 then s64 (reply_used rcrm h) else reply_result rcrm h,
                       iov_base <$> znth (rcrh_iovs h) (rcrh_send_niovs h + 1))
     | None => None
     end)
    (if rcrh_blocking h then Some (reply_result rcrm h) else None).
Proof.
  intros Hk Hc. unfold completion, sa_replied, sa_finish. simpl. rewrite Hc. simpl. rewrite Hk.
  unfold reply_result. destruct (rcrh_async_cb _); [|done].
  replace (- Z.abs (s16 (reply_error rcrm (rcsa_rh v))) =? 0) with (s16 (reply_error rcrm (rcsa_rh v)) =? 0).
  { by destruct (_ =? 0). }
  destruct (Z.eqb_spec (s16 (reply_error rcrm (rcsa_rh v))) 0) as [->|]; [done|]. lia.
Qed.

(** Finding the request by its user, and completing it. *)
Lemma try_complete_delivers rcrm k (w : W) v :
  el w k = Some (v, 1) -> done_pre k w v -> rcrh_initializing (rcsa_rh v) = false ->
  rcrh_ready (rcsa_rh v) = false -> rcrh_cancel (rcsa_rh v) = false -> rcrh_completing (rcsa_rh v) = false ->
  rcrh_alloc_get_buffer_for_user (rcsa_rh v) = false ->
  0 <= rcrm_data_size rcrm -> rcrm_msg_id rcrm = raft_client_sub_app_2_msg_id v ->
  rci_obj_id_cb (rcrm_data rcrm) (rcrm_data_size rcrm) = (0, k) ->
  exists latency, moves (raft_client_reply_try_complete rcrm) k w tt None (sendq_of w)
    (reply_copied rcrm k (rcsa_rh v) ++ [completion (sa_replied rcrm latency v)]).
Proof.
  intros He Hpre Hi Hr Hc Hcomp Ha Hsz Hid Hobj.
  destruct (lookup_moves k w v 1 He) as (w1 & Hl & H1).
  destruct (reply_delivers_moves rcrm k w1 v) as (latency & Hm); try done.
  - apply H1.
  - eapply done_pre_moved; [done..| by rewrite He | apply Hpre].
  - exists latency. unfold raft_client_reply_try_complete. rewrite Hobj. simpl.
    eapply moves_cut; [done..|]. simpl. eapply moves_conv; [done | done | apply H1 | done].
Qed.
End reply.
