(* ===== verification/ClientProps.v ===== *)
(** What the client library promises to the application, and where it fails to:
    theorems on every state that a started client can reach, with concrete runs. *)
From stdpp Require Import base tactics list gmap relations.
From Stdlib Require Import ZArith Lia Strings.Byte.
From S2P Require Import Prelude RaftTypes World Net Entry Server Sim RcTypes RaftClient RcSpec RcNetSpec RcLife RcInv RcTimer RcReplyInv RcSubmit RcNode RcPace RcReply RcSim.
Local Open Scope Z_scope.
Local Open Scope raft_scope.

(** ** Concrete runs as steps *)
Definition thread_event_okb (e : thread_event) : bool :=
  match e with TeRecv rcrm _ _ => 0 <=? rcrm_data_size rcrm | _ => true end.
Definition event_okb (n : cnode) (ev : client_event) : bool :=
  match ev with
  | CeAdd _ _ args =>
      negb (sub_allocate_get_buffer_for_user args) || (length (sub_src_iovs args) <=? 6)%nat
  | CeCancel _ (Some k) _ => bool_decide (k ∉ starting_keys n)
  | CeHandler e => thread_event_okb e
  | CeThread es _ => forallb thread_event_okb es
  | _ => true
  end.
Fixpoint sim_events_okb (n : cnode) (evs : list client_event) : bool :=
  match evs with
  | [] => true
  | ev :: evs' =>
      event_okb n ev &&
      match client_run sim_self n ev with
      | Some n' => sim_events_okb n' evs'
      | None => false
      end
  end.

Lemma thread_event_okb_ok e : thread_event_okb e = true -> thread_event_ok e.
Proof. destruct e; simpl; [done..|]. lia. Qed.
Lemma event_okb_ok n ev : event_okb n ev = true -> event_ok n ev.
Proof.
  destruct ev as [? ? args|k|? [k|] ?|e|es ?|e]; simpl; try done.
  - destruct (sub_allocate_get_buffer_for_user args); simpl; [|done].
    intros ?%Nat.leb_le _. done.
  - by intros ?%bool_decide_eq_true.
  - apply thread_event_okb_ok.
  - induction es as [|e es IH]; simpl; [constructor|].
    intros [He Hes]%andb_true_iff. constructor; [by apply thread_event_okb_ok | by apply IH].
Qed.
Lemma sim_client_steps n evs :
  sim_events_okb n evs = true -> rtc (client_step sim_self) n (sim_client_run n evs).
Proof.
  revert n. induction evs as [|ev evs IH]; intros n; [constructor|]. cbn [sim_events_okb sim_client_run foldl].
  intros [Hev Hrun]%andb_true_iff. unfold sim_client_do at 2.
  destruct (client_run sim_self n ev) as [n'|] eqn:E; [|done]. simpl.
  eapply rtc_l; [|by apply IH]. exists ev. split; [by apply event_okb_ok | done].
Qed.

Lemma sim_client_step n ev :
  sim_events_okb n [ev] = true -> client_step sim_self n (sim_client_do n ev).
Proof.
  cbn [sim_events_okb]. intros [Hev H]%andb_true_iff. exists ev. split; [by apply event_okb_ok|].
  unfold sim_client_do. by destruct (client_run sim_self n ev).
Qed.

Lemma sim_client_boots : client_boots sim_self sim_client_w0 sim_client_w.
Proof.
  split; [split; vm_compute; try done; split; congruence|].
  exists [], [], RAFT_INSTANCE_STORE_ROCKSDB, sim_init_env, sim_self, sim_client_w1, 1. split.
  - assert (fst <$> sim_client_init sim_client_w0 = Some (0, sim_self)) as H by by vm_compute.
    unfold sim_client_w1. change (raft_client_init sim_self (Some []) (Some [])
      RAFT_INSTANCE_STORE_ROCKSDB sim_init_env sim_client_w0) with (sim_client_init sim_client_w0).
    destruct (sim_client_init sim_client_w0) as [[r w]|]; [|done]. by injection H as ->.
  - assert (fst <$> raft_client_thread_start 0 0 0 1 sim_client_w1 = Some tt) as H by by vm_compute.
    unfold sim_client_w. destruct (raft_client_thread_start 0 0 0 1 sim_client_w1) as [[[] w]|]; done.
Qed.
Lemma sim_client_reaches evs :
  sim_events_okb sim_started evs = true ->
  client_reachable sim_self sim_client_w (sim_client_run sim_started evs).
Proof. apply sim_client_steps. Qed.

Section promises.
Context `{NC : NiovaCore} {OKC : NiovaCoreOk NC} {IO : NiovaIo} {OKIO : NiovaIoOk IO}
  {APP : RaftClientApp} {B T : Type}
  {RT : RefTree raft_net_client_user_id raft_client_sub_app T} {OKT : RefTreeOk RT}.
Variable rci_self : Z.
Local Abbreviation user_id := raft_net_client_user_id.
Local Abbreviation W := (world B (client_ctx T)).
Local Abbreviation node := (@client_node B T).

Lemma boot_reachable (w0 w : W) n :
  client_boots rci_self w0 w -> client_reachable rci_self w n ->
  node_wf rci_self n /\
  forall k, life Absent (occ k (nd_accepted n)) (node_ends n k) (node_request n k).
Proof. intros Hw Hn. apply (reachable_ok rci_self w); [by eapply booted_ready | done]. Qed.


(** C14. The requests implement the machine [life_step] of [RcLife].  Every event
    moves every request by a sequence of its steps; the steps that accept a
    request are the additions to the tree and the steps that end one are the
    reports to the application. *)
Theorem client_refines_life (w0 w : W) n n' k :
  client_boots rci_self w0 w -> client_reachable rci_self w n -> client_step rci_self n n' ->
  exists added ended,
    life (node_request n k) added ended (node_request n' k) /\
    occ k (nd_accepted n') = (occ k (nd_accepted n) + added)%nat /\
    node_ends n' k = (node_ends n k + ended)%nat.
Proof.
  intros Hw Hn (ev & Hev & Hrun). destruct (boot_reachable _ _ _ Hw Hn) as [Hwf _].
  destruct (client_run_ok rci_self n ev Hwf Hev) as (n2 & added & Hrun2 & _ & Ha & l & Hl & Hlife).
  rewrite Hrun in Hrun2. injection Hrun2 as <-. exists (occ k added), (ends k l).
  split; [apply Hlife|]. rewrite Ha, occ_app. unfold node_ends. by rewrite Hl, ends_app.
Qed.

(** C15. Every request put into the tree is either still there or its end was
    reported to the application, and it was reported once. *)
Theorem client_exactly_once (w0 w : W) n k :
  client_boots rci_self w0 w -> client_reachable rci_self w n ->
  occ k (nd_accepted n)
  = (node_ends n k + match el (nd_world n) k with Some _ => 1 | None => 0 end)%nat.
Proof.
  intros Hw Hn. destruct (boot_reachable _ _ _ Hw Hn) as [_ Hlife].
  specialize (Hlife k). apply life_conserves in Hlife. simpl in Hlife. rewrite Hlife.
  unfold node_request. destruct (el (nd_world n) k) as [[v r]|]; simpl; [|lia].
  destruct (rcrh_initializing _); simpl; lia.
Qed.

(** ** Requests that are lost *)
Definition never_ends (n : node) (k : user_id) : Prop :=
  forall n', rtc (client_step rci_self) n n' ->
    is_Some (el (nd_world n') k) /\ node_ends n' k = node_ends n k /\
    occ k (nd_accepted n') = occ k (nd_accepted n).

Lemma leaked_never_ends n k q f e :
  node_wf rci_self n -> node_request n k = Live q f e -> 0 < e -> never_ends n k.
Proof.
  intros Hn Hr He n' Hsteps.
  destruct (client_steps_ok _ _ _ Hsteps Hn) as (_ & added & Ha & l & Hl & Hlife).
  specialize (Hlife k). change (request_of (occ k []) (el (nd_world n) k)) with (node_request n k) in Hlife.
  rewrite Hr in Hlife. destruct (life_leaked _ _ _ _ _ _ Hlife He) as ((E1 & E2) & q' & f' & e' & Hreq & _).
  unfold node_ends. rewrite Ha, Hl, occ_app, ends_app, E1, E2. split; [|lia].
  destruct (el (nd_world n') k); [by eexists | done].
Qed.

(** C29. A request whose transmission fails is lost.  The entry is taken from the
    queue and marked as canceled, but only one of its two references is put: it
    stays in the tree for ever, the application is never told (its callback is
    not called, its blocked thread is not woken), and no later request of the
    same user is accepted. *)
Theorem client_send_failure_loses_request (w0 w : W) n k q v r rc w' :
  client_boots rci_self w0 w -> client_reachable rci_self w n ->
  sendq_of (nd_world n) = k :: q -> el (nd_world n) k = Some (v, r) ->
  rcrh_cancel (rcsa_rh v) = false -> rcrh_ready (rcsa_rh v) = false ->
  raft_client_rpc_sendq_dequeue_head_and_send (nd_world n) = Some (rc, w') ->
  rc <> 0 -> rc <> - EAGAIN ->
  never_ends (n <| nd_world := w' |>) k.
Proof.
  intros Hw Hreach Hq He Hc Hr Hrun H0 H1.
  destruct (boot_reachable _ _ _ Hw Hreach) as [Hn _]. pose proof (nw_inv _ _ Hn) as Hci.
  destruct (dequeue_serves _ _ Hci) as (rc2 & w2 & Hrun2 & Hci2 & Hev & _ & Hout).
  rewrite Hrun in Hrun2. injection Hrun2 as <- <-. rewrite Hq in Hout. destruct Hout as [_ Hel].
  destruct (queue_head _ _ _ _ _ Hci Hq) as (v0 & r0 & He0 & Hs & Hi & Hk & Hv & _).
  rewrite He in He0. injection He0 as <- <-. specialize (Hel v r He).
  assert (sa_finished v = false) as Hf by (unfold sa_finished; by rewrite Hc, Hr).
  pose proof (av_refs _ _ _ _ Hv) as Hrefs. unfold sa_refs in Hrefs. rewrite Hf, Hs in Hrefs. simpl in Hrefs.
  unfold dequeue_result in Hel. rewrite Hf in Hel.
  replace (rc =? 0) with false in Hel by lia. replace (rc =? - EAGAIN) with false in Hel by lia.
  simpl in Hel. replace (r =? 1) with false in Hel by lia.
  apply (leaked_never_ends _ k false true (r - 1)); [|unfold node_request; simpl; rewrite Hel|lia].
  - split; [done | apply Hn].
  - simpl. rewrite Hi. unfold sa_refs. simpl. f_equal. lia.
Qed.

(** C30. A request that waits for its reply cannot be canceled.  The attempt
    returns -EINPROGRESS, keeps the reference of its look-up, and from then on
    the request never ends: even its reply or its timeout leaves it in the tree
    and the application uninformed. *)
Theorem client_cancel_loses_request (w0 w : W) n k v r :
  client_boots rci_self w0 w -> client_reachable rci_self w n ->
  el (nd_world n) k = Some (v, r) -> k ∉ starting_keys n ->
  exists w', raft_client_request_cancel rci_self (Some k) true (nd_world n) = Some (- EINPROGRESS, w') /\
    never_ends (n <| nd_world := w' |>) k.
Proof.
  intros Hw Hreach He Hk. destruct (boot_reachable _ _ _ Hw Hreach) as [Hn _].
  pose proof (nw_inv _ _ Hn) as Hci.
  destruct (ci_live _ _ _ _ _ _ Hci He Hk) as [Hi Hv].
  destruct (lookup_moves k (nd_world n) v r He) as (w' & Hl & Hm).
  pose proof (mv_el _ _ _ _ _ _ Hm) as He'. destruct (ci_self _ _ _ _ Hci) as [Hs0 Hs].
  assert (raft_client_request_cancel rci_self (Some k) true (nd_world n) = Some (- EINPROGRESS, w')) as Hrun.
  { unfold raft_client_request_cancel, raft_client_instance_lookup, cl_get. simpl.
    replace (rci_self =? 0) with false by lia. simpl.
    erewrite bind_eq; [|erewrite bind_eq by reflexivity; reflexivity].
    rewrite (bool_decide_eq_true_2 (rci_self ∈ _)) by done. simpl.
    rewrite (bind_eq _ _ _ _ _ Hl). simpl. rewrite (bind_eq _ _ _ _ _ (rh_get_eq _ _ _ _ _ He')).
    by rewrite Hi. }
  exists w'. split; [done|].
  destruct (request_cancel_serves (starting_keys n) rci_self (Some k) true (nd_world n) Hci)
    as (rc2 & w2 & Hrun2 & Hci2 & _); [by intros ? [= <-]|].
  rewrite Hrun in Hrun2. injection Hrun2 as <- <-.
  apply (leaked_never_ends _ k (rcrh_sendq (rcsa_rh v)) (sa_finished v) (r + 1 - sa_refs v)).
  - split; [done | apply Hn].
  - unfold node_request. simpl. rewrite He'. simpl. rewrite Hi. f_equal. lia.
  - pose proof (av_refs _ _ _ _ Hv). lia.
Qed.

(** ** Timeouts and replies *)


(** C17. A message changes a request only as the reply to it: a reply without
    system error from the server the client holds for the leader, of the same
    raft, received from its address, that names the user and carries the message
    id of the request, which is neither finished nor being set up. *)
Theorem client_reply_must_match (w0 w : W) n n' rcrm bytes ok k :
  client_boots rci_self w0 w -> client_reachable rci_self w n -> 0 <= rcrm_data_size rcrm ->
  client_run rci_self n (CeHandler (TeRecv rcrm bytes ok)) = Some n' ->
  el (nd_world n') k <> el (nd_world n) k ->
  ok = true /\ rcrm_type rcrm = RAFT_CLIENT_RPC_MSG_TYPE_REPLY /\ rcrm_sys_error rcrm = 0 /\
  ri_csn_leader (w_ri (nd_world n)) = Some (rcrm_sender_id rcrm) /\
  rcrm_raft_id rcrm = ri_csn_raft (w_ri (nd_world n)) /\
  rci_obj_id_cb (rcrm_data rcrm) (rcrm_data_size rcrm) = (0, k) /\
  exists v r, el (nd_world n) k = Some (v, r) /\ rcrh_initializing (rcsa_rh v) = false /\
    sa_finished v = false /\ rcrm_msg_id rcrm = raft_client_sub_app_2_msg_id v.
Proof.
  intros Hw Hreach Hsz Hrun Hne. destruct (boot_reachable _ _ _ Hw Hreach) as [Hn _].
  destruct (recv_handler_serves _ rcrm bytes ok _ (nw_inv _ _ Hn) Hsz)
    as ([] & w' & Hrun2 & _ & _ & _ & Hch).
  simpl in Hrun. unfold node_do in Hrun. simpl in Hrun. rewrite Hrun2 in Hrun.
  injection Hrun as <-. simpl in Hne. destruct (Hch k) as [|(-> & ? & ? & ? & ? & ? & ?)]; [done|].
  by split_and!.
Qed.


(** ** Sending *)

(** C33. A call of the sender transmits at most RAFT_CLIENT_RPC_SENDER_MAX (8)
    requests and no more than the interval still allows: the counter of the
    interval, which covers every request sent in it, never exceeds
    raftClientRequestRatePerSec / (1000 / RAFT_CLIENT_RATE_QUANTUM_MSEC) = 20. *)
Theorem client_sender_rate (w w' : W) :
  0 <= sent_rpcs w <= rate_per_quantum ->
  raft_client_rpc_sender w = Some (tt, w') ->
  let fresh := u64 (timespec_2_msec (env_unstable (w_env w)) - timespec_2_msec (cl_interval_start (w_app w)))
               >? RAFT_CLIENT_RATE_QUANTUM_MSEC in
  let before := if fresh then 0 else sent_rpcs w in
  before <= sent_rpcs w' <= rate_per_quantum /\
  sent_msgs w <= sent_msgs w' <= sent_msgs w + (sent_rpcs w' - before) /\
  sent_rpcs w' - before <= RAFT_CLIENT_RPC_SENDER_MAX.
Proof.
  intros Hc Hrun. cbv zeta. unfold raft_client_rpc_sender in Hrun. change rate_per_quantum with 20 in *.
  unfold env_get, rci_get, cl_get in Hrun. run_step Hrun. run_step Hrun.
  apply bind_Some in Hrun as ([] & w1 & H1 & Hrun).
  set (before := if _ >? _ then 0 else _).
  assert (sent_rpcs w1 = before /\ sent_msgs w1 = sent_msgs w /\ 0 <= before <= 20) as (Hb & Hm & Hr).
  { unfold before, cl_upd in *. destruct (_ >? _); simpl in H1; run_inv H1; split_and!; try done; lia. }
  clear H1. clearbody before. subst before. run_step Hrun. fold (sent_rpcs w1) in Hrun.
  replace (s64 (20 - sent_rpcs w1)) with (20 - sent_rpcs w1) in Hrun by (unfold s64; rewrite Z.mod_small; lia).
  destruct (Z.leb_spec (20 - sent_rpcs w1) 0) as [Hle|Hle].
  { assert (same pace w1 w') as H3 by (revert Hrun; eapply keeps_run; solve_keeps).
    unfold same, pace in H3. injection H3 as H4 H5. unfold RAFT_CLIENT_RPC_SENDER_MAX. lia. }
  run_step Hrun. apply bind_Some in Hrun as ([] & w2 & H2 & Hrun).
  unfold RAFT_CLIENT_RPC_SENDER_MAX in *. apply sender_loop_sends in H2; [|lia..].
  run_step Hrun. assert (same pace w2 w') as H3.
  { revert Hrun. eapply keeps_run. solve_keeps; by apply pace_emit. }
  unfold same, pace in H3. injection H3 as H4 H5. lia.
Qed.

Lemma sender_loop_same st f1 f2 m (w : W) :
  client_inv rci_self st [] w -> (length (sendq_of w) < f1)%nat -> (length (sendq_of w) < f2)%nat ->
  rpc_sender_loop f1 m w = rpc_sender_loop f2 m w.
Proof.
  revert f2 m w. induction f1 as [|f1 IH]; intros f2 m w Hci H1 H2; [lia|].
  destruct f2 as [|f2]; [lia|]. simpl. destruct (m =? 0); [done|].
  destruct (dequeue_serves _ _ Hci) as (rc & w1 & Hrun & Hci1 & _ & _ & Hout).
  rewrite !(bind_eq _ _ _ _ _ Hrun).
  destruct (sendq_of w) as [|k q]; [by subst rc|]. destruct Hout as [Hq _]. simpl in *.
  destruct (rc =? 0).
  - destruct (cl_upd_quiet (fun c => c <| cl_interval_rpc_cnt ::= fun n => u64 (n + 1) |>) w1)
      as ([] & w2 & Hm & Hs & _); try done. rewrite !(bind_eq _ _ _ _ _ Hm).
    apply IH; [by eapply silent_inv | |]; rewrite (si_sendq _ _ Hs), Hq; lia.
  - destruct (rc =? - ENOENT); [done|]. apply IH; rewrite ?Hq; [done | lia | lia].
Qed.

(** C34. The loop of the sender ends: each turn takes a request from the queue,
    so one turn more than the queue is long is enough, and more do not change
    the result. *)
Theorem client_sender_terminates (w0 w : W) n fuel remaining :
  client_boots rci_self w0 w -> client_reachable rci_self w n ->
  let q := sendq_of (nd_world n) in
  (length q < fuel)%nat ->
  is_Some (rpc_sender_loop fuel remaining (nd_world n)) /\
  rpc_sender_loop fuel remaining (nd_world n) = rpc_sender_loop (S (length q)) remaining (nd_world n).
Proof.
  intros Hw Hreach q Hfuel. destruct (boot_reachable _ _ _ Hw Hreach) as [Hn _].
  pose proof (nw_inv _ _ Hn) as Hci. split.
  - destruct (sender_loop_serves _ fuel remaining _ Hci Hfuel) as ([] & w' & Hrun & _). by eexists.
  - eapply sender_loop_same; [done | done | unfold q; lia].
Qed.

(** ** Submission *)

(** C32. The second step of a submission either fails, and then the request is
    gone and its callback is not called, or leaves the request live: it carries
    the caller's callback, argument and timeout (a timeout of zero stays zero,
    the default is not used), is queued or held back, and has one reference for
    its owner and one for the queue.  A blocking caller waits. *)
Theorem client_submit_outcome (w0 w : W) n k args :
  client_boots rci_self w0 w -> client_reachable rci_self w n ->
  (k, args) ∈ nd_starting n ->
  exists r w', raft_client_request_submit_start k args (nd_world n) = Some (r, w') /\
    ((exists rc, rc <> 0 /\ r = SubmitReturns rc /\ el w' k = None /\
        effects_of w' = effects_of (nd_world n) ++ [Completed k None None]) \/
     (r = (if submit_blocks args then SubmitWaits else SubmitReturns 0) /\
        effects_of w' = effects_of (nd_world n) /\
        exists v, el w' k = Some (v, if rcrh_sendq (rcsa_rh v) then 2 else 1) /\
          rcrh_initializing (rcsa_rh v) = false /\ sa_finished v = false /\
          rcrh_async_cb (rcsa_rh v) = sub_user_cb args /\ rcrh_arg (rcsa_rh v) = sub_user_arg args /\
          rcrh_timeout (rcsa_rh v) = sub_timeout args /\
          rcrh_blocking (rcsa_rh v) = submit_blocks args)).
Proof.
  intros Hw Hreach Hk. destruct (boot_reachable _ _ _ Hw Hreach) as [[Hci Hargs] _].
  rewrite Forall_forall in Hargs. specialize (Hargs _ Hk).
  destruct (submit_start_serves rci_self _ k args _ Hci) as (r & w' & Hrun & _ & _ & _ & Hout); [|done|].
  { apply list_elem_of_fmap. by exists (k, args). }
  exists r, w'. split; [done|].
  destruct Hout as [(rc & Hrc & -> & Hel & Heff)|(-> & Heff & v & r' & Hel & Ha & Hi & ->)].
  - left. by exists rc.
  - right. split; [done|]. split; [done|]. exists v.
    destruct Ha as [_ _ _ _ Hf _ ? ? ? ?]. split; [|by split_and!].
    rewrite Hel. unfold sa_refs. rewrite Hf. by destruct (rcrh_sendq _).
Qed.

Lemma starting_args (n : node) k : k ∈ starting_keys n ->
  exists i args, list_find (fun p => p.1 = k) (nd_starting n) = Some (i, (k, args)).
Proof.
  intros ([k' args] & -> & Hp)%list_elem_of_fmap.
  destruct (list_find_elem_of (fun p => p.1 = k') _ _ Hp) as [[i [k2 args2]] Hf]; [done|].
  pose proof Hf as (_ & E & _)%list_find_Some. simpl in *. subst k2. by exists i, args2.
Qed.
Lemma cancel_starting_moves k (w : W) :
  el w k = Some (fresh_sa k, 1) -> done_pre k w (fresh_sa k) -> rci_self <> 0 -> rci_self ∈ cl_instances (w_app w) ->
  moves (raft_client_request_cancel rci_self (Some k) true) k w 0 None (sendq_of w)
    [completion (sa_cancel (- ECANCELED) (fresh_sa k))].
Proof.
  intros He Hpre Hs0 Hs. destruct (lookup_moves k w _ _ He) as (w1 & Hl & H1).
  pose proof (mv_el _ _ _ _ _ _ H1) as He1. pose proof (mv_sendq _ _ _ _ _ _ H1) as Hq1.
  unfold raft_client_request_cancel. replace (rci_self =? 0) with false by lia. simpl.
  eapply moves_bind_eq; [|done|].
  { unfold raft_client_instance_lookup, cl_get. replace (rci_self =? 0) with false by lia.
    erewrite bind_eq by reflexivity. rewrite (bool_decide_eq_true_2 (rci_self ∈ _)) by done. reflexivity. }
  simpl. eapply moves_cut; [done..|]. simpl.
  eapply moves_bind_eq; [by apply (rh_get_eq _ _ _ _ _ He1) | done|]. simpl.
  eapply moves_step.
  { apply (cancel_moves k (- ECANCELED) w1 (fresh_sa k) 2 He1); try done.
    eapply done_pre_moved; [done..| by rewrite He | apply Hpre]. }
  intros w2 H2 He2 Hq2. rewrite <- (app_nil_r [completion _]). eapply moves_bind.
  { eapply moves_conv; [apply (put_moves k w2 (sa_cancel (- ECANCELED) (fresh_sa k)) 1 He2) | done | | done].
    - apply sa_base_finish. by apply sa_base_rh; [apply Hpre|..].
    - eapply moved_cnt_ok; [done | by rewrite He1 |]. eapply moved_cnt_ok; [done | by rewrite He | apply Hpre].
    - by rewrite Hq2, Hq1. }
  intros w3 H3. eapply moves_conv; [apply moves_ret | apply H3 | | done].
  by rewrite (mv_sendq _ _ _ _ _ _ H3), Hq1.
Qed.

(** C31. Canceling a request while its submission is under way frees it under
    the submitter: the cancel succeeds, the application is told, and the
    submission then works on a request that is gone. *)
Theorem client_cancel_frees_starting (w0 w : W) n k :
  client_boots rci_self w0 w -> client_reachable rci_self w n -> k ∈ starting_keys n ->
  exists n', client_run rci_self n (CeCancel rci_self (Some k) true) = Some n' /\
    el (nd_world n') k = None /\ node_ends n' k = S (node_ends n k) /\
    client_run rci_self n' (CeStart k) = None.
Proof.
  intros Hw Hreach Hk. destruct (boot_reachable _ _ _ Hw Hreach) as [[Hci _] _].
  destruct (ci_starting _ _ _ _ Hci Hk) as [He _].
  assert (done_pre k (nd_world n) (fresh_sa k)) as Hpre
    by (split; [done | by eapply ci_cnt_ok | apply Hci]).
  destruct (ci_self _ _ _ _ Hci) as [Hs0 Hs].
  destruct (cancel_starting_moves k _ He Hpre Hs0 Hs) as (w' & Hrun & Hm).
  exists (n <| nd_world := w' |>). split_and!.
  - unfold client_run, node_do. by rewrite Hrun.
  - apply Hm.
  - unfold node_ends. simpl. rewrite (mv_effects _ _ _ _ _ _ Hm), ends_app, Nat.add_comm. simpl.
    f_equal. unfold ends. rewrite filter_cons_True by by apply bool_decide_pack. done.
  - apply starting_args in Hk as (i & args & Hfind). unfold client_run.
    change (nd_starting (n <| nd_world := w' |>)) with (nd_starting n). rewrite Hfind.
    assert (sa_get k w' = None) as Hgone.
    { unfold sa_get, rci_get, cl_get. erewrite bind_eq by reflexivity. fold (rci_of w').
      pose proof (mv_el _ _ _ _ _ _ Hm) as Hel. unfold el in Hel. by rewrite Hel. }
    unfold raft_client_request_submit_start, env_get. erewrite bind_eq by reflexivity.
    unfold raft_client_request_handle_init, rh_get, bind. simpl. by rewrite Hgone.
Qed.
End promises.

(** ** Witnesses *)
Definition sim_leads : cnode := sim_client_run sim_started sim_find_leader.
Definition sim_added : cnode :=
  sim_client_run sim_started (sim_find_leader ++ [CeAdd sim_self (Some (sim_user 5)) sim_args]).
Definition sim_sent : cnode := sim_client_do sim_queued (CeHandler TeEvp).

Lemma sim_queued_reach : client_reachable sim_self sim_client_w sim_queued.
Proof. apply sim_client_reaches. by vm_compute. Qed.
Lemma sim_added_reach : client_reachable sim_self sim_client_w sim_added.
Proof. apply sim_client_reaches. by vm_compute. Qed.
Lemma sim_sent_step : client_step sim_self sim_queued sim_sent.
Proof. apply sim_client_step. by vm_compute. Qed.
Lemma sim_sent_reach : client_reachable sim_self sim_client_w sim_sent.
Proof. eapply rtc_r; [apply sim_queued_reach | apply sim_sent_step]. Qed.

(** The entry of user 5, as a value. *)
Definition sim_sa (n : cnode) : raft_client_sub_app :=
  match el (nd_world n) (sim_user 5) with Some (v, _) => v | None => zero_sub_app (sim_user 5) end.
Definition sim_refs (n : cnode) : Z :=
  match el (nd_world n) (sim_user 5) with Some (_, r) => r | None => 0 end.
Lemma sim_entry (n : cnode) r :
  sim_refs n = r -> r <> 0 -> el (nd_world n) (sim_user 5) = Some (sim_sa n, r).
Proof.
  unfold sim_refs, sim_sa. destruct (el (nd_world n) (sim_user 5)) as [[v r']|]; [|done].
  by intros -> _.
Qed.
Lemma sim_entry_ne (n : cnode) v r : sim_refs n <> r -> el (nd_world n) (sim_user 5) <> Some (v, r).
Proof. unfold sim_refs. intros Hr E. by rewrite E in Hr. Qed.
Lemma sim_sent_entry : el (nd_world sim_sent) (sim_user 5) = Some (sim_sa sim_sent, 1).
Proof. apply sim_entry; [by vm_compute | done]. Qed.
Lemma sim_queued_entry : el (nd_world sim_queued) (sim_user 5) = Some (sim_sa sim_queued, 2).
Proof. apply sim_entry; [by vm_compute | done]. Qed.
Lemma sim_leader_keys : starting_keys sim_added = [sim_user 5] /\ starting_keys sim_sent = [].
Proof. split; by vm_compute. Qed.

Definition sim_answer : raft_client_rpc_msg :=
  sim_reply (raft_client_sub_app_2_msg_id (sim_sa sim_sent)) [x05; x06].


Lemma client_refines_life_witness :
  exists added ended,
    life (node_request sim_queued (sim_user 5)) added ended (node_request sim_sent (sim_user 5)) /\
    occ (sim_user 5) (nd_accepted sim_sent) = (occ (sim_user 5) (nd_accepted sim_queued) + added)%nat /\
    node_ends sim_sent (sim_user 5) = (node_ends sim_queued (sim_user 5) + ended)%nat.
Proof.
  apply (client_refines_life sim_self _ _ _ _ _ sim_client_boots sim_queued_reach), sim_sent_step.
Defined.

Lemma client_exactly_once_witness :
  occ (sim_user 5) (nd_accepted sim_sent)
  = (node_ends sim_sent (sim_user 5) +
     match el (nd_world sim_sent) (sim_user 5) with Some _ => 1 | None => 0 end)%nat.
Proof. apply (client_exactly_once sim_self _ _ _ _ sim_client_boots sim_sent_reach). Defined.

(** The network fails before the request is sent. *)
Definition sim_down : cnode := sim_client_do sim_queued
  (CeEnv ((sim_client_env 1000) <| env_tcp_send := fun _ _ => - ENOTCONN |>)).
Lemma sim_down_reach : client_reachable sim_self sim_client_w sim_down.
Proof. eapply rtc_r; [apply sim_queued_reach | apply sim_client_step; by vm_compute]. Qed.
Definition sim_down_w : cworld :=
  match raft_client_rpc_sendq_dequeue_head_and_send (nd_world sim_down) with
  | Some (_, w) => w
  | None => nd_world sim_down
  end.
Lemma sim_run_fst {X} (m : M cworld X) (w d : cworld) a :
  (match m w with Some (x, _) => Some x | None => None end) = Some a ->
  m w = Some (a, match m w with Some (_, w') => w' | None => d end).
Proof. destruct (m w) as [[x w']|]; [by intros [= ->] | done]. Qed.

Lemma client_send_failure_loses_request_witness :
  never_ends sim_self (sim_down <| nd_world := sim_down_w |>) (sim_user 5).
Proof.
  eapply (client_send_failure_loses_request sim_self _ _ sim_down (sim_user 5) [] (sim_sa sim_down) 2
            (- ENOTCONN) _ sim_client_boots sim_down_reach).
  - by vm_compute.
  - apply sim_entry; [by vm_compute | done].
  - by vm_compute.
  - by vm_compute.
  - apply sim_run_fst. by vm_compute.
  - done.
  - done.
Defined.

Lemma client_cancel_loses_request_witness :
  exists w', raft_client_request_cancel sim_self (Some (sim_user 5)) true (nd_world sim_sent)
      = Some (- EINPROGRESS, w') /\
    never_ends sim_self (sim_sent <| nd_world := w' |>) (sim_user 5).
Proof.
  apply (client_cancel_loses_request sim_self _ _ sim_sent (sim_user 5) _ _ sim_client_boots
           sim_sent_reach sim_sent_entry).
  replace (starting_keys sim_sent) with (@nil raft_net_client_user_id) by by vm_compute.
  apply not_elem_of_nil.
Defined.



Lemma sim_run_do (n : cnode) ev :
  sim_events_okb n [ev] = true -> client_run sim_self n ev = Some (sim_client_do n ev).
Proof.
  cbn [sim_events_okb]. intros [_ H]%andb_true_iff. unfold sim_client_do.
  by destruct (client_run sim_self n ev).
Qed.
Definition sim_answered : cnode := sim_client_do sim_sent (CeHandler (TeRecv sim_answer 200 true)).

Lemma client_reply_must_match_witness :
  rcrm_type sim_answer = RAFT_CLIENT_RPC_MSG_TYPE_REPLY /\
  ri_csn_leader (w_ri (nd_world sim_sent)) = Some (rcrm_sender_id sim_answer).
Proof.
  destruct (client_reply_must_match sim_self _ _ sim_sent sim_answered sim_answer 200 true (sim_user 5)
    sim_client_boots sim_sent_reach) as (_ & Hty & _ & Hlead & _); [by vm_compute | | | by split].
  - apply sim_run_do. by vm_compute.
  - rewrite sim_sent_entry. apply sim_entry_ne. by vm_compute.
Defined.


Definition sim_sender_w : cworld :=
  match raft_client_rpc_sender (nd_world sim_queued) with
  | Some (_, w) => w
  | None => nd_world sim_queued
  end.
Lemma client_sender_rate_witness :
  0 <= sent_rpcs sim_sender_w <= rate_per_quantum /\ sent_msgs sim_sender_w <= sent_msgs (nd_world sim_queued) + 8.
Proof.
  destruct (client_sender_rate (nd_world sim_queued) sim_sender_w) as (H1 & H2 & H3).
  - by vm_compute.
  - apply sim_run_fst. by vm_compute.
  - unfold RAFT_CLIENT_RPC_SENDER_MAX in H3. destruct (_ >? _).
    + lia.
    + assert (sent_rpcs (nd_world sim_queued) = 0) as E by by vm_compute. rewrite E in *. lia.
Defined.

Lemma client_sender_terminates_witness :
  rpc_sender_loop 100 8 (nd_world sim_queued) = rpc_sender_loop 2 8 (nd_world sim_queued).
Proof.
  assert (length (sendq_of (nd_world sim_queued)) = 1%nat) as Hq by by vm_compute.
  destruct (client_sender_terminates sim_self _ _ sim_queued 100 8 sim_client_boots sim_queued_reach)
    as [_ H]; [rewrite Hq; lia|]. by rewrite Hq in H.
Defined.

Lemma client_submit_outcome_witness :
  exists r w', raft_client_request_submit_start (sim_user 5) sim_args (nd_world sim_added) = Some (r, w') /\
    (r = SubmitWaits \/ exists rc, r = SubmitReturns rc).
Proof.
  destruct (client_submit_outcome sim_self _ _ sim_added (sim_user 5) sim_args sim_client_boots sim_added_reach)
    as (r & w' & Hrun & Hout).
  - replace (nd_starting sim_added) with [(sim_user 5, sim_args)] by by vm_compute. apply list_elem_of_here.
  - exists r, w'. split; [done|]. destruct Hout as [(rc & _ & -> & _)|(-> & _)]; [by right; exists rc | by left].
Defined.

Lemma client_cancel_frees_starting_witness :
  exists n', client_run sim_self sim_added (CeCancel sim_self (Some (sim_user 5)) true) = Some n' /\
    el (nd_world n') (sim_user 5) = None /\
    node_ends n' (sim_user 5) = S (node_ends sim_added (sim_user 5)) /\
    client_run sim_self n' (CeStart (sim_user 5)) = None.
Proof.
  apply (client_cancel_frees_starting sim_self _ _ _ _ sim_client_boots sim_added_reach).
  replace (starting_keys sim_added) with [sim_user 5] by by vm_compute. apply list_elem_of_here.
Defined.
