(* ===== verification/UserId.v ===== *)
(** The text form of the user identifiers of the client library
    ([raft_net_client_user_id_parse] in [src/raft_net.c],
    [raft_net_client_user_id_to_string] in [src/include/raft_net.h]): a uuid and
    four hexadecimal numbers, separated by colons.  The calls of the C library
    (snprintf "%lx", strtok_r, strtoull in base 16) are modelled; libuuid and the
    expression RNCUI_V0_REGEX_BASE of niova-core are parameters. *)
From stdpp Require Import base tactics list.
From Stdlib Require Import ZArith Lia Strings.Byte.
From S2P Require Import Prelude RaftTypes World Entry RocksKeys RocksBackend RocksSim RcTypes.
Local Open Scope Z_scope.
Local Open Scope raft_scope.

(** ** The C library *)
Definition lx_char (z : Z) : byte :=
  if z <? 10 then byte_of_Z (48 + z) else byte_of_Z (87 + z).
(** The last [n] hexadecimal digits of [z]. *)
Fixpoint lx_digits (n : nat) (z : Z) : bytes :=
  match n with
  | O => []
  | S n' => lx_digits n' (z / 16) ++ [lx_char (z mod 16)]
  end.
Fixpoint num_lx_digits (fuel : nat) (z : Z) : nat :=
  match fuel with
  | O => 1%nat
  | S fuel' => if z <? 16 then 1%nat else S (num_lx_digits fuel' (z / 16))
  end.
(** "%lx" of a 64-bit value, which has at most 16 digits. *)
Definition fmt_lx (z : Z) : bytes := lx_digits (num_lx_digits 15 (u64 z)) (u64 z).

Definition xdigit_val (b : byte) : option Z :=
  let c := Z_of_byte b in
  if (48 <=? c) && (c <=? 57) then Some (c - 48)
  else if (97 <=? c) && (c <=? 102) then Some (c - 87)
  else if (65 <=? c) && (c <=? 70) then Some (c - 55)
  else None.

Fixpoint xdigits_val (acc : Z) (l : bytes) : Z :=
  match l with
  | b :: l' =>
      match xdigit_val b with Some d => xdigits_val (16 * acc + d) l' | None => acc end
  | [] => acc
  end.
(** The optional prefix "0x", which counts only before a digit. *)
Definition skip_0x (l : bytes) : bytes :=
  match l with
  | b0 :: b1 :: b2 :: l' =>
      if (Z_of_byte b0 =? 48) && ((Z_of_byte b1 =? 120) || (Z_of_byte b1 =? 88))
         && isxdigit b2 then b2 :: l' else l
  | _ => l
  end.
Definition strtoull16_mag (l : bytes) : Z :=
  Z.min (xdigits_val 0 (skip_0x l)) (2 ^ 64 - 1).
(** strtoull(s, NULL, 16): white space, a sign, a prefix, digits; it saturates. *)
Fixpoint strtoull16 (l : bytes) : Z :=
  match l with
  | b :: l' =>
      if isspace b then strtoull16 l'
      else if Z_of_byte b =? 45 then u64 (- strtoull16_mag l')
      else if Z_of_byte b =? 43 then strtoull16_mag l'
      else strtoull16_mag l
  | [] => 0
  end.

(** The tokens strtok_r() finds: the maximal non-empty runs without the
    separator; [tok] is the run read so far. *)
Fixpoint strtok_from (sep : byte) (tok l : bytes) : list bytes :=
  match l with
  | [] => match tok with [] => [] | _ => [tok] end
  | b :: l' =>
      if bool_decide (b = sep)
      then match tok with [] => strtok_from sep [] l' | _ => tok :: strtok_from sep [] l' end
      else strtok_from sep (tok ++ [b]) l'
  end.
Definition strtok_all (sep : byte) (l : bytes) : list bytes := strtok_from sep [] l.

(** ** The identifier and its text *)
Definition RAFT_NET_CLIENT_USER_ID_V0_STRLEN_SIZE : Z := 101.
Definition RAFT_NET_CLIENT_USER_ID_V0_STR_SEP : byte := byte_of_Z 58.
(** [regexec]'s REG_NOMATCH. *)
Definition REG_NOMATCH : Z := 1.

(** The union of [struct raft_net_client_user_key_v0]: the first two words of a
    key are the 16 bytes of its uuid. *)
Definition words_uuid (ws : list Z) : uuid := le_val (rev (concat (map (le_bytes 8) ws))).
Definition uuid_words (u : uuid) : list Z := le_array 8 2 (rev (le_bytes 16 u)).

Arguments words_uuid : simpl never.
Arguments uuid_words : simpl never.

(** [rncui_regex_match l]: regexec() with RNCUI_V0_REGEX_BASE finds a match. *)
Section user_id.
Context `{NU : NiovaUtil} (rncui_regex_match : bytes -> bool).

Definition rncui_word (u : raft_net_client_user_id) (i : nat) : Z :=
  default 0 (rncui_v0_uint64 u !! i).

(** RAFT_NET_CLIENT_USER_ID_FMT with its arguments. *)
Definition RAFT_NET_CLIENT_USER_ID_FMT (u : raft_net_client_user_id) : bytes :=
  let sep := RAFT_NET_CLIENT_USER_ID_V0_STR_SEP in
  uuid_unparse (words_uuid (take 2 (rncui_v0_uint64 u)))
  ++ sep :: fmt_lx (rncui_word u 2) ++ sep :: fmt_lx (rncui_word u 3)
  ++ sep :: fmt_lx (rncui_word u 4) ++ sep :: fmt_lx (rncui_word u 5).

(** [has_out]: the buffer pointer is not NULL.  The second component is the
    string written into the buffer, if it is written. *)
Definition raft_net_client_user_id_to_string (rncui : option raft_net_client_user_id)
    (has_out : bool) (out_string_len : Z) : Z * option bytes :=
  match rncui with
  | None => (- EINVAL, None)
  | Some u =>
      if negb has_out || (out_string_len =? 0) then (- EINVAL, None)
      else
        let '(rc, s) := snprintf out_string_len (RAFT_NET_CLIENT_USER_ID_FMT u) in
        if rc <? 0 then (rc, Some s)
        else if rc >? out_string_len - 1 then (- ENOSPC, Some s) else (0, Some s)
  end.

(** The loop over the tokens; [None]: the assertion on [pos] fails. *)
Fixpoint user_id_parse_loop (toks : list bytes) (pos : Z) (u : raft_net_client_user_id) :
  option (Z * raft_net_client_user_id) :=
  match toks with
  | [] => Some (0, u)
  | sub :: toks' =>
      if pos =? 0 then
        match uuid_parse sub with
        | None => Some (- EINVAL, u)
        | Some v =>
            user_id_parse_loop toks' (pos + 1)
              {| rncui_v0_uint64 := uuid_words v ++ drop 2 (rncui_v0_uint64 u);
                 rncui_version := rncui_version u |}
        end
      else if 1 + pos <? RAFT_NET_CLIENT_USER_ID_V0_NUINT64 then
        user_id_parse_loop toks' (pos + 1)
          {| rncui_v0_uint64 := <[Z.to_nat (1 + pos) := strtoull16 sub]> (rncui_v0_uint64 u);
             rncui_version := rncui_version u |}
      else None
  end.

(** The return code and the identifier afterwards. *)
Definition raft_net_client_user_id_parse (s : option bytes)
    (rncui : option raft_net_client_user_id) (version : Z) :
  option (Z * option raft_net_client_user_id) :=
  match s, rncui with
  | Some l, Some u =>
      if negb (version =? 0) then Some (- EOPNOTSUPP, rncui)
      else if RAFT_NET_CLIENT_USER_ID_V0_STRLEN_SIZE <=? slen l
      then Some (- ENAMETOOLONG, rncui)
      else if negb (rncui_regex_match l) then Some (REG_NOMATCH, rncui)
      else
        match user_id_parse_loop (strtok_all RAFT_NET_CLIENT_USER_ID_V0_STR_SEP l) 0 u with
        | Some (rc, u') => Some (rc, Some u')
        | None => None
        end
  | _, _ => Some (- EINVAL, rncui)
  end.
End user_id.

(** What is documented of libuuid and what the expression is written for: the
    text of a uuid is made of hexadecimal digits and dashes; a uuid followed by
    four numbers of 1 to 16 digits matches. *)
Definition uuid_char (b : byte) : Prop := isxdigit b = true \/ Z_of_byte b = 45.
Definition word_ok (w : Z) : Prop := 0 <= w < 2 ^ 64.
Definition hex_text (l : bytes) : Prop :=
  Forall (fun b => isxdigit b = true) l /\ (1 <= length l <= 16)%nat.

Class UserIdTextOk `{NiovaUtil} (rncui_regex_match : bytes -> bool) : Prop := {
  uuid_unparse_chars u : 0 <= u < 2 ^ 128 -> Forall uuid_char (uuid_unparse u);
  rncui_regex_accepts u a b c d :
    0 <= u < 2 ^ 128 -> hex_text a -> hex_text b -> hex_text c -> hex_text d ->
    let sep := RAFT_NET_CLIENT_USER_ID_V0_STR_SEP in
    rncui_regex_match (uuid_unparse u ++ sep :: a ++ sep :: b ++ sep :: c ++ sep :: d) = true;
}.

(** ** Hexadecimal numbers *)
Lemma xdigit_val_lx_char z : 0 <= z < 16 -> xdigit_val (lx_char z) = Some z.
Proof.
  intros Hz. unfold lx_char, xdigit_val. destruct (Z.ltb_spec z 10).
  - rewrite Z_of_byte_of_Z, Z.mod_small by lia.
    destruct (_ && _) eqn:E; [f_equal; lia | lia].
  - rewrite Z_of_byte_of_Z, Z.mod_small by lia.
    destruct ((48 <=? _) && _) eqn:E; [lia|].
    destruct ((97 <=? _) && _) eqn:E'; [f_equal; lia | lia].
Qed.

Lemma isxdigit_lx_char z : 0 <= z < 16 -> isxdigit (lx_char z) = true.
Proof.
  intros Hz. unfold isxdigit, isdigit, lx_char.
  destruct (Z.ltb_spec z 10); rewrite Z_of_byte_of_Z, Z.mod_small; lia.
Qed.

(** A hexadecimal digit is none of the characters that mean something else. *)
Lemma isxdigit_range b :
  isxdigit b = true ->
  isspace b = false /\ Z_of_byte b <> 45 /\ Z_of_byte b <> 43 /\ Z_of_byte b <> 58 /\
  Z_of_byte b <> 120 /\ Z_of_byte b <> 88.
Proof.
  unfold isxdigit, isdigit, isspace. rewrite !orb_true_iff, !andb_true_iff. lia.
Qed.

Lemma length_lx_digits n z : length (lx_digits n z) = n.
Proof.
  revert z. induction n as [|n IH]; intros z; [done|].
  simpl. rewrite length_app, IH. simpl. lia.
Qed.

Lemma lx_digits_xdigit n z : Forall (fun b => isxdigit b = true) (lx_digits n z).
Proof.
  revert z. induction n as [|n IH]; intros z; simpl; [constructor|].
  apply Forall_app. split; [apply IH|]. constructor; [|constructor].
  apply isxdigit_lx_char, Z.mod_pos_bound. lia.
Qed.

Lemma xdigits_val_app n z acc rest :
  0 <= z < 16 ^ Z.of_nat n ->
  xdigits_val acc (lx_digits n z ++ rest) = xdigits_val (acc * 16 ^ Z.of_nat n + z) rest.
Proof.
  revert z acc rest. induction n as [|n IH]; intros z acc rest Hz.
  { simpl in *. f_equal. lia. }
  rewrite Nat2Z.inj_succ, Z.pow_succ_r in * by lia. simpl. rewrite <- app_assoc.
  rewrite IH by (split; [apply Z.div_pos | apply Z.div_lt_upper_bound]; lia).
  simpl. rewrite xdigit_val_lx_char by (apply Z.mod_pos_bound; lia).
  f_equal. pose proof (Z.div_mod z 16). lia.
Qed.

Lemma num_lx_digits_enough fuel z :
  0 <= z < 16 ^ Z.of_nat (S fuel) ->
  z < 16 ^ Z.of_nat (num_lx_digits fuel z) /\ (1 <= num_lx_digits fuel z <= S fuel)%nat.
Proof.
  revert z. induction fuel as [|fuel IH]; intros z Hz; simpl num_lx_digits; [lia|].
  destruct (Z.ltb_spec z 16); [change (Z.of_nat 1) with 1; lia|].
  rewrite Nat2Z.inj_succ, Z.pow_succ_r in Hz by lia.
  destruct (IH (z / 16)) as [H1 H2].
  { split; [apply Z.div_pos | apply Z.div_lt_upper_bound]; lia. }
  split; [|lia]. rewrite Nat2Z.inj_succ, Z.pow_succ_r by lia.
  pose proof (Z.div_mod z 16). pose proof (Z.mod_pos_bound z 16). lia.
Qed.

Lemma fmt_lx_text w : hex_text (fmt_lx w).
Proof.
  split; [apply lx_digits_xdigit|]. unfold fmt_lx. rewrite length_lx_digits.
  apply num_lx_digits_enough. change (16 ^ Z.of_nat 16) with (2 ^ 64).
  apply Z.mod_pos_bound. lia.
Qed.

Lemma skip_0x_xdigits l : Forall (fun b => isxdigit b = true) l -> skip_0x l = l.
Proof.
  intros H. destruct l as [|b0 [|b1 [|b2 l]]]; [done..|]. simpl.
  apply Forall_cons in H as [_ [H%isxdigit_range _]%Forall_cons].
  destruct (_ && _) eqn:E; [lia | done].
Qed.

Lemma strtoull16_xdigits l :
  Forall (fun b => isxdigit b = true) l -> l <> [] ->
  strtoull16 l = Z.min (xdigits_val 0 l) (2 ^ 64 - 1).
Proof.
  intros H Hl. rewrite <- (skip_0x_xdigits l H) at 2.
  destruct l as [|b l]; [done|]. apply Forall_inv, isxdigit_range in H as Hb.
  destruct Hb as (Hs & H45 & H43 & _). simpl strtoull16. rewrite Hs.
  destruct (Z.eqb_spec (Z_of_byte b) 45); [done|].
  by destruct (Z.eqb_spec (Z_of_byte b) 43).
Qed.

(** Printing a number and reading it. *)
Lemma strtoull16_fmt_lx w : word_ok w -> strtoull16 (fmt_lx w) = w.
Proof.
  intros Hw. destruct (fmt_lx_text w) as [Hx Hl].
  rewrite strtoull16_xdigits by (done || intros E; rewrite E in Hl; simpl in Hl; lia).
  unfold fmt_lx. unfold word_ok in Hw. rewrite u64_small by done.
  rewrite <- (app_nil_r (lx_digits _ w)), xdigits_val_app; [simpl; lia|].
  split; [lia|]. apply num_lx_digits_enough. change (16 ^ Z.of_nat 16) with (2 ^ 64). lia.
Qed.

(** ** Tokens *)
Lemma strtok_from_run sep tok t :
  Forall (fun b => b <> sep) t -> tok ++ t <> [] -> strtok_from sep tok t = [tok ++ t].
Proof.
  intros H. revert tok. induction H as [|b t Hb Ht IH]; intros tok Hne; simpl.
  { rewrite app_nil_r in *. by destruct tok. }
  rewrite bool_decide_eq_false_2 by done. rewrite IH; rewrite <- app_assoc; [done|].
  by destruct tok.
Qed.

Lemma strtok_from_sep sep tok t l :
  Forall (fun b => b <> sep) t -> tok ++ t <> [] ->
  strtok_from sep tok (t ++ sep :: l) = (tok ++ t) :: strtok_from sep [] l.
Proof.
  intros H. revert tok. induction H as [|b t Hb Ht IH]; intros tok Hne; simpl.
  { rewrite bool_decide_eq_true_2 by done. rewrite app_nil_r in *. by destruct tok. }
  rewrite bool_decide_eq_false_2 by done. rewrite IH; rewrite <- app_assoc; [done|].
  by destruct tok.
Qed.

Lemma xdigit_not_sep b : isxdigit b = true -> b <> RAFT_NET_CLIENT_USER_ID_V0_STR_SEP.
Proof. intros H ->. apply isxdigit_range in H as (_ & _ & _ & H & _). by apply H. Qed.

Lemma uuid_char_not_sep b : uuid_char b -> b <> RAFT_NET_CLIENT_USER_ID_V0_STR_SEP.
Proof. intros [H|H]; [by apply xdigit_not_sep|]. by intros ->. Qed.

Lemma hex_text_run l :
  hex_text l -> Forall (fun b => b <> RAFT_NET_CLIENT_USER_ID_V0_STR_SEP) l /\ l <> [].
Proof.
  intros [H Hl]. split; [|by destruct l; simpl in Hl; [lia|]].
  eapply Forall_impl; [exact H|]. apply xdigit_not_sep.
Qed.

Lemma strtok_number w l :
  let sep := RAFT_NET_CLIENT_USER_ID_V0_STR_SEP in
  strtok_from sep [] (fmt_lx w ++ sep :: l) = fmt_lx w :: strtok_from sep [] l /\
  strtok_from sep [] (fmt_lx w) = [fmt_lx w].
Proof.
  destruct (hex_text_run _ (fmt_lx_text w)). split.
  - by rewrite strtok_from_sep.
  - by rewrite strtok_from_run.
Qed.

(** ** The words of a key and its uuid *)
Lemma byte_of_Z_of_byte b : byte_of_Z (Z_of_byte b) = b.
Proof. by destruct b. Qed.

Lemma Z_of_byte_range b : 0 <= Z_of_byte b < 256.
Proof. by destruct b. Qed.

Lemma le_bytes_le_val l : le_bytes (length l) (le_val l) = l.
Proof.
  induction l as [|b l IH]; [done|]. simpl. pose proof (Z_of_byte_range b).
  rewrite (Z.mul_comm 256), Z.div_add, Z.div_small, Z.add_0_l, IH by lia. f_equal.
  apply Z_of_byte_inj. rewrite Z_of_byte_of_Z, Z.mod_add, Z.mod_small by lia. done.
Qed.

Lemma le_val_range l : 0 <= le_val l < 256 ^ Z.of_nat (length l).
Proof.
  induction l as [|b l IH]; [simpl; lia|]. simpl le_val. simpl length.
  rewrite Nat2Z.inj_succ, Z.pow_succ_r by lia. pose proof (Z_of_byte_range b). lia.
Qed.

Definition key_words (ws : list Z) : Prop := length ws = 2%nat /\ Forall word_ok ws.

Lemma length_key_bytes ws :
  length ws = 2%nat -> length (rev (concat (map (le_bytes 8) ws))) = 16%nat.
Proof. intros H. by rewrite length_rev, length_concat_le, H. Qed.

Lemma words_uuid_range ws : length ws = 2%nat -> 0 <= words_uuid ws < 2 ^ 128.
Proof.
  intros H. pose proof (le_val_range (rev (concat (map (le_bytes 8) ws)))) as Hr.
  by rewrite length_key_bytes in Hr.
Qed.

Lemma uuid_words_uuid ws : key_words ws -> uuid_words (words_uuid ws) = ws.
Proof.
  intros [Hl Hw]. unfold uuid_words, words_uuid.
  pose proof (le_bytes_le_val (rev (concat (map (le_bytes 8) ws)))) as H.
  rewrite length_key_bytes in H by done.
  rewrite H, rev_involutive, <- (app_nil_r (concat _)).
  replace (le_array 8 2) with (le_array 8 (length ws)) by (by rewrite Hl).
  apply le_array_concat. change (256 ^ Z.of_nat 8) with (2 ^ 64). exact Hw.
Qed.

(** ** Printing and parsing *)
Definition user_id_ok (u : raft_net_client_user_id) : Prop :=
  length (rncui_v0_uint64 u) = 6%nat /\ Forall word_ok (rncui_v0_uint64 u).

Section user_id_props.
Context `{NU : NiovaUtil} {NUok : NiovaUtilOk} (match_ : bytes -> bool)
  {UT : UserIdTextOk match_}.

(** The tokens of a printed identifier. *)
Lemma strtok_fmt u :
  user_id_ok u ->
  strtok_all RAFT_NET_CLIENT_USER_ID_V0_STR_SEP (RAFT_NET_CLIENT_USER_ID_FMT u) =
  [uuid_unparse (words_uuid (take 2 (rncui_v0_uint64 u))); fmt_lx (rncui_word u 2);
   fmt_lx (rncui_word u 3); fmt_lx (rncui_word u 4); fmt_lx (rncui_word u 5)].
Proof.
  intros [Hl _]. unfold strtok_all, RAFT_NET_CLIENT_USER_ID_FMT.
  pose proof (words_uuid_range (take 2 (rncui_v0_uint64 u))
                ltac:(rewrite length_take; lia)) as Hr. 
  set (v := words_uuid _) in *.
  rewrite strtok_from_sep.
  - rewrite !(proj1 (strtok_number _ _)). rewrite (proj2 (strtok_number _ [])). done.
  - eapply Forall_impl; [by apply uuid_unparse_chars | apply uuid_char_not_sep].
  - intros E. pose proof (uuid_unparse_length v) as H. simpl in E. by rewrite E in H.
Qed.

Lemma fmt_match u : user_id_ok u -> match_ (RAFT_NET_CLIENT_USER_ID_FMT u) = true.
Proof.
  intros [Hl _]. apply rncui_regex_accepts; [|apply fmt_lx_text..].
  apply words_uuid_range. rewrite length_take. lia.
Qed.

(** A text is 41 to 104 characters long: 40 and the digits of the numbers. *)
Lemma slen_fmt u :
  slen (RAFT_NET_CLIENT_USER_ID_FMT u) =
  40 + slen (fmt_lx (rncui_word u 2)) + slen (fmt_lx (rncui_word u 3))
  + slen (fmt_lx (rncui_word u 4)) + slen (fmt_lx (rncui_word u 5)).
Proof.
  unfold RAFT_NET_CLIENT_USER_ID_FMT, slen.
  rewrite !length_app, uuid_unparse_length. simpl. rewrite !length_app. simpl.
  rewrite !length_app. simpl. rewrite !length_app. simpl. lia.
Qed.

(** The loop over those tokens rebuilds the words. *)
#[local] Opaque uuid_words.
Lemma parse_loop_fmt u r :
  user_id_ok u -> length (rncui_v0_uint64 r) = 6%nat ->
  user_id_parse_loop
    [uuid_unparse (words_uuid (take 2 (rncui_v0_uint64 u))); fmt_lx (rncui_word u 2);
     fmt_lx (rncui_word u 3); fmt_lx (rncui_word u 4); fmt_lx (rncui_word u 5)] 0 r =
  Some (0, {| rncui_v0_uint64 := rncui_v0_uint64 u; rncui_version := rncui_version r |}).
Proof.
  destruct u as [ws vu], r as [wr vr]. unfold user_id_ok. simpl. intros [Hl Hw] Hr.
  do 6 (destruct ws as [|? ws]; [done|]). destruct ws; [|done].
  do 6 (destruct wr as [|? wr]; [done|]). destruct wr; [|done].
  rewrite !Forall_cons in Hw. destruct Hw as (? & ? & ? & ? & ? & ? & _).
  rewrite uuid_parse_unparse by by apply words_uuid_range.
  simpl. rewrite uuid_words_uuid by (split; [done | by rewrite !Forall_cons]).
  unfold rncui_word. simpl. by rewrite !strtoull16_fmt_lx.
Qed.
#[local] Transparent uuid_words.

Lemma fmt_length_le u : slen (RAFT_NET_CLIENT_USER_ID_FMT u) <= 104.
Proof.
  rewrite slen_fmt. unfold slen.
  pose proof (proj2 (fmt_lx_text (rncui_word u 2))). pose proof (proj2 (fmt_lx_text (rncui_word u 3))).
  pose proof (proj2 (fmt_lx_text (rncui_word u 4))). pose proof (proj2 (fmt_lx_text (rncui_word u 5))).
  lia.
Qed.

(** C21. Printing a user identifier and parsing the text.  A buffer with room for
    the text and its terminator receives it, a smaller one receives its
    beginning and the result is -ENOSPC.  A text of at most 100 characters parses
    back to the key that was printed, and only the version of the destination,
    which the parser never writes, is kept.  A key may print to 104
    characters: a longer text than 100 is refused with -ENAMETOOLONG and the
    destination is unchanged. *)
Theorem user_id_roundtrip u r :
  user_id_ok u -> length (rncui_v0_uint64 r) = 6%nat ->
  let s := RAFT_NET_CLIENT_USER_ID_FMT u in
  slen s <= 104 /\
  (forall len, slen s < len ->
     raft_net_client_user_id_to_string (Some u) true len = (0, Some s)) /\
  (forall len, 0 < len <= slen s ->
     raft_net_client_user_id_to_string (Some u) true len =
       (- ENOSPC, Some (take (Z.to_nat (len - 1)) s))) /\
  (slen s <= 100 ->
     raft_net_client_user_id_parse match_ (Some s) (Some r) 0 =
       Some (0, Some {| rncui_v0_uint64 := rncui_v0_uint64 u; rncui_version := rncui_version r |})) /\
  (100 < slen s ->
     raft_net_client_user_id_parse match_ (Some s) (Some r) 0 = Some (- ENAMETOOLONG, Some r)).
Proof.
  intros Hu Hr s. pose proof (fmt_length_le u) as Hle. fold s in Hle.
  assert (0 <= slen s) by (unfold slen; lia).
  unfold raft_net_client_user_id_to_string, raft_net_client_user_id_parse, snprintf,
    RAFT_NET_CLIENT_USER_ID_V0_STRLEN_SIZE. fold s.
  split; [done|]. repeat split; intros.
  - repeat case_match; simplify_eq; try lia. rewrite take_ge; [done | unfold slen in *; lia].
  - repeat case_match; simplify_eq; unfold slen in *; try lia. done.
  - case_match eqn:E; [done|]. clear E. case_match; [lia|].
    unfold s. rewrite fmt_match, strtok_fmt, parse_loop_fmt by done. done.
  - case_match eqn:E; [done|]. clear E. case_match; [done | lia].
Qed.
End user_id_props.

(** ** A concrete expression *)
Definition sim_hex_text (l : bytes) : bool :=
  forallb isxdigit l && (1 <=? slen l) && (slen l <=? 16).
Definition sim_rncui_match (l : bytes) : bool :=
  match strtok_all RAFT_NET_CLIENT_USER_ID_V0_STR_SEP l with
  | [u; a; b; c; d] =>
      (slen u =? 36) && sim_hex_text a && sim_hex_text b && sim_hex_text c && sim_hex_text d
  | _ => false
  end.

Lemma sim_hex_text_ok l : hex_text l -> sim_hex_text l = true.
Proof.
  intros [H Hl]. unfold sim_hex_text, slen.
  assert (forallb isxdigit l = true) as -> by (apply forallb_forall, List.Forall_forall, H).
  lia.
Qed.

Lemma sim_unparse_chars u : Forall uuid_char (sim_unparse u).
Proof.
  destruct (hex_digits_ok 32 u) as [H _]. rewrite forallb_forall, <- List.Forall_forall in H.
  assert (Forall uuid_char (hex_digits 32 u)) as Hh.
  { eapply Forall_impl; [exact H|]. intros b Hb. by left. }
  assert (uuid_char dash) as Hd by by right.
  unfold sim_unparse. cbv zeta.
  repeat (apply Forall_app; split); auto using Forall_take, Forall_drop, Forall_cons_2, Forall_nil_2.
Qed.

#[export] Instance sim_user_id_text : UserIdTextOk sim_rncui_match.
Proof.
  split; [intros u _; apply sim_unparse_chars|].
  intros u a b c d Hu Ha Hb Hc Hd sep. unfold sim_rncui_match, strtok_all.
  destruct (hex_text_run _ Ha), (hex_text_run _ Hb), (hex_text_run _ Hc), (hex_text_run _ Hd).
  pose proof (uuid_unparse_length u) as Hlu. change (uuid_unparse u) with (sim_unparse u) in *.
  rewrite strtok_from_sep; [|eapply Forall_impl; [apply sim_unparse_chars | apply uuid_char_not_sep]
                            |by intros E; simpl in E; rewrite E in Hlu].
  rewrite !strtok_from_sep, strtok_from_run by done.
  rewrite !sim_hex_text_ok by done. simpl app. unfold slen. by rewrite Hlu.
Qed.

Definition sim_user_id (a b c d : Z) : raft_net_client_user_id :=
  {| rncui_v0_uint64 := [2 ^ 63; 77; a; b; c; d]; rncui_version := 0 |}.
Definition zero_user_id (v : Z) : raft_net_client_user_id :=
  {| rncui_v0_uint64 := [0; 0; 0; 0; 0; 0]; rncui_version := v |}.

Lemma user_id_roundtrip_witness :
  raft_net_client_user_id_parse sim_rncui_match
    (Some (RAFT_NET_CLIENT_USER_ID_FMT (sim_user_id 1 0 255 (2 ^ 64 - 1)))) (Some (zero_user_id 9)) 0
  = Some (0, Some {| rncui_v0_uint64 := [2 ^ 63; 77; 1; 0; 255; 2 ^ 64 - 1]; rncui_version := 9 |}) /\
  raft_net_client_user_id_parse sim_rncui_match
    (Some (RAFT_NET_CLIENT_USER_ID_FMT
             (sim_user_id (2 ^ 64 - 1) (2 ^ 64 - 1) (2 ^ 64 - 1) (2 ^ 64 - 1))))
    (Some (zero_user_id 9)) 0 = Some (- ENAMETOOLONG, Some (zero_user_id 9)).
Proof.
  split.
  - apply (user_id_roundtrip sim_rncui_match (sim_user_id 1 0 255 (2 ^ 64 - 1)) (zero_user_id 9));
      [split; [done | by repeat constructor] | done | by vm_compute].
  - apply (user_id_roundtrip sim_rncui_match
             (sim_user_id (2 ^ 64 - 1) (2 ^ 64 - 1) (2 ^ 64 - 1) (2 ^ 64 - 1)) (zero_user_id 9));
      [split; [done | by repeat constructor] | done | by vm_compute].
Defined.
