(* ===== verification/MajorityRef.v ===== *)
(** The index a majority has reached, defined without sorting, and the equality of
    [raft_server_get_majority_entry_idx] of [src/include/raft.h] with it. *)
From stdpp Require Import base tactics list gmap sorting.
From Stdlib Require Import ZArith Lia Permutation.
From S2P Require Import Prelude RaftTypes World Quorum Sim.
Local Open Scope Z_scope.
Local Open Scope raft_scope.

(** The values that a majority of the members has reached, and the largest. *)
Definition reached_by_majority (l : list Z) : list Z :=
  filter (fun v => majority (Z.of_nat (length l)) <= count_ge v l) l.
Definition max_of (l : list Z) : Z :=
  match l with [] => -1 | v :: l' => foldr Z.max v l' end.
Definition majority_reached (l : list Z) : Z := max_of (reached_by_majority l).

Lemma max_of_spec l v : v ∈ l -> (forall w, w ∈ l -> w <= v) -> max_of l = v.
Proof.
  destruct l as [|x l]; [by intros ?%elem_of_nil|]. simpl. intros Hv Hmax.
  assert (forall y, y = x \/ y ∈ l -> y <= foldr Z.max x l) as Hle.
  { clear. induction l as [|z l IH]; intros y [->|Hy]; simpl.
    - lia.
    - by apply elem_of_nil in Hy.
    - specialize (IH x (or_introl eq_refl)). lia.
    - apply elem_of_cons in Hy as [->|Hy]; [lia|]. specialize (IH y (or_intror Hy)). lia. }
  assert (foldr Z.max x l = x \/ foldr Z.max x l ∈ l) as Hin.
  { clear. induction l as [|z l [IH|IH]]; simpl; [by left| |];
      destruct (Z.max_spec z (foldr Z.max x l)) as [[_ ->]|[_ ->]];
      rewrite ?elem_of_cons; auto. }
  apply elem_of_cons in Hv. specialize (Hle v Hv).
  enough (foldr Z.max x l <= v) by lia. apply Hmax. rewrite elem_of_cons. tauto.
Qed.

Section majority_ref.
Context `{NC : NiovaCore} {OK : NiovaCoreOk NC}.

(** The element at the majority position of the sorted array is the largest value
    that a majority has reached. *)
Lemma sorted_majority l v :
  raft_num_members_is_valid (Z.of_nat (length l)) = true ->
  znth (qsort raft_server_entry_idx_qsort_compare l)
    (raft_majority_index_value (Z.of_nat (length l))) = Some v ->
  majority_reached l = v.
Proof.
  intros Hn Hv. destruct (raft_majority_index_value_spec _ Hn) as [Hidx Hmaj].
  set (s := qsort _ l) in *.
  assert (Hp : s ≡ₚ l) by apply qsort_perm.
  unfold znth in Hv. rewrite decide_True in Hv by lia.
  destruct (sorted_count_ge s _ v (qsort_sorted l) Hv) as [H1 H2].
  unfold s in H1, H2. rewrite length_qsort in H1, H2.
  assert (Hc : forall w, count_ge w (qsort raft_server_entry_idx_qsort_compare l) = count_ge w l).
  { intros w. apply count_ge_perm, qsort_perm. }
  apply max_of_spec; unfold reached_by_majority.
  - apply list_elem_of_filter. split; [rewrite <- Hc; lia|].
    rewrite <- Hp. by eapply list_elem_of_lookup_2.
  - intros w [Hw _]%list_elem_of_filter. destruct (Z.le_gt_cases w v) as [?|Hgt]; [done|].
    specialize (H2 w ltac:(lia)). rewrite Hc in H2. lia.
Qed.

(** C19. Sorting the indices and taking the one at the majority position gives the
    largest index that a majority of the members has reached, for every number
    of members a configuration may have and whatever follows the indices in the
    array; a larger number is refused. *)
Theorem majority_idx_reference values nvalues :
  nvalues <= Z.of_nat (length values) ->
  (raft_num_members_is_valid nvalues = true ->
   raft_server_get_majority_entry_idx values nvalues =
     Some (0, majority_reached (take (Z.to_nat nvalues) values))) /\
  (CTL_SVC_MAX_RAFT_PEERS < nvalues ->
   raft_server_get_majority_entry_idx values nvalues = Some (- E2BIG, -1)).
Proof.
  intros Hlen. unfold raft_server_get_majority_entry_idx. split; intros Hn.
  - pose proof (num_members_u8 _ Hn). pose proof (proj1 (raft_num_members_is_valid_spec _) Hn).
    destruct (raft_majority_index_value_spec _ Hn) as [Hidx _].
    case_match; [lia|]. rewrite u8_small by lia.
    set (l := take _ values). assert (Hl : Z.of_nat (length l) = nvalues).
    { unfold l. rewrite length_take. lia. }
    rewrite <- Hl in Hn, Hidx |- *.
    destruct (proj2 (znth_is_Some (qsort raft_server_entry_idx_qsort_compare l)
      (raft_majority_index_value (Z.of_nat (length l))))) as [v Hv]; [rewrite length_qsort; lia|].
    rewrite (sorted_majority l v Hn Hv).
    unfold znth in Hv |- *. rewrite decide_True in Hv |- * by lia.
    by rewrite lookup_app_l_Some with (x := v).
  - case_match; [done | lia].
Qed.
End majority_ref.

Lemma majority_idx_reference_witness :
  raft_server_get_majority_entry_idx [7; 3; 9; 3; 5; 100] 5 = Some (0, 5).
Proof.
  rewrite (proj1 (majority_idx_reference [7; 3; 9; 3; 5; 100] 5 ltac:(simpl; lia)) eq_refl).
  reflexivity.
Defined.
