(* ===== verification/NetStart.v ===== *)
(** Starting and stopping the communication layer ([src/raft_net.c]): sockets, the
    timer, the epoll handles, the configuration nodes, the TCP handshake and its
    callbacks, [raft_net_instance_startup] and [raft_net_instance_shutdown].

    Every call of niova-core or of the system is an [ext_call]; the environment
    [ext] answers it from the calls made so far, and the calls and answers are
    the trace of the state, from which the resources in use can be read. *)
From stdpp Require Import base tactics list gmap.
From Stdlib Require Import ZArith Lia Strings.Byte.
From S2P Require Import Prelude RaftTypes World Quorum Net WriteSupp Entry Log Election RocksKeys RocksBackend.
Local Open Scope Z_scope.
Local Open Scope raft_scope.

(** ** Calls of the libraries *)
Definition RAFT_EPOLL_HANDLES_MAX : Z := 8.
(** [enum raft_udp_listen_sockets], also the index of the socket. *)
Definition RAFT_UDP_LISTEN_SERVER : Z := 0.
Definition RAFT_UDP_LISTEN_CLIENT : Z := 1.
Definition RAFT_UDP_LISTEN_MAX : Z := 2.
Definition RAFT_UDP_LISTEN_ANY : Z := RAFT_UDP_LISTEN_MAX.
Definition udp_listen_sockets : list Z := zrange RAFT_UDP_LISTEN_SERVER RAFT_UDP_LISTEN_MAX.
Definition ESOCKTNOSUPPORT : Z := 94.
Definition ESHUTDOWN : Z := 108.

Inductive tcp_mgr := ri_client_tcp_mgr | ri_peer_tcp_mgr.
Inductive epoll_cb := CB_timerfd | CB_udp | CB_evp (t : raft_event_pipe_types).
Inductive ctl_svc_node_type :=
| CTL_SVC_NODE_TYPE_NIOSD | CTL_SVC_NODE_TYPE_RAFT_CLIENT | CTL_SVC_NODE_TYPE_RAFT_PEER.

#[export] Instance tcp_mgr_eq : EqDecision tcp_mgr.
Proof. solve_decision. Defined.
#[export] Instance ctl_svc_node_type_eq : EqDecision ctl_svc_node_type.
Proof. solve_decision. Defined.

Inductive ext_call :=
| X_csn_lookup (u : uuid) | X_csn_init (raft u : uuid) | X_csn_add (u : uuid)
| X_csn_get (u : uuid) | X_csn_put (u : uuid)
| X_tcp_connection_setup (u : uuid) (m : tcp_mgr) (port : Z)
| X_tcp_mgr_setup (m : tcp_mgr) (listen : bool)
| X_tcp_mgr_sockets_setup (m : tcp_mgr) (port : Z)
| X_tcp_mgr_sockets_bind (m : tcp_mgr) | X_tcp_mgr_sockets_close (m : tcp_mgr)
| X_tcp_mgr_epoll_setup (m : tcp_mgr) (listen : bool)
| X_udp_socket_handle_init (i : Z) | X_udp_socket_setup (i port : Z)
| X_udp_socket_bind (i : Z) | X_udp_socket_close (i : Z)
| X_timerfd_create | X_close (fd : Z) | X_fd_drain (fd : Z)
| X_epoll_mgr_setup | X_epoll_mgr_close | X_epoll_mgr_is_ready
| X_epoll_handle_init (i fd : Z) | X_epoll_handle_add (i fd : Z)
| X_epoll_handle_releases_in_current_thread (i : Z) | X_epoll_handle_del (i fd : Z)
| X_udp_socket_recv_fd (fd : Z)
| X_mutex_init (k : Z) | X_mutex_destroy (k : Z)
| X_buffer_set_init (k n sz off : Z) | X_buffer_set_destroy (k : Z)
| X_lreg_init | X_lreg_remove | X_lreg_registered
| X_ev_pipe_setup (t : raft_event_pipe_types) | X_ev_pipe_cleanup (t : raft_event_pipe_types)
| X_thread_create (k : Z) | X_thread_run (k : Z) | X_thread_halt (k : Z)
| X_thread_is_running (k : Z) | X_sig_alarm (k : Z).

(** The configuration, as ctl-svc reports it, and the environment.  An answer is
    the return code and a value: the descriptor the call opens, or the state it
    leaves the object in (0: not installed, not ready, NULL). *)
Abbreviation answer := (Z * Z)%type.
Class NetExt := {
  ext : list (ext_call * answer) -> ext_call -> answer;
  csn_members : uuid -> option (list uuid); (* None: not a raft node *)
  csn_port : uuid -> Z;
  csn_client_port : uuid -> Z;
  csn_type : uuid -> ctl_svc_node_type;
  csn_is_peer : uuid -> bool;
  csn_store : uuid -> option bytes;
  csn_nodes : ctl_svc_node_type -> list uuid;
  tcp_mgr_worker_cnt : Z;
}.

(** ** The state *)
Record udp_handle := { ush_socket : Z; ush_port : Z }.
#[export] Instance eta_udp_handle : Eta udp_handle := fun u =>
  {| ush_socket := ush_socket u; ush_port := ush_port u |}.
Record epoll_handle := { eph_installed : bool; eph_fd : Z; eph_cb : option epoll_cb }.
#[export] Instance eta_epoll_handle : Eta epoll_handle := fun e =>
  {| eph_installed := eph_installed e; eph_fd := eph_fd e; eph_cb := eph_cb e |}.
Definition zero_eph : epoll_handle := {| eph_installed := false; eph_fd := 0; eph_cb := None |}.

(** The fields of [struct raft_instance] only start-up and shutdown use; the node
    pointers are NULL ([None]) until they are looked up. *)
Record netst (B A : Type) := {
  ns_w : world B A;
  ns_ush : list udp_handle;
  ns_timer_fd : Z;
  ns_has_timer_cb : bool;
  ns_ignore_timerfd : bool;
  ns_eph : list epoll_handle;
  ns_evp_fd : list Z; (* the read ends of the pipes of ri_evps[] *)
  ns_csn_raft : option uuid;
  ns_csn_this_peer : option uuid;
  ns_csn_raft_peers : list (option uuid);
  ns_startup_error : Z;
  ns_buf_set : bool; (* ri_buf_set_source is not NULL *)
  ns_backend : bool; (* ri_backend is not NULL *)
  ns_trace : list (ext_call * answer);
}.
Arguments ns_w {B A}.
Arguments ns_ush {B A}.
Arguments ns_timer_fd {B A}.
Arguments ns_has_timer_cb {B A}.
Arguments ns_ignore_timerfd {B A}.
Arguments ns_eph {B A}.
Arguments ns_evp_fd {B A}.
Arguments ns_csn_raft {B A}.
Arguments ns_csn_this_peer {B A}.
Arguments ns_csn_raft_peers {B A}.
Arguments ns_startup_error {B A}.
Arguments ns_buf_set {B A}.
Arguments ns_backend {B A}.
Arguments ns_trace {B A}.
#[export] Instance eta_netst B A : Eta (netst B A) := fun s =>
  {| ns_w := ns_w s; ns_ush := ns_ush s; ns_timer_fd := ns_timer_fd s;
     ns_has_timer_cb := ns_has_timer_cb s; ns_ignore_timerfd := ns_ignore_timerfd s;
     ns_eph := ns_eph s; ns_evp_fd := ns_evp_fd s; ns_csn_raft := ns_csn_raft s;
     ns_csn_this_peer := ns_csn_this_peer s; ns_csn_raft_peers := ns_csn_raft_peers s;
     ns_startup_error := ns_startup_error s; ns_buf_set := ns_buf_set s;
     ns_backend := ns_backend s; ns_trace := ns_trace s |}.

Section net.
Context `{NC : NiovaCore} `{NU : NiovaUtil} `{NX : NetExt} {B A : Type}.
Local Abbreviation N := (M (netst B A)).

Definition on_world {T} (m : M (world B A) T) : N T := fun s =>
  match m (ns_w s) with Some (a, w) => Some (a, s <| ns_w := w |>) | None => None end.
Definition nget {T} (f : netst B A -> T) : N T := gets f.
Definition nri_get {T} (f : raft_instance -> T) : N T := gets (fun s => f (w_ri (ns_w s))).
Definition nri_upd (f : raft_instance -> raft_instance) : N unit := on_world (ri_upd f).
Definition ext_do (c : ext_call) : N answer := fun s =>
  let r := ext (ns_trace s) c in
  Some (r, s <| ns_trace ::= fun t => t ++ [(c, r)] |>).
Definition ext_rc (c : ext_call) : N Z := let! r := ext_do c in ret r.1.
Definition ext_unit (c : ext_call) : N unit := ext_do c ;;; ret tt.
Definition is_client : N bool := nri_get raft_instance_is_client.

(** "store the first error found" *)
Definition first_error (rc rc2 : Z) : Z := if negb (rc =? 0) then rc else rc2.

(** ** Sockets *)
Definition raft_net_tcp_sockets_close : N Z :=
  let! client := is_client in
  if client then ext_rc (X_tcp_mgr_sockets_close ri_client_tcp_mgr)
  else
    let! rc := ext_rc (X_tcp_mgr_sockets_close ri_peer_tcp_mgr) in
    let! rc2 := ext_rc (X_tcp_mgr_sockets_close ri_client_tcp_mgr) in
    ret (first_error rc rc2).

Definition ush_upd (i : Z) (f : udp_handle -> udp_handle) : N unit :=
  let! l := nget ns_ush in
  let! u := lift_option (znth l i) in
  modify (fun s => s <| ns_ush := zupd l i (f u) |>).

Fixpoint udp_sockets_close_loop (is_ : list Z) (rc : Z) : N Z :=
  match is_ with
  | [] => ret rc
  | i :: is' =>
      let! r := ext_do (X_udp_socket_close i) in
      ush_upd i (fun u => u <| ush_socket := r.2 |>) ;;;
      udp_sockets_close_loop is' (first_error rc r.1)
  end.
Definition raft_net_udp_sockets_close : N Z := udp_sockets_close_loop udp_listen_sockets 0.

Definition raft_net_sockets_close : N Z :=
  let! client := is_client in
  if client then raft_net_tcp_sockets_close
  else
    let! rc := raft_net_udp_sockets_close in
    if raft_net_tcp_disabled then ret rc
    else
      let! rc2 := raft_net_tcp_sockets_close in
      ret (first_error rc rc2).

Definition raft_net_tcp_sockets_bind : N Z :=
  let! client := is_client in
  if client then ret (- EOPNOTSUPP)
  else
    let! rc := ext_rc (X_tcp_mgr_sockets_bind ri_peer_tcp_mgr) in
    if negb (rc =? 0) then ret rc else ext_rc (X_tcp_mgr_sockets_bind ri_client_tcp_mgr).

Fixpoint udp_sockets_bind_loop (is_ : list Z) : N Z :=
  match is_ with
  | [] => ret 0
  | i :: is' =>
      let! rc := ext_rc (X_udp_socket_bind i) in
      if negb (rc =? 0) then ret rc else udp_sockets_bind_loop is'
  end.
Definition raft_net_udp_sockets_bind : N Z :=
  let! client := is_client in
  if client then ret (- EOPNOTSUPP)
  else
    let! rc := udp_sockets_bind_loop udp_listen_sockets in
    if negb (rc =? 0) then raft_net_udp_sockets_close ;;; ret rc else ret rc.

Definition raft_net_sockets_bind : N Z :=
  let! client := is_client in
  if client then ret (- EOPNOTSUPP)
  else
    let! rc := raft_net_udp_sockets_bind in
    if negb (rc =? 0) || raft_net_tcp_disabled then ret rc else raft_net_tcp_sockets_bind.

Definition raft_net_tcp_sockets_setup : N Z :=
  let! this := nget ns_csn_this_peer in
  let! u := lift_option this in
  let! client := is_client in
  if client then ext_rc (X_tcp_mgr_sockets_setup ri_client_tcp_mgr (csn_client_port u))
  else
    let! rc := ext_rc (X_tcp_mgr_sockets_setup ri_peer_tcp_mgr (csn_port u)) in
    if negb (rc =? 0) then ret rc
    else ext_rc (X_tcp_mgr_sockets_setup ri_client_tcp_mgr (csn_client_port u)).

(** The loop over the two sockets of a server, the only instance that gets here. *)
Fixpoint udp_sockets_setup_loop (u : uuid) (is_ : list Z) : N Z :=
  match is_ with
  | [] => ret 0
  | i :: is' =>
      if negb (i =? RAFT_UDP_LISTEN_SERVER) && negb (i =? RAFT_UDP_LISTEN_CLIENT)
      then ret (- ESOCKTNOSUPPORT)
      else
        let port := if i =? RAFT_UDP_LISTEN_SERVER then csn_port u else csn_client_port u in
        ush_upd i (fun h => h <| ush_port := port |>) ;;;
        if port =? 0 then ret (- ENOENT)
        else
          let! r := ext_do (X_udp_socket_setup i port) in
          ush_upd i (fun h => h <| ush_socket := r.2 |>) ;;;
          if negb (r.1 =? 0) then ret r.1 else udp_sockets_setup_loop u is'
  end.
Definition raft_net_udp_sockets_setup : N Z :=
  let! client := is_client in
  if client then ret (- EINVAL)
  else
    let! this := nget ns_csn_this_peer in
    let! u := lift_option this in
    let! rc := udp_sockets_setup_loop u udp_listen_sockets in
    if negb (rc =? 0) then raft_net_udp_sockets_close ;;; ret rc else ret rc.

Definition raft_net_sockets_setup : N Z :=
  let! client := is_client in
  if client then raft_net_tcp_sockets_setup
  else
    let! rc := raft_net_udp_sockets_setup in
    if negb (rc =? 0) || raft_net_tcp_disabled then ret rc else raft_net_tcp_sockets_setup.

(** ** The timer *)
(** The value of timerfd_create() is the descriptor; its code is [-errno]. *)
Definition raft_net_timerfd_create : N Z :=
  let! r := ext_do X_timerfd_create in
  modify (fun s => s <| ns_timer_fd := r.2 |>) ;;;
  ret (if r.2 <? 0 then r.1 else 0).

Definition raft_net_timerfd_close : N Z :=
  let! fd := nget ns_timer_fd in
  if 0 <=? fd then
    modify (fun s => s <| ns_timer_fd := -1 |>) ;;;
    ext_rc (X_close fd)
  else ret 0.

Definition raft_net_timerfd_settime (msecs : Z) : N unit :=
  on_world (emit (OutTimer msecs false)).

(** [timer_fd_cb]: ri_timer_fd_cb. *)
Definition raft_net_timerfd_cb (timer_fd_cb : option (N unit)) : N unit :=
  let! fd := nget ns_timer_fd in
  let! rc := ext_rc (X_fd_drain fd) in
  if negb (rc =? 0) then ret tt
  else
    let! ignore := nget ns_ignore_timerfd in
    if ignore then raft_net_timerfd_settime 1
    else match timer_fd_cb with Some cb => cb | None => ret tt end.

(** ** The epoll handles *)
Definition eph_upd (i : Z) (f : epoll_handle -> epoll_handle) : N unit :=
  let! l := nget ns_eph in
  let! e := lift_option (znth l i) in
  modify (fun s => s <| ns_eph := zupd l i (f e) |>).

Definition epoll_handle_del (i : Z) : N Z :=
  let! l := nget ns_eph in
  let! e := lift_option (znth l i) in
  let! r := ext_do (X_epoll_handle_del i (eph_fd e)) in
  eph_upd i (fun e => e <| eph_installed := negb (r.2 =? 0) |>) ;;;
  ret r.1.

Fixpoint epoll_cleanup_loop (is_ : list Z) : N unit :=
  match is_ with
  | [] => ret tt
  | i :: is' =>
      let! r := ext_do (X_epoll_handle_releases_in_current_thread i) in
      assert_ (negb (r.2 =? 0)) ;;;
      epoll_handle_del i ;;;
      epoll_cleanup_loop is'
  end.
Definition raft_net_epoll_cleanup : N Z :=
  epoll_cleanup_loop (zrange 0 RAFT_EPOLL_HANDLES_MAX) ;;;
  ext_rc X_epoll_mgr_close.

(** The first handle that is not installed. *)
Fixpoint eph_free (l : list epoll_handle) (i : Z) : option Z :=
  match l with
  | [] => None
  | e :: l' => if negb (eph_installed e) then Some i else eph_free l' (i + 1)
  end.

(** Each caller passes a callback. *)
Definition raft_net_epoll_handle_add (fd : Z) (cb : epoll_cb) : N Z :=
  if fd <? 0 then ret (- EINVAL)
  else
    let! l := nget ns_eph in
    match eph_free l 0 with
    | None => ret (- ENOSPC)
    | Some i =>
        let! rc := ext_rc (X_epoll_handle_init i fd) in
        if negb (rc =? 0) then ret rc
        else
          eph_upd i (fun _ => {| eph_installed := false; eph_fd := fd; eph_cb := Some cb |}) ;;;
          let! r := ext_do (X_epoll_handle_add i fd) in
          eph_upd i (fun e => e <| eph_installed := negb (r.2 =? 0) |>) ;;;
          (if negb (r.1 =? 0) then assert_ (r.2 =? 0) else ret tt) ;;;
          ret r.1
    end.

Definition raft_net_epoll_ensure_handles_are_removed : N unit :=
  let! l := nget ns_eph in
  assert_ (forallb (fun e => negb (eph_installed e)) l).

Fixpoint remove_by_fd_loop (fd : Z) (is_ : list Z) (rc removed_cnt : Z) : N (Z * Z) :=
  match is_ with
  | [] => ret (rc, removed_cnt)
  | i :: is' =>
      let! l := nget ns_eph in
      let! e := lift_option (znth l i) in
      if eph_installed e && (eph_fd e =? fd) then
        let! r := ext_do (X_epoll_handle_releases_in_current_thread i) in
        assert_ (negb (r.2 =? 0)) ;;;
        let! tmp_rc := epoll_handle_del i in
        if negb (tmp_rc =? 0)
        then remove_by_fd_loop fd is' (first_error rc tmp_rc) removed_cnt
        else
          let! l := nget ns_eph in
          let! e := lift_option (znth l i) in
          assert_ (negb (eph_installed e)) ;;;
          remove_by_fd_loop fd is' rc (removed_cnt + 1)
      else remove_by_fd_loop fd is' rc removed_cnt
  end.

Definition raft_net_epoll_handle_remove_by_fd (fd : Z) : N Z :=
  if fd <? 0 then ret (- EINVAL)
  else
    let! ready := ext_do X_epoll_mgr_is_ready in
    if ready.2 =? 0 then raft_net_epoll_ensure_handles_are_removed ;;; ret (- ESHUTDOWN)
    else
      let! r := remove_by_fd_loop fd (zrange 0 RAFT_EPOLL_HANDLES_MAX) 0 0 in
      ret (if negb (r.1 =? 0) || negb (r.2 =? 0) then r.1 else - ENOENT).

Fixpoint epoll_setup_udp_loop (is_ : list Z) : N Z :=
  match is_ with
  | [] => ret 0
  | i :: is' =>
      let! l := nget ns_ush in
      let! u := lift_option (znth l i) in
      let! rc := raft_net_epoll_handle_add (ush_socket u) CB_udp in
      if negb (rc =? 0) then ret rc else epoll_setup_udp_loop is'
  end.
Definition raft_epoll_setup_udp : N Z :=
  let! client := is_client in
  if client then ret (- EINVAL) else epoll_setup_udp_loop udp_listen_sockets.

Definition raft_epoll_setup_net : N Z :=
  let! client := is_client in
  if client then ext_rc (X_tcp_mgr_epoll_setup ri_client_tcp_mgr false)
  else
    let! rc := raft_epoll_setup_udp in
    if negb (rc =? 0) || raft_net_tcp_disabled then ret rc
    else
      let! rc := ext_rc (X_tcp_mgr_epoll_setup ri_peer_tcp_mgr true) in
      if negb (rc =? 0) then ret rc
      else ext_rc (X_tcp_mgr_epoll_setup ri_client_tcp_mgr true).

Definition raft_net_epoll_setup_timerfd : N Z :=
  let! client := is_client in
  let! has_cb := nget ns_has_timer_cb in
  if negb client && negb has_cb then ret (- EINVAL)
  else if negb has_cb then ret 0
  else
    let! fd := nget ns_timer_fd in
    raft_net_epoll_handle_add fd CB_timerfd.

(** The result of the timer's handle is overwritten. *)
Definition raft_net_epoll_setup : N Z :=
  let! rc := ext_rc X_epoll_mgr_setup in
  if negb (rc =? 0) then ret rc
  else
    let! rc := raft_net_epoll_setup_timerfd in
    let! rc := raft_epoll_setup_net in
    if negb (rc =? 0) then raft_net_epoll_cleanup ;;; ret rc else ret rc.

(** ** The configuration nodes *)
Definition csn_put (o : option uuid) : N unit :=
  match o with Some u => ext_unit (X_csn_put u) | None => ret tt end.

(** The pointers keep their values. *)
Definition raft_net_conf_destroy : N unit :=
  let! raft := nget ns_csn_raft in
  csn_put raft ;;;
  let! this := nget ns_csn_this_peer in
  csn_put this ;;;
  let! peers := nget ns_csn_raft_peers in
  for_each peers csn_put.

(** The pointer a lookup or an addition leaves. *)
Definition csn_ptr (u : uuid) (r : answer) : option uuid := if r.2 =? 0 then None else Some u.

(** The lookup of this node, with the node that is made for a client. *)
Definition conf_this_peer (raft u : uuid) : N Z :=
  let! r := ext_do (X_csn_lookup u) in
  modify (fun s => s <| ns_csn_this_peer := csn_ptr u r |>) ;;;
  if r.1 =? 0 then ret 0
  else
    let! client := is_client in
    if negb client then ret r.1
    else
      let! rc := ext_rc (X_csn_init raft u) in
      if negb (rc =? 0) then ret rc
      else
        let! r := ext_do (X_csn_add u) in
        modify (fun s => s <| ns_csn_this_peer := csn_ptr u r |>) ;;;
        ret r.1.

(** The loop over the members; the result tells whether this peer was found. *)
Fixpoint conf_peers_loop (members : list uuid) (i : Z) (found : bool) : N (Z * bool) :=
  match members with
  | [] => ret (0, found)
  | m :: members' =>
      let! r := ext_do (X_csn_lookup m) in
      modify (fun s => s <| ns_csn_raft_peers ::= fun l => zupd l i (csn_ptr m r) |>) ;;;
      if negb (r.1 =? 0) then ret (r.1, found)
      else
        let! this := nget ns_csn_this_peer in
        conf_peers_loop members' (i + 1) (found || bool_decide (this = Some m))
  end.

(** The pointers after the start: NULL, and initialised sockets. *)
Definition conf_reset : N unit :=
  for_each udp_listen_sockets (fun i =>
    let! r := ext_do (X_udp_socket_handle_init i) in
    ush_upd i (fun _ => {| ush_socket := r.2; ush_port := 0 |})) ;;;
  modify (fun s => s <| ns_csn_raft := None |> <| ns_csn_this_peer := None |>
                     <| ns_csn_raft_peers :=
                          replicate (Z.to_nat CTL_SVC_MAX_RAFT_PEERS) None |>).

(** What follows the reset, up to the label [cleanup]. *)
Definition conf_lookups (raft this : uuid) : N Z :=
  let! rc := conf_this_peer raft this in
  if negb (rc =? 0) then ret rc
  else
    let! r := ext_do (X_csn_lookup raft) in
    modify (fun s => s <| ns_csn_raft := csn_ptr raft r |>) ;;;
    if negb (r.1 =? 0) then ret r.1
    else
      match csn_members raft with
      | None => ret (- EINVAL)
      | Some members =>
          if Z.of_nat (length members) >? CTL_SVC_MAX_RAFT_PEERS then ret (- E2BIG)
          else
            let! p := conf_peers_loop members 0 false in
            if negb (p.1 =? 0) then ret p.1
            else
              let! client := is_client in
              if negb p.2 && negb client then ret (- ENODEV)
              else
                nri_upd (fun ri => ri <| ri_csn_raft := raft |> <| ri_csn_this_peer := this |>
                                      <| ri_csn_raft_peers := members |>) ;;;
                ret 0
      end.

Definition raft_net_conf_init : N Z :=
  let! ri := nri_get id in
  match uuid_parse (ri_this_peer_uuid_str ri), uuid_parse (ri_raft_uuid_str ri) with
  | Some this, Some raft =>
      if this =? raft then ret (- EINVAL)
      else
        conf_reset ;;;
        let! rc := conf_lookups raft this in
        if negb (rc =? 0) then raft_net_conf_destroy ;;; ret rc else ret 0
  | _, _ => ret (- EINVAL)
  end.

(** ** Connections *)
Definition raft_net_is_client_connection (ri : raft_instance) (csn : uuid) : bool :=
  raft_instance_is_client ri || negb (bool_decide (csn_type csn = CTL_SVC_NODE_TYPE_RAFT_PEER)).

Definition raft_net_connection_header_size (ri : raft_instance) (csn : uuid) : Z :=
  if raft_net_is_client_connection ri csn then sizeof_raft_client_rpc_msg
  else sizeof_raft_rpc_msg.

(** The connection [csn] is the one of that node. *)
Definition raft_net_tcp_handshake_fill (csn : uuid) (handshake : raft_rpc_msg) (size : Z) :
  N (raft_rpc_msg * Z) :=
  assert_ (size =? sizeof_raft_rpc_msg) ;;;
  let! ri := nri_get id in
  ret ({| rrm_type := RAFT_RPC_MSG_TYPE_ANY; rrm_version := 0;
          rrm_sender_id := ri_csn_this_peer ri; rrm_raft_id := ri_csn_raft ri;
          rrm_db_id := rrm_db_id handshake; rrm_payload := rrm_payload handshake |},
       raft_net_connection_header_size ri csn).

Definition raft_net_csn_setup (csn : uuid) : N Z :=
  assert_ (csn_is_peer csn) ;;;
  let! ri := nri_get id in
  let client := raft_net_is_client_connection ri csn in
  ext_unit (X_tcp_connection_setup csn
              (if client then ri_client_tcp_mgr else ri_peer_tcp_mgr)
              (if client then csn_client_port csn else csn_port csn)) ;;;
  ret 0.

(** The return code, the connection and its header size. *)
Definition raft_net_tcp_handshake_cb (handshake : raft_rpc_msg) (size : Z) :
  N (Z * option uuid * option Z) :=
  assert_ (size =? sizeof_raft_rpc_msg) ;;;
  let! ri := nri_get id in
  if negb (rrm_raft_id handshake =? ri_csn_raft ri)
     || negb (bool_decide (rrm_type handshake = RAFT_RPC_MSG_TYPE_ANY))
     || negb (rrm_version handshake =? 0)
  then ret (- EINVAL, None, None)
  else
    let sender := rrm_sender_id handshake in
    let! r := ext_do (X_csn_lookup sender) in
    match csn_ptr sender r with
    | Some csn => ret (0, Some csn, Some (raft_net_connection_header_size ri csn))
    | None =>
        let! rc := ext_rc (X_csn_init (rrm_raft_id handshake) sender) in
        let! r := (if rc =? 0 then ext_do (X_csn_add sender) else ret (rc, 0)) in
        match csn_ptr sender r with
        | Some csn =>
            if negb (r.1 =? 0) then ret (- ENOENT, None, None)
            else
              let! rc := raft_net_csn_setup csn in
              if negb (rc =? 0) then ret (rc, None, None)
              else ret (0, Some csn, Some (raft_net_connection_header_size ri csn))
        | None => ret (- ENOENT, None, None)
        end
    end.

(** [put]: the operation is EPH_REF_PUT. *)
Definition raft_net_connection_getput (csn : uuid) (put : bool) : N unit :=
  ext_unit (if put then X_csn_put csn else X_csn_get csn).

Definition raft_net_client_msg_bulk_size_cb (msg : raft_client_rpc_msg) : Z :=
  rcrm_data_size msg.
Definition raft_net_peer_msg_bulk_size_cb (msg : raft_rpc_msg) : Z :=
  match rrm_type msg, rrm_payload msg with
  | RAFT_RPC_MSG_TYPE_APPEND_ENTRIES_REQUEST, rrm_append_entries_request m => raerqm_entries_sz m
  | _, _ => 0
  end.

(** [header_size]: what the connection was set up with; [recv]: the callback of
    the instance for a buffer of that many bytes. *)
Definition raft_net_peer_tcp_cb (header_size buf_size : Z) (recv : option (Z -> N unit)) : N Z :=
  if buf_size =? 0 then ret (- EINVAL)
  else if negb (header_size =? sizeof_raft_rpc_msg) then ret (- EBADMSG)
  else match recv with Some cb => cb buf_size ;;; ret 0 | None => ret 0 end.
Definition raft_net_client_tcp_cb (header_size buf_size : Z) (recv : option (Z -> N unit)) : N Z :=
  if buf_size =? 0 then ret (- EINVAL)
  else if negb (header_size =? sizeof_raft_client_rpc_msg) then ret (- EBADMSG)
  else match recv with Some cb => cb buf_size ;;; ret 0 | None => ret 0 end.

Fixpoint udp_identify (l : list udp_handle) (fd i : Z) : Z :=
  match l with
  | [] => RAFT_UDP_LISTEN_ANY
  | u :: l' => if ush_socket u =? fd then i else udp_identify l' fd (i + 1)
  end.
Definition raft_net_udp_identify_socket (fd : Z) : N Z :=
  nget (fun s => udp_identify (ns_ush s) fd RAFT_UDP_LISTEN_SERVER).

(** The number of bytes received is the value of udp_socket_recv_fd(). *)
Definition raft_net_udp_cb (fd : Z) (server_recv client_recv : option (Z -> N unit)) : N unit :=
  let! r := ext_do (X_udp_socket_recv_fd fd) in
  if r.2 <? 0 then ret tt
  else
    let! i := raft_net_udp_identify_socket fd in
    let cb := if i =? RAFT_UDP_LISTEN_SERVER then server_recv
              else if i =? RAFT_UDP_LISTEN_CLIENT then client_recv else None in
    match cb with Some f => f r.2 | None => ret tt end.

Definition raft_net_ctl_svc_nodes_setup : N unit :=
  for_each [CTL_SVC_NODE_TYPE_NIOSD; CTL_SVC_NODE_TYPE_RAFT_CLIENT; CTL_SVC_NODE_TYPE_RAFT_PEER]
    (fun t => for_each (csn_nodes t) (fun u => raft_net_csn_setup u ;;; ret tt)).

(** ** Start-up and shutdown

    [pre_net_bind_cb], [shutdown_cb]: the callbacks of the instance. *)
Section callbacks.
Context (pre_net_bind_cb shutdown_cb : option (N Z)).

Definition run_shutdown_cb : N Z := match shutdown_cb with Some cb => cb | None => ret 0 end.

Definition raft_net_instance_shutdown : N Z :=
  let! has_init := nri_get ri_has_init_cb in
  when has_init (on_world (emit (OutInitCb RAFT_INIT_SHUTDOWN_STATE))) ;;;
  let! sockets_close_rc := raft_net_sockets_close in
  let! epoll_close_rc := raft_net_epoll_cleanup in
  let! shutdown_cb_rc := run_shutdown_cb in
  let! timerfd_close_rc := raft_net_timerfd_close in
  raft_net_conf_destroy ;;;
  ret (first_error (first_error (first_error sockets_close_rc epoll_close_rc) shutdown_cb_rc)
         timerfd_close_rc).

Definition tcp_mgrs_setup (client_mode : bool) : N Z :=
  let! rc := ext_rc (X_tcp_mgr_setup ri_client_tcp_mgr (negb client_mode)) in
  if negb (rc =? 0) then ret rc else ext_rc (X_tcp_mgr_setup ri_peer_tcp_mgr false).

(** The part of the start-up that follows the sockets: timer, epoll set, the
    callback, binding, connections. *)
Definition startup_tail : N Z :=
  let! rc := raft_net_timerfd_create in
  if negb (rc =? 0) then raft_net_instance_shutdown ;;; ret rc
  else
    let! rc := raft_net_epoll_setup in
    if negb (rc =? 0) then raft_net_instance_shutdown ;;; ret rc
    else
      let! rc := match pre_net_bind_cb with Some cb => cb | None => ret 0 end in
      if negb (rc =? 0) then run_shutdown_cb ;;; ret rc
      else
        let! client := is_client in
        let! rc := (if client then ret 0 else raft_net_sockets_bind) in
        if negb (rc =? 0) then run_shutdown_cb ;;; ret rc
        else
          raft_net_ctl_svc_nodes_setup ;;;
          nri_upd (fun ri => ri <| ri_proc_state := RAFT_PROC_STATE_RUNNING |>) ;;;
          ret 0.

Definition raft_net_instance_startup (client_mode : bool) : N Z :=
  nri_upd (fun ri =>
    ri <| ri_state := if client_mode then RAFT_STATE_CLIENT else RAFT_STATE__NONE |>
       <| ri_proc_state := RAFT_PROC_STATE_BOOTING |>) ;;;
  modify (fun s => s <| ns_backend := false |>) ;;;
  let! rc := raft_net_conf_init in
  if negb (rc =? 0) then ret rc
  else
    let! rc := (if raft_net_tcp_disabled then ret 0 else tcp_mgrs_setup client_mode) in
    if negb (rc =? 0) then ret rc
    else
      let! rc := raft_net_sockets_setup in
      if negb (rc =? 0) then ret rc else startup_tail.
End callbacks.
End net.
