(* ===== verification/ServerRun.v ===== *)
(** Starting, running and stopping a server ([src/raft_server.c]): the backend, the
    buffer sets, the event pipes and the threads, [raft_server_instance_startup],
    [raft_server_instance_shutdown], the checkpoint before a recovery, the main
    loop, and [raft_server_instance_run], the entry point of the library. *)
From stdpp Require Import base tactics list gmap.
From Stdlib Require Import ZArith Lia Strings.Byte.
From S2P Require Import Prelude RaftTypes World Quorum Net WriteSupp Entry Log Election Append Leader ClientReq Apply Server Steps RocksKeys RocksBackend NetStart.
Local Open Scope Z_scope.
Local Open Scope raft_scope.

Definition RAFT_SERVER_RECOVERY_ATTEMPTS : Z := 100.
Definition RAFT_SERVER_DEF_CHKPT_TIMEOUT : nat := 300%nat.
Definition raftServerDoesChkptBeforeRecovery : bool := true.
Definition RAFT_BS_APPLY_NBUF : Z := 2.
Definition RAFT_BUF_SET_MAX : Z := 3.
(** The mutexes ri_newest_entry_mutex, ri_compaction_mutex and ri_write_mutex. *)
Definition M_NEWEST : Z := 0.
Definition M_COMPACTION : Z := 1.
Definition M_WRITE : Z := 2.
(** The threads. *)
Definition T_SYNC : Z := 0.
Definition T_CHKPT : Z := 1.

(** The rest of [struct raft_instance_backend]: setting up, which may change the
    instance, shutting down, recovering; [None]: an assertion fails.
    [rib_shutdown_clears]: shutting down sets ri_backend to NULL. *)
Class BackendLife (B : Type) := {
  rib_backend_setup : raft_instance -> B -> option (Z * raft_instance * B);
  rib_backend_shutdown : raft_instance -> B -> option (Z * raft_instance * B);
  rib_shutdown_clears : bool;
  rib_backend_recover : option (raft_instance -> B -> option (Z * raft_instance * B));
}.

(** The options of raft_server_instance_run(). *)
Record run_args := {
  ra_raft_uuid_str : option bytes;
  ra_this_peer_uuid_str : option bytes;
  ra_has_sm_handler : bool;
  ra_has_init_cb : bool;
  ra_type : raft_instance_store_type;
  ra_sync_writes : bool;
  ra_coalesced_writes : bool;
  ra_auto_checkpoint : bool;
  ra_version : Z;
}.

(** What epoll_mgr_wait_and_process_events() does in one call: its result and the
    events processed meanwhile, each in its environment. *)
Record wait := { wait_rc : Z; wait_events : list (env * event) }.

Section run.
Context `{NC : NiovaCore} `{NU : NiovaUtil} `{NX : NetExt} {B A : Type}
  {BE : Backend B} {SM : StateMachine A} {BL : BackendLife B}.
Local Abbreviation N := (M (netst B A)).

(** ** The backend *)
(** The string snprintf() leaves in ri_log[PATH_MAX + 1]. *)
Definition raft_server_log_file_name_setup : N Z :=
  let! this := nget ns_csn_this_peer in
  let! u := lift_option this in
  match csn_store u with
  | None => ret (- EINVAL)
  | Some path =>
      nri_upd (fun ri => ri <| ri_log := take (Z.to_nat (PATH_MAX - 1)) path |>) ;;;
      ret (if slen path >? PATH_MAX then - ENAMETOOLONG else 0)
  end.

(** A backend call on the instance and the storage. *)
Definition backend_call (f : raft_instance -> B -> option (Z * raft_instance * B)) : M (world B A) Z :=
  let! ri := ri_get id in
  let! o := be_get (f ri) in
  let! r := lift_option o in
  ri_upd (fun _ => r.1.2) ;;;
  be_set r.2 ;;;
  ret r.1.1.

(** Reading a member of *ri_backend, which is a crash if the pointer is NULL. *)
Definition backend_deref : N unit := let! b := nget ns_backend in assert_ b.

(** [BL] stands for the backend that the store type selects. *)
Definition raft_server_backend_setup : N Z :=
  modify (fun s => s <| ns_backend := true |>) ;;;
  let! rc := raft_server_log_file_name_setup in
  if negb (rc =? 0) then ret rc
  else
    let! rc := on_world (backend_call rib_backend_setup) in
    let! max_sz := nri_get ri_max_entry_size in
    fatal_if ((rc =? 0) && (max_sz <? RAFT_ENTRY_SIZE_MIN)) ;;;
    ret rc.

Definition raft_server_backend_close : N Z :=
  let! shutdown := nri_get raft_instance_is_shutdown in
  if negb shutdown then ret (- EINVAL)
  else
    backend_deref ;;;
    let! rc := on_world (backend_call rib_backend_shutdown) in
    when rib_shutdown_clears (modify (fun s => s <| ns_backend := false |>)) ;;;
    ret rc.

(** ** The buffer sets *)
(** The sizes and the numbers of buffers of the small, large and apply sets. *)
Definition buff_sets : list (Z * Z) :=
  [(RAFT_BS_SMALL_SZ, RAFT_ENTRY_NUM_ENTRIES + tcp_mgr_worker_cnt);
   (RAFT_BS_LARGE_SZ, tcp_mgr_worker_cnt + 1);
   (RAFT_BS_APPLY_SZ, RAFT_BS_APPLY_NBUF)].
Definition buff_sets_total (l : list (Z * Z)) : Z :=
  foldr (fun p acc => p.1 * p.2 + acc) 0 l.

Fixpoint buffer_set_loop (total : Z) (sets : list (Z * Z)) (p off : Z) : N unit :=
  match sets with
  | [] => ret tt
  | (sz, n) :: sets' =>
      let! rc := ext_rc (X_buffer_set_init p n sz off) in
      assert_ (rc =? 0) ;;;
      assert_ (off + sz * n <=? total) ;;;
      buffer_set_loop total sets' (p + 1) (off + sz * n)
  end.

Definition raft_server_instance_buffer_set_setup : N Z :=
  let! max_sz := nri_get ri_max_entry_size in
  if max_sz =? 0 then ret (- EINVAL)
  else
    modify (fun s => s <| ns_buf_set := true |>) ;;;
    buffer_set_loop (buff_sets_total buff_sets) buff_sets 0 0 ;;;
    ret 0.

Definition raft_server_instance_buffer_set_destroy : N unit :=
  for_each (zrange 0 RAFT_BUF_SET_MAX) (fun p =>
    let! rc := ext_rc (X_buffer_set_destroy p) in assert_ (rc =? 0)) ;;;
  modify (fun s => s <| ns_buf_set := false |>).

(** ** The event pipes, with the calls that [Net.raft_net_evp_add] and
    [Net.raft_net_evp_remove] take the results of *)
Definition evp_add_ext (type : raft_event_pipe_types) : N Z :=
  let! ri := nri_get id in
  if negb (raft_net_evp_type_valid ri type) then ret (- EINVAL)
  else
    match evp_add_scan (ri_evps ri) type 0 (-1) with
    | inl rc => ret rc
    | inr idx =>
        if idx =? -1 then ret (- ENOSPC)
        else
          let! r := ext_do (X_ev_pipe_setup type) in
          if negb (r.1 =? 0) then ret r.1
          else
            modify (fun s => s <| ns_evp_fd ::= fun l => zupd l idx r.2 |>) ;;;
            let! rc := raft_net_epoll_handle_add r.2 (CB_evp type) in
            if negb (rc =? 0) then ext_unit (X_ev_pipe_cleanup type) ;;; ret rc
            else on_world (raft_net_evp_add 0 0 type)
    end.

Definition evp_remove_ext (type : raft_event_pipe_types) : N Z :=
  let! ri := nri_get id in
  if negb (raft_net_evp_type_valid ri type) then ret (- EINVAL)
  else
    let idx := evp_remove_scan (ri_evps ri) type 0 (-1) in
    if idx =? -1 then ret (- ENOENT)
    else
      let! fds := nget ns_evp_fd in
      let! fd := lift_option (znth fds idx) in
      let! epoll_remove_rc := raft_net_epoll_handle_remove_by_fd fd in
      let! cleanup_rc := ext_rc (X_ev_pipe_cleanup type) in
      on_world (raft_net_evp_remove epoll_remove_rc cleanup_rc type).

Fixpoint evp_setup_ext (types : list raft_event_pipe_types) : N Z :=
  match types with
  | [] => ret 0
  | t :: types' =>
      let! rc := evp_add_ext t in
      if negb (rc =? 0) then ret rc else evp_setup_ext types'
  end.
Fixpoint evp_cleanup_ext (types : list raft_event_pipe_types) (rc : Z) : N Z :=
  match types with
  | [] => ret rc
  | t :: types' =>
      let! tmp_rc := evp_remove_ext t in
      evp_cleanup_ext types' (first_error rc tmp_rc)
  end.
Definition server_evp_setup : N Z :=
  let! client := is_client in
  if client then ret (- EINVAL) else evp_setup_ext raft_evp_server.
Definition server_evp_cleanup : N Z :=
  let! client := is_client in
  if client then ret (- EINVAL) else evp_cleanup_ext raft_evp_server 0.

(** ** The threads *)
Definition has_checkpoint : bool := match rib_backend_checkpoint with Some _ => true | None => false end.

Definition thread_start (k : Z) : N Z :=
  let! rc := ext_rc (X_thread_create k) in
  if negb (rc =? 0) then ret rc else ext_unit (X_thread_run k) ;;; ret 0.

Definition raft_server_sync_thread_start : N Z :=
  let! booting := nri_get raft_instance_is_booting in
  assert_ booting ;;;
  let! sync := nri_get raft_server_does_synchronous_writes in
  if sync then ret 0 else thread_start T_SYNC.
Definition raft_server_sync_thread_join : N Z :=
  let! shutdown := nri_get raft_instance_is_shutdown in
  assert_ shutdown ;;;
  let! sync := nri_get raft_server_does_synchronous_writes in
  if sync then ret 0 else ext_rc (X_thread_halt T_SYNC).
Definition raft_server_chkpt_thread_start : N Z :=
  let! booting := nri_get raft_instance_is_booting in
  assert_ booting ;;;
  backend_deref ;;;
  if has_checkpoint then thread_start T_CHKPT else ret 0.
Definition raft_server_chkpt_thread_join : N Z :=
  let! shutdown := nri_get raft_instance_is_shutdown in
  assert_ shutdown ;;;
  backend_deref ;;;
  if has_checkpoint then ext_rc (X_thread_halt T_CHKPT) else ret 0.

(** ** Shutdown *)
Fixpoint lreg_wait_loop (n : nat) : N Z :=
  let! r := ext_do X_lreg_registered in
  if r.2 =? 0 then ret 0
  else match n with
       | O => ret (- ETIMEDOUT)
       | S n' => lreg_wait_loop n'
       end.
Definition raft_server_lreg_node_removal_wait : N Z := lreg_wait_loop 1000.

Definition raft_server_instance_shutdown : N Z :=
  nri_upd (fun ri => ri <| ri_proc_state := RAFT_PROC_STATE_SHUTDOWN |>) ;;;
  let! rc_chkpt := raft_server_chkpt_thread_join in
  let! rc_sync := raft_server_sync_thread_join in
  let! rc_backend_close := raft_server_backend_close in
  let! rc_evp_cleanup := server_evp_cleanup in
  let! mutex_rc := ext_rc (X_mutex_destroy M_NEWEST) in
  let! mutex_rc2 := ext_rc (X_mutex_destroy M_COMPACTION) in
  let! lreg_remove_rc := ext_rc X_lreg_remove in
  let! lreg_removal_wait_rc := raft_server_lreg_node_removal_wait in
  raft_server_instance_buffer_set_destroy ;;;
  nri_upd (fun ri => ri <| ri_coalesced_wr := None |>) ;;;
  ret (foldl first_error 0 [rc_chkpt; rc_sync; rc_backend_close; rc_evp_cleanup;
                            - mutex_rc; - mutex_rc2; lreg_remove_rc; lreg_removal_wait_rc]).

Definition net_shutdown : N Z := raft_net_instance_shutdown (Some raft_server_instance_shutdown).

(** ** Start-up *)
(** From the buffer sets to the label [out]. *)
Definition startup_after_backend : N Z :=
  let! rc := raft_server_instance_buffer_set_setup in
  if negb (rc =? 0) then ret rc
  else
    let! rc := ext_rc X_lreg_init in
    if negb (rc =? 0) then ret rc
    else
      let! rc := on_world raft_server_log_load in
      if negb (rc =? 0) then ret rc
      else
        let! rc := server_evp_setup in
        if negb (rc =? 0) then ret rc
        else
          let! rc := raft_server_sync_thread_start in
          if negb (rc =? 0) then ret rc
          else
            let! rc := raft_server_chkpt_thread_start in
            if negb (rc =? 0) then ret rc
            else
              let! has_init := nri_get ri_has_init_cb in
              when has_init (on_world (emit (OutInitCb RAFT_INIT_BOOTUP_STATE))) ;;;
              ret 0.

Definition raft_server_instance_startup : N Z :=
  let! booting := nri_get raft_instance_is_booting in
  assert_ booting ;;;
  for_each [M_NEWEST; M_COMPACTION; M_WRITE] (fun k =>
    let! rc := ext_rc (X_mutex_init k) in fatal_if (negb (rc =? 0))) ;;;
  let! has_timer_cb := nget ns_has_timer_cb in
  if negb has_timer_cb then ret (- EINVAL)
  else
    on_world raft_instance_initialize_newest_entry_hdr ;;;
    let! rc := raft_server_backend_setup in
    if negb (rc =? 0) then ret rc
    else
      let! rc := startup_after_backend in
      if negb (rc =? 0) then
        modify (fun s => s <| ns_startup_error := rc |>) ;;;
        net_shutdown ;;;
        ret rc
      else ret 0.

Definition net_startup : N Z :=
  raft_net_instance_startup (Some raft_server_instance_startup)
    (Some raft_server_instance_shutdown) false.

(** ** The checkpoint before a recovery *)
(** One iteration of the loop per second; [chkpt_runs]: whether the checkpoint
    thread completes an iteration during that second. *)
Fixpoint chkpt_wait_loop (chkpt_runs : nat -> bool) (last_idx : Z) (secs : nat) : N bool :=
  match secs with
  | O => ret false
  | S secs' =>
      let! ri := nri_get id in
      if (last_idx <? ri_checkpoint_last_idx ri) || negb (ri_last_chkpt_err ri =? 0) then ret true
      else
        when (chkpt_runs secs') (on_world raft_server_chkpt_thread) ;;;
        chkpt_wait_loop chkpt_runs last_idx secs'
  end.

Definition raft_server_chkpt_prior_to_recovery (chkpt_runs : nat -> bool) : N Z :=
  backend_deref ;;;
  if negb has_checkpoint then ret (- EINVAL)
  else
    let! running := ext_do (X_thread_is_running T_CHKPT) in
    if running.2 =? 0 then ret (- EINVAL)
    else if negb raftServerDoesChkptBeforeRecovery then ret 0
    else
      let! idx := on_world (raft_server_get_current_raft_entry_index RI_NEHDR_SYNC) in
      if idx <? 0 then ret 0
      else
        let! last_idx := nri_get ri_checkpoint_last_idx in
        nri_upd (fun ri => ri <| ri_last_chkpt_err := 0 |>
                              <| ri_user_requested_checkpoint := true |>) ;;;
        let! rc := ext_rc (X_sig_alarm T_CHKPT) in
        if negb (rc =? 0) then ret rc
        else
          let! done_ := chkpt_wait_loop chkpt_runs last_idx RAFT_SERVER_DEF_CHKPT_TIMEOUT in
          let! err := nri_get ri_last_chkpt_err in
          when (negb done_ && (err =? 0))
            (nri_upd (fun ri => ri <| ri_last_chkpt_err := - ETIMEDOUT |>)) ;;;
          let! rc := nri_get ri_last_chkpt_err in
          ret (if rc =? - ENODATA then 0 else if rc =? - EALREADY then 0 else rc).

(** ** The main loop *)
Fixpoint run_events (l : list (env * event)) : M (world B A) unit :=
  match l with
  | [] => ret tt
  | (e, ev) :: l' => modify (fun w => w <| w_env := e |>) ;;; run_event ev ;;; run_events l'
  end.

(** [None]: every wait is consumed and the loop is still running. *)
Fixpoint main_loop_waits (waits : list wait) : M (world B A) (option Z) :=
  match waits with
  | [] => ret None
  | w :: waits' =>
      run_events (wait_events w) ;;;
      let rc := if wait_rc w =? - EINTR then 0 else wait_rc w in
      if rc <? 0 then ret (Some rc)
      else
        let! exit := raft_server_main_loop_exit_conditions in
        if exit then ret (Some 0) else main_loop_waits waits'
  end.
Definition raft_server_main_loop (waits : list wait) : M (world B A) (option Z) :=
  raft_server_main_loop_enter ;;; main_loop_waits waits.

(** ** Running an instance *)
(** raft_server_instance_init() wipes the whole instance. *)
Definition instance_init (a : run_args) (raft_uuid_str this_peer_uuid_str : bytes) : N unit :=
  let! ri := nri_get id in
  let! ri := lift_option (raft_server_instance_init (ra_type a) raft_uuid_str this_peer_uuid_str
               (ra_has_init_cb a) (ra_sync_writes a) (ra_coalesced_writes a)
               (ra_auto_checkpoint a) (ra_version a) ri) in
  modify (fun s =>
    {| ns_w := (ns_w s) <| w_ri := ri |>;
       ns_ush := replicate (Z.to_nat RAFT_UDP_LISTEN_MAX) {| ush_socket := 0; ush_port := 0 |};
       ns_timer_fd := 0; ns_has_timer_cb := true; ns_ignore_timerfd := false;
       ns_eph := replicate (Z.to_nat RAFT_EPOLL_HANDLES_MAX) zero_eph;
       ns_evp_fd := replicate (Z.to_nat RAFT_EVP_HANDLES_MAX) 0;
       ns_csn_raft := None; ns_csn_this_peer := None;
       ns_csn_raft_peers := replicate (Z.to_nat CTL_SVC_MAX_RAFT_PEERS) None;
       ns_startup_error := 0; ns_buf_set := false; ns_backend := false;
       ns_trace := ns_trace s |}).

Definition bulk_recovery : N Z :=
  backend_deref ;;;
  on_world (raft_server_bulk_recovery (option_map backend_call rib_backend_recover)).

(** What follows a successful start-up: the main loop, the checkpoint, the
    shutdown.  [rc] is the result so far; [None]: the main loop is running. *)
Definition run_started (waits : list wait) (chkpt_runs : nat -> bool) (rc : Z) : N (option Z) :=
  on_world (let! alloc_rc := env_get env_alloc_rc in
            assert_ (alloc_rc =? 0) ;;;
            ri_upd (fun ri => ri <| ri_coalesced_wr := Some zero_co_wr |>)) ;;;
  let! o := on_world (raft_server_main_loop waits) in
  match o with
  | None => ret None
  | Some main_loop_rc =>
      let! needs := nri_get ri_needs_bulk_recovery in
      let! rc := (if negb (main_loop_rc =? 0) then ret (first_error rc main_loop_rc)
                  else if needs then
                    let! recovery_chkpt_rc := raft_server_chkpt_prior_to_recovery chkpt_runs in
                    ret (first_error rc recovery_chkpt_rc)
                  else ret rc) in
      let! shutdown_rc := net_shutdown in
      let rc := first_error rc shutdown_rc in
      let! needs := nri_get ri_needs_bulk_recovery in
      (if (rc =? 0) && needs
       then nri_upd (fun ri => ri <| ri_proc_state := RAFT_PROC_STATE_BOOTING |>)
       else ret tt) ;;;
      ret (Some rc)
  end.

(** The body of the do-while loop: the result and restart_post_recovery. *)
Definition run_body (a : run_args) (raft_uuid_str this_peer_uuid_str : bytes)
    (waits : list wait) (chkpt_runs : nat -> bool) (rc : Z) : N (option (Z * bool)) :=
  let! enter_bulk_recovery := nri_get ri_needs_bulk_recovery in
  let! rc := (if enter_bulk_recovery then bulk_recovery else ret rc) in
  if enter_bulk_recovery && (rc =? 0) then
    nri_upd (fun ri => ri <| ri_successful_recovery := true |>
                          <| ri_needs_bulk_recovery := false |>) ;;;
    ret (Some (0, true))
  else
    instance_init a raft_uuid_str this_peer_uuid_str ;;;
    let! startup_rc := net_startup in
    if negb (startup_rc =? 0) then
      if startup_rc =? - EUCLEAN then
        nri_upd (fun ri => ri <| ri_needs_bulk_recovery := true |>) ;;;
        ret (Some (0, false))
      else ret (Some (startup_rc, false))
    else
      let! o := run_started waits chkpt_runs rc in
      ret (option_map (fun rc => (rc, false)) o).

(** How the loop stands: it returned, it waits for events, or the turns given to
    the model are used up. *)
Inductive run_result := Returned (rc : Z) | StillRunning | OutOfTurns.

(** [turn n]: the waits of the main loop and the checkpoint thread's progress in
    the [n]-th turn. *)
Fixpoint run_loop (fuel : nat) (a : run_args) (raft_uuid_str this_peer_uuid_str : bytes)
    (turn : nat -> list wait * (nat -> bool)) (n : nat) (rc tries : Z) : N run_result :=
  match fuel with
  | O => ret OutOfTurns
  | S fuel' =>
      let! o := run_body a raft_uuid_str this_peer_uuid_str (turn n).1 (turn n).2 rc in
      match o with
      | None => ret StillRunning
      | Some (rc, restart) =>
          let tries := if restart then RAFT_SERVER_RECOVERY_ATTEMPTS else tries in
          if negb (rc =? 0) then ret (Returned rc)
          else if restart then
            run_loop fuel' a raft_uuid_str this_peer_uuid_str turn (S n) rc tries
          else
            let! needs := nri_get ri_needs_bulk_recovery in
            if needs && (0 <=? tries - 1)
            then run_loop fuel' a raft_uuid_str this_peer_uuid_str turn (S n) rc (tries - 1)
            else ret (Returned rc)
      end
  end.

Definition raft_server_instance_run (fuel : nat) (a : run_args)
    (turn : nat -> list wait * (nat -> bool)) : N run_result :=
  match ra_raft_uuid_str a, ra_this_peer_uuid_str a with
  | Some raft_uuid_str, Some this_peer_uuid_str =>
      if negb (ra_has_sm_handler a) then ret (Returned (- EINVAL))
      else run_loop fuel a raft_uuid_str this_peer_uuid_str turn 0 0 RAFT_SERVER_RECOVERY_ATTEMPTS
  | _, _ => ret (Returned (- EINVAL))
  end.
End run.
