(* ===== verification/ServerRunProps.v ===== *)
(** Start-up, shutdown and the run loop of a server: which calls are made, what
    happens to the process state, and what an interrupted recovery leads to. *)
From stdpp Require Import base tactics list gmap.
From Stdlib Require Import ZArith Lia Strings.Byte.
From S2P Require Import Prelude RaftTypes World Quorum Net WriteSupp Entry Log Election Append Leader ClientReq Apply Server Steps RocksKeys RocksBackend NetStart ServerRun.
Local Open Scope Z_scope.
Local Open Scope raft_scope.

(** ** The calls a handler makes *)
Section calls.
Context {B A : Type}.
Implicit Types (s : netst B A) (P : ext_call -> bool).

(** Every call made satisfies [P]. *)
Definition calls_in P : netst B A -> netst B A -> Prop := fun s s' =>
  exists l, ns_trace s' = ns_trace s ++ l /\ Forall (fun p => P p.1 = true) l.
(** ... and the server's own state is left alone. *)
Definition quiet P : netst B A -> netst B A -> Prop := fun s s' =>
  calls_in P s s' /\ ns_w s' = ns_w s.
Definition proc_state s : raft_process_state := ri_proc_state (w_ri (ns_w s)).
Definition same_proc : netst B A -> netst B A -> Prop := same proc_state.

#[export] Instance calls_in_preorder P : PreOrder (calls_in P).
Proof.
  split.
  - intros s. exists []. by rewrite app_nil_r.
  - intros s1 s2 s3 (l1 & H1 & HP1) (l2 & H2 & HP2). exists (l1 ++ l2).
    rewrite H2, H1, app_assoc. split; [done | by apply Forall_app].
Qed.
#[export] Instance quiet_preorder P : PreOrder (quiet P).
Proof.
  split.
  - intros s. by split; [reflexivity|].
  - intros s1 s2 s3 [H1 E1] [H2 E2]. split; [by transitivity s2 | congruence].
Qed.

Lemma calls_in_same P s s' : ns_trace s' = ns_trace s -> calls_in P s s'.
Proof. intros H. exists []. by rewrite app_nil_r. Qed.

Lemma keeps_calls_modify P f :
  (forall s, ns_trace (f s) = ns_trace s) -> keeps (calls_in P) (modify f).
Proof. intros H. apply keeps_modify. intros s. apply calls_in_same, H. Qed.
Lemma keeps_quiet_modify P f :
  (forall s, ns_trace (f s) = ns_trace s /\ ns_w (f s) = ns_w s) -> keeps (quiet P) (modify f).
Proof. intros H. apply keeps_modify. intros s. split; [apply calls_in_same|]; apply H. Qed.
Lemma keeps_calls_world P {T} (m : M (world B A) T) : keeps (calls_in P) (on_world m).
Proof.
  intros s a s' H. unfold on_world in H. destruct (m (ns_w s)) as [[b w]|]; [|done].
  injection H as _ <-. by apply calls_in_same.
Qed.
Lemma keeps_proc_world {T} (m : M (world B A) T) :
  keeps (on_ri (same ri_proc_state)) m -> keeps same_proc (on_world m).
Proof.
  intros Hm s a s' H. unfold on_world in H. destruct (m (ns_w s)) as [[b w]|] eqn:E; [|done].
  injection H as _ <-. apply Hm in E. exact E.
Qed.
Lemma quiet_calls P {T} (m : M (netst B A) T) : keeps (quiet P) m -> keeps (calls_in P) m.
Proof. apply keeps_weaken. by intros s s' []. Qed.
Lemma quiet_proc P {T} (m : M (netst B A) T) : keeps (quiet P) m -> keeps same_proc m.
Proof.
  apply keeps_weaken. intros s s' [_ E]. unfold same_proc, same, proc_state. by rewrite E.
Qed.
End calls.

#[export] Hint Resolve keeps_calls_world : keeps.
#[export] Hint Extern 4 (keeps (calls_in _) (modify _)) =>
  apply keeps_calls_modify; intros ?; reflexivity : keeps.
#[export] Hint Extern 4 (keeps (quiet _) (modify _)) =>
  apply keeps_quiet_modify; intros ?; split; reflexivity : keeps.

Section ext_calls.
Context `{NX : NetExt} {B A : Type}.
Implicit Types (s : netst B A) (P : ext_call -> bool).

Lemma keeps_quiet_ext P c : P c = true -> keeps (quiet P) (@ext_do NX B A c).
Proof.
  intros HP s a s' [= _ <-]. split; [|done]. eexists. split; [reflexivity|].
  by constructor.
Qed.
End ext_calls.
#[export] Hint Extern 4 (keeps (quiet _) (ext_do _)) =>
  apply keeps_quiet_ext; reflexivity : keeps.

(** The calls of the communication layer: all but those of the server. *)
Definition net_call (c : ext_call) : bool :=
  match c with X_mutex_init _ => false | _ => true end.

Section net_keeps.
Context `{NC : NiovaCore} `{NU : NiovaUtil} `{NX : NetExt} {B A : Type}.
Local Abbreviation N := (M (netst B A)).
Local Abbreviation Q := (quiet (B := B) (A := A) net_call).

Lemma keeps_udp_close_loop l rc : keeps Q (udp_sockets_close_loop l rc).
Proof. revert rc. induction l as [|i l IH]; intros rc; simpl; solve_keeps. Qed.
Lemma keeps_udp_bind_loop l : keeps Q (udp_sockets_bind_loop l).
Proof. induction l as [|i l IH]; simpl; solve_keeps. Qed.
Lemma keeps_udp_setup_loop u l : keeps Q (udp_sockets_setup_loop u l).
Proof. induction l as [|i l IH]; simpl; solve_keeps. Qed.
#[local] Hint Resolve keeps_udp_close_loop keeps_udp_bind_loop keeps_udp_setup_loop : keeps.

Lemma keeps_sockets_close : keeps Q raft_net_sockets_close.
Proof. solve_keeps. Qed.
Lemma keeps_sockets_bind : keeps Q raft_net_sockets_bind.
Proof. solve_keeps. Qed.
Lemma keeps_sockets_setup : keeps Q raft_net_sockets_setup.
Proof. solve_keeps. Qed.

Lemma keeps_epoll_cleanup_loop l : keeps Q (epoll_cleanup_loop l).
Proof. induction l as [|i l IH]; simpl; solve_keeps. Qed.
Lemma keeps_epoll_setup_udp_loop l : keeps Q (epoll_setup_udp_loop l).
Proof. induction l as [|i l IH]; simpl; solve_keeps. Qed.
#[local] Hint Resolve keeps_epoll_cleanup_loop keeps_epoll_setup_udp_loop : keeps.
Lemma keeps_epoll_cleanup : keeps Q raft_net_epoll_cleanup.
Proof. solve_keeps. Qed.
#[local] Hint Resolve keeps_epoll_cleanup : keeps.
Lemma keeps_epoll_setup : keeps Q raft_net_epoll_setup.
Proof. solve_keeps. Qed.
Lemma keeps_timerfd_close : keeps Q raft_net_timerfd_close.
Proof. solve_keeps. Qed.
Lemma keeps_timerfd_create : keeps Q raft_net_timerfd_create.
Proof. solve_keeps. Qed.
Lemma keeps_conf_destroy : keeps Q raft_net_conf_destroy.
Proof. solve_keeps. Qed.
Lemma keeps_remove_by_fd_loop fd l rc n : keeps Q (remove_by_fd_loop fd l rc n).
Proof. revert rc n. induction l as [|i l IH]; intros rc n; simpl; solve_keeps. Qed.
#[local] Hint Resolve keeps_remove_by_fd_loop : keeps.
Lemma keeps_remove_by_fd fd : keeps Q (raft_net_epoll_handle_remove_by_fd fd).
Proof. solve_keeps. Qed.
End net_keeps.

#[export] Hint Resolve keeps_sockets_close keeps_sockets_bind keeps_sockets_setup
  keeps_epoll_cleanup keeps_epoll_setup keeps_timerfd_close keeps_timerfd_create
  keeps_conf_destroy keeps_remove_by_fd : keeps.
#[export] Hint Extern 6 (keeps (calls_in net_call) _) =>
  apply quiet_calls; solve [auto with keeps] : keeps.
#[export] Hint Extern 6 (keeps same_proc _) =>
  eapply (quiet_proc net_call); solve [auto with keeps] : keeps.
#[export] Hint Extern 4 (keeps same_proc (modify _)) =>
  apply keeps_modify; intros ?; reflexivity : keeps.

(** What the server relies on of a backend: shutting it down leaves the process
    state of the instance as it is. *)
Class BackendLifeOk {B} (BL : BackendLife B) : Prop := {
  shutdown_keeps_proc ri b rc ri' b' :
    rib_backend_shutdown ri b = Some (rc, ri', b') -> ri_proc_state ri' = ri_proc_state ri;
}.

Section run_props.
Context `{NC : NiovaCore} `{NU : NiovaUtil} `{NX : NetExt} {B A : Type}
  {BE : Backend B} {SM : StateMachine A} {BL : BackendLife B} {BLK : BackendLifeOk BL}.
Local Abbreviation N := (M (netst B A)).
Implicit Types s : netst B A.

(** ** The configuration *)
Lemma keeps_conf_peers_loop l i b : keeps (calls_in net_call) (@conf_peers_loop NX B A l i b).
Proof. revert i b. induction l as [|m l IH]; intros i b; simpl; solve_keeps. Qed.
#[local] Hint Resolve keeps_conf_peers_loop : keeps.

(** ** Shutdown *)
Lemma keeps_proc_evp_remove erc crc t :
  keeps same_proc (on_world (B := B) (A := A) (raft_net_evp_remove erc crc t)).
Proof. apply keeps_proc_world. solve_keeps. Qed.
Lemma keeps_proc_emit o : keeps same_proc (on_world (B := B) (A := A) (emit o)).
Proof. apply keeps_proc_world. solve_keeps. Qed.
Lemma keeps_proc_ext c : keeps same_proc (@ext_do NX B A c).
Proof. by intros s a s' [= _ <-]. Qed.
Lemma keeps_proc_nri_upd f :
  (forall ri, ri_proc_state (f ri) = ri_proc_state ri) -> keeps same_proc (nri_upd (B := B) (A := A) f).
Proof. intros Hf. apply keeps_proc_world. intros w t w' [= _ <-]. apply Hf. Qed.
#[local] Hint Resolve keeps_proc_evp_remove keeps_proc_emit keeps_proc_ext : keeps.
#[local] Hint Extern 4 (keeps same_proc (nri_upd _)) =>
  apply keeps_proc_nri_upd; intros ?; reflexivity : keeps.

Lemma keeps_proc_remove_by_fd fd : keeps same_proc (@raft_net_epoll_handle_remove_by_fd NX B A fd).
Proof. eapply (quiet_proc net_call), keeps_remove_by_fd. Qed.
#[local] Hint Resolve keeps_proc_remove_by_fd : keeps.

Lemma keeps_evp_cleanup l rc : keeps same_proc (evp_cleanup_ext (B := B) (A := A) l rc).
Proof. revert rc. induction l as [|t l IH]; intros rc; simpl; solve_keeps. Qed.
Lemma keeps_lreg_wait n : keeps same_proc (lreg_wait_loop (B := B) (A := A) n).
Proof. induction n as [|n IH]; simpl; solve_keeps. Qed.
#[local] Hint Resolve keeps_evp_cleanup keeps_lreg_wait : keeps.

Lemma keeps_proc_backend_shutdown :
  keeps same_proc (on_world (B := B) (A := A) (backend_call rib_backend_shutdown)).
Proof.
  apply keeps_proc_world. intros w z w' H. unfold backend_call in H.
  run_step H. run_step H. destruct (rib_backend_shutdown _ _) as [[[rc ri'] b']|] eqn:E; [|done].
  run_inv H. simplify_eq. unfold on_ri, same. simpl. by eapply shutdown_keeps_proc.
Qed.
#[local] Hint Resolve keeps_proc_backend_shutdown : keeps.












(** ** Start-up failures before the backend is chosen *)
Local Abbreviation same_backend := (same (ns_backend (B := B) (A := A))).
Lemma keeps_backend_ext c : keeps same_backend (@ext_do NX B A c).
Proof. by intros s a s' [= _ <-]. Qed.
Lemma keeps_backend_world {T} (m : M (world B A) T) : keeps same_backend (on_world m).
Proof.
  intros s a s' H. unfold on_world in H. destruct (m (ns_w s)) as [[b w]|]; [|done].
  by injection H as _ <-.
Qed.
#[local] Hint Resolve keeps_backend_ext keeps_backend_world : keeps.
Lemma keeps_backend_close_loop l rc : keeps same_backend (@udp_sockets_close_loop NX B A l rc).
Proof. revert rc. induction l as [|i l IH]; intros rc; simpl; solve_keeps. Qed.
Lemma keeps_backend_cleanup_loop l : keeps same_backend (@epoll_cleanup_loop NX B A l).
Proof. induction l as [|i l IH]; simpl; solve_keeps. Qed.
#[local] Hint Resolve keeps_backend_close_loop keeps_backend_cleanup_loop : keeps.

Lemma server_shutdown_no_backend s : ns_backend s = false -> raft_server_instance_shutdown s = None.
Proof.
  intros Hs. unfold raft_server_instance_shutdown. erewrite bind_eq by reflexivity.
  unfold raft_server_chkpt_thread_join, backend_deref, bind, nri_get, nget, gets, assert_, on_world.
  simpl. by rewrite Hs.
Qed.

(** Shutting the communication layer of a server down before its backend is chosen
    dereferences a null pointer. *)
Lemma net_shutdown_no_backend s : ns_backend s = false -> net_shutdown s = None.
Proof.
  intros Hs. destruct (net_shutdown s) as [[rc s']|] eqn:H; [|done].
  unfold net_shutdown, raft_net_instance_shutdown, run_shutdown_cb in H.
  apply bind_Some in H as (b & s1 & H1 & H). injection H1 as _ <-.
  apply bind_Some in H as (? & s1 & H1%(keeps_run same_backend) & H); [|solve_keeps].
  apply bind_Some in H as (? & s2 & H2%(keeps_run same_backend) & H); [|solve_keeps].
  apply bind_Some in H as (? & s3 & H3%(keeps_run same_backend) & H); [|solve_keeps].
  unfold same in *. unfold bind in H. by rewrite server_shutdown_no_backend in H by congruence.
Qed.

(** A server whose timer cannot be created crashes: the error path of the start-up
    shuts down a server that does not exist yet. *)
Lemma timer_failure_crashes s :
  ns_backend s = false ->
  (ext (ns_trace s) X_timerfd_create).2 < 0 -> (ext (ns_trace s) X_timerfd_create).1 <> 0 ->
  startup_tail (Some raft_server_instance_startup) (Some raft_server_instance_shutdown) s = None.
Proof.
  intros Hs Hfd Hrc. unfold startup_tail, raft_net_timerfd_create.
  set (r := ext _ _) in *. unfold bind at 1 2 3, ext_do, modify, ret. fold r.
  assert ((r.2 <? 0) = true) as -> by lia. cbv beta iota.
  assert (negb (r.1 =? 0) = true) as -> by lia.
  pose proof net_shutdown_no_backend as Hn. unfold net_shutdown in Hn.
  unfold bind. by rewrite Hn.
Qed.
End run_props.
