(* ===== verification/ServerSim.v ===== *)
(** A concrete environment the start-up is tried on, and the life cycles of the
    two backends behind [rib_backend_setup] and [rib_backend_shutdown]. *)
From stdpp Require Import base tactics list gmap.
From Stdlib Require Import ZArith Lia Strings.Byte.
From S2P Require Import Prelude RaftTypes World Quorum Net WriteSupp Entry Log Election Append Leader ClientReq Apply Server Steps PosixBackend Sim RocksKeys RocksBackend RocksRecovery RocksBulk RocksSim NetStart ServerRun ServerRunProps.
Local Open Scope Z_scope.
Local Open Scope raft_scope.

(** Every call succeeds; descriptors are numbered by the calls made so far. *)
Definition sim_answer (t : list (ext_call * answer)) (c : ext_call) : answer :=
  match c with
  | X_udp_socket_handle_init _ | X_udp_socket_close _ => (0, -1)
  | X_udp_socket_setup _ _ | X_timerfd_create | X_ev_pipe_setup _ =>
      (0, 10 + Z.of_nat (length t))
  | X_epoll_handle_del _ _ | X_lreg_registered => (0, 0)
  | _ => (0, 1)
  end.
Definition sim_net (answer_ : list (ext_call * answer) -> ext_call -> answer) : NetExt := {|
  ext := answer_;
  csn_members u := if u =? sim_raft then Some [1; 2; 3] else None;
  csn_port _ := 9000;
  csn_client_port _ := 9001;
  csn_type _ := CTL_SVC_NODE_TYPE_RAFT_PEER;
  csn_is_peer _ := true;
  csn_store _ := Some sim_log_dir;
  csn_nodes t := if bool_decide (t = CTL_SVC_NODE_TYPE_RAFT_PEER) then [1; 2; 3] else [];
  tcp_mgr_worker_cnt := 4;
|}.

Definition sim_args : run_args :=
  {| ra_raft_uuid_str := Some (uuid_unparse sim_raft);
     ra_this_peer_uuid_str := Some (uuid_unparse 1); ra_has_sm_handler := true;
     ra_has_init_cb := true; ra_type := RAFT_INSTANCE_STORE_POSIX_FLAT_FILE;
     ra_sync_writes := true; ra_coalesced_writes := false; ra_auto_checkpoint := false;
     ra_version := 1 |}.

(** The process before raft_server_instance_run(): the instance is zero. *)
Definition sim_process : netst raft_instance_posix Z :=
  {| ns_w := World zero_raft_instance empty_file 0 (sim_env no_faults 1000) 0 [];
     ns_ush := []; ns_timer_fd := 0; ns_has_timer_cb := false; ns_ignore_timerfd := false;
     ns_eph := []; ns_evp_fd := []; ns_csn_raft := None; ns_csn_this_peer := None;
     ns_csn_raft_peers := []; ns_startup_error := 0; ns_buf_set := false; ns_backend := false; ns_trace := [] |}.


(** ** The backends *)
(** rsbp_destroy() also sets ri_backend to NULL. *)
#[export] Instance posix_life : BackendLife raft_instance_posix := {
  rib_backend_setup := fun ri rip => rsbp_setup 0 (ri_csn_this_peer ri) ri rip;
  rib_backend_shutdown := fun ri rip => Some (0, ri, rip);
  rib_shutdown_clears := true;
  rib_backend_recover := None;
}.
#[export] Instance posix_life_ok : BackendLifeOk posix_life.
Proof. split. by intros ri b rc ri' b' [= _ <- _]. Qed.

Section rocks_life.
Context `{NC : NiovaCore} {D : Type} `{RD : RocksDB D} `{NU : NiovaUtil} `{RE : RecoveryEnv D}.

Definition rocks_call (m : M (rworld D) Z) (ri : raft_instance) (st : rocks_state D) :
  option (Z * raft_instance * rocks_state D) :=
  r ← m (RWorld ri st); Some (r.1, rw_ri r.2, rw_st r.2).
#[export] Instance rocks_life : BackendLife (rocks_state D) := {
  rib_backend_setup := rocks_call (rsbr_setup 0 None);
  rib_backend_shutdown := rocks_call rsbr_destroy;
  rib_shutdown_clears := false;
  rib_backend_recover := Some (rocks_call (rsbr_bulk_recover None));
}.

#[export] Instance rocks_life_ok : BackendLifeOk rocks_life.
Proof.
  split. intros ri b rc ri' b' H. simpl in H. unfold rocks_call in H.
  destruct (rsbr_destroy _) as [[z w]|] eqn:E; [|done]. injection H as _ <- _.
  change (same (fun w : rworld D => ri_proc_state (rw_ri w)) (RWorld ri b) w).
  eapply keeps_run; [|exact E]. unfold rsbr_destroy. solve_keeps.
  intros w1 d w2 H. destruct (rsbr_ri_to_rirdb _ _); [|done]. by injection H as _ <-.
Qed.
End rocks_life.

(** ** A server that starts *)
Definition sim_turn (waits : list wait) (n : nat) : list wait * (nat -> bool) := (waits, fun _ => true).
Definition run_outcome (r : option (run_result * netst raft_instance_posix Z)) :=
  option_map (fun p => (p.1, ri_state (w_ri (ns_w p.2)), ri_proc_state (w_ri (ns_w p.2)),
                        length (filter (fun e => eph_installed e = true) (ns_eph p.2)))) r.
#[export] Instance sim_net_ok : NetExt := sim_net sim_answer.

(** It waits for events as a follower, with its six handles installed. *)
Example sim_server_runs :
  run_outcome (raft_server_instance_run 1 sim_args (sim_turn []) sim_process) =
    Some (StillRunning, RAFT_STATE_FOLLOWER, RAFT_PROC_STATE_RUNNING, 6%nat).
Proof. vm_compute. reflexivity. Qed.



