(* ===== verification/SuppMem.v ===== *)
(** The memory of write supplements ([raft_net_write_supp_new],
    [raft_net_write_supp_add], [raft_net_write_supp_destroy] and their callers in
    [src/raft_net.c]): which blocks an item owns, and what a failed allocation
    leaves behind.  [WriteSupp] models the contents; here an item is its pointers,
    and freeing a block that is not allocated has no outcome. *)
From stdpp Require Import base tactics list gmap sets.
From Stdlib Require Import ZArith Lia.
From S2P Require Import Prelude RaftTypes.
Local Open Scope Z_scope.
Local Open Scope raft_scope.

(** ** The heap; NULL is 0. *)
Record supp_ptrs := {
  sp_op : raft_net_wr_supp_op;
  sp_handle : Z;
  sp_comp_cb : bool;
  sp_key : Z;
  sp_value : Z;
}.
Record supp_mem := {
  sm_live : gset Z; (* the allocated blocks *)
  sm_next : Z;      (* the address of the next block *)
  sm_ws : list supp_ptrs;
  sm_called : list Z; (* the handles the completion callbacks were given *)
}.
#[export] Instance eta_supp_ptrs : Eta supp_ptrs := fun s =>
  {| sp_op := sp_op s; sp_handle := sp_handle s; sp_comp_cb := sp_comp_cb s;
     sp_key := sp_key s; sp_value := sp_value s |}.
#[export] Instance eta_supp_mem : Eta supp_mem := fun m =>
  {| sm_live := sm_live m; sm_next := sm_next m; sm_ws := sm_ws m; sm_called := sm_called m |}.

(** niova_malloc(), which succeeds or not, and niova_free(). *)
Definition mem_alloc (ok : bool) : M supp_mem Z := fun m =>
  if ok then Some (sm_next m, m <| sm_live ::= fun l => {[sm_next m]} ∪ l |> <| sm_next ::= Z.succ |>)
  else Some (0, m).
Definition mem_free (p : Z) : M supp_mem unit := fun m =>
  if p =? 0 then Some (tt, m)
  else if decide (p ∈ sm_live m) then Some (tt, m <| sm_live ::= fun l => l ∖ {[p]} |>)
  else None.

(** ** The operations *)
(** The position of the new item, if the array could be extended. *)
Definition raft_net_write_supp_new (realloc_ok : bool) (handle : Z) : M supp_mem (option Z) :=
  let! n := gets (fun m => Z.of_nat (length (sm_ws m))) in
  assert_ (n <? RAFT_NET_WR_SUPP_MAX) ;;;
  if negb realloc_ok then ret None
  else
    modify (fun m => m <| sm_ws ::= fun l =>
      l ++ [{| sp_op := RAFT_NET_WR_SUPP_OP_WRITE; sp_handle := handle; sp_comp_cb := false;
               sp_key := 0; sp_value := 0 |}] |>) ;;;
    ret (Some n).

Definition ws_upd (i : Z) (f : supp_ptrs -> supp_ptrs) : M supp_mem unit :=
  let! l := gets sm_ws in
  let! e := lift_option (znth l i) in
  modify (fun m => m <| sm_ws := zupd l i (f e) |>).

(** The pointer of the key keeps its value when it is freed. *)
Definition raft_net_write_supp_add (key_ok value_ok : bool) (i : Z) (op : raft_net_wr_supp_op) :
  M supp_mem Z :=
  ws_upd i (fun e => e <| sp_op := op |>) ;;;
  let! key := mem_alloc key_ok in
  ws_upd i (fun e => e <| sp_key := key |>) ;;;
  if key =? 0 then ret (- ENOMEM)
  else
    let! value := mem_alloc value_ok in
    ws_upd i (fun e => e <| sp_value := value |>) ;;;
    if value =? 0 then mem_free key ;;; ret (- ENOMEM) else ret 0.

(** A non-empty key is given. *)
Definition raft_net_sm_write_supplement_add (realloc_ok key_ok value_ok : bool)
    (op : raft_net_wr_supp_op) (handle : Z) (comp_cb : bool) : M supp_mem Z :=
  let! n := gets (fun m => Z.of_nat (length (sm_ws m))) in
  if RAFT_NET_WR_SUPP_MAX <=? n then ret (- ENOSPC)
  else
    let! ws := raft_net_write_supp_new realloc_ok handle in
    match ws with
    | None => ret (- ENOMEM)
    | Some i =>
        when comp_cb (ws_upd i (fun e => e <| sp_comp_cb := true |>)) ;;;
        raft_net_write_supp_add key_ok value_ok i op
    end.

Definition raft_net_write_supp_destroy (e : supp_ptrs) : M supp_mem unit :=
  mem_free (sp_key e) ;;;
  mem_free (sp_value e) ;;;
  when (sp_comp_cb e) (modify (fun m => m <| sm_called ::= fun l => l ++ [sp_handle e] |>)).

(** [ws_destroy]: the items are released too, not only their array. *)
Definition raft_net_sm_write_supplement_destroy_internal (ws_destroy : bool) : M supp_mem unit :=
  let! l := gets sm_ws in
  when ws_destroy (for_each l raft_net_write_supp_destroy) ;;;
  modify (fun m => m <| sm_ws := [] |>).

(** ** Ownership *)
Definition item_blocks (e : supp_ptrs) : list Z :=
  filter (fun p => p <> 0) [sp_key e; sp_value e].
Definition blocks (l : list supp_ptrs) : list Z := concat (map item_blocks l).

(** The items own distinct allocated blocks, and new blocks are new. *)
Record mem_ok (m : supp_mem) : Prop := {
  mem_nodup : NoDup (blocks (sm_ws m));
  mem_live : forall p, p ∈ blocks (sm_ws m) -> p ∈ sm_live m;
  mem_next : 0 < sm_next m /\ forall p, p ∈ sm_live m -> 0 < p < sm_next m;
}.

Lemma blocks_app l l' : blocks (l ++ l') = blocks l ++ blocks l'.
Proof. unfold blocks. by rewrite map_app, concat_app. Qed.

Lemma zupd_app_last {X} (l : list X) x y : zupd (l ++ [x]) (Z.of_nat (length l)) y = l ++ [y].
Proof.
  unfold zupd. rewrite decide_True by lia. rewrite Nat2Z.id, insert_app_r_alt by lia.
  by rewrite Nat.sub_diag.
Qed.

(** Writing the last item. *)
Lemma ws_upd_last m l e f :
  sm_ws m = l ++ [e] ->
  ws_upd (Z.of_nat (length l)) f m = Some (tt, m <| sm_ws := l ++ [f e] |>).
Proof.
  intros H. unfold ws_upd. erewrite bind_eq by reflexivity. rewrite H, znth_app_last.
  erewrite bind_eq by reflexivity. unfold modify. by rewrite zupd_app_last.
Qed.

(** The item an addition leaves, and the heap. *)
Definition added (op : raft_net_wr_supp_op) (handle : Z) (cb : bool) (k v : Z) : supp_ptrs :=
  {| sp_op := op; sp_handle := handle; sp_comp_cb := cb; sp_key := k; sp_value := v |}.

Lemma supp_add_eq key_ok value_ok op handle cb m :
  0 < sm_next m -> Z.of_nat (length (sm_ws m)) < RAFT_NET_WR_SUPP_MAX ->
  let k := sm_next m in let v := sm_next m + 1 in
  raft_net_sm_write_supplement_add true key_ok value_ok op handle cb m =
    match key_ok, value_ok with
    | false, _ => Some (- ENOMEM, m <| sm_ws := sm_ws m ++ [added op handle cb 0 0] |>)
    | true, false =>
        Some (- ENOMEM, {| sm_live := ({[k]} ∪ sm_live m) ∖ {[k]}; sm_next := k + 1;
                           sm_ws := sm_ws m ++ [added op handle cb k 0]; sm_called := sm_called m |})
    | true, true =>
        Some (0, {| sm_live := {[v]} ∪ ({[k]} ∪ sm_live m); sm_next := v + 1;
                    sm_ws := sm_ws m ++ [added op handle cb k v]; sm_called := sm_called m |})
    end.
Proof.
  intros Hnext Hlen. destruct m as [live next ws called]. simpl in *.
  unfold raft_net_sm_write_supplement_add. erewrite bind_eq by reflexivity. simpl.
  destruct (Z.leb_spec RAFT_NET_WR_SUPP_MAX (Z.of_nat (length ws))); [lia|].
  unfold raft_net_write_supp_new.
  erewrite bind_eq; [|erewrite bind_eq by reflexivity; simpl;
    destruct (Z.ltb_spec (Z.of_nat (length ws)) RAFT_NET_WR_SUPP_MAX); [|lia];
    erewrite bind_eq by reflexivity; cbn [negb]; erewrite bind_eq by reflexivity; reflexivity].
  cbv beta iota.
  assert (Hcb : forall m e, sm_ws m = ws ++ [e] ->
    when cb (ws_upd (Z.of_nat (length ws)) (fun e => e <| sp_comp_cb := true |>)) m =
    Some (tt, m <| sm_ws := ws ++ [e <| sp_comp_cb := cb || sp_comp_cb e |>] |>)).
  { intros m e He. destruct cb; cbn [when orb]; [by rewrite (ws_upd_last m ws e _ He)|].
    destruct m, e. simpl in *. by subst. }
  erewrite bind_eq by (apply Hcb; reflexivity).
  unfold raft_net_write_supp_add. erewrite bind_eq by (apply (ws_upd_last _ ws); reflexivity). simpl.
  rewrite orb_false_r.
  destruct key_ok; [|by erewrite bind_eq by reflexivity; simpl; erewrite bind_eq
                      by (apply (ws_upd_last _ ws); reflexivity)].
  erewrite bind_eq by reflexivity. erewrite bind_eq by (apply (ws_upd_last _ ws); reflexivity). simpl.
  destruct (Z.eqb_spec next 0); [lia|].
  destruct value_ok.
  - erewrite bind_eq by reflexivity. erewrite bind_eq by (apply (ws_upd_last _ ws); reflexivity). simpl.
    destruct (Z.eqb_spec (Z.succ next) 0); [lia|]. unfold ret, added. repeat f_equal; lia.
  - erewrite bind_eq by reflexivity. erewrite bind_eq by (apply (ws_upd_last _ ws); reflexivity). simpl.
    unfold mem_free, bind. simpl. destruct (Z.eqb_spec next 0); [lia|].
    rewrite decide_True by set_solver. unfold ret, added. repeat f_equal; lia.
Qed.

Lemma mem_ok_snoc m live next e called :
  mem_ok m -> sm_live m ⊆ live -> sm_next m <= next ->
  (forall p, p ∈ live -> p ∈ sm_live m \/ sm_next m <= p < next) ->
  NoDup (item_blocks e) -> (forall p, p ∈ item_blocks e -> p ∈ live /\ sm_next m <= p) ->
  mem_ok {| sm_live := live; sm_next := next; sm_ws := sm_ws m ++ [e]; sm_called := called |}.
Proof.
  intros [Hnd Hlive [Hn0 Hn]] Hsub Hnext Hnew Hnde He. split; simpl.
  - rewrite blocks_app. unfold blocks at 2. simpl. rewrite app_nil_r. apply NoDup_app.
    split_and!; [done | | done]. intros p Hp [_ Hge]%He. apply Hlive, Hn in Hp. lia.
  - intros p. rewrite blocks_app, elem_of_app. unfold blocks at 2. simpl. rewrite app_nil_r.
    intros [Hp|Hp]; [apply Hsub; auto | by apply He].
  - split; [lia|]. intros p [Hp|?]%Hnew; [apply Hn in Hp|]; lia.
Qed.

(** An addition keeps the ownership whatever allocation fails, but for the value's. *)
Lemma supp_add_ok realloc_ok key_ok value_ok op handle cb m rc m' :
  mem_ok m -> key_ok = false \/ value_ok = true ->
  raft_net_sm_write_supplement_add realloc_ok key_ok value_ok op handle cb m = Some (rc, m') ->
  mem_ok m'.
Proof.
  intros Hm Hok H. pose proof (mem_next _ Hm) as [Hn0 Hn].
  destruct (Z.lt_ge_cases (Z.of_nat (length (sm_ws m))) RAFT_NET_WR_SUPP_MAX) as [Hlen|Hlen].
  2: { unfold raft_net_sm_write_supplement_add in H. erewrite bind_eq in H by reflexivity.
       destruct (Z.leb_spec RAFT_NET_WR_SUPP_MAX (Z.of_nat (length (sm_ws m)))); [|lia].
       by injection H as _ <-. }
  destruct realloc_ok.
  2: { unfold raft_net_sm_write_supplement_add, raft_net_write_supp_new in H.
       erewrite bind_eq in H by reflexivity. case_match; [by injection H as _ <-|].
       cbn [negb] in H. run_step H. cbv iota in H. by run_inv H. }
  rewrite supp_add_eq in H by done. destruct key_ok.
  - destruct Hok as [?| ->]; [done|]. injection H as _ <-. apply mem_ok_snoc; try done; try lia.
    + set_solver.
    + intros p. rewrite !elem_of_union, !elem_of_singleton. intros [->|[->|?]]; [right; lia | right; lia | by left].
    + unfold item_blocks. simpl. rewrite filter_cons, decide_True, filter_cons, decide_True by lia.
      apply NoDup_cons. split; [rewrite list_elem_of_singleton; lia | apply NoDup_singleton].
    + unfold item_blocks. simpl. intros p [_ Hp]%list_elem_of_filter.
      apply elem_of_cons in Hp as [->|Hp%list_elem_of_singleton]; [|subst]; split; set_solver || lia.
  - injection H as _ <-. destruct m as [live next ws called]. apply (mem_ok_snoc
      {| sm_live := live; sm_next := next; sm_ws := ws; sm_called := called |}); try done; auto.
    + constructor.
    + intros p []%not_elem_of_nil.
Qed.

Lemma mem_free_ok m p :
  0 ∉ sm_live m -> p = 0 \/ p ∈ sm_live m ->
  mem_free p m = Some (tt, m <| sm_live ::= fun l => l ∖ {[p]} |>).
Proof.
  intros H0 Hp. unfold mem_free. destruct (Z.eqb_spec p 0) as [->|Hne].
  - destruct m as [live next ws called]. simpl in *.
    assert (live ∖ {[0]} = live) as -> by set_solver. done.
  - rewrite decide_True; [done | naive_solver].
Qed.

(** Destroying one item: its blocks are freed and its callback is called. *)
Definition after_destroy (l : list supp_ptrs) (m : supp_mem) : supp_mem :=
  m <| sm_live ::= fun s => s ∖ list_to_set (blocks l) |>
    <| sm_called ::= fun c => c ++ map sp_handle (filter (fun e => sp_comp_cb e = true) l) |>.

Lemma item_blocks_set e (s : gset Z) :
  0 ∉ s -> s ∖ {[sp_key e]} ∖ {[sp_value e]} = s ∖ list_to_set (item_blocks e).
Proof.
  intros H0. apply set_eq. intros x. unfold item_blocks.
  rewrite !elem_of_difference, elem_of_list_to_set, list_elem_of_filter, !elem_of_singleton.
  rewrite elem_of_cons, list_elem_of_singleton.
  destruct (decide (x = 0)) as [->|?]; [|tauto]. split; [by intros [[? ?] ?] | by intros [? ?]].
Qed.

Lemma supp_destroy_eq e m :
  0 ∉ sm_live m -> NoDup (item_blocks e) -> (forall p, p ∈ item_blocks e -> p ∈ sm_live m) ->
  raft_net_write_supp_destroy e m = Some (tt, after_destroy [e] m).
Proof.
  intros H0 Hnd Hlive. unfold raft_net_write_supp_destroy.
  assert (Hk : sp_key e = 0 \/ sp_key e ∈ sm_live m).
  { destruct (decide (sp_key e = 0)); [by left|]. right. apply Hlive. apply list_elem_of_filter.
    split; [done | apply list_elem_of_here]. }
  assert (Hv : sp_value e = 0 \/ sp_value e ∈ sm_live m ∖ {[sp_key e]}).
  { destruct (decide (sp_value e = 0)) as [|Hv0]; [by left|]. right. apply elem_of_difference. split.
    - apply Hlive, list_elem_of_filter. split; [done|]. apply list_elem_of_further, list_elem_of_here.
    - intros Heq%elem_of_singleton. unfold item_blocks in Hnd.
      rewrite filter_cons, decide_True, filter_cons, decide_True in Hnd by congruence.
      apply NoDup_cons in Hnd as [Hnd _]. apply Hnd. rewrite Heq. apply list_elem_of_here. }
  rewrite (bind_eq _ _ _ _ _ (mem_free_ok m _ H0 Hk)).
  erewrite bind_eq by (apply mem_free_ok; simpl; [set_solver | exact Hv]).
  unfold after_destroy, blocks. simpl. rewrite app_nil_r, <- item_blocks_set by done.
  destruct m as [live next ws called]. destruct (sp_comp_cb e) eqn:E.
  - rewrite filter_cons, decide_True by done. done.
  - rewrite filter_cons, decide_False by congruence. simpl. by rewrite app_nil_r.
Qed.

Lemma for_each_destroy l m :
  0 ∉ sm_live m -> NoDup (blocks l) -> (forall p, p ∈ blocks l -> p ∈ sm_live m) ->
  for_each l raft_net_write_supp_destroy m = Some (tt, after_destroy l m).
Proof.
  revert m. induction l as [|e l IH]; intros m H0 Hnd Hlive.
  { destruct m as [live next ws called]. unfold after_destroy, blocks. simpl.
    rewrite app_nil_r. assert (live ∖ ∅ = live) as -> by set_solver. done. }
  unfold blocks in Hnd, Hlive. simpl in Hnd, Hlive. apply NoDup_app in Hnd as (Hnd1 & Hdis & Hnd2).
  simpl. erewrite bind_eq by (apply supp_destroy_eq; [done | done |];
    intros p Hp; apply Hlive, elem_of_app; by left).
  rewrite IH.
  - f_equal. f_equal. destruct m as [live next ws called]. unfold after_destroy, blocks. simpl.
    rewrite app_nil_r, list_to_set_app_L. f_equal; [set_solver|].
    rewrite !filter_cons, filter_nil. case_decide; simpl; rewrite <- ?app_assoc, ?app_nil_r; done.
  - unfold after_destroy. simpl. set_solver.
  - done.
  - intros p Hp. unfold after_destroy, blocks. simpl. rewrite app_nil_r.
    apply elem_of_difference. split; [apply Hlive, elem_of_app; by right|].
    rewrite elem_of_list_to_set. intros Hp'. by apply (Hdis p).
Qed.

(** Destroying the supplements releases exactly the blocks the items own and calls
    each completion callback once, in order. *)
Theorem supp_destroy_all m :
  mem_ok m ->
  raft_net_sm_write_supplement_destroy_internal true m =
    Some (tt, after_destroy (sm_ws m) m <| sm_ws := [] |>).
Proof.
  intros [Hnd Hlive [_ Hn]]. unfold raft_net_sm_write_supplement_destroy_internal.
  erewrite bind_eq by reflexivity. cbn [when].
  erewrite bind_eq by (apply for_each_destroy; [intros ?%Hn; lia | done..]). done.
Qed.

(** Freeing only removes blocks. *)
Definition shrinks (m m' : supp_mem) : Prop := sm_live m' ⊆ sm_live m.
#[export] Instance shrinks_preorder : PreOrder shrinks.
Proof. split; red; unfold shrinks; set_solver. Qed.
Lemma keeps_shrinks_free p : keeps shrinks (mem_free p).
Proof.
  intros m u m' H. unfold mem_free in H. unfold shrinks.
  repeat case_match; simplify_eq; simpl; set_solver.
Qed.
Lemma keeps_shrinks_destroy e : keeps shrinks (raft_net_write_supp_destroy e).
Proof.
  unfold raft_net_write_supp_destroy.
  apply keeps_bind; [typeclasses eauto | apply keeps_shrinks_free | intros _].
  apply keeps_bind; [typeclasses eauto | apply keeps_shrinks_free | intros _].
  apply keeps_when; [typeclasses eauto|]. apply keeps_modify. intros m. unfold shrinks. done.
Qed.

(** A value that cannot be allocated leaves an item that points to its freed key,
    and the application cannot release its supplements any more: destroying them
    frees that key a second time. *)
Theorem supp_value_alloc_double_free op handle cb m rc m' :
  mem_ok m -> Z.of_nat (length (sm_ws m)) < RAFT_NET_WR_SUPP_MAX ->
  raft_net_sm_write_supplement_add true true false op handle cb m = Some (rc, m') ->
  rc = - ENOMEM /\ raft_net_sm_write_supplement_destroy_internal true m' = None.
Proof.
  intros Hm Hlen H. pose proof Hm as [Hnd Hlive [Hn0 Hn]].
  rewrite supp_add_eq in H by done. injection H as <- <-. split; [done|].
  unfold raft_net_sm_write_supplement_destroy_internal. erewrite bind_eq by reflexivity.
  cbn [when sm_ws].
  set (m1 := {| sm_live := _; sm_next := _; sm_ws := _; sm_called := _ |}).
  assert (Hlive1 : sm_live m1 = sm_live m).
  { simpl. apply set_eq. intros x. rewrite elem_of_difference, elem_of_union, !elem_of_singleton.
    split; [tauto|]. intros Hx. split; [by right|]. intros ->. apply Hn in Hx. lia. }
  assert (Hk : forall l s, sm_next m ∉ sm_live s ->
    for_each (l ++ [added op handle cb (sm_next m) 0]) raft_net_write_supp_destroy s = None).
  { induction l as [|e l IH]; intros s Hs; simpl.
    - unfold raft_net_write_supp_destroy, bind at 1 2, mem_free at 1. simpl.
      destruct (Z.eqb_spec (sm_next m) 0); [lia|]. by rewrite decide_False.
    - destruct (raft_net_write_supp_destroy e s) as [[[] s']|] eqn:E; [|unfold bind; by rewrite E].
      rewrite (bind_eq _ _ _ _ _ E). apply IH. intros Hx. apply Hs.
      by apply (keeps_run shrinks _ _ _ _ (keeps_shrinks_destroy e) E). }
  unfold bind. rewrite Hk; [done|]. rewrite Hlive1. intros ?%Hn. lia.
Qed.
