(* ===== verification/Registry.v ===== *)
(** What the registry reads and writes of a server: the facets of the instance, of
    its followers and of its histograms ([src/raft_server.c]), and the facets of the
    communication layer and of a bulk recovery ([src/raft_net.c]).  A read gives the
    value the facet is filled with; a write changes the instance. *)
From Stdlib Require Import Strings.String.
From stdpp Require Import base tactics list gmap.
From Stdlib Require Import ZArith Lia Strings.Byte.
From S2P Require Import Prelude RaftTypes World Quorum Net WriteSupp Entry Log Election Append Leader ClientReq Apply Server Steps RocksKeys.
Local Open Scope Z_scope.
Local Open Scope raft_scope.

(** ** The registry of niova-core *)
Inductive lreg_node_cb_ops :=
| LREG_NODE_CB_OP_GET_NAME | LREG_NODE_CB_OP_GET_NODE_INFO
| LREG_NODE_CB_OP_READ_VAL | LREG_NODE_CB_OP_WRITE_VAL
| LREG_NODE_CB_OP_INSTALL_NODE | LREG_NODE_CB_OP_DESTROY_NODE
| LREG_NODE_CB_OP_INSTALL_QUEUED_NODE.
#[export] Instance lreg_op_eq : EqDecision lreg_node_cb_ops.
Proof. solve_decision. Defined.

(** A value a facet is filled with, under its key. *)
Inductive lreg_out :=
| LV_signed (key : bytes) (v : Z) | LV_unsigned (key : bytes) (v : Z)
| LV_string (key v : bytes) | LV_uuid (key : bytes) (u : uuid)
| LV_bool (key : bytes) (b : bool) | LV_time (key : bytes) (sec : Z)
| LV_float (key : bytes) (t : timespec)
| LV_hist (key : bytes) (type : Z) | LV_varray (key : bytes) (n : Z)
| LV_name (key v : bytes) (num_keys : Z).

(** The index of the facet and, for a write, the string written. *)
Record lreg_in := { lrv_value_idx_in : Z; lrv_string_in : option bytes }.

(** The parsers of niova-core: the return code and the value. *)
Class LregUtil := {
  niova_string_to_unsigned_int : bytes -> Z * Z;
  niova_string_to_ull : bytes -> Z * Z;
  niova_string_to_long_long : bytes -> Z * Z;
  niova_string_to_bool : bytes -> Z * bool;
}.

(** strncmp(s, "default", 7) == 0 *)
Definition is_default (s : bytes) : bool := prefix_of (str "default") s.
Definition tv_sec (t : timespec) : Z := t / 10 ^ 9.

(** ** Names *)
Definition raft_server_state_to_string (s : raft_state) : bytes :=
  match s with
  | RAFT_STATE_LEADER => str "leader"
  | RAFT_STATE_FOLLOWER => str "follower"
  | RAFT_STATE_CANDIDATE_PREVOTE => str "candidate-prevote"
  | RAFT_STATE_CANDIDATE => str "candidate"
  | RAFT_STATE_CLIENT => str "client"
  | RAFT_STATE__NONE => str "unknown"
  end.
Definition raft_server_process_state_to_string (s : raft_process_state) : bytes :=
  match s with
  | RAFT_PROC_STATE_BOOTING => str "booting"
  | RAFT_PROC_STATE_RUNNING => str "running"
  | RAFT_PROC_STATE_RECOVERING => str "recovering"
  | RAFT_PROC_STATE_SHUTDOWN => str "shutdown"
  end.
Definition raft_follower_reason_2_str (r : raft_follower_reasons) : bytes :=
  match r with
  | RAFT_BFRSN_NONE => str "none"
  | RAFT_BFRSN_VOTED_FOR_PEER => str "voted-for-peer"
  | RAFT_BFRSN_STALE_TERM_WHILE_CANDIDATE => str "candidacy-stale-term"
  | RAFT_BFRSN_STALE_TERM_WHILE_LEADER => str "stale-leader"
  | RAFT_BFRSN_LEADER_ALREADY_PRESENT => str "leader-already-present"
  end.
Definition raft_net_client_rpc_sys_error_2_string (rc : Z) : bytes :=
  if rc =? 0 then str "accept"
  else if rc =? - ENOENT then str "deny-leader-not-established"
  else if rc =? - EINPROGRESS then str "deny-operation-in-progress"
  else if rc =? - ENOSYS then str "redirect-to-leader"
  else if rc =? - EAGAIN then str "deny-may-be-deposed"
  else if rc =? - EBUSY then str "deny-determining-commit-index"
  else str "unknown".

(** [enum raft_instance_hist_types] *)
Definition RAFT_INSTANCE_HIST_COMMIT_LAT_MSEC : Z := 0.
Definition RAFT_INSTANCE_HIST_READ_LAT_MSEC : Z := 1.
Definition RAFT_INSTANCE_HIST_DEV_READ_LAT_USEC : Z := 2.
Definition RAFT_INSTANCE_HIST_DEV_WRITE_LAT_USEC : Z := 3.
Definition RAFT_INSTANCE_HIST_DEV_SYNC_LAT_USEC : Z := 4.
Definition RAFT_INSTANCE_HIST_NENTRIES_SYNC : Z := 5.
Definition RAFT_INSTANCE_HIST_COALESCED_WR_CNT : Z := 6.
Definition RAFT_INSTANCE_HIST_CHKPT_LAT_USEC : Z := 7.
Definition raft_instance_hist_stat_2_name (hist : Z) : bytes :=
  default (str "unknown")
    (znth [str "commit-latency-msec"; str "read-latency-msec"; str "dev-read-latency-usec";
           str "dev-write-latency-usec"; str "dev-sync-latency-usec"; str "nentries-per-sync";
           str "coalesced-wr-cnt"; str "checkpoint-latency-usec"] hist).

(** ** The facets of an instance, in the order of their indices *)
Inductive raft_instance_lreg_entry_values :=
| RAFT_LREG_RAFT_UUID | RAFT_LREG_PEER_UUID | RAFT_LREG_VOTED_FOR_UUID
| RAFT_LREG_LEADER_UUID | RAFT_LREG_DB_UUID | RAFT_LREG_PEER_STATE
| RAFT_LREG_PROCESS_STATE | RAFT_LREG_FOLLOWER_REASON | RAFT_LREG_CLIENT_REQUESTS
| RAFT_LREG_TERM | RAFT_LREG_COMMIT_IDX | RAFT_LREG_LAST_APPLIED
| RAFT_LREG_LAST_APPLIED_CCRC | RAFT_LREG_SYNC_FREQ_US | RAFT_LREG_SYNC_CNT
| RAFT_LREG_QUORUM_CNT | RAFT_LREG_TIME_AS_LEADER | RAFT_LREG_HEARTBEAT_MSEC
| RAFT_LREG_NEWEST_ENTRY_IDX | RAFT_LREG_NEWEST_ENTRY_TERM | RAFT_LREG_NEWEST_ENTRY_SIZE
| RAFT_LREG_NEWEST_ENTRY_CRC | RAFT_LREG_NEWEST_UNSYNC_ENTRY_IDX
| RAFT_LREG_NEWEST_UNSYNC_ENTRY_TERM | RAFT_LREG_NEWEST_UNSYNC_ENTRY_SIZE
| RAFT_LREG_NEWEST_UNSYNC_ENTRY_CRC | RAFT_LREG_LOWEST_IDX | RAFT_LREG_CHKPT_IDX
| RAFT_LREG_COALESCE_ITEMS | RAFT_LREG_COALESCE_SPACE_AVAIL
| RAFT_LREG_HIST_COALESCED_WR_CNT | RAFT_LREG_HIST_DEV_READ_LAT
| RAFT_LREG_HIST_DEV_WRITE_LAT | RAFT_LREG_HIST_DEV_SYNC_LAT | RAFT_LREG_HIST_NENTRIES_SYNC
| RAFT_LREG_HIST_CHKPT_LAT | RAFT_LREG_FOLLOWER_VSTATS | RAFT_LREG_HIST_COMMIT_LAT
| RAFT_LREG_HIST_READ_LAT.
Definition raft_lreg_entries : list raft_instance_lreg_entry_values :=
  [RAFT_LREG_RAFT_UUID; RAFT_LREG_PEER_UUID; RAFT_LREG_VOTED_FOR_UUID; RAFT_LREG_LEADER_UUID;
   RAFT_LREG_DB_UUID; RAFT_LREG_PEER_STATE; RAFT_LREG_PROCESS_STATE; RAFT_LREG_FOLLOWER_REASON;
   RAFT_LREG_CLIENT_REQUESTS; RAFT_LREG_TERM; RAFT_LREG_COMMIT_IDX; RAFT_LREG_LAST_APPLIED;
   RAFT_LREG_LAST_APPLIED_CCRC; RAFT_LREG_SYNC_FREQ_US; RAFT_LREG_SYNC_CNT;
   RAFT_LREG_QUORUM_CNT; RAFT_LREG_TIME_AS_LEADER; RAFT_LREG_HEARTBEAT_MSEC;
   RAFT_LREG_NEWEST_ENTRY_IDX; RAFT_LREG_NEWEST_ENTRY_TERM; RAFT_LREG_NEWEST_ENTRY_SIZE;
   RAFT_LREG_NEWEST_ENTRY_CRC; RAFT_LREG_NEWEST_UNSYNC_ENTRY_IDX;
   RAFT_LREG_NEWEST_UNSYNC_ENTRY_TERM; RAFT_LREG_NEWEST_UNSYNC_ENTRY_SIZE;
   RAFT_LREG_NEWEST_UNSYNC_ENTRY_CRC; RAFT_LREG_LOWEST_IDX; RAFT_LREG_CHKPT_IDX;
   RAFT_LREG_COALESCE_ITEMS; RAFT_LREG_COALESCE_SPACE_AVAIL; RAFT_LREG_HIST_COALESCED_WR_CNT;
   RAFT_LREG_HIST_DEV_READ_LAT; RAFT_LREG_HIST_DEV_WRITE_LAT; RAFT_LREG_HIST_DEV_SYNC_LAT;
   RAFT_LREG_HIST_NENTRIES_SYNC; RAFT_LREG_HIST_CHKPT_LAT; RAFT_LREG_FOLLOWER_VSTATS;
   RAFT_LREG_HIST_COMMIT_LAT; RAFT_LREG_HIST_READ_LAT].
Definition RAFT_LREG_MAX : Z := Z.of_nat (length raft_lreg_entries).
Definition RAFT_LREG_MAX_FOLLOWER : Z := 36. (* RAFT_LREG_FOLLOWER_VSTATS *)

(** [enum raft_peer_stats_items] *)
Inductive raft_peer_stats_items :=
| RAFT_PEER_STATS_ITEM_UUID | RAFT_PEER_STATS_LAST_ACK | RAFT_PEER_STATS_MS_SINCE_LAST_ACK
| RAFT_PEER_STATS_SYNCED_LOG_IDX | RAFT_PEER_STATS_ACKD_LOG_IDX
| RAFT_PEER_STATS_PREV_LOG_IDX | RAFT_PEER_STATS_PREV_LOG_TERM.
Definition raft_peer_stats : list raft_peer_stats_items :=
  [RAFT_PEER_STATS_ITEM_UUID; RAFT_PEER_STATS_LAST_ACK; RAFT_PEER_STATS_MS_SINCE_LAST_ACK;
   RAFT_PEER_STATS_SYNCED_LOG_IDX; RAFT_PEER_STATS_ACKD_LOG_IDX;
   RAFT_PEER_STATS_PREV_LOG_IDX; RAFT_PEER_STATS_PREV_LOG_TERM].
Definition RAFT_PEER_STATS_MAX : Z := Z.of_nat (length raft_peer_stats).

Definition RAFT_SERVER_SYNC_MIN_FREQ_US : Z := 100.
Definition RAFT_SERVER_SYNC_MAX_FREQ_US : Z := 100000000.
Definition RAFT_SERVER_SYNC_FREQ_US : Z := 4000.

Section registry.
Context `{NC : NiovaCore} `{LU : LregUtil} {B A : Type} {BE : Backend B} {SM : StateMachine A}.
Local Abbreviation M := (M (world B A)).

Definition raft_heartbeat_timeout_msec : M Z :=
  let! ri := ri_get id in
  assert_ (negb (ri_heartbeat_freq_per_election_min ri =? 0)) ;;;
  let msec := ri_election_timeout_max_ms ri / ri_heartbeat_freq_per_election_min ri in
  assert_ (RAFT_HEARTBEAT__MIN_TIME_MS <=? msec) ;;;
  ret msec.

Definition raft_server_may_accept_client_request_reason : M bytes :=
  let! rc := raft_server_may_accept_client_request in
  ret (raft_net_client_rpc_sys_error_2_string rc).

Definition raft_server_set_sync_freq (lv : lreg_in) : M unit :=
  match lrv_string_in lv with
  | None => ret tt
  | Some s =>
      let '(rc, freq) := if is_default s then (0, RAFT_SERVER_SYNC_FREQ_US)
                         else niova_string_to_unsigned_int s in
      if negb (rc =? 0) then ret tt
      else
        let freq := if freq <? RAFT_SERVER_SYNC_MIN_FREQ_US then RAFT_SERVER_SYNC_MIN_FREQ_US
                    else if RAFT_SERVER_SYNC_MAX_FREQ_US <? freq then RAFT_SERVER_SYNC_MAX_FREQ_US
                    else freq in
        ri_upd (fun ri => ri <| ri_sync_freq_us := freq |>)
  end.

Definition lv_hist (type : Z) : lreg_out := LV_hist (raft_instance_hist_stat_2_name type) type.

(** The read of a facet. *)
Definition raft_instance_lreg_read (e : raft_instance_lreg_entry_values) : M lreg_out :=
  let! ri := ri_get id in
  match e with
  | RAFT_LREG_LOWEST_IDX => ret (LV_signed (str "lowest-idx") (ri_lowest_idx ri))
  | RAFT_LREG_CHKPT_IDX => ret (LV_signed (str "checkpoint-idx") (ri_checkpoint_last_idx ri))
  | RAFT_LREG_RAFT_UUID => ret (LV_string (str "raft-uuid") (ri_raft_uuid_str ri))
  | RAFT_LREG_PEER_UUID => ret (LV_string (str "peer-uuid") (ri_this_peer_uuid_str ri))
  | RAFT_LREG_VOTED_FOR_UUID => ret (LV_uuid (str "voted-for-uuid") (rlh_voted_for (ri_log_hdr ri)))
  | RAFT_LREG_LEADER_UUID =>
      ret (match ri_csn_leader ri with
           | Some u => LV_uuid (str "leader-uuid") u
           | None => LV_string (str "leader-uuid") []
           end)
  | RAFT_LREG_DB_UUID => ret (LV_uuid (str "db-uuid") (ri_db_uuid ri))
  | RAFT_LREG_PEER_STATE => ret (LV_string (str "state") (raft_server_state_to_string (ri_state ri)))
  | RAFT_LREG_PROCESS_STATE =>
      ret (LV_string (str "process-state") (raft_server_process_state_to_string (ri_proc_state ri)))
  | RAFT_LREG_FOLLOWER_REASON =>
      ret (LV_string (str "follower-reason")
             (if raft_instance_is_candidate ri || raft_instance_is_leader ri then str "none"
              else raft_follower_reason_2_str (ri_follower_reason ri)))
  | RAFT_LREG_TIME_AS_LEADER =>
      ret (LV_float (str "leader-time")
             (if raft_instance_is_leader ri then rls_leader_accumulated (ri_leader ri) else 0))
  | RAFT_LREG_QUORUM_CNT =>
      ret (LV_signed (str "quorum-cnt")
             (if raft_instance_is_leader ri then rls_quorum_ok_cnt (ri_leader ri) else -1))
  | RAFT_LREG_HEARTBEAT_MSEC =>
      let! v := (if raft_instance_is_leader ri then raft_heartbeat_timeout_msec else ret (-1)) in
      ret (LV_signed (str "heartbeat-freq-msec") v)
  | RAFT_LREG_CLIENT_REQUESTS =>
      let! s := raft_server_may_accept_client_request_reason in
      ret (LV_string (str "client-requests") s)
  | RAFT_LREG_TERM => ret (LV_signed (str "term") (rlh_term (ri_log_hdr ri)))
  | RAFT_LREG_COMMIT_IDX => ret (LV_signed (str "commit-idx") (ri_commit_idx ri))
  | RAFT_LREG_LAST_APPLIED => ret (LV_signed (str "last-applied") (rla_idx (ri_last_applied ri)))
  | RAFT_LREG_LAST_APPLIED_CCRC =>
      ret (LV_signed (str "last-applied-cumulative-crc") (rla_cumulative_crc (ri_last_applied ri)))
  | RAFT_LREG_NEWEST_ENTRY_IDX =>
      let! v := raft_server_get_current_raft_entry_index RI_NEHDR_SYNC in
      ret (LV_signed (str "sync-entry-idx") v)
  | RAFT_LREG_NEWEST_ENTRY_TERM =>
      let! v := raft_server_get_current_raft_entry_term RI_NEHDR_SYNC in
      ret (LV_signed (str "sync-entry-term") v)
  | RAFT_LREG_NEWEST_ENTRY_SIZE =>
      let! v := raft_server_get_current_raft_entry_data_size RI_NEHDR_SYNC in
      ret (LV_unsigned (str "sync-entry-data-size") v)
  | RAFT_LREG_NEWEST_ENTRY_CRC =>
      let! v := raft_server_get_current_raft_entry_crc RI_NEHDR_SYNC in
      ret (LV_unsigned (str "sync-entry-crc") v)
  | RAFT_LREG_NEWEST_UNSYNC_ENTRY_IDX =>
      let! v := raft_server_get_current_raft_entry_index RI_NEHDR_UNSYNC in
      ret (LV_signed (str "unsync-entry-idx") v)
  | RAFT_LREG_NEWEST_UNSYNC_ENTRY_TERM =>
      let! v := raft_server_get_current_raft_entry_term RI_NEHDR_UNSYNC in
      ret (LV_signed (str "unsync-entry-term") v)
  | RAFT_LREG_NEWEST_UNSYNC_ENTRY_SIZE =>
      let! v := raft_server_get_current_raft_entry_data_size RI_NEHDR_UNSYNC in
      ret (LV_unsigned (str "unsync-entry-data-size") v)
  | RAFT_LREG_NEWEST_UNSYNC_ENTRY_CRC =>
      let! v := raft_server_get_current_raft_entry_crc RI_NEHDR_UNSYNC in
      ret (LV_unsigned (str "unsync-entry-crc") v)
  | RAFT_LREG_SYNC_FREQ_US => ret (LV_unsigned (str "sync-freq-us") (ri_sync_freq_us ri))
  | RAFT_LREG_SYNC_CNT => ret (LV_unsigned (str "sync-cnt") (ri_sync_cnt ri))
  | RAFT_LREG_COALESCE_ITEMS =>
      ret (LV_signed (str "coalesce-items-pending")
             (match raft_instance_is_leader ri, ri_coalesced_wr ri with
              | true, Some co => rcwi_nentries co
              | _, _ => -1
              end))
  | RAFT_LREG_COALESCE_SPACE_AVAIL =>
      ret (LV_signed (str "coalesce-space-remaining")
             (match raft_instance_is_leader ri, ri_coalesced_wr ri with
              | true, Some co => s64 (RAFT_ENTRY_MAX_DATA_SIZE ri - rcwi_total_size co)
              | _, _ => -1
              end))
  | RAFT_LREG_HIST_COMMIT_LAT => ret (lv_hist RAFT_INSTANCE_HIST_COMMIT_LAT_MSEC)
  | RAFT_LREG_HIST_READ_LAT => ret (lv_hist RAFT_INSTANCE_HIST_READ_LAT_MSEC)
  | RAFT_LREG_HIST_DEV_READ_LAT => ret (lv_hist RAFT_INSTANCE_HIST_DEV_READ_LAT_USEC)
  | RAFT_LREG_HIST_DEV_WRITE_LAT => ret (lv_hist RAFT_INSTANCE_HIST_DEV_WRITE_LAT_USEC)
  | RAFT_LREG_HIST_DEV_SYNC_LAT => ret (lv_hist RAFT_INSTANCE_HIST_DEV_SYNC_LAT_USEC)
  | RAFT_LREG_HIST_NENTRIES_SYNC => ret (lv_hist RAFT_INSTANCE_HIST_NENTRIES_SYNC)
  | RAFT_LREG_HIST_COALESCED_WR_CNT => ret (lv_hist RAFT_INSTANCE_HIST_COALESCED_WR_CNT)
  | RAFT_LREG_HIST_CHKPT_LAT => ret (lv_hist RAFT_INSTANCE_HIST_CHKPT_LAT_USEC)
  | RAFT_LREG_FOLLOWER_VSTATS =>
      let! n := raft_num_members_validate_and_get in
      ret (LV_varray (str "follower-stats") (n - 1))
  end.

(** The write of a facet. *)
Definition raft_instance_lreg_write (e : raft_instance_lreg_entry_values) (lv : lreg_in) : M Z :=
  match e with
  | RAFT_LREG_SYNC_FREQ_US => raft_server_set_sync_freq lv ;;; ret 0
  | RAFT_LREG_CHKPT_IDX =>
      ri_upd (fun ri => ri <| ri_user_requested_checkpoint := true |>) ;;; ret 0
  | RAFT_LREG_LOWEST_IDX =>
      ri_upd (fun ri => ri <| ri_user_requested_reap := true |>) ;;; ret 0
  | _ => ret (- EPERM)
  end.

Definition raft_instance_lreg_multi_facet_cb (op : lreg_node_cb_ops) (lv : lreg_in) :
  M (Z * option lreg_out) :=
  match znth raft_lreg_entries (lrv_value_idx_in lv) with
  | None => ret (- ERANGE, None)
  | Some e =>
      match op with
      | LREG_NODE_CB_OP_READ_VAL => let! v := raft_instance_lreg_read e in ret (0, Some v)
      | LREG_NODE_CB_OP_WRITE_VAL => let! rc := raft_instance_lreg_write e lv in ret (rc, None)
      | _ => ret (- EOPNOTSUPP, None)
      end
  end.

(** ** Followers *)
Definition raft_instance_lreg_peer_stats_multi_facet_handler (op : lreg_node_cb_ops) (peer : Z)
    (lv : lreg_in) : M (option lreg_out) :=
  match znth raft_peer_stats (lrv_value_idx_in lv), op with
  | Some e, LREG_NODE_CB_OP_READ_VAL =>
      let! rfi := raft_server_get_follower_info peer in
      let! ok := raft_member_idx_is_valid peer in
      assert_ ok ;;;
      let! ri := ri_get id in
      let! u := lift_option (znth (ri_csn_raft_peers ri) peer) in
      let! now := env_get env_realtime in
      ret (Some match e with
        | RAFT_PEER_STATS_ITEM_UUID => LV_uuid (str "peer-uuid") u
        | RAFT_PEER_STATS_LAST_ACK => LV_time (str "last-ack") (tv_sec (rfi_last_ack rfi))
        | RAFT_PEER_STATS_MS_SINCE_LAST_ACK =>
            LV_signed (str "ms-since-last-ack")
              (if timespec_2_msec (rfi_last_ack rfi) =? 0 then -1
               else s64 (timespec_2_msec now - timespec_2_msec (rfi_last_ack rfi)))
        | RAFT_PEER_STATS_PREV_LOG_IDX => LV_unsigned (str "next-idx") (u64 (rfi_next_idx rfi))
        | RAFT_PEER_STATS_PREV_LOG_TERM => LV_signed (str "prev-idx-term") (rfi_prev_idx_term rfi)
        | RAFT_PEER_STATS_SYNCED_LOG_IDX => LV_signed (str "sync-idx") (rfi_synced_idx rfi)
        | RAFT_PEER_STATS_ACKD_LOG_IDX => LV_signed (str "ackd-idx") (rfi_ackd_idx rfi)
        end)
  | _, _ => ret None
  end.

(** [lvd_index]: the position in the array of followers, which leaves this peer
    out.  The third component is lrv_num_keys_out. *)
Definition raft_instance_lreg_peer_vstats_cb (op : lreg_node_cb_ops) (lvd_index : Z)
    (lv : option lreg_in) : M (Z * option lreg_out * option Z) :=
  let! ri := ri_get id in
  let keys := match lv with
              | Some _ => Some (if raft_instance_is_leader ri then RAFT_PEER_STATS_MAX else 0)
              | None => None
              end in
  match op with
  | LREG_NODE_CB_OP_GET_NAME =>
      ret (match lv with
           | None => (- EINVAL, None, keys)
           | Some _ => (0, Some (LV_name (str "follower-stats") (ri_raft_uuid_str ri)
                                   (default 0 keys)), keys)
           end)
  | LREG_NODE_CB_OP_READ_VAL | LREG_NODE_CB_OP_WRITE_VAL =>
      match lv with
      | None => ret (- EINVAL, None, keys)
      | Some lv =>
          let! self := raft_server_instance_self_idx in
          let peer := lvd_index + (if self <=? lvd_index then 1 else 0) in
          let! ok := raft_member_idx_is_valid peer in
          assert_ ok ;;;
          let! v := raft_instance_lreg_peer_stats_multi_facet_handler op peer lv in
          ret (0, v, keys)
      end
  | LREG_NODE_CB_OP_INSTALL_NODE | LREG_NODE_CB_OP_DESTROY_NODE
  | LREG_NODE_CB_OP_INSTALL_QUEUED_NODE => ret (0, None, keys)
  | LREG_NODE_CB_OP_GET_NODE_INFO => ret (- ENOENT, None, keys)
  end.

(** [registered]: ri_lreg_registered, before and after. *)
Definition raft_instance_lreg_cb (op : lreg_node_cb_ops) (lv : option lreg_in) (registered : bool) :
  M (Z * option lreg_out * bool) :=
  let! ri := ri_get id in
  match op with
  | LREG_NODE_CB_OP_GET_NAME =>
      ret (match lv with
           | None => (- EINVAL, None, registered)
           | Some _ =>
               (0, Some (LV_name (str "raft_instance") (ri_raft_uuid_str ri)
                  (if raft_instance_is_leader ri then RAFT_LREG_MAX else RAFT_LREG_MAX_FOLLOWER)),
                registered)
           end)
  | LREG_NODE_CB_OP_READ_VAL | LREG_NODE_CB_OP_WRITE_VAL =>
      match lv with
      | None => ret (- EINVAL, None, registered)
      | Some lv =>
          let! r := raft_instance_lreg_multi_facet_cb op lv in
          ret (r.1, r.2, registered)
      end
  | LREG_NODE_CB_OP_INSTALL_QUEUED_NODE => ret (0, None, registered)
  | LREG_NODE_CB_OP_INSTALL_NODE =>
      ret (if registered then (- EALREADY, None, true) else (0, None, true))
  | LREG_NODE_CB_OP_DESTROY_NODE =>
      ret (if registered then (0, None, false) else (- EALREADY, None, false))
  | LREG_NODE_CB_OP_GET_NODE_INFO => ret (- ENOENT, None, registered)
  end.

(** ** The communication layer *)
Inductive raft_net_lreg_values :=
| RAFT_NET_LREG_IGNORE_TIMER_EVENTS | RAFT_NET_LREG_ELECTION_TIMEOUT_MS
| RAFT_NET_LREG_HEARTBEAT_FREQ | RAFT_NET_LREG_MAX_SCAN_ENTRIES
| RAFT_NET_LREG_LOG_REAP_FACTOR | RAFT_NET_LREG_NUM_CHECKPOINTS
| RAFT_NET_LREG_AUTO_CHECKPOINT.
Definition raft_net_lreg_entries : list raft_net_lreg_values :=
  [RAFT_NET_LREG_IGNORE_TIMER_EVENTS; RAFT_NET_LREG_ELECTION_TIMEOUT_MS;
   RAFT_NET_LREG_HEARTBEAT_FREQ; RAFT_NET_LREG_MAX_SCAN_ENTRIES; RAFT_NET_LREG_LOG_REAP_FACTOR;
   RAFT_NET_LREG_NUM_CHECKPOINTS; RAFT_NET_LREG_AUTO_CHECKPOINT].
Definition raft_net_lreg_num_keys (ri : raft_instance) : Z :=
  if raft_instance_is_client ri then 1 else Z.of_nat (length raft_net_lreg_entries).

(** The number a setter is given: its default for "default", otherwise what the
    string says; an error of the parser is the result. *)
Definition with_parsed (default_ : Z) (parse : bytes -> Z * Z) (s : bytes) (k : Z -> M Z) : M Z :=
  if is_default s then k default_
  else let '(rc, v) := parse s in if negb (rc =? 0) then ret rc else k v.

Definition lreg_set_heartbeat_freq (s : bytes) : M Z :=
  with_parsed RAFT_HEARTBEAT_FREQ_PER_ELECTION niova_string_to_unsigned_int s
    raft_net_lreg_set_heartbeat_freq.
Definition lreg_set_election_timeout (s : bytes) : M Z :=
  with_parsed RAFT_ELECTION_UPPER_TIME_MS niova_string_to_ull s raft_net_lreg_set_election_timeout.
Definition raft_net_lreg_set_max_scan_entries (s : bytes) : M Z :=
  with_parsed RAFT_INSTANCE_PERSISTENT_APP_SCAN_ENTRIES niova_string_to_long_long s
    (fun v => raft_net_set_max_scan_entries v ;;; ret 0).
Definition raft_net_lreg_set_log_reap_factor (s : bytes) : M Z :=
  with_parsed RAFT_INSTANCE_PERSISTENT_APP_REAP_FACTOR_DEFAULT niova_string_to_ull s
    (fun v => raft_net_set_log_reap_factor v ;;; ret 0).
Definition raft_net_lreg_set_num_checkpoints (s : bytes) : M Z :=
  with_parsed RAFT_INSTANCE_PERSISTENT_APP_CHKPT_DEFAULT niova_string_to_ull s
    (fun v => raft_net_set_num_checkpoints v ;;; ret 0).

Definition net_lreg_read (e : raft_net_lreg_values) (ignore : bool) (ri : raft_instance) : lreg_out :=
  match e with
  | RAFT_NET_LREG_IGNORE_TIMER_EVENTS => LV_bool (str "ignore_timer_events") ignore
  | RAFT_NET_LREG_ELECTION_TIMEOUT_MS =>
      LV_unsigned (str "election-timeout-ms") (ri_election_timeout_max_ms ri)
  | RAFT_NET_LREG_HEARTBEAT_FREQ =>
      LV_unsigned (str "heartbeat-freq-per-election-timeout") (ri_heartbeat_freq_per_election_min ri)
  | RAFT_NET_LREG_MAX_SCAN_ENTRIES => LV_signed (str "max-scan-entries") (ri_max_scan_entries ri)
  | RAFT_NET_LREG_LOG_REAP_FACTOR => LV_unsigned (str "log-reap-factor") (ri_log_reap_factor ri)
  | RAFT_NET_LREG_NUM_CHECKPOINTS => LV_unsigned (str "num-checkpoints") (ri_num_checkpoints ri)
  | RAFT_NET_LREG_AUTO_CHECKPOINT =>
      LV_bool (str "auto-checkpoint-enabled") (ri_auto_checkpoints_enabled ri)
  end.

(** The return code and ri_ignore_timerfd. *)
Definition net_lreg_write (e : raft_net_lreg_values) (ignore : bool) (s : bytes) : M (Z * bool) :=
  let keep (m : M Z) : M (Z * bool) := let! rc := m in ret (rc, ignore) in
  match e with
  | RAFT_NET_LREG_IGNORE_TIMER_EVENTS =>
      let '(rc, b) := niova_string_to_bool s in ret (if negb (rc =? 0) then (rc, ignore) else (0, b))
  | RAFT_NET_LREG_AUTO_CHECKPOINT =>
      let '(rc, b) := niova_string_to_bool s in
      if negb (rc =? 0) then ret (rc, ignore)
      else ri_upd (fun ri => ri <| ri_auto_checkpoints_enabled := b |>) ;;; ret (0, ignore)
  | RAFT_NET_LREG_ELECTION_TIMEOUT_MS => keep (lreg_set_election_timeout s)
  | RAFT_NET_LREG_HEARTBEAT_FREQ => keep (lreg_set_heartbeat_freq s)
  | RAFT_NET_LREG_MAX_SCAN_ENTRIES => keep (raft_net_lreg_set_max_scan_entries s)
  | RAFT_NET_LREG_LOG_REAP_FACTOR => keep (raft_net_lreg_set_log_reap_factor s)
  | RAFT_NET_LREG_NUM_CHECKPOINTS => keep (raft_net_lreg_set_num_checkpoints s)
  end.

(** The registry passes no argument; [ignore]: ri_ignore_timerfd, also returned. *)
Definition raft_net_lreg_multi_facet_cb (op : lreg_node_cb_ops) (lv : lreg_in) (ignore : bool) :
  M (Z * option lreg_out * bool) :=
  match znth raft_net_lreg_entries (lrv_value_idx_in lv) with
  | None => ret (- ERANGE, None, ignore)
  | Some e =>
      match op with
      | LREG_NODE_CB_OP_READ_VAL =>
          let! ri := ri_get id in ret (0, Some (net_lreg_read e ignore ri), ignore)
      | LREG_NODE_CB_OP_WRITE_VAL =>
          match lrv_string_in lv with
          | None => ret (- EINVAL, None, ignore)
          | Some s => let! r := net_lreg_write e ignore s in ret (r.1, None, r.2)
          end
      | _ => ret (- EOPNOTSUPP, None, ignore)
      end
  end.

(** ** A bulk recovery *)
Definition raft_net_recovery_lreg_values (ri : raft_instance) : list lreg_out :=
  let rrh := ri_recovery_handle ri in
  [LV_uuid (str "src-uuid") (rrh_peer_uuid rrh);
   LV_uuid (str "db-uuid") (rrh_peer_db_uuid rrh);
   LV_signed (str "chkpt-idx") (rrh_peer_chkpt_idx rrh);
   LV_signed (str "chkpt-size") (rrh_chkpt_size rrh);
   LV_signed (str "total-bytes-to-xfer") (rrh_remaining rrh);
   LV_signed (str "xfer-completed") (rrh_completed rrh);
   LV_string (str "rate") (rrh_rate_bytes_per_sec rrh);
   LV_bool (str "resume-incomplete") (ri_incomplete_recovery ri);
   LV_time (str "start-time") (tv_sec (rrh_start rrh))].
Definition raft_net_lreg_recovery_num_keys (ri : raft_instance) : Z :=
  if negb (raft_instance_is_client ri) && (ri_needs_bulk_recovery ri || ri_successful_recovery ri)
  then 9 else 0.

Definition raft_net_recovery_lreg_multi_facet_cb (op : lreg_node_cb_ops) (lv : lreg_in) :
  M (Z * option lreg_out) :=
  let! ri := ri_get id in
  ret (match znth (raft_net_recovery_lreg_values ri) (lrv_value_idx_in lv), op with
       | None, _ => (- ERANGE, None)
       | Some v, LREG_NODE_CB_OP_READ_VAL => (0, Some v)
       | Some _, _ => (- EOPNOTSUPP, None)
       end).
End registry.

(** ** Histograms of niova-core *)
Class BinaryHist (H : Type) := {
  binary_hist_size : H -> Z;
  binary_hist_lower_bucket_range : H -> Z -> Z;
  binary_hist_get_cnt : H -> Z -> Z;
}.
Section hist.
Context `{BH : BinaryHist H}.

(** "%lld" of a bucket's lower bound, which is not negative. *)
Definition hist_value (h : H) (idx : Z) : lreg_out :=
  LV_unsigned (fmt_zu 0 (binary_hist_lower_bucket_range h idx)) (binary_hist_get_cnt h idx).

Definition raft_server_instance_hist_lreg_multi_facet_handler (op : lreg_node_cb_ops) (h : H)
    (lv : lreg_in) : option lreg_out :=
  match op with
  | LREG_NODE_CB_OP_READ_VAL =>
      if (binary_hist_size h <? 0) || (binary_hist_size h <=? lrv_value_idx_in lv) then None
      else Some (hist_value h (lrv_value_idx_in lv))
  | _ => None
  end.

(** [type]: rihs_type. *)
Definition raft_server_instance_hist_lreg_cb (op : lreg_node_cb_ops) (type : Z) (h : H)
    (lv : option lreg_in) : Z * option lreg_out :=
  match op with
  | LREG_NODE_CB_OP_GET_NAME =>
      match lv with
      | None => (- EINVAL, None)
      | Some _ => (0, Some (LV_name (raft_instance_hist_stat_2_name type) [] (binary_hist_size h)))
      end
  | LREG_NODE_CB_OP_READ_VAL | LREG_NODE_CB_OP_WRITE_VAL =>
      match lv with
      | None => (- EINVAL, None)
      | Some lv => (0, raft_server_instance_hist_lreg_multi_facet_handler op h lv)
      end
  | LREG_NODE_CB_OP_INSTALL_NODE | LREG_NODE_CB_OP_DESTROY_NODE => (0, None)
  | _ => (- ENOENT, None)
  end.
End hist.
