(* ===== verification/RcRegistry.v ===== *)
(** What the registry reads and writes of a client: the facets of the instance, of
    the requests in its histories and of its histograms ([src/raft_client.c]), and
    the latency a reply is accounted with. *)
From Stdlib Require Import Strings.String.
From stdpp Require Import base tactics list gmap.
From Stdlib Require Import ZArith Lia Strings.Byte.
From S2P Require Import Prelude RaftTypes World Net Entry RocksKeys RocksBackend RcTypes RaftClient UserId Registry.
Local Open Scope Z_scope.
Local Open Scope raft_scope.

(** ** The histograms *)
Section hist.
Context `{BH : BinaryHist H}.

Definition raft_client_instance_hist_lreg_multi_facet_handler (op : lreg_node_cb_ops)
    (rihs : option H) (lv : option lreg_in) : Z * option lreg_out :=
  match lv, rihs with
  | Some lv, Some h =>
      let hsz := binary_hist_size h in
      if hsz <? 0 then (hsz, None)
      else if u32 hsz <=? lrv_value_idx_in lv then (- ERANGE, None)
      else match op with
           | LREG_NODE_CB_OP_WRITE_VAL => (- EPERM, None)
           | LREG_NODE_CB_OP_READ_VAL => (0, Some (hist_value h (lrv_value_idx_in lv)))
           | _ => (- EOPNOTSUPP, None)
           end
  | _, _ => (- EINVAL, None)
  end.

(** [type]: rihs_type. *)
Definition raft_client_instance_hist_lreg_cb (op : lreg_node_cb_ops) (type : Z) (h : H)
    (lv : option lreg_in) : Z * option lreg_out :=
  match op with
  | LREG_NODE_CB_OP_GET_NAME =>
      match lv with
      | None => (- EINVAL, None)
      | Some _ => (0, Some (LV_name (raft_instance_hist_stat_2_name type) [] (binary_hist_size h)))
      end
  | LREG_NODE_CB_OP_READ_VAL | LREG_NODE_CB_OP_WRITE_VAL =>
      match lv with
      | None => (- EINVAL, None)
      | Some _ => raft_client_instance_hist_lreg_multi_facet_handler op (Some h) lv
      end
  | LREG_NODE_CB_OP_INSTALL_NODE | LREG_NODE_CB_OP_DESTROY_NODE
  | LREG_NODE_CB_OP_INSTALL_QUEUED_NODE => (0, None)
  | LREG_NODE_CB_OP_GET_NODE_INFO => (- ENOENT, None)
  end.
End hist.

(** ** The facets of a request, in the order of their indices *)
Inductive raft_client_sub_app_request_stats :=
| RAFT_CLIENT_SUB_APP_REQ_USER_ID | RAFT_CLIENT_SUB_APP_REQ_RPC_ID
| RAFT_CLIENT_SUB_APP_REQ_SEQNO | RAFT_CLIENT_SUB_APP_REQ_STATS_BLOCKING
| RAFT_CLIENT_SUB_APP_REQ_ERROR | RAFT_CLIENT_SUB_APP_REQ_SERVER
| RAFT_CLIENT_SUB_APP_REQ_SUBMITTED_TIME | RAFT_CLIENT_SUB_APP_REQ_ATTEMPTS
| RAFT_CLIENT_SUB_APP_REQ_COMPLETION_TIME_MS | RAFT_CLIENT_SUB_APP_REQ_TIMEOUT_MS
| RAFT_CLIENT_SUB_APP_REQ_REPLY_SZ | RAFT_CLIENT_SUB_APP_REQ_RQ_TYPE.
Definition sub_app_request_stats : list raft_client_sub_app_request_stats :=
  [RAFT_CLIENT_SUB_APP_REQ_USER_ID; RAFT_CLIENT_SUB_APP_REQ_RPC_ID;
   RAFT_CLIENT_SUB_APP_REQ_SEQNO; RAFT_CLIENT_SUB_APP_REQ_STATS_BLOCKING;
   RAFT_CLIENT_SUB_APP_REQ_ERROR; RAFT_CLIENT_SUB_APP_REQ_SERVER;
   RAFT_CLIENT_SUB_APP_REQ_SUBMITTED_TIME; RAFT_CLIENT_SUB_APP_REQ_ATTEMPTS;
   RAFT_CLIENT_SUB_APP_REQ_COMPLETION_TIME_MS; RAFT_CLIENT_SUB_APP_REQ_TIMEOUT_MS;
   RAFT_CLIENT_SUB_APP_REQ_REPLY_SZ; RAFT_CLIENT_SUB_APP_REQ_RQ_TYPE].
Definition RAFT_CLIENT_SUB_APP_REQ__MAX : Z := Z.of_nat (length sub_app_request_stats).

Inductive raft_client_instance_lreg_values :=
| RAFT_CLIENT_LREG_RAFT_UUID | RAFT_CLIENT_LREG_PEER_UUID | RAFT_CLIENT_LREG_LEADER_UUID
| RAFT_CLIENT_LREG_PEER_STATE | RAFT_CLIENT_LREG_REQUEST_TIMEOUT_SECS
| RAFT_CLIENT_LREG_COMMIT_LATENCY | RAFT_CLIENT_LREG_READ_LATENCY
| RAFT_CLIENT_LREG_LEADER_VIABLE | RAFT_CLIENT_LREG_LEADER_ALIVE_CNT
| RAFT_CLIENT_LREG_LAST_MSG_RECVD | RAFT_CLIENT_LREG_LAST_REQUEST_ACKD
| RAFT_CLIENT_LREG_PENDING_OPS | RAFT_CLIENT_LREG_RECENT_WR_OPS | RAFT_CLIENT_LREG_RECENT_RD_OPS.
Definition raft_client_lreg_entries : list raft_client_instance_lreg_values :=
  [RAFT_CLIENT_LREG_RAFT_UUID; RAFT_CLIENT_LREG_PEER_UUID; RAFT_CLIENT_LREG_LEADER_UUID;
   RAFT_CLIENT_LREG_PEER_STATE; RAFT_CLIENT_LREG_REQUEST_TIMEOUT_SECS;
   RAFT_CLIENT_LREG_COMMIT_LATENCY; RAFT_CLIENT_LREG_READ_LATENCY;
   RAFT_CLIENT_LREG_LEADER_VIABLE; RAFT_CLIENT_LREG_LEADER_ALIVE_CNT;
   RAFT_CLIENT_LREG_LAST_MSG_RECVD; RAFT_CLIENT_LREG_LAST_REQUEST_ACKD;
   RAFT_CLIENT_LREG_PENDING_OPS; RAFT_CLIENT_LREG_RECENT_WR_OPS; RAFT_CLIENT_LREG_RECENT_RD_OPS].
Definition RAFT_CLIENT_LREG__MAX : Z := Z.of_nat (length raft_client_lreg_entries).

Definition raft_client_sub_app_2_msg_tag (sa : raft_client_sub_app) : Z :=
  rcrm_user_tag (rcrh_rpc_request (rcsa_rh sa)).

(** What the facets read of the C library: the text of an error, the address of the
    server that replied, and strtoul(). *)
Class ClientLregUtil := {
  strerror : Z -> bytes;
  reply_server : raft_client_sub_app -> bytes;
  strtoul10 : bytes -> Z;
  LREG_VALUE_STRING_MAX : Z;
}.

Section requests.
Context `{NC : NiovaCore} `{NU : NiovaUtil} `{CU : ClientLregUtil}.

(** The histogram a completed request is counted in and the value, when it is
    reasonable; both times are unsigned milliseconds. *)
Definition raft_client_incorporate_ack_measurement (last_msg_recvd : timespec)
    (sa : raft_client_sub_app) : option (Z * Z) :=
  let rcrh := rcsa_rh sa in
  let elapsed_msec := s64 (timespec_2_msec last_msg_recvd - timespec_2_msec (rcrh_submitted rcrh)) in
  if (elapsed_msec <? 0) || (elapsed_msec >? 3600 * 1000 * 24) then None
  else Some (if rcrh_op_wr rcrh then RAFT_INSTANCE_HIST_COMMIT_LAT_MSEC
             else RAFT_INSTANCE_HIST_READ_LAT_MSEC, elapsed_msec).

(** The read of a facet of a request; [now]: the real time. *)
Definition sub_app_lreg_read (now : timespec) (sa : raft_client_sub_app)
    (e : raft_client_sub_app_request_stats) : lreg_out :=
  let rh := rcsa_rh sa in
  match e with
  | RAFT_CLIENT_SUB_APP_REQ_USER_ID =>
      LV_string (str "sub-app-user-id")
        (default [] (raft_net_client_user_id_to_string (Some (rcsa_rncui sa)) true
                       LREG_VALUE_STRING_MAX).2)
  | RAFT_CLIENT_SUB_APP_REQ_RPC_ID => LV_unsigned (str "rpc-id") (raft_client_sub_app_2_msg_id sa)
  | RAFT_CLIENT_SUB_APP_REQ_SEQNO =>
      LV_unsigned (str "rpc-user-tag") (raft_client_sub_app_2_msg_tag sa)
  | RAFT_CLIENT_SUB_APP_REQ_STATS_BLOCKING => LV_bool (str "blocking") (rcrh_blocking rh)
  | RAFT_CLIENT_SUB_APP_REQ_SERVER => LV_string (str "server") (reply_server sa)
  | RAFT_CLIENT_SUB_APP_REQ_SUBMITTED_TIME => LV_time (str "submitted") (tv_sec (rcrh_submitted rh))
  | RAFT_CLIENT_SUB_APP_REQ_COMPLETION_TIME_MS =>
      if rcrh_pending_op_cache rh
      then LV_signed (str "remaining-time-ms")
             (s64 (timespec_2_msec (rcrh_timeout rh)
                   - (timespec_2_msec now - timespec_2_msec (rcrh_submitted rh))))
      else LV_unsigned (str "completion-time-ms") (rcrh_completion_latency_ms rh)
  | RAFT_CLIENT_SUB_APP_REQ_TIMEOUT_MS =>
      LV_unsigned (str "timeout-ms") (timespec_2_msec (rcrh_timeout rh))
  | RAFT_CLIENT_SUB_APP_REQ_ATTEMPTS => LV_unsigned (str "attempts") (rcrh_num_sends rh)
  | RAFT_CLIENT_SUB_APP_REQ_REPLY_SZ => LV_unsigned (str "reply-size") (rcrh_reply_size rh)
  | RAFT_CLIENT_SUB_APP_REQ_ERROR =>
      LV_string (str "status")
        (if rcrh_pending_op_cache rh then str "Pending" else strerror (- rcrh_error rh))
  | RAFT_CLIENT_SUB_APP_REQ_RQ_TYPE =>
      LV_string (str "op") (if rcrh_op_wr rh then str "write" else str "read")
  end.

(** A write gives 0 and does nothing. *)
Definition raft_client_sub_app_multi_facet_handler (op : lreg_node_cb_ops) (now : timespec)
    (sa : option raft_client_sub_app) (lv : option lreg_in) : Z * option lreg_out :=
  match sa, lv with
  | Some sa, Some lv =>
      match znth sub_app_request_stats (lrv_value_idx_in lv) with
      | None => (- ERANGE, None)
      | Some e =>
          (0, match op with
              | LREG_NODE_CB_OP_READ_VAL => Some (sub_app_lreg_read now sa e)
              | _ => None
              end)
      end
  | _, _ => (- EINVAL, None)
  end.

(** The histories, as user types of the registry. *)
Inductive lreg_user_types :=
| LREG_USER_TYPE_RAFT_CLIENT_ROP_RD | LREG_USER_TYPE_RAFT_CLIENT_ROP_WR
| LREG_USER_TYPE_RAFT_CLIENT_PENDING_OP | LREG_USER_TYPE_OTHER.
Definition rop_history (t : lreg_user_types) : option raft_client_recent_op_types :=
  match t with
  | LREG_USER_TYPE_RAFT_CLIENT_ROP_RD => Some RAFT_CLIENT_RECENT_OP_TYPE_READ
  | LREG_USER_TYPE_RAFT_CLIENT_ROP_WR => Some RAFT_CLIENT_RECENT_OP_TYPE_WRITE
  | LREG_USER_TYPE_RAFT_CLIENT_PENDING_OP => Some RAFT_CLIENT_RECENT_OP_TYPE_PENDING
  | LREG_USER_TYPE_OTHER => None
  end.

(** The slot of the history that position [lvd_index] of the array reads. *)
Definition history_slot (rh : raft_client_sub_app_req_history) (lvd_index : Z) : Z :=
  let cnt := u64 (rcsarh_cnt rh) in
  let oldest_entry := if cnt >? rcsarh_size rh then cnt mod rcsarh_size rh else 0 in
  (lvd_index + oldest_entry) mod rcsarh_size rh.

(** [type], [lvd_index]: the array and the position in it; [child]: lrn_vnode_child.
    [None]: the assertion fails. *)
Definition raft_client_sub_app_req_history_lreg_cb {T} (op : lreg_node_cb_ops) (now : timespec)
    (rci : option (raft_client_instance T)) (child : bool) (type : lreg_user_types)
    (lvd_index : Z) (lv : option lreg_in) : option (Z * option lreg_out) :=
  match rci with
  | None => Some (- EINVAL, None)
  | Some rci =>
      if negb child then None
      else
        match rop_history type with
        | None => Some (- EINVAL, None)
        | Some t =>
            let rh := rci_recent_ops rci t in
            if rcsarh_size rh <=? lvd_index then Some (- ERANGE, None)
            else
              sa ← znth (rcsarh_sa rh) (history_slot rh lvd_index);
              Some match op with
              | LREG_NODE_CB_OP_GET_NAME =>
                  match lv with
                  | None => (- EINVAL, None)
                  | Some _ => (0, Some (LV_name (str "sa-req-hist") (str "none")
                                          RAFT_CLIENT_SUB_APP_REQ__MAX))
                  end
              | LREG_NODE_CB_OP_READ_VAL | LREG_NODE_CB_OP_WRITE_VAL =>
                  match lv with
                  | None => (- EINVAL, None)
                  | Some _ => raft_client_sub_app_multi_facet_handler op now (Some sa) lv
                  end
              | LREG_NODE_CB_OP_INSTALL_NODE | LREG_NODE_CB_OP_DESTROY_NODE
              | LREG_NODE_CB_OP_INSTALL_QUEUED_NODE => (0, None)
              | LREG_NODE_CB_OP_GET_NODE_INFO => (- ENOENT, None)
              end
        end
  end.

Definition raft_client_sub_app_req_history_size (rh : raft_client_sub_app_req_history) : Z :=
  let cnt := u64 (rcsarh_cnt rh) in
  if cnt >? rcsarh_size rh then rcsarh_size rh else cnt.
End requests.

(** ** The facets of the instance *)
Section instance.
Context `{NC : NiovaCore} `{NU : NiovaUtil} {IO : NiovaIo} {APP : RaftClientApp} {B T : Type}
  {RT : RefTree raft_net_client_user_id raft_client_sub_app T} `{CU : ClientLregUtil}.
Local Abbreviation M := (M (world B (client_ctx T))).

(** The read of a facet; [secs]: raftClientDefaultReqTimeoutSecs. *)
Definition client_lreg_read (secs : Z) (e : raft_client_instance_lreg_values) : M lreg_out :=
  let! rci := rci_get id in
  let! ri := ri_get id in
  let ops key t :=
    LV_varray key (raft_client_sub_app_req_history_size (rci_recent_ops rci t)) in
  match e with
  | RAFT_CLIENT_LREG_RAFT_UUID => ret (LV_string (str "raft-uuid") (ri_raft_uuid_str ri))
  | RAFT_CLIENT_LREG_PEER_UUID => ret (LV_string (str "client-uuid") (ri_this_peer_uuid_str ri))
  | RAFT_CLIENT_LREG_LEADER_UUID =>
      ret (match ri_csn_leader ri with
           | Some u => LV_uuid (str "leader-uuid") u
           | None => LV_string (str "leader-uuid") []
           end)
  | RAFT_CLIENT_LREG_REQUEST_TIMEOUT_SECS => ret (LV_unsigned (str "default-request-timeout-sec") secs)
  | RAFT_CLIENT_LREG_PEER_STATE =>
      ret (LV_string (str "state") (raft_server_state_to_string (ri_state ri)))
  | RAFT_CLIENT_LREG_COMMIT_LATENCY =>
      ret (LV_hist (str "commit-latency-msec") RAFT_INSTANCE_HIST_COMMIT_LAT_MSEC)
  | RAFT_CLIENT_LREG_READ_LATENCY =>
      ret (LV_hist (str "read-latency-msec") RAFT_INSTANCE_HIST_READ_LAT_MSEC)
  | RAFT_CLIENT_LREG_LEADER_VIABLE =>
      let! viable := raft_client_leader_is_viable in ret (LV_bool (str "leader-viable") viable)
  | RAFT_CLIENT_LREG_LEADER_ALIVE_CNT =>
      ret (LV_unsigned (str "leader-alive-cnt") (rci_leader_alive_cnt rci))
  | RAFT_CLIENT_LREG_LAST_MSG_RECVD =>
      ret (LV_time (str "last-request-sent") (tv_sec (rci_last_request_sent rci)))
  | RAFT_CLIENT_LREG_LAST_REQUEST_ACKD =>
      ret (LV_time (str "last-request-ack") (tv_sec (rci_last_request_ackd rci)))
  | RAFT_CLIENT_LREG_RECENT_RD_OPS => ret (ops (str "recent-ops-rd") RAFT_CLIENT_RECENT_OP_TYPE_READ)
  | RAFT_CLIENT_LREG_RECENT_WR_OPS => ret (ops (str "recent-ops-wr") RAFT_CLIENT_RECENT_OP_TYPE_WRITE)
  | RAFT_CLIENT_LREG_PENDING_OPS => ret (ops (str "pending-ops") RAFT_CLIENT_RECENT_OP_TYPE_PENDING)
  end.

(** The return code, the value and raftClientDefaultReqTimeoutSecs afterwards, which
    is an unsigned int.  A write must carry a string. *)
Definition raft_client_instance_lreg_multi_facet_cb (op : lreg_node_cb_ops) (lv : lreg_in)
    (secs : Z) : M (Z * option lreg_out * Z) :=
  match znth raft_client_lreg_entries (lrv_value_idx_in lv) with
  | None => ret (- ERANGE, None, secs)
  | Some e =>
      match op with
      | LREG_NODE_CB_OP_WRITE_VAL =>
          ret (match lrv_string_in lv, e with
               | None, _ => (- EINVAL, None, secs)
               | Some s, RAFT_CLIENT_LREG_REQUEST_TIMEOUT_SECS =>
                   let tmp := strtoul10 s in
                   (0, None,
                    if negb (tmp =? 0) && negb (tmp =? 2 ^ 64 - 1)
                    then raft_client_set_default_request_timeout (u32 tmp) secs else secs)
               | Some _, _ => (- EPERM, None, secs)
               end)
      | LREG_NODE_CB_OP_READ_VAL => let! v := client_lreg_read secs e in ret (0, Some v, secs)
      | _ => ret (- EOPNOTSUPP, None, secs)
      end
  end.

Definition raft_client_instance_lreg_cb (op : lreg_node_cb_ops) (has_rci : bool)
    (lv : option lreg_in) (secs : Z) : M (Z * option lreg_out * Z) :=
  if negb has_rci then ret (- EINVAL, None, secs)
  else
    match op with
    | LREG_NODE_CB_OP_GET_NAME =>
        let! ri := ri_get id in
        ret (match lv with
             | None => (- EINVAL, None, secs)
             | Some _ => (0, Some (LV_name (str "raft_client_root_entry") (ri_this_peer_uuid_str ri)
                                     RAFT_CLIENT_LREG__MAX), secs)
             end)
    | LREG_NODE_CB_OP_READ_VAL | LREG_NODE_CB_OP_WRITE_VAL =>
        match lv with
        | None => ret (- EINVAL, None, secs)
        | Some lv => raft_client_instance_lreg_multi_facet_cb op lv secs
        end
    | LREG_NODE_CB_OP_INSTALL_NODE | LREG_NODE_CB_OP_DESTROY_NODE
    | LREG_NODE_CB_OP_INSTALL_QUEUED_NODE => ret (0, None, secs)
    | LREG_NODE_CB_OP_GET_NODE_INFO => ret (- ENOENT, None, secs)
    end.
End instance.

(** ** A history is a ring *)
(** The ring after the requests [l], and what its positions read. *)
Definition history_add (rh : raft_client_sub_app_req_history) (sa : raft_client_sub_app) :
  raft_client_sub_app_req_history :=
  rh <| rcsarh_sa ::= fun l => zupd l (u64 (rcsarh_cnt rh) mod rcsarh_size rh) sa |>
     <| rcsarh_cnt ::= fun c => s64 (c + 1) |>.
Definition history_of (n : Z) (l : list raft_client_sub_app) (blank : raft_client_sub_app) :
  raft_client_sub_app_req_history :=
  foldl history_add
    {| rcsarh_size := n; rcsarh_cnt := 0; rcsarh_sa := replicate (Z.to_nat n) blank |} l.

Definition history_ok (n : Z) (l : list raft_client_sub_app)
    (rh : raft_client_sub_app_req_history) : Prop :=
  rcsarh_size rh = n /\ rcsarh_cnt rh = Z.of_nat (length l) /\
  Z.of_nat (length (rcsarh_sa rh)) = n /\
  forall j, 0 <= j < Z.of_nat (length l) -> Z.of_nat (length l) - n <= j ->
    znth (rcsarh_sa rh) (j mod n) = znth l j.

Lemma history_add_ok n l rh sa :
  0 < n -> Z.of_nat (length l) < 2 ^ 63 - 1 -> history_ok n l rh ->
  history_ok n (l ++ [sa]) (history_add rh sa).
Proof.
  intros Hn Hl (Hs & Hc & Hlen & Hr). unfold history_add, history_ok.
  cbn [rcsarh_size rcsarh_cnt rcsarh_sa setter]. rewrite Hs, Hc, length_app. simpl length.
  rewrite u64_small by lia. unfold s64.
  split_and!; [done | rewrite Z.mod_small by lia; lia | by rewrite length_zupd |].
  intros j Hj Hjn. destruct (Z.eq_dec j (Z.of_nat (length l))) as [->|].
  - rewrite znth_app_last, znth_zupd_eq; [done|]. rewrite Hlen. by apply Z.mod_pos_bound.
  - rewrite znth_app_l by lia. rewrite znth_zupd_ne; [apply Hr; lia|].
    intros He. apply (f_equal (fun z => (z - j) mod n)) in He.
    rewrite (Zminus_mod (_ mod _)), Z.mod_mod, <- !Zminus_mod, (Zminus_mod (j mod n)), Z.mod_mod,
      <- Zminus_mod, Z.sub_diag, Z.mod_0_l in He by lia.
    rewrite Z.mod_small in He; lia.
Qed.

Lemma history_of_ok n l blank :
  0 < n -> Z.of_nat (length l) < 2 ^ 63 -> history_ok n l (history_of n l blank).
Proof.
  intros Hn. induction l as [|sa l IH] using rev_ind; intros Hl.
  - split_and!; simpl; [done | done | rewrite length_replicate; lia | lia].
  - rewrite length_app in Hl. simpl in Hl. unfold history_of. rewrite foldl_app. simpl.
    apply history_add_ok; [done | lia | apply IH; lia].
Qed.

(** Position [i] of the array reads the [i]-th of the requests the ring still holds,
    the oldest first. *)
Theorem history_reads_oldest_first n l blank i :
  0 < n < 2 ^ 63 -> Z.of_nat (length l) < 2 ^ 63 ->
  0 <= i < raft_client_sub_app_req_history_size (history_of n l blank) ->
  znth (rcsarh_sa (history_of n l blank)) (history_slot (history_of n l blank) i) =
    znth l (Z.max 0 (Z.of_nat (length l) - n) + i).
Proof.
  intros Hn Hl. pose proof (history_of_ok n l blank ltac:(lia) Hl) as (Hs & Hc & _ & Hr).
  unfold raft_client_sub_app_req_history_size, history_slot. rewrite Hs, Hc, u64_small by lia.
  intros Hi. rewrite <- Hr.
  - f_equal. destruct (Z.of_nat (length l) >? n) eqn:E.
    + rewrite Z.max_r by lia. rewrite Zplus_mod_idemp_r.
      replace (Z.of_nat (length l) - n + i) with (i + Z.of_nat (length l) + (-1) * n) by lia.
      by rewrite Z.mod_add by lia.
    + rewrite Z.max_l by lia. f_equal. lia.
  - destruct (Z.of_nat (length l) >? n) eqn:E; lia.
  - destruct (Z.of_nat (length l) >? n) eqn:E; lia.
Qed.

(** The client adds a request to a history as [history_add] does. *)
Section add.
Context `{NC : NiovaCore} {IO : NiovaIo} {APP : RaftClientApp} {B T : Type}
  {RT : RefTree raft_net_client_user_id raft_client_sub_app T}.

Lemma op_history_add_item_run type k (w : world B (client_ctx T)) u w' :
  raft_client_op_history_add_item type k w = Some (u, w') ->
  exists sa, rcrh_history_cache (rcsa_rh sa) = true /\
    rci_recent_ops (cl_rci (w_app w')) type =
      history_add (rci_recent_ops (cl_rci (w_app w)) type) sa /\
    forall t, t <> type ->
      rci_recent_ops (cl_rci (w_app w')) t = rci_recent_ops (cl_rci (w_app w)) t.
Proof.
  unfold raft_client_op_history_add_item, sa_get, rci_get, rci_upd, cl_get, cl_upd. intros H.
  run_inv H. eexists. split; [|split]; cycle 1; simpl.
  - rewrite bool_decide_true by done. reflexivity.
  - intros t Ht. by rewrite bool_decide_false.
  - reflexivity.
Qed.
End add.
